(** * FileTreeNode: the remote file tree of AgaveClientInterface

    A shallow embedding of [remoteFiles/filetreenode.cpp].  The C++ objects
    live in a store indexed by node identifiers (the [FileTreeNode *]
    pointers); every method becomes a function from stores to stores whose
    first argument is the receiver ([this]).

    Conventions of the embedding:
    - a pointer is a key of the store; [None] is [nullptr];
    - a method called on a key that is not in the store does nothing, and
      [QList::first()] on an empty index list yields the null index: the
      development does not follow the program after a crash of the toolkit;
    - the widget item model ([QStandardItemModel]) is a forest of rows kept
      in creation order, every row naming the row it hangs under;
    - the declarations of [filetreenode.h], [filemetadata.h],
      [filenoderef.h] and [remotedatainterface.h] are not part of the
      sources at hand; what is taken from them is said where it is used. *)

From Stdlib Require Import ZArith Ascii String List Lia Sorted.
From stdpp Require Import gmap strings list fin_maps.

Set Default Proof Using "Type".

(** ** Enumerations *)

(** The file kinds the node code distinguishes by name ([DIR], [FILE],
    [INVALID]); [FileType_other] stands for the remaining enumerators of
    [filemetadata.h]. *)
Inductive FileType : Type :=
  | FILE
  | DIR
  | INVALID
  | FileType_other (tag : nat).

(** The enumerators are those of the [switch] in [recomputeModelItems],
    which has no [default] branch. *)
Inductive NodeState : Type :=
  | INIT
  | DELETING
  | ERROR
  | NON_EXTANT
  | FOLDER_SPECULATE_IDLE
  | FOLDER_SPECULATE_LOADING
  | FOLDER_KNOWN_CONTENTS_NOT
  | FOLDER_CONTENTS_LOADING
  | FOLDER_CONTENTS_LOADED
  | FOLDER_CONTENTS_RELOADING
  | FILE_SPECULATE_IDLE
  | FILE_SPECULATE_LOADING
  | FILE_KNOWN
  | FILE_BUFF_LOADING
  | FILE_BUFF_LOADED
  | FILE_BUFF_RELOADING.

(** Reply states: the two the node code names, and the others. *)
Inductive RequestState : Type :=
  | GOOD
  | FILE_NOT_FOUND
  | RequestState_other (tag : nat).

#[global] Instance FileType_eq_dec : EqDecision FileType.
Proof. solve_decision. Defined.

#[global] Instance NodeState_eq_dec : EqDecision NodeState.
Proof. solve_decision. Defined.

#[global] Instance RequestState_eq_dec : EqDecision RequestState.
Proof. solve_decision. Defined.

(** ** File meta data *)

(** [FileMetaData] as the node code reads it: one field per getter. *)
Record FileMetaData : Type := mkFileMetaData {
  fullPath : string;
  fileName : string;
  containingPath : string;
  fileType : FileType;
  fileSize : Z
}.

(** [FileNodeRef] is a [FileMetaData] together with the time stamp of the
    node it was taken from (the pointer to the file operator is the same
    for all nodes of a tree and is not kept). *)
Record FileNodeRef : Type := mkFileNodeRef {
  meta : FileMetaData;
  timestamp : Z
}.

#[global] Instance FileMetaData_eq_dec : EqDecision FileMetaData.
Proof. solve_decision. Defined.

#[global] Instance FileNodeRef_eq_dec : EqDecision FileNodeRef.
Proof. solve_decision. Defined.

(** A default-constructed [FileMetaData]. *)
Definition FileMetaData_default : FileMetaData :=
  mkFileMetaData "" "" "" INVALID 0.

(** [FileNodeRef::nil()]. *)
Definition FileNodeRef_nil : FileNodeRef :=
  mkFileNodeRef FileMetaData_default 0.

Definition getFullPath (r : FileNodeRef) : string := fullPath (meta r).
Definition getFileName (r : FileNodeRef) : string := fileName (meta r).
Definition getFileType (r : FileNodeRef) : FileType := fileType (meta r).
Definition getSize (r : FileNodeRef) : Z := fileSize (meta r).

(** [setSize] acts on the object it is called on. *)
Definition setSize (sz : Z) (r : FileNodeRef) : FileNodeRef :=
  mkFileNodeRef
    (mkFileMetaData (fullPath (meta r)) (fileName (meta r))
       (containingPath (meta r)) (fileType (meta r)) sz)
    (timestamp r).

Definition setType (t : FileType) (r : FileNodeRef) : FileNodeRef :=
  mkFileNodeRef
    (mkFileMetaData (fullPath (meta r)) (fileName (meta r))
       (containingPath (meta r)) t (fileSize (meta r)))
    (timestamp r).

Definition setTimestamp (ts : Z) (r : FileNodeRef) : FileNodeRef :=
  mkFileNodeRef (meta r) ts.

(** [copyDataFrom] takes over the meta data and keeps the time stamp. *)
Definition copyDataFrom (contents : FileMetaData) (r : FileNodeRef) : FileNodeRef :=
  mkFileNodeRef contents (timestamp r).

(** ** What the node code asks of its surroundings

    String helpers of [FileMetaData] and [RemoteDataInterface] and the
    system clock.  Their code is not at hand, so the node code is embedded
    over an arbitrary [Platform]. *)
Record Platform : Type := mkPlatform {
  (** [FileMetaData::getPathNameList] *)
  getPathNameList : string -> list string;
  (** [RemoteDataInterface::removeDoubleSlashes] *)
  removeDoubleSlashes : string -> string;
  (** the file name [FileMetaData::setFullFilePath] derives from a path *)
  pathFileName : string -> string;
  (** the containing path [FileMetaData::setFullFilePath] derives *)
  pathContainingPath : string -> string;
  (** the [k]-th reading of [QDateTime::currentMSecsSinceEpoch] *)
  currentMSecsSinceEpoch : nat -> Z
}.

Definition setFullFilePath (P : Platform) (p : string) (r : FileNodeRef) : FileNodeRef :=
  mkFileNodeRef
    (mkFileMetaData p (pathFileName P p) (pathContainingPath P p)
       (fileType (meta r)) (fileSize (meta r)))
    (timestamp r).

(** A concrete platform, used to run the code on examples: paths are
    split at ['/'], empty parts dropped. *)
Fixpoint splitSlash (acc : string) (s : string) : list string :=
  match s with
  | EmptyString => if String.eqb acc "" then [] else [acc]
  | String c s' =>
      if Ascii.eqb c "/"%char
      then (if String.eqb acc "" then [] else [acc]) ++ splitSlash "" s'
      else splitSlash (acc ++ String c "") s'
  end.

Fixpoint squeezeSlashes (s : string) : string :=
  match s with
  | EmptyString => EmptyString
  | String c s' =>
      match s' with
      | String d _ =>
          if Ascii.eqb c "/"%char && Ascii.eqb d "/"%char
          then squeezeSlashes s'
          else String c (squeezeSlashes s')
      | EmptyString => String c EmptyString
      end
  end.

Fixpoint joinSlash (parts : list string) : string :=
  match parts with
  | [] => ""
  | p :: rest => "/" ++ p ++ joinSlash rest
  end.

Definition slashPlatform : Platform :=
  mkPlatform
    (splitSlash "")
    squeezeSlashes
    (fun p => List.last (splitSlash "" p) "")
    (fun p => joinSlash (List.removelast (splitSlash "" p)))
    (fun k => Z.of_nat k).

(** ** The widget item model

    [myFileOperator->myModel] is a [QStandardItemModel].  Rows are only
    ever appended and removed, so the model is kept as the list of its
    rows in creation order; a row knows the row it hangs under ([None]:
    a top-level row).  The rows below one parent, in list order, are that
    parent's rows 0, 1, 2, ... *)

(** One [FileStandardItem]: the file it shows and its caption. *)
Definition FileStandardItem : Type := (FileNodeRef * string)%type.

Record Row : Type := mkRow {
  row_id : nat;
  row_parent : option nat;
  row_items : list FileStandardItem
}.

Record ItemModel : Type := mkItemModel {
  headers : list string;
  rows : list Row;
  nextRow : nat
}.

(** A [QPersistentModelIndex]: null, or an item (row identifier and
    column).  It follows its item, and is invalid once the row is gone. *)
Definition PIndex : Type := option (nat * nat).

Definition row_ids (l : list Row) : list nat := map row_id l.

Definition find_row (r : nat) (l : list Row) : option Row :=
  List.find (fun x => Nat.eqb (row_id x) r) l.

(** The row an index stands for; [None] for an invalid index. *)
Definition resolve (i : PIndex) (m : ItemModel) : option nat :=
  match i with
  | Some (r, _) =>
      match find_row r (rows m) with
      | Some _ => Some r
      | None => None
      end
  | None => None
  end.

Definition isValid (i : PIndex) (m : ItemModel) : bool :=
  match resolve i m with
  | Some _ => true
  | None => false
  end.

(** [QModelIndex::parent]. *)
Definition index_parent (i : PIndex) (m : ItemModel) : PIndex :=
  match i with
  | Some (r, _) =>
      match find_row r (rows m) with
      | Some x => match row_parent x with Some p => Some (p, 0) | None => None end
      | None => None
      end
  | None => None
  end.

Definition same_parent (p : option nat) (x : Row) : bool :=
  bool_decide (row_parent x = p).

(** Position of row [r] among the rows of parent [p]. *)
Fixpoint position_under (p : option nat) (r : nat) (l : list Row) : option nat :=
  match l with
  | [] => None
  | x :: l' =>
      if Nat.eqb (row_id x) r then Some 0
      else if same_parent p x then S <$> position_under p r l'
      else position_under p r l'
  end.

(** [QModelIndex::row]; [None] is the -1 of an invalid index. *)
Definition index_row (i : PIndex) (m : ItemModel) : option nat :=
  match i with
  | Some (r, _) =>
      match find_row r (rows m) with
      | Some x => position_under (row_parent x) r (rows m)
      | None => None
      end
  | None => None
  end.

(** The [k]-th row of parent [p]. *)
Fixpoint nth_child (k : nat) (p : option nat) (l : list Row) : option nat :=
  match l with
  | [] => None
  | x :: l' =>
      if same_parent p x then
        match k with
        | 0 => Some (row_id x)
        | S k' => nth_child k' p l'
        end
      else nth_child k p l'
  end.

(** Removing rows takes the rows below them along: [dead] collects the
    removed identifiers while the list is walked in creation order. *)
Fixpoint drop_rows (dead : list nat) (l : list Row) : list Row :=
  match l with
  | [] => []
  | x :: l' =>
      if bool_decide (row_id x ∈ dead)
         || (match row_parent x with
             | Some p => bool_decide (p ∈ dead)
             | None => false
             end)
      then drop_rows (row_id x :: dead) l'
      else x :: drop_rows dead l'
  end.

Definition set_rows (l : list Row) (m : ItemModel) : ItemModel :=
  mkItemModel (headers m) l (nextRow m).

(** Removes row number [k] below the row [p] ([None]: the top level). *)
Definition remove_child (k : option nat) (p : option nat) (m : ItemModel) : ItemModel :=
  match k with
  | None => m
  | Some k' =>
      match nth_child k' p (rows m) with
      | Some r => set_rows (drop_rows [r] (rows m)) m
      | None => m
      end
  end.

(** [QAbstractItemModel::removeRow(row, parent)]: an invalid parent index
    denotes the top level. *)
Definition removeRow (k : option nat) (parent : PIndex) (m : ItemModel) : ItemModel :=
  remove_child k (resolve parent m) m.

(** [itemFromIndex(item)->removeRow(row)]; no item, no change. *)
Definition item_removeRow (item : PIndex) (k : option nat) (m : ItemModel) : ItemModel :=
  match resolve item m with
  | Some p => remove_child k (Some p) m
  | None => m
  end.

(** Appends a fresh row below [p]; returns its identifier. *)
Definition append_row (p : option nat) (items : list FileStandardItem)
    (m : ItemModel) : ItemModel * nat :=
  (mkItemModel (headers m) (rows m ++ [mkRow (nextRow m) p items]) (S (nextRow m)),
   nextRow m).

(** [QStandardItemModel::appendRow(items)]. *)
Definition appendRow (items : list FileStandardItem) (m : ItemModel) : ItemModel * nat :=
  append_row None items m.

(** [itemFromIndex(item)->appendRow(items)]; [None] when there is no item. *)
Definition item_appendRow (item : PIndex) (items : list FileStandardItem)
    (m : ItemModel) : ItemModel * option nat :=
  match resolve item m with
  | Some p => let '(m', r) := append_row (Some p) items m in (m', Some r)
  | None => (m, None)
  end.

(** The persistent indices of the items of row [r]. *)
Definition row_indices (r : nat) (items : list FileStandardItem) : list PIndex :=
  map (fun c => Some (r, c)) (seq 0 (length items)).

(** [itemFromIndex(i)->updateText(fd)]: the item shows [fd] from now on. *)
Definition update_item (c : nat) (fd : FileNodeRef) (items : list FileStandardItem)
    : list FileStandardItem :=
  match items !! c with
  | Some it => <[c := (fd, snd it)]> items
  | None => items
  end.

Definition updateText (i : PIndex) (fd : FileNodeRef) (m : ItemModel) : ItemModel :=
  match i with
  | Some (r, c) =>
      set_rows
        (map (fun x => if Nat.eqb (row_id x) r
                       then mkRow (row_id x) (row_parent x) (update_item c fd (row_items x))
                       else x)
             (rows m))
        m
  | None => m
  end.

(** [QList::first()]; the null index on an empty list. *)
Definition first (l : list PIndex) : PIndex :=
  match l with
  | i :: _ => i
  | [] => None
  end.

(** ** Nodes and the store *)

Definition NodeId : Type := nat.

(** A [RemoteDataReply *]. *)
Definition TaskId : Type := nat.

(** The members of [FileTreeNode].  Those without an initialiser in the
    constructors start as in [default_node]. *)
Record FileTreeNode : Type := mkNode {
  myParent : option NodeId;
  fileData : FileNodeRef;
  childList : list NodeId;
  myState : NodeState;
  nodeVisible : bool;
  folderContentsKnown : bool;
  lsTask : option TaskId;
  bufferTask : option TaskId;
  fileDataBuffer : option (list Byte.byte);
  modelItemList : list PIndex;
  decendantPlaceholderItem : PIndex;
  nodeTimestamp : Z
}.

(** Modelled from the spec: the member initialisers of [filetreenode.h],
    which is not among the sources: a fresh node is in state [INIT],
    invisible, without tasks, buffer, children or model items, and knows
    nothing of its folder contents. *)
Definition default_node : FileTreeNode :=
  mkNode None FileNodeRef_nil [] INIT false false None None None [] None 0.

Definition set_fileData (v : FileNodeRef) (x : FileTreeNode) : FileTreeNode :=
  mkNode (myParent x) v (childList x) (myState x) (nodeVisible x)
    (folderContentsKnown x) (lsTask x) (bufferTask x) (fileDataBuffer x)
    (modelItemList x) (decendantPlaceholderItem x) (nodeTimestamp x).

Definition set_childList (v : list NodeId) (x : FileTreeNode) : FileTreeNode :=
  mkNode (myParent x) (fileData x) v (myState x) (nodeVisible x)
    (folderContentsKnown x) (lsTask x) (bufferTask x) (fileDataBuffer x)
    (modelItemList x) (decendantPlaceholderItem x) (nodeTimestamp x).

Definition set_myState (v : NodeState) (x : FileTreeNode) : FileTreeNode :=
  mkNode (myParent x) (fileData x) (childList x) v (nodeVisible x)
    (folderContentsKnown x) (lsTask x) (bufferTask x) (fileDataBuffer x)
    (modelItemList x) (decendantPlaceholderItem x) (nodeTimestamp x).

Definition set_nodeVisible (v : bool) (x : FileTreeNode) : FileTreeNode :=
  mkNode (myParent x) (fileData x) (childList x) (myState x) v
    (folderContentsKnown x) (lsTask x) (bufferTask x) (fileDataBuffer x)
    (modelItemList x) (decendantPlaceholderItem x) (nodeTimestamp x).

Definition set_folderContentsKnown (v : bool) (x : FileTreeNode) : FileTreeNode :=
  mkNode (myParent x) (fileData x) (childList x) (myState x) (nodeVisible x)
    v (lsTask x) (bufferTask x) (fileDataBuffer x)
    (modelItemList x) (decendantPlaceholderItem x) (nodeTimestamp x).

Definition set_lsTask (v : option TaskId) (x : FileTreeNode) : FileTreeNode :=
  mkNode (myParent x) (fileData x) (childList x) (myState x) (nodeVisible x)
    (folderContentsKnown x) v (bufferTask x) (fileDataBuffer x)
    (modelItemList x) (decendantPlaceholderItem x) (nodeTimestamp x).

Definition set_bufferTask (v : option TaskId) (x : FileTreeNode) : FileTreeNode :=
  mkNode (myParent x) (fileData x) (childList x) (myState x) (nodeVisible x)
    (folderContentsKnown x) (lsTask x) v (fileDataBuffer x)
    (modelItemList x) (decendantPlaceholderItem x) (nodeTimestamp x).

Definition set_fileDataBuffer (v : option (list Byte.byte)) (x : FileTreeNode) : FileTreeNode :=
  mkNode (myParent x) (fileData x) (childList x) (myState x) (nodeVisible x)
    (folderContentsKnown x) (lsTask x) (bufferTask x) v
    (modelItemList x) (decendantPlaceholderItem x) (nodeTimestamp x).

(** Both members that tie a node to the item model. *)
Definition set_modelItems (l : list PIndex) (ph : PIndex) (x : FileTreeNode) : FileTreeNode :=
  mkNode (myParent x) (fileData x) (childList x) (myState x) (nodeVisible x)
    (folderContentsKnown x) (lsTask x) (bufferTask x) (fileDataBuffer x)
    l ph (nodeTimestamp x).

(** The slots of a node a reply can be connected to. *)
Inductive Slot : Type :=
  | SLOT_deliverLSdata
  | SLOT_deliverBuffData.

#[global] Instance Slot_eq_dec : EqDecision Slot.
Proof. solve_decision. Defined.

(** A signal-slot connection from a reply to a node. *)
Definition Connection : Type := (TaskId * NodeId * Slot)%type.

(** The program state the node code works on. *)
Record World : Type := mkWorld {
  (** the nodes allocated and not yet destroyed *)
  heap : gmap NodeId FileTreeNode;
  (** the address the next [new FileTreeNode] gets *)
  nextNode : NodeId;
  (** [myFileOperator->myModel] *)
  myModel : ItemModel;
  (** the arguments of the calls of [myFileOperator->fileNodesChange] *)
  changedNodes : list FileNodeRef;
  (** the nodes [deleteLater] was called on, waiting for the event loop *)
  deferredDelete : list NodeId;
  connections : list Connection;
  (** how often the clock has been read *)
  clockReads : nat
}.

Definition set_heap (h : gmap NodeId FileTreeNode) (w : World) : World :=
  mkWorld h (nextNode w) (myModel w) (changedNodes w) (deferredDelete w)
    (connections w) (clockReads w).

Definition set_myModel (m : ItemModel) (w : World) : World :=
  mkWorld (heap w) (nextNode w) m (changedNodes w) (deferredDelete w)
    (connections w) (clockReads w).

Definition set_connections (c : list Connection) (w : World) : World :=
  mkWorld (heap w) (nextNode w) (myModel w) (changedNodes w) (deferredDelete w)
    c (clockReads w).

(** Applies [f] to node [n] (no node, no change). *)
Definition update_node (n : NodeId) (f : FileTreeNode -> FileTreeNode) (w : World) : World :=
  set_heap (alter f n (heap w)) w.

(** [QObject::deleteLater]. *)
Definition deleteLater (n : NodeId) (w : World) : World :=
  mkWorld (heap w) (nextNode w) (myModel w) (changedNodes w)
    (deferredDelete w ++ [n]) (connections w) (clockReads w).

(** [myFileOperator->fileNodesChange(fd)]. *)
Definition fileNodesChange (fd : FileNodeRef) (w : World) : World :=
  mkWorld (heap w) (nextNode w) (myModel w) (changedNodes w ++ [fd])
    (deferredDelete w) (connections w) (clockReads w).

(** ** The methods that need no platform *)

Definition isRootNode (nd : FileTreeNode) : bool :=
  match myParent nd with
  | None => true
  | Some _ => false
  end.

Definition haveLStask (nd : FileTreeNode) : bool :=
  match lsTask nd with
  | Some _ => true
  | None => false
  end.

Definition haveBuffTask (nd : FileTreeNode) : bool :=
  match bufferTask nd with
  | Some _ => true
  | None => false
  end.

(** [FileTreeNode::purgeModelItems]. *)
Definition purgeModelItems (n : NodeId) (w : World) : World :=
  match heap w !! n with
  | None => w
  | Some nd =>
      match modelItemList nd with
      | [] => w
      | _ :: _ =>
          let m0 := myModel w in
          let m1 :=
            if isValid (decendantPlaceholderItem nd) m0
            then removeRow (index_row (decendantPlaceholderItem nd) m0)
                   (first (modelItemList nd)) m0
            else m0 in
          let parentItem := index_parent (first (modelItemList nd)) m1 in
          let m2 :=
            if isValid parentItem m1
            then removeRow (index_row (first (modelItemList nd)) m1) parentItem m1
            else removeRow (index_row (first (modelItemList nd)) m1) None m1 in
          update_node n (set_modelItems [] None) (set_myModel m2 w)
      end
  end.

(** The loop over [childList] in [updateModelItems]: is a child visible? *)
Definition anyChildVisible (w : World) (l : list NodeId) : bool :=
  existsb (fun c => match heap w !! c with
                    | Some cd => nodeVisible cd
                    | None => false
                    end) l.

(** [FileTreeNode::updateModelItems]. *)
Definition updateModelItems (n : NodeId) (folderContentsLoaded : bool) (w : World) : World :=
  match heap w !! n with
  | None => w
  | Some nd =>
      let m0 := myModel w in
      (* the row of the node: created, or its text brought up to date *)
      let created : option (ItemModel * list PIndex) :=
        match modelItemList nd with
        | [] =>
            let tempRowList := map (fun h => (fileData nd, h)) (headers m0) in
            match myParent nd with
            | None =>
                let '(m, r) := appendRow tempRowList m0 in
                Some (m, row_indices r tempRowList)
            | Some p =>
                let parentIndex :=
                  match heap w !! p with
                  | Some pd => first (modelItemList pd)
                  | None => None
                  end in
                match item_appendRow parentIndex tempRowList m0 with
                | (m, Some r) => Some (m, row_indices r tempRowList)
                | (_, None) => None
                end
            end
        | _ :: _ =>
            Some (fold_left (fun m i => updateText i (fileData nd) m) (modelItemList nd) m0,
                  modelItemList nd)
        end in
      match created with
      | None => update_node n (set_modelItems [] None) w
      | Some (m1, items) =>
          let ph := decendantPlaceholderItem nd in
          let '(m2, ph2) :=
            if isValid ph m1
            then (item_removeRow (first items) (index_row ph m1) m1, None)
            else (m1, ph) in
          if negb (bool_decide (getFileType (fileData nd) = DIR))
          then update_node n (set_modelItems items ph2) (set_myModel m2 w)
          else if anyChildVisible w (childList nd)
          then update_node n (set_modelItems items ph2) (set_myModel m2 w)
          else
            let newItem : FileStandardItem :=
              (FileNodeRef_nil, if folderContentsLoaded then "Empty" else "Loading") in
            match item_appendRow (first items) [newItem] m2 with
            | (m3, Some r) =>
                update_node n (set_modelItems items (Some (r, 0))) (set_myModel m3 w)
            | (m3, None) =>
                update_node n (set_modelItems items None) (set_myModel m3 w)
            end
      end
  end.

(** [FileTreeNode::recomputeModelItems]. *)
Definition recomputeModelItems (n : NodeId) (w : World) : World :=
  match heap w !! n with
  | None => w
  | Some nd =>
      match myState nd with
      | DELETING | ERROR | NON_EXTANT => purgeModelItems n w
      | FILE_BUFF_LOADED | FILE_BUFF_LOADING | FILE_BUFF_RELOADING | FILE_KNOWN
      | FOLDER_CONTENTS_LOADING | FOLDER_CONTENTS_RELOADING
      | FOLDER_KNOWN_CONTENTS_NOT => updateModelItems n false w
      | FOLDER_CONTENTS_LOADED => updateModelItems n true w
      | FILE_SPECULATE_IDLE | FILE_SPECULATE_LOADING
      | FOLDER_SPECULATE_IDLE | FOLDER_SPECULATE_LOADING | INIT => w
      end
  end.

(** [FileTreeNode::changeNodeState]. *)
Definition changeNodeState (n : NodeId) (newState : NodeState) (w : World) : World :=
  match heap w !! n with
  | None => w
  | Some nd =>
      if bool_decide (myState nd = DELETING) then w
      else if bool_decide (newState = myState nd) then w
      else
        let w1 := update_node n (set_myState newState) w in
        let w2 := if bool_decide (newState = DELETING) then deleteLater n w1 else w1 in
        let w3 := recomputeModelItems n w2 in
        let w4 := match myParent nd with
                  | Some p => recomputeModelItems p w3
                  | None => w3
                  end in
        fileNodesChange (fileData nd) w4
  end.

(** [FileTreeNode::recomputeNodeState]. *)
Definition recomputeNodeState (n : NodeId) (w : World) : World :=
  match heap w !! n with
  | None => w
  | Some nd =>
      if bool_decide (myState nd = DELETING) then w
      else if bool_decide (getFileType (fileData nd) = DIR) then
        if negb (nodeVisible nd) then
          if haveLStask nd
          then changeNodeState n FOLDER_SPECULATE_LOADING w
          else changeNodeState n FOLDER_SPECULATE_IDLE w
        else if haveLStask nd then
          if negb (bool_decide (childList nd = []))
          then changeNodeState n FOLDER_CONTENTS_RELOADING w
          else changeNodeState n FOLDER_CONTENTS_LOADING w
        else
          if negb (folderContentsKnown nd)
          then changeNodeState n FOLDER_KNOWN_CONTENTS_NOT w
          else changeNodeState n FOLDER_CONTENTS_LOADED w
      else if bool_decide (getFileType (fileData nd) = FILE) then
        if negb (nodeVisible nd) then
          if haveBuffTask nd
          then changeNodeState n FILE_SPECULATE_LOADING w
          else changeNodeState n FILE_SPECULATE_IDLE w
        else if haveBuffTask nd then
          match fileDataBuffer nd with
          | Some _ => changeNodeState n FILE_BUFF_RELOADING w
          | None => changeNodeState n FILE_BUFF_LOADING w
          end
        else
          match fileDataBuffer nd with
          | None => changeNodeState n FILE_KNOWN w
          | Some _ => changeNodeState n FILE_BUFF_LOADED w
          end
      else changeNodeState n ERROR w
  end.

(** [FileTreeNode::setNodeVisible] calls itself on the parent.  Every call
    that goes on marks one more node visible, so one more step than there
    are invisible nodes is always enough ([setNodeVisible_fuel_enough]);
    [None] means the steps ran out. *)
Fixpoint setNodeVisible_fuel (fuel : nat) (n : NodeId) (w : World) : option World :=
  match fuel with
  | 0 => None
  | S fuel' =>
      match heap w !! n with
      | None => Some w
      | Some nd =>
          if nodeVisible nd then Some w
          else
            let w1 := update_node n (set_nodeVisible true) w in
            match myParent nd with
            | Some searchNode =>
                match setNodeVisible_fuel fuel' searchNode w1 with
                | Some w2 => Some (recomputeNodeState n w2)
                | None => None
                end
            | None => Some (recomputeNodeState n w1)
            end
      end
  end.

Definition invisibleNodes (w : World) : nat :=
  size (filter (fun kv => nodeVisible (snd kv) = false) (heap w)).

Definition setNodeVisible (n : NodeId) (w : World) : World :=
  match setNodeVisible_fuel (S (invisibleNodes w)) n w with
  | Some w' => w'
  | None => w
  end.

(** [QList::takeLast], [None] on an empty list. *)
Definition takeLast {A : Type} (l : list A) : option (A * list A) :=
  match last l with
  | Some x => Some (x, removelast l)
  | None => None
  end.

(** The loop of [FileTreeNode::clearAllChildren]; every round takes a
    child off the list, so [fuel] need not exceed the list's length. *)
Fixpoint clearAllChildren_loop (fuel : nat) (n : NodeId) (w : World) : World :=
  match fuel with
  | 0 => w
  | S fuel' =>
      match heap w !! n with
      | None => w
      | Some nd =>
          match takeLast (childList nd) with
          | None => w
          | Some (aChild, rest) =>
              let w1 := update_node n (set_childList rest) w in
              clearAllChildren_loop fuel' n (changeNodeState aChild DELETING w1)
          end
      end
  end.

(** [FileTreeNode::clearAllChildren]. *)
Definition clearAllChildren (n : NodeId) (w : World) : World :=
  match heap w !! n with
  | None => w
  | Some nd => clearAllChildren_loop (length (childList nd)) n w
  end.

(** [FileTreeNode::deleteFolderContentsData]. *)
Definition deleteFolderContentsData (n : NodeId) (w : World) : World :=
  clearAllChildren n (update_node n (set_folderContentsKnown false) w).

(** [FileTreeNode::setFileBuffer]; the argument is a copy of the bytes,
    or [None] for [nullptr]. *)
Definition setFileBuffer (n : NodeId) (newFileBuffer : option (list Byte.byte))
    (w : World) : World :=
  let w1 := update_node n (set_fileDataBuffer newFileBuffer) w in
  recomputeNodeState n (setNodeVisible n w1).

(** [QObject::disconnect(task, nullptr, n, nullptr)]. *)
Definition disconnect (t : TaskId) (n : NodeId) (w : World) : World :=
  set_connections
    (List.filter (fun c : Connection =>
                    negb (Nat.eqb (fst (fst c)) t && Nat.eqb (snd (fst c)) n))
       (connections w)) w.

(** [QObject::connect(task, SIGNAL(...), n, SLOT(slot))]. *)
Definition connect (t : TaskId) (n : NodeId) (slot : Slot) (w : World) : World :=
  set_connections (connections w ++ [(t, n, slot)]) w.

(** [FileTreeNode::setLStask]. *)
Definition setLStask (n : NodeId) (newTask : option TaskId) (w : World) : World :=
  match heap w !! n with
  | None => w
  | Some nd =>
      match newTask with
      | None => w
      | Some t =>
          if negb (bool_decide (getFileType (fileData nd) = DIR)) then w
          else
            let w1 := match lsTask nd with
                      | Some old => disconnect old n w
                      | None => w
                      end in
            let w2 := update_node n (set_lsTask (Some t)) w1 in
            recomputeNodeState n (connect t n SLOT_deliverLSdata w2)
      end
  end.

(** [FileTreeNode::setBuffTask]. *)
Definition setBuffTask (n : NodeId) (newTask : option TaskId) (w : World) : World :=
  match heap w !! n with
  | None => w
  | Some nd =>
      match newTask with
      | None => w
      | Some t =>
          if negb (bool_decide (getFileType (fileData nd) = FILE)) then w
          else
            let w1 := match bufferTask nd with
                      | Some old => disconnect old n w
                      | None => w
                      end in
            let w2 := update_node n (set_bufferTask (Some t)) w1 in
            recomputeNodeState n (connect t n SLOT_deliverBuffData w2)
      end
  end.

(** [FileTreeNode::getChildNodeWithName]. *)
Definition getChildNodeWithName (n : NodeId) (filename : string) (w : World)
    : option NodeId :=
  match heap w !! n with
  | None => None
  | Some nd =>
      List.find
        (fun c => match heap w !! c with
                  | Some cd =>
                      String.eqb (getFileName (fileData cd)) filename
                      && negb (bool_decide (getFileType (fileData cd) = INVALID))
                  | None => false
                  end)
        (childList nd)
  end.

(** [FileTreeNode::pathSearchHelperFromAnyNode]. *)
Fixpoint pathSearchHelperFromAnyNode (searchNode : NodeId) (filePathParts : list string)
    (stopEarly : bool) (w : World) : option NodeId :=
  match filePathParts with
  | [] => Some searchNode
  | part :: rest =>
      match getChildNodeWithName searchNode part w with
      | None => if stopEarly then Some searchNode else None
      | Some nextNode => pathSearchHelperFromAnyNode nextNode rest stopEarly w
      end
  end.

(** [FileTreeNode::getControlAddress]; the empty string when the list has
    no entry named ["."]. *)
Definition getControlAddress (newDataList : list FileMetaData) : string :=
  match List.find (fun e => String.eqb (fileName e) ".") newDataList with
  | Some e => containingPath e
  | None => EmptyString
  end.

(** The loop of [verifyControlNode] that climbs to the root; [None] when
    the steps run out or a parent is not in the store. *)
Fixpoint climbToRoot (fuel : nat) (n : NodeId) (w : World) : option NodeId :=
  match fuel with
  | 0 => None
  | S fuel' =>
      match heap w !! n with
      | None => None
      | Some nd =>
          match myParent nd with
          | None => Some n
          | Some p => climbToRoot fuel' p w
          end
      end
  end.

(** The matching test shared by [insertFile] and [purgeUnmatchedChildren]:
    same full path and same file type. *)
Definition sameFile (e : FileMetaData) (fd : FileNodeRef) : bool :=
  String.eqb (fullPath e) (getFullPath fd)
  && bool_decide (fileType e = getFileType fd).

(** The inner loop of [purgeUnmatchedChildren]: does an entry other than
    ["."] match [toCheck]? *)
Definition matchFound (newChildList : list FileMetaData) (toCheck : FileNodeRef) : bool :=
  existsb (fun e => negb (String.eqb (fileName e) ".") && sameFile e toCheck)
    newChildList.

(** The first loop of [FileTreeNode::purgeUnmatchedChildren]: the children
    are taken from the end; the matched ones are collected in [altList],
    the others change to [DELETING]. *)
Fixpoint purgeUnmatchedChildren_loop (fuel : nat) (n : NodeId)
    (newChildList : list FileMetaData) (altList : list NodeId) (w : World)
    : World * list NodeId :=
  match fuel with
  | 0 => (w, altList)
  | S fuel' =>
      match heap w !! n with
      | None => (w, altList)
      | Some nd =>
          match takeLast (childList nd) with
          | None => (w, altList)
          | Some (aNode, rest) =>
              let w1 := update_node n (set_childList rest) w in
              let found :=
                match heap w1 !! aNode with
                | Some ad => matchFound newChildList (fileData ad)
                | None => false
                end in
              if found
              then purgeUnmatchedChildren_loop fuel' n newChildList (altList ++ [aNode]) w1
              else purgeUnmatchedChildren_loop fuel' n newChildList altList
                     (changeNodeState aNode DELETING w1)
          end
      end
  end.

(** The second loop: [childList.append(altList.takeLast())] until
    [altList] is empty. *)
Fixpoint appendTakenLast (fuel : nat) (altList : list NodeId) (acc : list NodeId)
    : list NodeId :=
  match fuel with
  | 0 => acc
  | S fuel' =>
      match takeLast altList with
      | None => acc
      | Some (x, rest) => appendTakenLast fuel' rest (acc ++ [x])
      end
  end.

(** [FileTreeNode::purgeUnmatchedChildren]. *)
Definition purgeUnmatchedChildren (n : NodeId) (newChildList : list FileMetaData)
    (w : World) : World :=
  match heap w !! n with
  | None => w
  | Some nd =>
      match childList nd with
      | [] => w
      | _ :: _ =>
          let '(w1, altList) :=
            purgeUnmatchedChildren_loop (length (childList nd)) n newChildList [] w in
          update_node n
            (fun x => set_childList (appendTakenLast (length altList) altList (childList x)) x)
            w1
      end
  end.

(** [new FileTreeNode]: the object is placed at the next free address. *)
Definition allocate (nd : FileTreeNode) (w : World) : World :=
  mkWorld (<[nextNode w := nd]> (heap w)) (S (nextNode w)) (myModel w)
    (changedNodes w) (deferredDelete w) (connections w) (clockReads w).

Section WithPlatform.

Variable P : Platform.

(** [FileTreeNode::settimestamps]. *)
Definition settimestamps (n : NodeId) (w : World) : World :=
  let ts := currentMSecsSinceEpoch P (clockReads w) in
  let w1 := mkWorld (heap w) (nextNode w) (myModel w) (changedNodes w)
              (deferredDelete w) (connections w) (S (clockReads w)) in
  update_node n
    (fun x =>
       mkNode (myParent x) (setTimestamp ts (fileData x)) (childList x) (myState x)
         (nodeVisible x) (folderContentsKnown x) (lsTask x) (bufferTask x)
         (fileDataBuffer x) (modelItemList x) (decendantPlaceholderItem x) ts)
    w1.

(** The constructor of a child node, [FileTreeNode::FileTreeNode] with
    [FileMetaData contents] and the parent node, called through [new];
    the new node is at [nextNode w]. *)
Definition newChildNode (contents : FileMetaData) (parent : NodeId) (w : World) : World :=
  let this := nextNode w in
  let w1 := allocate
              (mkNode (Some parent) FileNodeRef_nil [] INIT false false None None None
                 [] None 0) w in
  let w2 := update_node this (fun x => set_fileData (copyDataFrom contents (fileData x)) x) w1 in
  let w3 := settimestamps this w2 in
  let w4 := update_node parent (fun x => set_childList (childList x ++ [this]) x) w3 in
  recomputeNodeState this w4.

(** The constructor of a root node, [FileTreeNode::FileTreeNode] with a
    [QString rootFolderName]; the new node is at [nextNode w]. *)
Definition newRootNode (rootFolderName : string) (w : World) : World :=
  let this := nextNode w in
  let fullPath := removeDoubleSlashes P ("/" ++ rootFolderName) in
  let w1 := allocate default_node w in
  let w2 := update_node this
              (fun x => set_fileData (setType DIR (setFullFilePath P fullPath (fileData x))) x)
              w1 in
  let w3 := settimestamps this w2 in
  let w4 := update_node this (set_nodeVisible true) w3 in
  recomputeNodeState this w4.

(** [FileTreeNode::pathSearchHelper]. *)
Definition pathSearchHelper (n : NodeId) (filename : string) (stopEarly : bool)
    (w : World) : option NodeId :=
  match heap w !! n with
  | None => None
  | Some nd =>
      if negb (isRootNode nd) then None
      else
        match getPathNameList P filename with
        | [] => None
        | rootName :: filePathParts =>
            if negb (String.eqb rootName (getFileName (fileData nd))) then None
            else pathSearchHelperFromAnyNode n filePathParts stopEarly w
        end
  end.

(** [FileTreeNode::getNodeWithName]. *)
Definition getNodeWithName (n : NodeId) (filename : string) (w : World) : option NodeId :=
  pathSearchHelper n filename false w.

(** [FileTreeNode::getClosestNodeWithName]. *)
Definition getClosestNodeWithName (n : NodeId) (filename : string) (w : World)
    : option NodeId :=
  pathSearchHelper n filename true w.

(** [FileTreeNode::verifyControlNode].  A parent is allocated before its
    children, so the climb from node [n] needs at most [n + 1] steps. *)
Definition verifyControlNode (n : NodeId) (newDataList : list FileMetaData)
    (w : World) : bool :=
  let controllerAddress := getControlAddress newDataList in
  if String.eqb controllerAddress EmptyString then false
  else
    match climbToRoot (S n) n w with
    | None => false
    | Some myRootNode =>
        bool_decide (getNodeWithName myRootNode controllerAddress w = Some n)
    end.

(** [FileTreeNode::insertFile].  [getFileData()] hands out a copy of the
    child's [fileData], and [setSize] is called on that copy. *)
Definition insertFile (n : NodeId) (newData : FileMetaData) (w : World) : World :=
  if String.eqb (fileName newData) "." then w
  else
    match heap w !! n with
    | None => w
    | Some nd =>
        match List.find
                (fun c => match heap w !! c with
                          | Some cd => sameFile newData (fileData cd)
                          | None => false
                          end)
                (childList nd) with
        | Some c =>
            match heap w !! c with
            | Some cd =>
                if negb (Z.eqb (fileSize newData) (getSize (fileData cd)))
                then
                  let temporary := setSize (fileSize newData) (fileData cd) in
                  w
                else w
            | None => w
            end
        | None => newChildNode newData n w
        end
    end.

(** [FileTreeNode::updateFileNodeData]. *)
Definition updateFileNodeData (n : NodeId) (newDataList : list FileMetaData)
    (w : World) : World :=
  let w1 := update_node n (set_folderContentsKnown true) w in
  if Nat.leb (length newDataList) 1
  then recomputeNodeState n (clearAllChildren n w1)
  else
    let w2 := purgeUnmatchedChildren n newDataList w1 in
    let w3 := fold_left (fun acc e => insertFile n e acc) newDataList w2 in
    let w4 := fold_left (fun acc c => setNodeVisible c acc)
                (match heap w3 !! n with
                 | Some nd => childList nd
                 | None => []
                 end) w3 in
    recomputeNodeState n w4.

(** [FileTreeNode::deliverLSdata]. *)
Definition deliverLSdata (n : NodeId) (taskState : RequestState)
    (dataList : list FileMetaData) (w : World) : World :=
  let w1 := update_node n (set_lsTask None) w in
  match taskState with
  | GOOD =>
      if negb (verifyControlNode n dataList w1)
      then recomputeNodeState n w1
      else updateFileNodeData n dataList w1
  | FILE_NOT_FOUND => changeNodeState n DELETING w1
  | RequestState_other _ => recomputeNodeState n w1
  end.

End WithPlatform.

(** [FileTreeNode::deliverBuffData]; [None] is a null [QByteArray]. *)
Definition deliverBuffData (n : NodeId) (taskState : RequestState)
    (bufferData : option (list Byte.byte)) (w : World) : World :=
  let w1 := update_node n (set_bufferTask None) w in
  match taskState with
  | GOOD =>
      match bufferData with
      | None => setFileBuffer n None w1
      | Some b => setFileBuffer n (Some b) w1
      end
  | FILE_NOT_FOUND => changeNodeState n DELETING w1
  | RequestState_other _ => recomputeNodeState n w1
  end.


(** ** Queries on the tree *)

(** [FileTreeNode::getFileBuffer]; [None] is [nullptr]. *)
Definition getFileBuffer (n : NodeId) (w : World) : option (list Byte.byte) :=
  match heap w !! n with
  | Some nd => fileDataBuffer nd
  | None => None
  end.

(** [FileTreeNode::getParentNode]. *)
Definition getParentNode (n : NodeId) (w : World) : option NodeId :=
  match heap w !! n with
  | Some nd => myParent nd
  | None => None
  end.

(** [FileTreeNode::getFirstModelIndex]. *)
Definition getFirstModelIndex (n : NodeId) (w : World) : PIndex :=
  match heap w !! n with
  | Some nd =>
      match modelItemList nd with
      | [] => None
      | _ :: _ => first (modelItemList nd)
      end
  | None => None
  end.

(** The loop of [FileTreeNode::isChildOf]; [None] when the steps run
    out. *)
Fixpoint isChildOf_loop (fuel : nat) (nodeToCheck possibleParent : NodeId) (w : World)
    : option bool :=
  match fuel with
  | 0 => None
  | S fuel' =>
      if bool_decide (nodeToCheck = possibleParent) then Some true
      else
        match heap w !! nodeToCheck with
        | None => Some false
        | Some nd =>
            if isRootNode nd then Some false
            else
              match getParentNode nodeToCheck w with
              | Some p => isChildOf_loop fuel' p possibleParent w
              | None => Some false
              end
        end
  end.

(** [FileTreeNode::isChildOf]: a node counts as a child of itself.  A
    parent is older than its children, so the climb from node [n] needs at
    most [n + 1] steps. *)
Definition isChildOf (n : NodeId) (possibleParent : option NodeId) (w : World)
    : option bool :=
  match possibleParent with
  | None => Some false
  | Some p => isChildOf_loop (S n) n p w
  end.

(** [FileTreeNode::getNodeReletiveToNodeWithName]. *)
Definition getNodeReletiveToNodeWithName (P : Platform) (n : NodeId) (searchPath : string)
    (w : World) : option NodeId :=
  pathSearchHelperFromAnyNode n (getPathNameList P searchPath) false w.

(** An empty program state with an item model of the given headers. *)
Definition emptyWorld (hs : list string) : World :=
  mkWorld ∅ 0 (mkItemModel hs [] 0) [] [] [] 0.

(** * Vocabulary of the proofs *)

(** A node without its ties to the item model. *)
Definition core (x : FileTreeNode) : FileTreeNode := set_modelItems [] None x.

(** A node without its state and its ties to the item model. *)
Definition skel (x : FileTreeNode) : FileTreeNode := set_myState INIT (core x).

(** A node without state, visibility and ties to the item model. *)
Definition bones (x : FileTreeNode) : FileTreeNode := set_nodeVisible false (skel x).

(** The parts of the program state outside the store and the item model. *)
Definition statics (w : World) : NodeId * list Connection * nat :=
  (nextNode w, connections w, clockReads w).

(** The store after the assignment [myState = newState], when
    [changeNodeState] gets that far. *)
Definition stateWritten (n : NodeId) (s : NodeState) (w : World) : World :=
  match heap w !! n with
  | Some nd =>
      if bool_decide (myState nd = DELETING) then w
      else update_node n (set_myState s) w
  | None => w
  end.

(** The decision table of [recomputeNodeState], as a function of the file
    type, the visibility, the pending tasks and what is known of the
    contents. *)
Definition stateTable (ft : FileType) (visible lsPending buffPending hasChildren
    contentsKnown hasBuffer : bool) : NodeState :=
  match ft with
  | DIR =>
      match visible, lsPending with
      | false, true => FOLDER_SPECULATE_LOADING
      | false, false => FOLDER_SPECULATE_IDLE
      | true, true =>
          if hasChildren then FOLDER_CONTENTS_RELOADING else FOLDER_CONTENTS_LOADING
      | true, false =>
          if contentsKnown then FOLDER_CONTENTS_LOADED else FOLDER_KNOWN_CONTENTS_NOT
      end
  | FILE =>
      match visible, buffPending with
      | false, true => FILE_SPECULATE_LOADING
      | false, false => FILE_SPECULATE_IDLE
      | true, true =>
          if hasBuffer then FILE_BUFF_RELOADING else FILE_BUFF_LOADING
      | true, false =>
          if hasBuffer then FILE_BUFF_LOADED else FILE_KNOWN
      end
  | INVALID | FileType_other _ => ERROR
  end.

Definition hasChildren (nd : FileTreeNode) : bool :=
  match childList nd with
  | [] => false
  | _ :: _ => true
  end.

Definition hasBuffer (nd : FileTreeNode) : bool :=
  match fileDataBuffer nd with
  | Some _ => true
  | None => false
  end.

(** The table applied to a node. *)
Definition computedState (nd : FileTreeNode) : NodeState :=
  stateTable (getFileType (fileData nd)) (nodeVisible nd) (haveLStask nd)
    (haveBuffTask nd) (hasChildren nd) (folderContentsKnown nd) (hasBuffer nd).

(** What decides whether visibility is closed upwards. *)
Definition outline (x : FileTreeNode) : option NodeId * bool :=
  (myParent x, nodeVisible x).

(** Node [m], if visible, has no invisible parent. *)
Definition okAt (w : World) (m : NodeId) : Prop :=
  forall nd (p : NodeId) pd,
    heap w !! m = Some nd -> myParent nd = Some p -> heap w !! p = Some pd ->
    nodeVisible nd = true -> nodeVisible pd = true.

(** No node has a parent pointer that leaves the store. *)
Definition parentsAlive (w : World) : Prop :=
  forall (n : NodeId) nd (p : NodeId), heap w !! n = Some nd -> myParent nd = Some p -> is_Some (heap w !! p).

Definition deletingStays (w w' : World) : Prop :=
  forall (m : NodeId) nd, heap w !! m = Some nd -> myState nd = DELETING ->
    exists nd', heap w' !! m = Some nd' /\ myState nd' = DELETING.

(** Every node of the store was allocated before [nextNode]. *)
Definition fresh (w : World) : Prop :=
  forall m : NodeId, is_Some (heap w !! m) -> m < nextNode w.

(** The test of [purgeUnmatchedChildren] on child [c]. *)
Definition keepChild (newChildList : list FileMetaData) (w : World) (c : NodeId) : bool :=
  match heap w !! c with
  | Some cd => matchFound newChildList (fileData cd)
  | None => false
  end.

(** The new node as its constructor leaves it before the final
    [recomputeNodeState]. *)
Definition childNode_initial (P : Platform) (contents : FileMetaData) (parent : NodeId)
    (w : World) : FileTreeNode :=
  mkNode (Some parent)
    (mkFileNodeRef contents (currentMSecsSinceEpoch P (clockReads w)))
    [] INIT false false None None None [] None
    (currentMSecsSinceEpoch P (clockReads w)).

(** The store when the constructor of a child reaches its final call. *)
Definition childAllocated (P : Platform) (contents : FileMetaData) (parent : NodeId)
    (w : World) : World :=
  update_node parent (fun x => set_childList (childList x ++ [nextNode w]) x)
    (settimestamps P (nextNode w)
       (update_node (nextNode w)
          (fun x => set_fileData (copyDataFrom contents (fileData x)) x)
          (allocate
             (mkNode (Some parent) FileNodeRef_nil [] INIT false false None None None
                [] None 0) w))).

(** A node without child list, state and ties to the item model. *)
Definition shell (x : FileTreeNode) : FileTreeNode := set_childList [] (skel x).

(** The nodes of [w] are still there in [w'], the same through [f]. *)
Definition heap_keeps {B : Type} (f : FileTreeNode -> B) (w w' : World) : Prop :=
  forall (m : NodeId) md, heap w !! m = Some md ->
    exists md', heap w' !! m = Some md' /\ f md' = f md.

(** Is there a child among [kids] for the entry [e]? *)
Definition hasMatch (e : FileMetaData) (w : World) (kids : list NodeId) : bool :=
  existsb (fun c => match heap w !! c with
                    | Some cd => sameFile e (fileData cd)
                    | None => false
                    end) kids.

(** [insertFile] has nothing to create for [e]. *)
Definition covered (e : FileMetaData) (w : World) (kids : list NodeId) : bool :=
  String.eqb (fileName e) "." || hasMatch e w kids.

(** What the matching of children against a listing looks at. *)
Definition kin (x : FileTreeNode) : list NodeId * FileNodeRef := (childList x, fileData x).

(** The members no delivery of a listing changes. *)
Definition fixedPart (x : FileTreeNode) : FileTreeNode :=
  set_folderContentsKnown false (set_nodeVisible false (shell x)).

(** The children of [n] and the entries of [l] other than ["."] match each
    other: [insertFile] has nothing to add, [purgeUnmatchedChildren]
    nothing to remove. *)
Definition synced (l : list FileMetaData) (w : World) (n : NodeId) : Prop :=
  exists nd, heap w !! n = Some nd
    /\ (forall e, In e l -> covered e w (childList nd) = true)
    /\ (forall c, In c (childList nd) -> keepChild l w c = true).

Definition exampleHeaders : list string := ["Name"; "Size"].

(** A root node for the folder [r]. *)
Definition exampleRoot : World :=
  newRootNode slashPlatform "r" (emptyWorld exampleHeaders).

Definition exampleListing : list FileMetaData :=
  [mkFileMetaData "/r/." "." "/r" DIR 0;
   mkFileMetaData "/r/a" "a" "/r" FILE 1;
   mkFileMetaData "/r/d" "d" "/r" DIR 0].

(** The root after an ls task was set and answered with [exampleListing]:
    node 0 is the root, node 1 the file [a], node 2 the folder [d]. *)
Definition exampleTree : World :=
  deliverLSdata slashPlatform 0 GOOD exampleListing (setLStask 0 (Some 7) exampleRoot).

(** The tree after the server reported the file [a] as not found. *)
Definition exampleDeleted : World :=
  deliverBuffData 1 FILE_NOT_FOUND None (setBuffTask 1 (Some 8) exampleTree).

(** The node at address [n], for the examples. *)
Definition nodeAt (w : World) (n : NodeId) : FileTreeNode :=
  match heap w !! n with
  | Some nd => nd
  | None => default_node
  end.

(** The calls C8 speaks of. *)
Inductive StateCall : Type :=
  | Do_changeNodeState (newState : NodeState)
  | Do_recomputeNodeState.

Definition runStateCall (c : NodeId * StateCall) (w : World) : World :=
  match c with
  | (m, Do_changeNodeState s) => changeNodeState m s w
  | (m, Do_recomputeNodeState) => recomputeNodeState m w
  end.

Definition runStateCalls (cs : list (NodeId * StateCall)) (w : World) : World :=
  fold_left (fun acc c => runStateCall c acc) cs w.

(** A parent was allocated before its children. *)
Definition ordered (w : World) : Prop :=
  forall (n : NodeId) nd (p : NodeId),
    heap w !! n = Some nd -> myParent nd = Some p -> p < n.

(** The invariant of the store: fresh addresses, parents older than their
    children and still there, and no visible node below an invisible one. *)
Definition Inv (w : World) : Prop :=
  fresh w /\ ordered w /\ parentsAlive w /\ (forall m, okAt w m).

(** The root node as its constructor leaves it before the final
    [recomputeNodeState]. *)
Definition rootNode_initial (P : Platform) (rootFolderName : string) (w : World)
    : FileTreeNode :=
  mkNode None
    (setTimestamp (currentMSecsSinceEpoch P (clockReads w))
       (setType DIR
          (setFullFilePath P (removeDoubleSlashes P ("/" ++ rootFolderName))
             FileNodeRef_nil)))
    [] INIT true false None None None [] None
    (currentMSecsSinceEpoch P (clockReads w)).

(** The methods of [FileTreeNode] that change the program state, with
    their arguments. *)
Inductive Call : Type :=
  | Call_newRootNode (rootFolderName : string)
  | Call_setLStask (n : NodeId) (newTask : option TaskId)
  | Call_setBuffTask (n : NodeId) (newTask : option TaskId)
  | Call_setFileBuffer (n : NodeId) (newFileBuffer : option (list Byte.byte))
  | Call_deleteFolderContentsData (n : NodeId)
  | Call_deliverLSdata (n : NodeId) (taskState : RequestState)
      (dataList : list FileMetaData)
  | Call_deliverBuffData (n : NodeId) (taskState : RequestState)
      (bufferData : option (list Byte.byte))
  | Call_setNodeVisible (n : NodeId)
  | Call_changeNodeState (n : NodeId) (newState : NodeState)
  | Call_recomputeNodeState (n : NodeId)
  | Call_recomputeModelItems (n : NodeId)
  | Call_purgeModelItems (n : NodeId)
  | Call_updateModelItems (n : NodeId) (folderContentsLoaded : bool)
  | Call_updateFileNodeData (n : NodeId) (newDataList : list FileMetaData)
  | Call_clearAllChildren (n : NodeId)
  | Call_insertFile (n : NodeId) (newData : FileMetaData)
  | Call_purgeUnmatchedChildren (n : NodeId) (newChildList : list FileMetaData).

Definition runCall (P : Platform) (c : Call) (w : World) : World :=
  match c with
  | Call_newRootNode name => newRootNode P name w
  | Call_setLStask n t => setLStask n t w
  | Call_setBuffTask n t => setBuffTask n t w
  | Call_setFileBuffer n b => setFileBuffer n b w
  | Call_deleteFolderContentsData n => deleteFolderContentsData n w
  | Call_deliverLSdata n st l => deliverLSdata P n st l w
  | Call_deliverBuffData n st b => deliverBuffData n st b w
  | Call_setNodeVisible n => setNodeVisible n w
  | Call_changeNodeState n s => changeNodeState n s w
  | Call_recomputeNodeState n => recomputeNodeState n w
  | Call_recomputeModelItems n => recomputeModelItems n w
  | Call_purgeModelItems n => purgeModelItems n w
  | Call_updateModelItems n b => updateModelItems n b w
  | Call_updateFileNodeData n l => updateFileNodeData P n l w
  | Call_clearAllChildren n => clearAllChildren n w
  | Call_insertFile n e => insertFile P n e w
  | Call_purgeUnmatchedChildren n l => purgeUnmatchedChildren n l w
  end.

(** The program states that calls of the methods lead to, from an empty
    store. *)
Inductive reachable (P : Platform) (hs : list string) : World -> Prop :=
  | reachable_start : reachable P hs (emptyWorld hs)
  | reachable_call (w : World) (c : Call) :
      reachable P hs w -> reachable P hs (runCall P c w).

(** Neither a node nor an address is added. *)
Definition quiet (w w' : World) : Prop :=
  dom (heap w') = dom (heap w) /\ nextNode w' = nextNode w.

(** The calls that hand a delivered listing to [insertFile]. *)
Definition deliversListing (c : Call) : bool :=
  match c with
  | Call_deliverLSdata _ GOOD _ => true
  | Call_updateFileNodeData _ _ => true
  | Call_insertFile _ _ => true
  | _ => false
  end.

(** The row an index points at, valid or not. *)
Definition rowOf (i : PIndex) : option nat :=
  match i with
  | Some (r, _) => Some r
  | None => None
  end.

(** Row [r] was made and is no longer in the model. *)
Definition gone (r : nat) (m : ItemModel) : Prop :=
  r < nextRow m /\ ~ In r (row_ids (rows m)).

(** Rows that are gone stay gone, and identifiers are never given twice. *)
Definition modelStep (m m' : ItemModel) : Prop :=
  nextRow m <= nextRow m'
  /\ (forall r, r < nextRow m -> ~ In r (row_ids (rows m)) -> ~ In r (row_ids (rows m'))).

(** Every row is older than [nextRow]; a row hangs under an older row that
    is in the model. *)
Definition model_wf (m : ItemModel) : Prop :=
  (forall x, In x (rows m) -> row_id x < nextRow m)
  /\ (forall x p, In x (rows m) -> row_parent x = Some p ->
        p < row_id x /\ In p (row_ids (rows m))).

(** The indices a node holds fit the model: the indices of its row all
    name one row, and its placeholder, while it is in the model, hangs
    under that row. *)
Definition view_wf (m : ItemModel) (nd : FileTreeNode) : Prop :=
  (forall i, In i (modelItemList nd) ->
     exists r, rowOf i = Some r
               /\ rowOf (first (modelItemList nd)) = Some r /\ r < nextRow m)
  /\ (forall q, rowOf (decendantPlaceholderItem nd) = Some q ->
        q < nextRow m
        /\ exists r, rowOf (first (modelItemList nd)) = Some r
             /\ (forall x, find_row q (rows m) = Some x -> row_parent x = Some r)).

(** [rootOf w n r]: following the parent pointers from [n] ends at the
    node [r], which has no parent. *)
Inductive rootOf (w : World) : NodeId -> NodeId -> Prop :=
  | rootOf_here (n : NodeId) nd :
      heap w !! n = Some nd -> myParent nd = None -> rootOf w n n
  | rootOf_up (n : NodeId) nd (p r : NodeId) :
      heap w !! n = Some nd -> myParent nd = Some p -> rootOf w p r -> rootOf w n r.

(** The first entry of a listing that is named ["."]. *)
Definition firstDot (l : list FileMetaData) : option FileMetaData :=
  List.find (fun e => String.eqb (fileName e) ".") l.

(** The check as the code makes it: the containing path of the first
    entry named ["."], searched from the root of the tree, leads to [n]. *)
Definition firstDotEntryReaches (P : Platform) (w : World) (n : NodeId)
    (l : list FileMetaData) : Prop :=
  exists e root,
    firstDot l = Some e
    /\ rootOf w n root
    /\ getNodeWithName P root (containingPath e) w = Some n.

(** The check as C3 words it: the listing has an entry named ["."] whose
    containing path, searched from the root of the tree, leads to [n]. *)
Definition someDotEntryReaches (P : Platform) (w : World) (n : NodeId)
    (l : list FileMetaData) : Prop :=
  exists e root,
    In e l /\ fileName e = "."
    /\ rootOf w n root
    /\ getNodeWithName P root (containingPath e) w = Some n.

(** A root for the folder [r] that waits for the answer to an ls task. *)
Definition exampleWaiting : World := setLStask 0 (Some 7) exampleRoot.

(** A listing with two entries named ["."]: the first one belongs to
    another folder, the second one to the folder [r]. *)
Definition twoDotListing : list FileMetaData :=
  [mkFileMetaData "/elsewhere/." "." "/elsewhere" DIR 0;
   mkFileMetaData "/r/." "." "/r" DIR 0;
   mkFileMetaData "/r/a" "a" "/r" FILE 1].

(** Is the parent of node [n] older than [n]? *)
Definition parentOlder (n : NodeId) (nd : FileTreeNode) : bool :=
  match myParent nd with
  | Some p => p <? n
  | None => true
  end.

(** The tree of the examples, waiting for the answer to a second ls. *)
Definition exampleReloading : World := setLStask 0 (Some 9) exampleTree.

(** The folder [r] once more; the file [a] has grown from 1 to 5. *)
Definition resizedListing : list FileMetaData :=
  [mkFileMetaData "/r/." "." "/r" DIR 0;
   mkFileMetaData "/r/a" "a" "/r" FILE 5;
   mkFileMetaData "/r/d" "d" "/r" DIR 0].

(** [heap_rel f w w']: seen through the projection [f], the nodes of [w']
    are those of [w]. *)
Definition heap_rel {B : Type} (f : FileTreeNode -> B) (w w' : World) : Prop :=
  forall m : NodeId, f <$> heap w' !! m = f <$> heap w !! m.

Definition rows_sorted (m : ItemModel) : Prop :=
  StronglySorted lt (row_ids (rows m)).

Definition model_ok (m : ItemModel) : Prop := rows_sorted m /\ model_wf m.

(** The rows of [m'] that were made in [m] are rows of [m], under the
    same parent. *)
Definition modelGrow (m m' : ItemModel) : Prop :=
  nextRow m <= nextRow m'
  /\ forall q x', q < nextRow m -> find_row q (rows m') = Some x' ->
       exists x, find_row q (rows m) = Some x /\ row_parent x = row_parent x'.

Definition goodStep (m m' : ItemModel) : Prop :=
  model_ok m -> model_ok m' /\ modelGrow m m'.

(** The item model is well formed and the indices of every node fit it. *)
Definition ViewInv (w : World) : Prop :=
  model_ok (myModel w)
  /\ forall (n : NodeId) nd, heap w !! n = Some nd -> view_wf (myModel w) nd.

(** The test of [getChildNodeWithName] on child [c]. *)
Definition namedChild (filename : string) (w : World) (c : NodeId) : Prop :=
  exists cd, heap w !! c = Some cd
    /\ getFileName (fileData cd) = filename
    /\ getFileType (fileData cd) <> INVALID.

(** The search cannot go on from [r] along [rest]. *)
Definition stuckAt (w : World) (r : NodeId) (rest : list string) : Prop :=
  match rest with
  | [] => True
  | part :: _ => getChildNodeWithName r part w = None
  end.

(** The last three guards of [pathSearchHelper] on node [n]: it is a root,
    the path has parts, and the first part is the name of [n]. *)
Definition searchStarts (P : Platform) (n : NodeId) (filename : string) (w : World)
    (parts : list string) : Prop :=
  exists nd, heap w !! n = Some nd /\ myParent nd = None
    /\ getPathNameList P filename = getFileName (fileData nd) :: parts.

(** A tree with a file below the folder [d]: node 3 is [/r/d/b]. *)
Definition exampleDeep : World :=
  deliverLSdata slashPlatform 2 GOOD
    [mkFileMetaData "/r/d/." "." "/r/d" DIR 0;
     mkFileMetaData "/r/d/b" "b" "/r/d" FILE 3]
    (setLStask 2 (Some 11) exampleTree).

(** [onPathUp w n p]: the parent pointers lead from node [n] to node
    [p]; no step is a path too. *)
Inductive onPathUp (w : World) : NodeId -> NodeId -> Prop :=
  | onPathUp_here (n : NodeId) : onPathUp w n n
  | onPathUp_up (n : NodeId) nd (q p : NodeId) :
      heap w !! n = Some nd -> myParent nd = Some q -> onPathUp w q p ->
      onPathUp w n p.

(** States other than [DELETING] are not left for [DELETING] by
    [setNodeVisible]. *)
Definition aliveStays (w w' : World) : Prop :=
  forall (m : NodeId) md, heap w !! m = Some md -> myState md <> DELETING ->
    exists md', heap w' !! m = Some md' /\ myState md' <> DELETING.

(** What ties a node to its place in the tree and to its file. *)
Definition lineage (x : FileTreeNode)
    : option NodeId * list NodeId * FileNodeRef * Z :=
  (myParent x, childList x, fileData x, nodeTimestamp x).

(** The invariant of the tree: fresh addresses; every node on a child
    list is in the store and points back to the owner of the list; no
    child list names a node twice; the file data of a node carry the time
    stamp of the node. *)
Definition TreeInv (w : World) : Prop :=
  fresh w
  /\ (forall (n : NodeId) nd c, heap w !! n = Some nd -> In c (childList nd) ->
        exists cd, heap w !! c = Some cd /\ myParent cd = Some n)
  /\ (forall (n : NodeId) nd, heap w !! n = Some nd -> NoDup (childList nd))
  /\ (forall (n : NodeId) nd, heap w !! n = Some nd ->
        timestamp (fileData nd) = nodeTimestamp nd).

(** The members of a node that say which file it stands for and where it
    hangs. *)
Definition nodeIdentity (x : FileTreeNode) : option NodeId * FileNodeRef * Z :=
  (myParent x, fileData x, nodeTimestamp x).

(** A sequence of calls of the methods. *)
Definition runCalls (P : Platform) (cs : list Call) (w : World) : World :=
  fold_left (fun acc c => runCall P c acc) cs w.

(** Is node [c] there and not in state [DELETING]? *)
Definition alive (w : World) (c : NodeId) : bool :=
  match heap w !! c with
  | Some cd => negb (bool_decide (myState cd = DELETING))
  | None => false
  end.

(** The state [recomputeNodeState] gives a node fresh from the
    constructor of a child. *)
Definition speculativeState (ft : FileType) : NodeState :=
  match ft with
  | DIR => FOLDER_SPECULATE_IDLE
  | FILE => FILE_SPECULATE_IDLE
  | INVALID | FileType_other _ => ERROR
  end.

(** The visible nodes of [w] are visible nodes of [w']. *)
Definition visibleStays (w w' : World) : Prop :=
  forall (m : NodeId) md, heap w !! m = Some md -> nodeVisible md = true ->
    exists md', heap w' !! m = Some md' /\ nodeVisible md' = true.

(** Visible nodes stay visible, and nodes in state [DELETING] stay in
    it. *)
Definition finalStay (w w' : World) : Prop :=
  visibleStays w w' /\ deletingStays w w'.

(** Every pending task of a node fits the type of the node and is
    connected to the slot of the node that takes its reply. *)
Definition wired (w : World) : Prop :=
  forall (n : NodeId) nd, heap w !! n = Some nd ->
    (forall t, lsTask nd = Some t ->
       getFileType (fileData nd) = DIR
       /\ In (t, n, SLOT_deliverLSdata) (connections w))
    /\ (forall t, bufferTask nd = Some t ->
          getFileType (fileData nd) = FILE
          /\ In (t, n, SLOT_deliverBuffData) (connections w)).

(** The tasks and the file data of a node. *)
Definition pending (x : FileTreeNode) : option TaskId * option TaskId * FileNodeRef :=
  (lsTask x, bufferTask x, fileData x).

(** The pending tasks of [w'] were pending in [w], on nodes with the same
    file data, and no connection of [w] is missing in [w']. *)
Definition tasksFrom (w w' : World) : Prop :=
  (forall c, In c (connections w) -> In c (connections w'))
  /\ forall (m : NodeId) md', heap w' !! m = Some md' ->
       (forall t, lsTask md' = Some t ->
          exists md, heap w !! m = Some md /\ lsTask md = Some t
                     /\ fileData md = fileData md')
       /\ (forall t, bufferTask md' = Some t ->
             exists md, heap w !! m = Some md /\ bufferTask md = Some t
                        /\ fileData md = fileData md').

(** Splits a conjunction into its parts, and nothing else. *)
Ltac splits := repeat match goal with |- _ /\ _ => split end.

(** Closes goals about nodes that agree on some of their members. *)
Ltac node_crush :=
  repeat match goal with
         | x : FileTreeNode |- _ => destruct x
         end;
  unfold fixedPart, kin, shell, bones, skel, core, outline, set_childList, set_myState, set_nodeVisible,
    set_folderContentsKnown, set_lsTask, set_bufferTask, set_fileDataBuffer,
    set_modelItems, set_fileData in *;
  simpl in *; try congruence.

(** * Properties *)

(** ** Reading the store after an update *)

Lemma lookup_update_node (n m : NodeId) (f : FileTreeNode -> FileTreeNode) (w : World) :
  heap (update_node n f w) !! m
  = if decide (n = m) then f <$> heap w !! m else heap w !! m.
Proof.
  unfold update_node; simpl. rewrite lookup_alter.
  destruct (decide (n = m)); subst; reflexivity.
Qed.

Lemma lookup_update_node_eq (n : NodeId) (f : FileTreeNode -> FileTreeNode) (w : World) :
  heap (update_node n f w) !! n = f <$> heap w !! n.
Proof. rewrite lookup_update_node. destruct (decide (n = n)); congruence. Qed.

Lemma lookup_update_node_ne (n m : NodeId) (f : FileTreeNode -> FileTreeNode) (w : World) :
  n ≠ m -> heap (update_node n f w) !! m = heap w !! m.
Proof. intros H. rewrite lookup_update_node. destruct (decide (n = m)); congruence. Qed.

(** ** What an operation leaves alone *)

Lemma heap_rel_refl {B} (f : FileTreeNode -> B) w : heap_rel f w w.
Proof. intros m; reflexivity. Qed.

Lemma heap_rel_trans {B} (f : FileTreeNode -> B) w1 w2 w3 :
  heap_rel f w1 w2 -> heap_rel f w2 w3 -> heap_rel f w1 w3.
Proof. intros H1 H2 m. rewrite H2. apply H1. Qed.

Lemma heap_rel_weaken {B C} (f : FileTreeNode -> B) (g : FileTreeNode -> C) (h : B -> C) w w' :
  (forall x, g x = h (f x)) -> heap_rel f w w' -> heap_rel g w w'.
Proof.
  intros Hg H m. specialize (H m).
  destruct (heap w' !! m) as [a|], (heap w !! m) as [b|]; simpl in *;
    try discriminate; try reflexivity.
  injection H as H. rewrite !Hg, H. reflexivity.
Qed.

Lemma heap_rel_core_skel w w' : heap_rel core w w' -> heap_rel skel w w'.
Proof. apply heap_rel_weaken with (h := set_myState INIT). reflexivity. Qed.

Lemma heap_rel_skel_bones w w' : heap_rel skel w w' -> heap_rel bones w w'.
Proof. apply heap_rel_weaken with (h := set_nodeVisible false). reflexivity. Qed.

Lemma heap_rel_update {B} (f : FileTreeNode -> B) n g w :
  (forall x, f (g x) = f x) -> heap_rel f w (update_node n g w).
Proof.
  intros Hg m. rewrite lookup_update_node.
  destruct (decide (n = m)); [|reflexivity].
  destruct (heap w !! m); simpl; [rewrite Hg|]; reflexivity.
Qed.

Lemma heap_rel_Some {B} (f : FileTreeNode -> B) w w' m nd :
  heap_rel f w w' -> heap w !! m = Some nd ->
  exists nd', heap w' !! m = Some nd' /\ f nd' = f nd.
Proof.
  intros H Hm. specialize (H m). rewrite Hm in H.
  destruct (heap w' !! m) as [nd'|]; simpl in H; [|discriminate].
  exists nd'. split; [reflexivity|congruence].
Qed.

Lemma heap_rel_Some_inv {B} (f : FileTreeNode -> B) w w' m nd' :
  heap_rel f w w' -> heap w' !! m = Some nd' ->
  exists nd, heap w !! m = Some nd /\ f nd' = f nd.
Proof.
  intros H Hm. specialize (H m). rewrite Hm in H.
  destruct (heap w !! m) as [nd|]; simpl in H; [|discriminate].
  exists nd. split; [reflexivity|congruence].
Qed.

Lemma heap_rel_None {B} (f : FileTreeNode -> B) w w' m :
  heap_rel f w w' -> heap w !! m = None -> heap w' !! m = None.
Proof.
  intros H Hm. specialize (H m). rewrite Hm in H.
  destruct (heap w' !! m); simpl in H; [discriminate|reflexivity].
Qed.

(** ** The item-model methods touch nothing but the ties to the model *)

Lemma purgeModelItems_core n w : heap_rel core w (purgeModelItems n w).
Proof.
  unfold purgeModelItems.
  destruct (heap w !! n) as [nd|]; [|apply heap_rel_refl].
  destruct (modelItemList nd); [apply heap_rel_refl|].
  intros m. rewrite lookup_update_node. simpl.
  destruct (decide (n = m)); [|reflexivity].
  destruct (heap w !! m); reflexivity.
Qed.

Lemma purgeModelItems_statics n w : statics (purgeModelItems n w) = statics w.
Proof.
  unfold purgeModelItems.
  destruct (heap w !! n) as [nd|]; [|reflexivity].
  destruct (modelItemList nd); reflexivity.
Qed.

Lemma purgeModelItems_deferred n w :
  deferredDelete (purgeModelItems n w) = deferredDelete w.
Proof.
  unfold purgeModelItems.
  destruct (heap w !! n) as [nd|]; [|reflexivity].
  destruct (modelItemList nd); reflexivity.
Qed.

Lemma purgeModelItems_changed n w :
  changedNodes (purgeModelItems n w) = changedNodes w.
Proof.
  unfold purgeModelItems.
  destruct (heap w !! n) as [nd|]; [|reflexivity].
  destruct (modelItemList nd); reflexivity.
Qed.

(** The shape of every result of [updateModelItems]. *)
Lemma updateModelItems_shape n b w :
  updateModelItems n b w = w
  \/ exists l ph m, updateModelItems n b w = update_node n (set_modelItems l ph) (set_myModel m w)
  .
Proof.
  unfold updateModelItems.
  destruct (heap w !! n) as [nd|]; [|left; reflexivity].
  right.
  match goal with
  | |- context [match ?c with Some _ => _ | None => _ end] => destruct c as [[m1 items]|]
  end.
  2:{ exists [], None, (myModel w). destruct w; reflexivity. }
  destruct (isValid (decendantPlaceholderItem nd) m1);
    destruct (negb (bool_decide (getFileType (fileData nd) = DIR)));
    try (eexists _, _, _; reflexivity);
    destruct (anyChildVisible w (childList nd));
    try (eexists _, _, _; reflexivity);
    match goal with
    | |- context [item_appendRow ?a ?b ?c] => destruct (item_appendRow a b c) as [m3 [r|]]
    end; eexists _, _, _; reflexivity.
Qed.

Lemma view_update_core n l ph m w :
  heap_rel core w (update_node n (set_modelItems l ph) (set_myModel m w)).
Proof.
  intros k. rewrite lookup_update_node. simpl.
  destruct (decide (n = k)); [|reflexivity].
  destruct (heap w !! k); reflexivity.
Qed.

Lemma updateModelItems_core n b w : heap_rel core w (updateModelItems n b w).
Proof.
  destruct (updateModelItems_shape n b w) as [->|(l & ph & m & ->)].
  - apply heap_rel_refl.
  - apply view_update_core.
Qed.

Lemma updateModelItems_statics n b w : statics (updateModelItems n b w) = statics w.
Proof.
  destruct (updateModelItems_shape n b w) as [->|(l & ph & m & ->)]; reflexivity.
Qed.

Lemma updateModelItems_deferred n b w :
  deferredDelete (updateModelItems n b w) = deferredDelete w.
Proof.
  destruct (updateModelItems_shape n b w) as [->|(l & ph & m & ->)]; reflexivity.
Qed.

Lemma updateModelItems_changed n b w :
  changedNodes (updateModelItems n b w) = changedNodes w.
Proof.
  destruct (updateModelItems_shape n b w) as [->|(l & ph & m & ->)]; reflexivity.
Qed.

Lemma recomputeModelItems_core n w : heap_rel core w (recomputeModelItems n w).
Proof.
  unfold recomputeModelItems.
  destruct (heap w !! n) as [nd|]; [|apply heap_rel_refl].
  destruct (myState nd);
    first [apply heap_rel_refl | apply purgeModelItems_core | apply updateModelItems_core].
Qed.

Lemma recomputeModelItems_statics n w : statics (recomputeModelItems n w) = statics w.
Proof.
  unfold recomputeModelItems.
  destruct (heap w !! n) as [nd|]; [|reflexivity].
  destruct (myState nd);
    first [reflexivity | apply purgeModelItems_statics | apply updateModelItems_statics].
Qed.

Lemma recomputeModelItems_deferred n w :
  deferredDelete (recomputeModelItems n w) = deferredDelete w.
Proof.
  unfold recomputeModelItems.
  destruct (heap w !! n) as [nd|]; [|reflexivity].
  destruct (myState nd);
    first [reflexivity | apply purgeModelItems_deferred | apply updateModelItems_deferred].
Qed.

Lemma recomputeModelItems_changed n w :
  changedNodes (recomputeModelItems n w) = changedNodes w.
Proof.
  unfold recomputeModelItems.
  destruct (heap w !! n) as [nd|]; [|reflexivity].
  destruct (myState nd);
    first [reflexivity | apply purgeModelItems_changed | apply updateModelItems_changed].
Qed.

(** ** [changeNodeState] and [recomputeNodeState] *)

Lemma set_myState_same nd : set_myState (myState nd) nd = nd.
Proof. destruct nd; reflexivity. Qed.

Lemma update_node_id n f w :
  (forall nd, heap w !! n = Some nd -> f nd = nd) -> update_node n f w = w.
Proof.
  intros H. unfold update_node, set_heap. destruct w as [h ? ? ? ? ? ?]; simpl in *.
  f_equal. apply map_eq. intros m. rewrite lookup_alter.
  destruct (decide (n = m)); [subst|reflexivity].
  destruct (h !! m) eqn:E; simpl; [rewrite (H _ eq_refl)|]; reflexivity.
Qed.

Lemma changeNodeState_core n s w :
  heap_rel core (stateWritten n s w) (changeNodeState n s w).
Proof.
  unfold stateWritten, changeNodeState.
  destruct (heap w !! n) as [nd|] eqn:Hn; [|apply heap_rel_refl].
  destruct (bool_decide (myState nd = DELETING)); [apply heap_rel_refl|].
  destruct (bool_decide (s = myState nd)) eqn:Hs.
  - apply bool_decide_eq_true in Hs. subst s.
    rewrite update_node_id; [apply heap_rel_refl|].
    intros nd' Hnd'. rewrite Hn in Hnd'. injection Hnd' as <-. apply set_myState_same.
  - set (w1 := update_node n (set_myState s) w).
    assert (Hstep : forall w2, heap w2 = heap w1 ->
              heap_rel core w1
                (fileNodesChange (fileData nd)
                   match myParent nd with
                   | Some p => recomputeModelItems p (recomputeModelItems n w2)
                   | None => recomputeModelItems n w2
                   end)).
    { intros w2 Hw2.
      assert (H0 : heap_rel core w1 w2) by (intros m; rewrite Hw2; reflexivity).
      assert (H1 := recomputeModelItems_core n w2).
      destruct (myParent nd) as [p|].
      - assert (H2 := recomputeModelItems_core p (recomputeModelItems n w2)).
        intros m. simpl. rewrite H2, H1, H0. reflexivity.
      - intros m. simpl. rewrite H1, H0. reflexivity. }
    destruct (bool_decide (s = DELETING)); apply Hstep; reflexivity.
Qed.

Lemma changeNodeState_skel n s w : heap_rel skel w (changeNodeState n s w).
Proof.
  apply heap_rel_trans with (w2 := stateWritten n s w).
  - unfold stateWritten.
    destruct (heap w !! n) as [nd|]; [|apply heap_rel_refl].
    destruct (bool_decide (myState nd = DELETING)); [apply heap_rel_refl|].
    apply heap_rel_update. reflexivity.
  - apply heap_rel_core_skel, changeNodeState_core.
Qed.

Lemma changeNodeState_statics n s w : statics (changeNodeState n s w) = statics w.
Proof.
  unfold changeNodeState.
  destruct (heap w !! n) as [nd|]; [|reflexivity].
  destruct (bool_decide (myState nd = DELETING)); [reflexivity|].
  destruct (bool_decide (s = myState nd)); [reflexivity|].
  unfold fileNodesChange, statics; simpl.
  fold (statics
          match myParent nd with
          | Some p =>
              recomputeModelItems p
                (recomputeModelItems n
                   (if bool_decide (s = DELETING)
                    then deleteLater n (update_node n (set_myState s) w)
                    else update_node n (set_myState s) w))
          | None =>
              recomputeModelItems n
                (if bool_decide (s = DELETING)
                 then deleteLater n (update_node n (set_myState s) w)
                 else update_node n (set_myState s) w)
          end).
  destruct (myParent nd); rewrite ?recomputeModelItems_statics;
    destruct (bool_decide (s = DELETING)); reflexivity.
Qed.

(** The state of the receiver after [changeNodeState]. *)
Lemma changeNodeState_state n s w nd :
  heap w !! n = Some nd ->
  exists nd', heap (changeNodeState n s w) !! n = Some nd'
    /\ skel nd' = skel nd
    /\ myState nd' = (if bool_decide (myState nd = DELETING) then DELETING else s).
Proof.
  intros Hn.
  assert (H := changeNodeState_core n s w).
  unfold stateWritten in H. rewrite Hn in H.
  destruct (bool_decide (myState nd = DELETING)) eqn:Hd.
  - destruct (heap_rel_Some _ _ _ _ _ H Hn) as (nd' & Hn' & Hc).
    exists nd'. split; [exact Hn'|].
    apply bool_decide_eq_true in Hd.
    split; [unfold skel; rewrite Hc; reflexivity|].
    change (myState (core nd') = DELETING). rewrite Hc. exact Hd.
  - assert (Hn1 : heap (update_node n (set_myState s) w) !! n = Some (set_myState s nd))
      by (rewrite lookup_update_node_eq, Hn; reflexivity).
    destruct (heap_rel_Some _ _ _ _ _ H Hn1) as (nd' & Hn' & Hc).
    exists nd'. split; [exact Hn'|].
    split; [unfold skel; rewrite Hc; reflexivity|].
    change (myState (core nd') = s). rewrite Hc. reflexivity.
Qed.

(** Every other node keeps its state. *)
Lemma changeNodeState_other n s w m :
  m <> n ->
  core <$> heap (changeNodeState n s w) !! m = core <$> heap w !! m.
Proof.
  intros Hm. rewrite (changeNodeState_core n s w m).
  unfold stateWritten.
  destruct (heap w !! n) as [nd|]; [|reflexivity].
  destruct (bool_decide (myState nd = DELETING)); [reflexivity|].
  rewrite lookup_update_node_ne by congruence. reflexivity.
Qed.

(** In state [DELETING] the call returns at once. *)
Lemma changeNodeState_DELETING n s w nd :
  heap w !! n = Some nd -> myState nd = DELETING -> changeNodeState n s w = w.
Proof.
  intros Hn Hd. unfold changeNodeState. rewrite Hn.
  rewrite bool_decide_eq_true_2 by exact Hd. reflexivity.
Qed.

Lemma recomputeNodeState_unfold n w nd :
  heap w !! n = Some nd ->
  recomputeNodeState n w
  = if bool_decide (myState nd = DELETING) then w
    else changeNodeState n (computedState nd) w.
Proof.
  intros Hn. unfold recomputeNodeState, computedState, stateTable, hasChildren, hasBuffer.
  rewrite Hn.
  destruct (bool_decide (myState nd = DELETING)); [reflexivity|].
  destruct (getFileType (fileData nd)); simpl;
    destruct (nodeVisible nd); simpl;
    destruct (haveLStask nd), (haveBuffTask nd); simpl;
    destruct (childList nd); simpl;
    destruct (folderContentsKnown nd); simpl;
    destruct (fileDataBuffer nd); reflexivity.
Qed.

Lemma recomputeNodeState_absent n w : heap w !! n = None -> recomputeNodeState n w = w.
Proof. intros Hn. unfold recomputeNodeState. rewrite Hn. reflexivity. Qed.

Lemma recomputeNodeState_skel n w : heap_rel skel w (recomputeNodeState n w).
Proof.
  destruct (heap w !! n) as [nd|] eqn:Hn.
  - rewrite (recomputeNodeState_unfold _ _ _ Hn).
    destruct (bool_decide _); [apply heap_rel_refl|apply changeNodeState_skel].
  - rewrite recomputeNodeState_absent by exact Hn. apply heap_rel_refl.
Qed.

Lemma recomputeNodeState_statics n w : statics (recomputeNodeState n w) = statics w.
Proof.
  destruct (heap w !! n) as [nd|] eqn:Hn.
  - rewrite (recomputeNodeState_unfold _ _ _ Hn).
    destruct (bool_decide _); [reflexivity|apply changeNodeState_statics].
  - rewrite recomputeNodeState_absent by exact Hn. reflexivity.
Qed.

Lemma recomputeNodeState_other n w m :
  m <> n ->
  core <$> heap (recomputeNodeState n w) !! m = core <$> heap w !! m.
Proof.
  intros Hm. destruct (heap w !! n) as [nd|] eqn:Hn.
  - rewrite (recomputeNodeState_unfold _ _ _ Hn).
    destruct (bool_decide _); [reflexivity|apply changeNodeState_other, Hm].
  - rewrite recomputeNodeState_absent by exact Hn. reflexivity.
Qed.

(** The state of the receiver after [recomputeNodeState]. *)
Lemma recomputeNodeState_state n w nd :
  heap w !! n = Some nd ->
  exists nd', heap (recomputeNodeState n w) !! n = Some nd'
    /\ skel nd' = skel nd
    /\ myState nd' = (if bool_decide (myState nd = DELETING) then DELETING
                      else computedState nd).
Proof.
  intros Hn. rewrite (recomputeNodeState_unfold _ _ _ Hn).
  destruct (bool_decide (myState nd = DELETING)) eqn:Hd.
  - exists nd. apply bool_decide_eq_true in Hd. auto.
  - destruct (changeNodeState_state n (computedState nd) w nd Hn) as (nd' & H1 & H2 & H3).
    rewrite Hd in H3. eauto.
Qed.

(** ** [setNodeVisible] *)

Lemma heap_rel_skel_outline w w' : heap_rel skel w w' -> heap_rel outline w w'.
Proof. apply heap_rel_weaken with (h := outline). reflexivity. Qed.

Lemma heap_rel_core_outline w w' : heap_rel core w w' -> heap_rel outline w w'.
Proof. apply heap_rel_weaken with (h := outline). reflexivity. Qed.

Lemma heap_rel_bones_parent w w' : heap_rel bones w w' -> heap_rel myParent w w'.
Proof. apply heap_rel_weaken with (h := myParent). reflexivity. Qed.

Lemma heap_rel_outline_parent w w' : heap_rel outline w w' -> heap_rel myParent w w'.
Proof. apply heap_rel_weaken with (h := fst). reflexivity. Qed.

Lemma okAt_outline w w' m : heap_rel outline w w' -> okAt w m -> okAt w' m.
Proof.
  intros H Hok nd' p pd' Hm Hp Hpd Hv.
  destruct (heap_rel_Some_inv _ _ _ _ _ H Hm) as (nd & Hnd & E1).
  destruct (heap_rel_Some_inv _ _ _ _ _ H Hpd) as (pd & Hpd0 & E2).
  injection E1 as E1a E1b. injection E2 as E2a E2b.
  rewrite E2b. apply (Hok nd p pd); congruence.
Qed.

Lemma parentsAlive_rel w w' : heap_rel myParent w w' -> parentsAlive w -> parentsAlive w'.
Proof.
  intros H Hpa n nd' p Hn Hp.
  destruct (heap_rel_Some_inv _ _ _ _ _ H Hn) as (nd & Hnd & E).
  destruct (Hpa n nd p Hnd) as [pd Hpd]; [congruence|].
  destruct (heap_rel_Some _ _ _ _ _ H Hpd) as (pd' & Hpd' & _).
  exists pd'. exact Hpd'.
Qed.

Lemma alter_as_insert (f : FileTreeNode -> FileTreeNode) n nd (h : gmap NodeId FileTreeNode) :
  h !! n = Some nd -> alter f n h = <[n := f nd]> h.
Proof.
  intros Hn. apply map_eq. intros m. rewrite lookup_alter, lookup_insert.
  destruct (decide (n = m)); [subst; rewrite Hn|]; reflexivity.
Qed.

Lemma invisibleNodes_decrease n nd w :
  heap w !! n = Some nd -> nodeVisible nd = false ->
  invisibleNodes (update_node n (set_nodeVisible true) w) < invisibleNodes w.
Proof.
  intros Hn Hv. unfold invisibleNodes, update_node. simpl.
  rewrite (alter_as_insert _ _ _ _ Hn).
  rewrite map_filter_insert_False by (simpl; discriminate).
  rewrite map_filter_delete.
  assert (Hin : filter (fun kv : NodeId * FileTreeNode => nodeVisible (snd kv) = false)
                  (heap w) !! n = Some nd)
    by (apply map_lookup_filter_Some; split; assumption).
  rewrite map_size_delete_Some by (eexists; exact Hin).
  assert (Hne := map_size_ne_0_lookup_2 _ n (ex_intro _ nd Hin)).
  lia.
Qed.

(** The recursion of [setNodeVisible] ends: one more step than there are
    invisible nodes is enough. *)
Lemma setNodeVisible_fuel_enough fuel n w :
  invisibleNodes w < fuel -> is_Some (setNodeVisible_fuel fuel n w).
Proof.
  revert n w. induction fuel as [|fuel IH]; intros n w Hlt; [lia|].
  simpl. destruct (heap w !! n) as [nd|] eqn:Hn; [|eexists; reflexivity].
  destruct (nodeVisible nd) eqn:Hv; [eexists; reflexivity|].
  destruct (myParent nd) as [p|]; [|eexists; reflexivity].
  destruct (IH p (update_node n (set_nodeVisible true) w)) as [w2 Hw2].
  - assert (H := invisibleNodes_decrease n nd w Hn Hv). lia.
  - rewrite Hw2. eexists; reflexivity.
Qed.

Lemma setNodeVisible_run n w :
  exists w', setNodeVisible_fuel (S (invisibleNodes w)) n w = Some w'
             /\ setNodeVisible n w = w'.
Proof.
  destruct (setNodeVisible_fuel_enough (S (invisibleNodes w)) n w) as [w' Hw']; [lia|].
  exists w'. split; [exact Hw'|]. unfold setNodeVisible. rewrite Hw'. reflexivity.
Qed.

Lemma mark_visible_bones n w : heap_rel bones w (update_node n (set_nodeVisible true) w).
Proof. apply heap_rel_update. reflexivity. Qed.

(** What a run of [setNodeVisible] does to the store. *)
Lemma setNodeVisible_fuel_spec fuel : forall n w w',
  setNodeVisible_fuel fuel n w = Some w' ->
  heap_rel bones w w'
  /\ statics w' = statics w
  /\ (forall m nd, heap w !! m = Some nd -> nodeVisible nd = true ->
        exists nd', heap w' !! m = Some nd' /\ nodeVisible nd' = true)
  /\ (forall m, okAt w m -> okAt w' m)
  /\ (forall nd, heap w !! n = Some nd ->
        exists nd', heap w' !! n = Some nd' /\ nodeVisible nd' = true)
  /\ (forall nd, heap w !! n = Some nd -> nodeVisible nd = false -> okAt w' n).
Proof.
  induction fuel as [|fuel IH]; intros n w w' Hrun; [discriminate|].
  simpl in Hrun.
  destruct (heap w !! n) as [nd|] eqn:Hn.
  2:{ injection Hrun as <-. splits.
      - apply heap_rel_refl.
      - reflexivity.
      - intros; eauto.
      - intros; assumption.
      - discriminate.
      - discriminate. }
  destruct (nodeVisible nd) eqn:Hv.
  { injection Hrun as <-. splits.
    - apply heap_rel_refl.
    - reflexivity.
    - intros; eauto.
    - intros; assumption.
    - intros nd0 E. injection E as <-. eauto.
    - intros nd0 E. injection E as <-. congruence. }
  set (w1 := update_node n (set_nodeVisible true) w) in *.
  assert (Hn1 : heap w1 !! n = Some (set_nodeVisible true nd))
    by (unfold w1; rewrite lookup_update_node_eq, Hn; reflexivity).
  assert (Hmono1 : forall m md, heap w !! m = Some md -> nodeVisible md = true ->
            exists md', heap w1 !! m = Some md' /\ nodeVisible md' = true).
  { intros m md Hm Hmv. unfold w1. rewrite lookup_update_node.
    destruct (decide (n = m)); [subst; rewrite Hm; simpl|]; eauto. }
  assert (Hok1 : forall m, m <> n -> okAt w m -> okAt w1 m).
  { intros m Hmn Hok md p pd Hm Hp Hpd Hmv.
    unfold w1 in Hm, Hpd. rewrite lookup_update_node_ne in Hm by congruence.
    rewrite lookup_update_node in Hpd.
    destruct (decide (n = p)).
    - destruct (heap w !! p); [|discriminate]. injection Hpd as <-. reflexivity.
    - apply (Hok md p pd); assumption. }
  (* the tail of the call: recomputeNodeState on a store w2 *)
  assert (Htail : forall w2,
            heap_rel bones w1 w2 -> statics w2 = statics w1 ->
            (forall m md, heap w1 !! m = Some md -> nodeVisible md = true ->
               exists md', heap w2 !! m = Some md' /\ nodeVisible md' = true) ->
            (forall m, okAt w1 m -> okAt w2 m) ->
            okAt w2 n ->
            w' = recomputeNodeState n w2 ->
            heap_rel bones w w'
            /\ statics w' = statics w
            /\ (forall m md, heap w !! m = Some md -> nodeVisible md = true ->
                  exists md', heap w' !! m = Some md' /\ nodeVisible md' = true)
            /\ (forall m, okAt w m -> okAt w' m)
            /\ (exists nd', heap w' !! n = Some nd' /\ nodeVisible nd' = true)
            /\ okAt w' n).
  { intros w2 Hb2 Hs2 Hmono2 Hok2 Hokn ->.
    assert (Hsk := recomputeNodeState_skel n w2).
    assert (Hout := heap_rel_skel_outline _ _ Hsk).
    assert (Hmono3 : forall m md, heap w2 !! m = Some md -> nodeVisible md = true ->
              exists md', heap (recomputeNodeState n w2) !! m = Some md'
                          /\ nodeVisible md' = true).
    { intros m md Hm Hmv.
      destruct (heap_rel_Some _ _ _ _ _ Hout Hm) as (md' & Hmd' & E).
      injection E as E1 E2. exists md'. split; [exact Hmd'|congruence]. }
    split; [|split; [|split; [|split; [|split]]]].
    - eapply heap_rel_trans; [apply mark_visible_bones|].
      eapply heap_rel_trans; [exact Hb2|]. apply heap_rel_skel_bones, Hsk.
    - rewrite recomputeNodeState_statics, Hs2. reflexivity.
    - intros m md Hm Hmv.
      destruct (Hmono1 m md Hm Hmv) as (md1 & Hm1 & Hv1).
      destruct (Hmono2 m md1 Hm1 Hv1) as (md2 & Hm2 & Hv2).
      apply (Hmono3 m md2 Hm2 Hv2).
    - intros m Hok. apply (okAt_outline _ _ _ Hout).
      destruct (decide (m = n)) as [->|Hmn]; [exact Hokn|].
      apply Hok2, Hok1; assumption.
    - destruct (Hmono2 n _ Hn1 eq_refl) as (md2 & Hm2 & Hv2).
      apply (Hmono3 n md2 Hm2 Hv2).
    - apply (okAt_outline _ _ _ Hout), Hokn. }
  assert (Hfin : forall w2,
            heap_rel bones w1 w2 -> statics w2 = statics w1 ->
            (forall m md, heap w1 !! m = Some md -> nodeVisible md = true ->
               exists md', heap w2 !! m = Some md' /\ nodeVisible md' = true) ->
            (forall m, okAt w1 m -> okAt w2 m) ->
            okAt w2 n ->
            w' = recomputeNodeState n w2 ->
            heap_rel bones w w'
            /\ statics w' = statics w
            /\ (forall m md, heap w !! m = Some md -> nodeVisible md = true ->
                  exists md', heap w' !! m = Some md' /\ nodeVisible md' = true)
            /\ (forall m, okAt w m -> okAt w' m)
            /\ (forall nd0, Some nd = Some nd0 ->
                  exists nd', heap w' !! n = Some nd' /\ nodeVisible nd' = true)
            /\ (forall nd0, Some nd = Some nd0 -> nodeVisible nd0 = false -> okAt w' n)).
  { intros w2 A1 A2 A3 A4 A5 A6.
    destruct (Htail w2 A1 A2 A3 A4 A5 A6) as (B1 & B2 & B3 & B4 & B5 & B6).
    splits; auto. }
  clear Htail.
  destruct (myParent nd) as [p|] eqn:Hp.
  - destruct (setNodeVisible_fuel fuel p w1) as [w2|] eqn:Hrec; [|discriminate].
    injection Hrun as <-.
    destruct (IH p w1 w2 Hrec) as (Hb & Hs & Hmono & Hok & Hvis & _).
    apply (Hfin w2); try assumption; [|reflexivity].
    intros nd2 q qd2 Hn2 Hq Hqd2 Hv2.
    destruct (heap_rel_Some _ _ _ _ _ (heap_rel_bones_parent _ _ Hb) Hn1)
      as (nd2' & Hn2' & E).
    rewrite Hn2 in Hn2'. injection Hn2' as <-. simpl in E.
    assert (q = p) by congruence. subst q.
    destruct (heap_rel_Some_inv _ _ _ _ _ Hb Hqd2) as (pd1 & Hpd1 & _).
    destruct (Hvis pd1 Hpd1) as (pd2 & Hpd2 & Hpv).
    congruence.
  - injection Hrun as <-.
    apply (Hfin w1); [apply heap_rel_refl|reflexivity|intros; eauto|intros; assumption| |reflexivity].
    intros nd2 q qd2 Hn2 Hq. rewrite Hn1 in Hn2. injection Hn2 as <-.
    simpl in Hq. congruence.
Qed.

Lemma setNodeVisible_spec n w :
  heap_rel bones w (setNodeVisible n w)
  /\ statics (setNodeVisible n w) = statics w
  /\ (forall m nd, heap w !! m = Some nd -> nodeVisible nd = true ->
        exists nd', heap (setNodeVisible n w) !! m = Some nd' /\ nodeVisible nd' = true)
  /\ (forall m, okAt w m -> okAt (setNodeVisible n w) m)
  /\ (forall nd, heap w !! n = Some nd ->
        exists nd', heap (setNodeVisible n w) !! n = Some nd' /\ nodeVisible nd' = true)
  /\ (forall nd, heap w !! n = Some nd -> nodeVisible nd = false ->
        okAt (setNodeVisible n w) n).
Proof.
  destruct (setNodeVisible_run n w) as (w' & Hrun & ->).
  exact (setNodeVisible_fuel_spec _ _ _ _ Hrun).
Qed.

Lemma setNodeVisible_bones n w : heap_rel bones w (setNodeVisible n w).
Proof. apply setNodeVisible_spec. Qed.

Lemma setNodeVisible_statics n w : statics (setNodeVisible n w) = statics w.
Proof. apply setNodeVisible_spec. Qed.

(** ** Nodes in state [DELETING] stay there *)

Lemma deletingStays_refl w : deletingStays w w.
Proof. intros m nd Hm Hd. eauto. Qed.

Lemma deletingStays_trans w1 w2 w3 :
  deletingStays w1 w2 -> deletingStays w2 w3 -> deletingStays w1 w3.
Proof.
  intros H1 H2 m nd Hm Hd.
  destruct (H1 m nd Hm Hd) as (nd2 & Hm2 & Hd2). eauto.
Qed.

Lemma deletingStays_core w w' : heap_rel core w w' -> deletingStays w w'.
Proof.
  intros H m nd Hm Hd.
  destruct (heap_rel_Some _ _ _ _ _ H Hm) as (nd' & Hm' & E).
  exists nd'. split; [exact Hm'|].
  change (myState (core nd') = DELETING). rewrite E. exact Hd.
Qed.

Lemma deletingStays_update n g w :
  (forall x, myState (g x) = myState x) -> deletingStays w (update_node n g w).
Proof.
  intros Hg m nd Hm Hd. rewrite lookup_update_node.
  destruct (decide (n = m)); [|eauto].
  rewrite Hm. simpl. eexists; split; [reflexivity|]. rewrite Hg. exact Hd.
Qed.

Lemma deletingStays_changeNodeState n s w : deletingStays w (changeNodeState n s w).
Proof.
  intros m nd Hm Hd. destruct (decide (m = n)) as [->|Hne].
  - rewrite (changeNodeState_DELETING n s w nd Hm Hd). eauto.
  - assert (H := changeNodeState_other n s w m Hne). rewrite Hm in H.
    destruct (heap (changeNodeState n s w) !! m) as [nd'|]; [|discriminate].
    exists nd'. split; [reflexivity|].
    assert (E : core nd' = core nd) by (simpl in H; congruence).
    change (myState (core nd') = DELETING). rewrite E. exact Hd.
Qed.

Lemma deletingStays_recomputeNodeState n w : deletingStays w (recomputeNodeState n w).
Proof.
  destruct (heap w !! n) as [nd|] eqn:Hn.
  - rewrite (recomputeNodeState_unfold _ _ _ Hn).
    destruct (bool_decide _);
      [apply deletingStays_refl|apply deletingStays_changeNodeState].
  - rewrite recomputeNodeState_absent by exact Hn. apply deletingStays_refl.
Qed.

Lemma setNodeVisible_fuel_deleting fuel : forall n w w',
  setNodeVisible_fuel fuel n w = Some w' -> deletingStays w w'.
Proof.
  induction fuel as [|fuel IH]; intros n w w' Hrun; [discriminate|].
  simpl in Hrun.
  destruct (heap w !! n) as [nd|]; [|injection Hrun as <-; apply deletingStays_refl].
  destruct (nodeVisible nd); [injection Hrun as <-; apply deletingStays_refl|].
  assert (H1 : deletingStays w (update_node n (set_nodeVisible true) w))
    by (apply deletingStays_update; reflexivity).
  destruct (myParent nd) as [p|].
  - destruct (setNodeVisible_fuel fuel p _) as [w2|] eqn:Hrec; [|discriminate].
    injection Hrun as <-.
    eapply deletingStays_trans; [exact H1|].
    eapply deletingStays_trans; [apply (IH _ _ _ Hrec)|].
    apply deletingStays_recomputeNodeState.
  - injection Hrun as <-.
    eapply deletingStays_trans; [exact H1|]. apply deletingStays_recomputeNodeState.
Qed.

Lemma deletingStays_setNodeVisible n w : deletingStays w (setNodeVisible n w).
Proof.
  destruct (setNodeVisible_run n w) as (w' & Hrun & ->).
  exact (setNodeVisible_fuel_deleting _ _ _ _ Hrun).
Qed.

(** ** Fresh addresses *)

Lemma statics_nextNode w w' : statics w' = statics w -> nextNode w' = nextNode w.
Proof. unfold statics. congruence. Qed.

Lemma fresh_rel {B} (f : FileTreeNode -> B) w w' :
  heap_rel f w w' -> nextNode w' = nextNode w -> fresh w -> fresh w'.
Proof.
  intros H Hs Hf m [nd' Hm]. rewrite Hs.
  destruct (heap_rel_Some_inv _ _ _ _ _ H Hm) as (nd & Hnd & _).
  apply Hf. eexists; exact Hnd.
Qed.

(** ** [takeLast] *)

Lemma takeLast_nil {A} : takeLast (@nil A) = None.
Proof. reflexivity. Qed.

Lemma takeLast_snoc {A} (l : list A) (x : A) : takeLast (l ++ [x]) = Some (x, l).
Proof. unfold takeLast. rewrite last_snoc, removelast_last. reflexivity. Qed.

Lemma appendTakenLast_rev fuel : forall (alt acc : list NodeId),
  length alt <= fuel -> appendTakenLast fuel alt acc = acc ++ rev alt.
Proof.
  induction fuel as [|fuel IH]; intros alt acc Hlen.
  - destruct alt; [simpl; rewrite app_nil_r; reflexivity|simpl in Hlen; lia].
  - destruct alt as [|x alt _] using rev_ind.
    + simpl. rewrite app_nil_r. reflexivity.
    + simpl. rewrite takeLast_snoc. rewrite length_app in Hlen. simpl in Hlen.
      rewrite IH by lia. rewrite rev_app_distr. simpl.
      rewrite <- app_assoc. reflexivity.
Qed.

(** ** The loops over the child list *)

Lemma heap_rel_update_both {B} (f : FileTreeNode -> B) n g g' w1 w2 :
  heap_rel f w1 w2 ->
  (forall x y, f x = f y -> f (g x) = f (g' y)) ->
  heap_rel f (update_node n g w1) (update_node n g' w2).
Proof.
  intros H Hg m. rewrite !lookup_update_node. specialize (H m).
  destruct (decide (n = m)); [|exact H].
  destruct (heap w1 !! m) as [a|], (heap w2 !! m) as [b|]; simpl in *;
    try discriminate; try reflexivity.
  f_equal. symmetry. apply Hg. congruence.
Qed.

Lemma heap_rel_sym {B} (f : FileTreeNode -> B) w w' : heap_rel f w w' -> heap_rel f w' w.
Proof. intros H m. symmetry. apply H. Qed.

Lemma keepChild_rel l w w' c :
  heap_rel fileData w w' -> keepChild l w' c = keepChild l w c.
Proof.
  intros H. unfold keepChild. specialize (H c).
  destruct (heap w' !! c), (heap w !! c); simpl in H; congruence.
Qed.

Lemma heap_rel_skel_fileData w w' : heap_rel skel w w' -> heap_rel fileData w w'.
Proof. apply heap_rel_weaken with (h := fileData). reflexivity. Qed.

Lemma skel_childList a b : skel a = skel b -> childList a = childList b.
Proof. intros H. node_crush. Qed.

Lemma clearAllChildren_loop_spec n fuel : forall w nd,
  heap w !! n = Some nd -> length (childList nd) <= fuel ->
  heap_rel skel (update_node n (set_childList []) w) (clearAllChildren_loop fuel n w)
  /\ statics (clearAllChildren_loop fuel n w) = statics w
  /\ deletingStays w (clearAllChildren_loop fuel n w)
  /\ (forall c cd, In c (childList nd) -> heap w !! c = Some cd ->
        exists cd', heap (clearAllChildren_loop fuel n w) !! c = Some cd'
                    /\ myState cd' = DELETING).
Proof.
  induction fuel as [|fuel IH]; intros w nd Hn Hlen.
  - assert (Hnil : childList nd = []) by (destruct (childList nd); [reflexivity|simpl in Hlen; lia]).
    simpl. splits.
    + rewrite update_node_id; [apply heap_rel_refl|].
      intros x Hx. assert (x = nd) by congruence. subst x.
      destruct nd; simpl in *; subst; reflexivity.
    + reflexivity.
    + apply deletingStays_refl.
    + rewrite Hnil. intros c cd [].
  - simpl. rewrite Hn.
    destruct (childList nd) as [|x l _] eqn:Hl using rev_ind.
    + simpl. splits.
      * rewrite update_node_id; [apply heap_rel_refl|].
        intros y Hy. assert (y = nd) by congruence. subst y.
        destruct nd; simpl in *; subst; reflexivity.
      * reflexivity.
      * apply deletingStays_refl.
      * intros c cd [].
    + rewrite takeLast_snoc.
      set (w1 := update_node n (set_childList l) w).
      set (w2 := changeNodeState x DELETING w1).
      assert (Hn1 : heap w1 !! n = Some (set_childList l nd))
        by (unfold w1; rewrite lookup_update_node_eq, Hn; reflexivity).
      assert (H12 : heap_rel skel w1 w2) by apply changeNodeState_skel.
      destruct (heap_rel_Some _ _ _ _ _ H12 Hn1) as (nd2 & Hn2 & E2).
      assert (Hl2 : childList nd2 = l) by (apply skel_childList in E2; exact E2).
      rewrite length_app in Hlen. simpl in Hlen.
      destruct (IH w2 nd2 Hn2 ltac:(rewrite Hl2; lia)) as (I1 & I2 & I3 & I4).
      assert (D1 : deletingStays w w1) by (apply deletingStays_update; reflexivity).
      assert (D2 : deletingStays w1 w2) by apply deletingStays_changeNodeState.
      splits.
      * eapply heap_rel_trans; [|exact I1].
        unfold w1. intros m. rewrite !lookup_update_node.
        specialize (H12 m). unfold w1 in H12. rewrite lookup_update_node in H12.
        destruct (decide (n = m)); [|exact H12].
        destruct (heap w2 !! m) as [a|], (heap w !! m) as [b|]; simpl in *;
          try discriminate; try reflexivity.
        f_equal. node_crush.
      * rewrite I2. unfold w2. rewrite changeNodeState_statics. reflexivity.
      * eapply deletingStays_trans; [exact D1|].
        eapply deletingStays_trans; [exact D2|exact I3].
      * intros c cd Hc Hcd. apply in_app_or in Hc.
        assert (Hc1 : exists cd1, heap w1 !! c = Some cd1).
        { unfold w1. rewrite lookup_update_node. destruct (decide (n = c));
            rewrite Hcd; simpl; eauto. }
        destruct Hc1 as (cd1 & Hcd1).
        destruct Hc as [Hc|[<-|[]]].
        -- destruct (heap_rel_Some _ _ _ _ _ H12 Hcd1) as (cd2 & Hcd2 & _).
           rewrite Hl2 in I4. apply (I4 c cd2 Hc Hcd2).
        -- destruct (changeNodeState_state x DELETING w1 cd1 Hcd1) as (cd2 & Hcd2 & _ & Hs).
           apply (I3 x cd2 Hcd2). rewrite Hs. destruct (bool_decide _); reflexivity.
Qed.

Lemma clearAllChildren_spec n w nd :
  heap w !! n = Some nd ->
  heap_rel skel (update_node n (set_childList []) w) (clearAllChildren n w)
  /\ statics (clearAllChildren n w) = statics w
  /\ deletingStays w (clearAllChildren n w)
  /\ (forall c cd, In c (childList nd) -> heap w !! c = Some cd ->
        exists cd', heap (clearAllChildren n w) !! c = Some cd' /\ myState cd' = DELETING).
Proof.
  intros Hn. unfold clearAllChildren. rewrite Hn.
  apply clearAllChildren_loop_spec; [exact Hn|lia].
Qed.

Lemma purgeUnmatchedChildren_loop_spec n l fuel : forall alt w nd,
  heap w !! n = Some nd -> length (childList nd) <= fuel ->
  exists w',
    purgeUnmatchedChildren_loop fuel n l alt w
    = (w', alt ++ List.filter (keepChild l w) (rev (childList nd)))
    /\ heap_rel skel (update_node n (set_childList []) w) w'
    /\ statics w' = statics w
    /\ deletingStays w w'
    /\ (forall c cd, In c (childList nd) -> heap w !! c = Some cd ->
          matchFound l (fileData cd) = false ->
          exists cd', heap w' !! c = Some cd' /\ myState cd' = DELETING).
Proof.
  induction fuel as [|fuel IH]; intros alt w nd Hn Hlen.
  - assert (Hnil : childList nd = [])
      by (destruct (childList nd); [reflexivity|simpl in Hlen; lia]).
    exists w. simpl. rewrite Hnil. simpl. rewrite app_nil_r. splits.
    + reflexivity.
    + rewrite update_node_id; [apply heap_rel_refl|].
      intros x Hx. assert (x = nd) by congruence. subst x.
      destruct nd; simpl in *; subst; reflexivity.
    + reflexivity.
    + apply deletingStays_refl.
    + intros c cd [].
  - cbn [purgeUnmatchedChildren_loop]. rewrite Hn.
    destruct (childList nd) as [|x kids _] eqn:Hl using rev_ind.
    + exists w. simpl. rewrite app_nil_r. splits.
      * reflexivity.
      * rewrite update_node_id; [apply heap_rel_refl|].
        intros y Hy. assert (y = nd) by congruence. subst y.
        destruct nd; simpl in *; subst; reflexivity.
      * reflexivity.
      * apply deletingStays_refl.
      * intros c cd [].
    + rewrite takeLast_snoc.
      set (w1 := update_node n (set_childList kids) w).
      assert (Hn1 : heap w1 !! n = Some (set_childList kids nd))
        by (unfold w1; rewrite lookup_update_node_eq, Hn; reflexivity).
      assert (F1 : heap_rel fileData w w1) by (apply heap_rel_update; reflexivity).
      assert (D1 : deletingStays w w1) by (apply deletingStays_update; reflexivity).
      assert (Hkx : (match heap w1 !! x with
                     | Some ad => matchFound l (fileData ad)
                     | None => false
                     end) = keepChild l w x)
        by (apply (keepChild_rel l w w1 x F1)).
      rewrite Hkx. rewrite rev_app_distr. simpl.
      rewrite length_app in Hlen. simpl in Hlen.
      assert (Hbase : heap_rel skel (update_node n (set_childList []) w)
                        (update_node n (set_childList []) w1)).
      { unfold w1. intros m. rewrite !lookup_update_node.
        destruct (decide (n = m)); [|reflexivity].
        destruct (heap w !! m); reflexivity. }
      destruct (keepChild l w x) eqn:Hkeep.
      * destruct (IH (alt ++ [x]) w1 _ Hn1 ltac:(simpl; lia))
          as (w' & I0 & I1 & I2 & I3 & I4).
        exists w'. simpl in I0. rewrite I0. splits.
        -- f_equal. rewrite <- app_assoc. simpl. f_equal. f_equal.
           apply List.filter_ext. intros c. apply keepChild_rel, F1.
        -- eapply heap_rel_trans; [exact Hbase|exact I1].
        -- rewrite I2. reflexivity.
        -- eapply deletingStays_trans; [exact D1|exact I3].
        -- intros c cd Hc Hcd Hm. apply in_app_or in Hc.
           assert (Hc1 : exists cd1, heap w1 !! c = Some cd1 /\ fileData cd1 = fileData cd).
           { destruct (heap_rel_Some _ _ _ _ _ F1 Hcd) as (cd1 & E1 & E2). eauto. }
           destruct Hc1 as (cd1 & Hcd1 & Hfd).
           destruct Hc as [Hc|[<-|[]]].
           ++ apply (I4 c cd1); [exact Hc|exact Hcd1|congruence].
           ++ unfold keepChild in Hkeep. rewrite Hcd in Hkeep. congruence.
      * set (w2 := changeNodeState x DELETING w1).
        assert (H12 : heap_rel skel w1 w2) by apply changeNodeState_skel.
        destruct (heap_rel_Some _ _ _ _ _ H12 Hn1) as (nd2 & Hn2 & E2).
        assert (Hl2 : childList nd2 = kids) by (apply skel_childList in E2; exact E2).
        assert (F2 : heap_rel fileData w w2).
        { eapply heap_rel_trans; [exact F1|]. apply heap_rel_skel_fileData, H12. }
        assert (D2 : deletingStays w1 w2) by apply deletingStays_changeNodeState.
        destruct (IH alt w2 nd2 Hn2 ltac:(rewrite Hl2; lia))
          as (w' & I0 & I1 & I2 & I3 & I4).
        exists w'. rewrite I0, Hl2. splits.
        -- f_equal. f_equal. apply List.filter_ext. intros c. apply keepChild_rel, F2.
        -- eapply heap_rel_trans; [exact Hbase|].
           eapply heap_rel_trans; [|exact I1].
           apply heap_rel_update_both; [exact H12|]. intros a b E. node_crush.
        -- rewrite I2. unfold w2. rewrite changeNodeState_statics. reflexivity.
        -- eapply deletingStays_trans; [exact D1|].
           eapply deletingStays_trans; [exact D2|exact I3].
        -- intros c cd Hc Hcd Hm. apply in_app_or in Hc.
           assert (Hc1 : exists cd1, heap w1 !! c = Some cd1 /\ fileData cd1 = fileData cd).
           { destruct (heap_rel_Some _ _ _ _ _ F1 Hcd) as (cd1 & E1 & E3). eauto. }
           destruct Hc1 as (cd1 & Hcd1 & Hfd).
           destruct Hc as [Hc|[<-|[]]].
           ++ destruct (heap_rel_Some _ _ _ _ _ H12 Hcd1) as (cd2 & Hcd2 & E3).
              rewrite Hl2 in I4. apply (I4 c cd2 Hc Hcd2).
              assert (fileData cd2 = fileData cd1) by node_crush. congruence.
           ++ destruct (changeNodeState_state x DELETING w1 cd1 Hcd1)
                as (cd2 & Hcd2 & _ & Hs).
              apply (I3 x cd2 Hcd2). rewrite Hs. destruct (bool_decide _); reflexivity.
Qed.

Lemma purgeUnmatchedChildren_spec n l w nd :
  heap w !! n = Some nd ->
  heap_rel skel
    (update_node n (set_childList (List.filter (keepChild l w) (childList nd))) w)
    (purgeUnmatchedChildren n l w)
  /\ statics (purgeUnmatchedChildren n l w) = statics w
  /\ deletingStays w (purgeUnmatchedChildren n l w)
  /\ (forall c cd, In c (childList nd) -> heap w !! c = Some cd ->
        matchFound l (fileData cd) = false ->
        exists cd', heap (purgeUnmatchedChildren n l w) !! c = Some cd'
                    /\ myState cd' = DELETING).
Proof.
  intros Hn. unfold purgeUnmatchedChildren. rewrite Hn.
  destruct (childList nd) as [|k kids] eqn:Hl.
  - simpl. splits.
    + rewrite update_node_id; [apply heap_rel_refl|].
      intros x Hx. assert (x = nd) by congruence. subst x.
      destruct nd; simpl in *; subst; reflexivity.
    + reflexivity.
    + apply deletingStays_refl.
    + intros c cd [].
  - destruct (purgeUnmatchedChildren_loop_spec n l (length (k :: kids)) [] w nd Hn
                ltac:(rewrite Hl; lia))
      as (w' & I0 & I1 & I2 & I3 & I4).
    rewrite I0. clear I0. rewrite Hl in *. rewrite app_nil_l.
    splits.
    + intros m. specialize (I1 m). rewrite lookup_update_node in I1.
      rewrite !lookup_update_node.
      destruct (decide (n = m)); [|exact I1].
      destruct (heap w' !! m) as [a|], (heap w !! m) as [b|];
        cbn [fmap option_fmap option_map] in *; try discriminate; try reflexivity.
      f_equal.
      assert (I1' : skel a = skel (set_childList [] b)) by congruence.
      clear I1. rename I1' into I1.
      assert (Ha : childList a = []) by (apply skel_childList in I1; exact I1).
      rewrite Ha, appendTakenLast_rev by lia.
      rewrite app_nil_l, filter_rev, rev_involutive.
      generalize (List.filter (keepChild l w) (k :: kids)). intros L.
      clear - I1. node_crush.
    + rewrite <- I2. reflexivity.
    + eapply deletingStays_trans; [exact I3|].
      apply deletingStays_update. reflexivity.
    + intros c cd Hc Hcd Hm.
      destruct (I4 c cd Hc Hcd Hm) as (cd' & Hcd' & Hs).
      rewrite lookup_update_node. destruct (decide (n = c)); [|eauto].
      rewrite Hcd'. simpl. eexists; split; [reflexivity|exact Hs].
Qed.

(** ** Creating a child node *)

Lemma newChildNode_unfold P contents parent w :
  newChildNode P contents parent w
  = recomputeNodeState (nextNode w) (childAllocated P contents parent w).
Proof. reflexivity. Qed.

Lemma fresh_nextNode w : fresh w -> heap w !! nextNode w = None.
Proof.
  intros Hf. destruct (heap w !! nextNode w) eqn:E; [|reflexivity].
  assert (nextNode w < nextNode w) by (apply Hf; eexists; exact E). lia.
Qed.

Lemma childAllocated_lookup P contents parent w m :
  parent <> nextNode w ->
  heap (childAllocated P contents parent w) !! m
  = if decide (m = nextNode w) then Some (childNode_initial P contents parent w)
    else if decide (m = parent)
         then (fun x => set_childList (childList x ++ [nextNode w]) x) <$> heap w !! m
         else heap w !! m.
Proof.
  intros Hne. unfold childAllocated, settimestamps, allocate.
  rewrite !lookup_update_node. simpl.
  rewrite lookup_alter, lookup_insert.
  repeat case_decide; subst; try congruence; try reflexivity;
    rewrite lookup_insert_ne by congruence; reflexivity.
Qed.

Lemma childAllocated_nextNode P contents parent w :
  nextNode (childAllocated P contents parent w) = S (nextNode w).
Proof. reflexivity. Qed.

Lemma childAllocated_connections P contents parent w :
  connections (childAllocated P contents parent w) = connections w.
Proof. reflexivity. Qed.

(** What [new FileTreeNode(contents, parent)] does to the store, up to
    states and model items. *)
Lemma newChildNode_lookup P contents parent w m :
  parent <> nextNode w ->
  skel <$> heap (newChildNode P contents parent w) !! m
  = skel <$>
      (if decide (m = nextNode w) then Some (childNode_initial P contents parent w)
       else if decide (m = parent)
            then (fun x => set_childList (childList x ++ [nextNode w]) x) <$> heap w !! m
            else heap w !! m).
Proof.
  intros Hne. rewrite newChildNode_unfold.
  rewrite (recomputeNodeState_skel _ (childAllocated P contents parent w) m).
  rewrite childAllocated_lookup by exact Hne. reflexivity.
Qed.

Lemma newChildNode_nextNode P contents parent w :
  nextNode (newChildNode P contents parent w) = S (nextNode w).
Proof.
  rewrite newChildNode_unfold.
  rewrite (statics_nextNode _ _ (recomputeNodeState_statics _ _)). reflexivity.
Qed.

Lemma newChildNode_fresh P contents parent w :
  parent <> nextNode w -> fresh w -> fresh (newChildNode P contents parent w).
Proof.
  intros Hne Hf m [nd Hm]. rewrite newChildNode_nextNode.
  rewrite newChildNode_unfold in Hm.
  destruct (heap_rel_Some_inv _ _ _ _ _ (recomputeNodeState_skel _ _) Hm) as (nd0 & H0 & _).
  rewrite childAllocated_lookup in H0 by exact Hne.
  destruct (decide (m = nextNode w)) as [->|Hmn]; [lia|].
  assert (is_Some (heap w !! m)).
  { rewrite ?decide_False in H0 by exact Hmn.
    case_decide; [|eexists; exact H0].
    eapply fmap_is_Some. eexists; exact H0. }
  specialize (Hf m H). lia.
Qed.

Lemma newChildNode_deleting P contents parent w :
  parent <> nextNode w -> fresh w -> deletingStays w (newChildNode P contents parent w).
Proof.
  intros Hne Hf. rewrite newChildNode_unfold.
  eapply deletingStays_trans; [|apply deletingStays_recomputeNodeState].
  intros m nd Hm Hd.
  assert (Hmn : m <> nextNode w).
  { intros ->. rewrite fresh_nextNode in Hm by exact Hf. discriminate. }
  rewrite childAllocated_lookup by exact Hne.
  rewrite decide_False by exact Hmn.
  destruct (decide (m = parent)); rewrite Hm; simpl; eauto.
Qed.

(** ** [insertFile] *)

Lemma heap_keeps_refl {B} (f : FileTreeNode -> B) w : heap_keeps f w w.
Proof. intros m md Hm. eauto. Qed.

Lemma heap_keeps_trans {B} (f : FileTreeNode -> B) w1 w2 w3 :
  heap_keeps f w1 w2 -> heap_keeps f w2 w3 -> heap_keeps f w1 w3.
Proof.
  intros H1 H2 m md Hm.
  destruct (H1 m md Hm) as (md2 & Hm2 & E2).
  destruct (H2 m md2 Hm2) as (md3 & Hm3 & E3).
  exists md3. split; [exact Hm3|congruence].
Qed.

Lemma heap_keeps_rel {B} (f : FileTreeNode -> B) w w' : heap_rel f w w' -> heap_keeps f w w'.
Proof. intros H m md Hm. apply (heap_rel_Some _ _ _ _ _ H Hm). Qed.

Lemma heap_keeps_weaken {B C} (f : FileTreeNode -> B) (g : FileTreeNode -> C) (h : B -> C)
    w w' :
  (forall x, g x = h (f x)) -> heap_keeps f w w' -> heap_keeps g w w'.
Proof.
  intros Hg H m md Hm. destruct (H m md Hm) as (md' & Hm' & E).
  exists md'. split; [exact Hm'|]. rewrite !Hg, E. reflexivity.
Qed.

Lemma heap_rel_skel_shell w w' : heap_rel skel w w' -> heap_rel shell w w'.
Proof. apply heap_rel_weaken with (h := set_childList []). reflexivity. Qed.

Lemma insertFile_cases P n e w nd :
  heap w !! n = Some nd ->
  insertFile P n e w
  = if covered e w (childList nd) then w else newChildNode P e n w.
Proof.
  intros Hn. unfold insertFile, covered, hasMatch.
  destruct (String.eqb (fileName e) "."); [reflexivity|]. simpl.
  rewrite Hn.
  destruct (List.find _ (childList nd)) as [c|] eqn:F.
  - apply find_some in F. destruct F as [Hin Hc].
    replace (existsb _ (childList nd)) with true.
    + destruct (heap w !! c); [|reflexivity]. destruct (negb _); reflexivity.
    + symmetry. apply existsb_exists. exists c. split; assumption.
  - replace (existsb _ (childList nd)) with false; [reflexivity|].
    symmetry. apply not_true_is_false. intros H. apply existsb_exists in H.
    destruct H as (c & Hin & Hc).
    assert (H0 := find_none _ _ F c Hin). simpl in H0. congruence.
Qed.

Lemma sameFile_own e ts : sameFile e (mkFileNodeRef e ts) = true.
Proof.
  unfold sameFile, getFullPath, getFileType. simpl.
  rewrite String.eqb_refl, bool_decide_eq_true_2 by reflexivity. reflexivity.
Qed.

Lemma hasMatch_mono e w w' kids kids' :
  heap_keeps fileData w w' -> (forall c, In c kids -> In c kids') ->
  hasMatch e w kids = true -> hasMatch e w' kids' = true.
Proof.
  intros Hk Hsub H. unfold hasMatch in *. apply existsb_exists in H.
  destruct H as (c & Hin & Hc). apply existsb_exists. exists c.
  split; [apply Hsub, Hin|].
  destruct (heap w !! c) as [cd|] eqn:E; [|discriminate].
  destruct (Hk c cd E) as (cd' & E' & Hfd). rewrite E', Hfd. exact Hc.
Qed.

Lemma covered_mono e w w' kids kids' :
  heap_keeps fileData w w' -> (forall c, In c kids -> In c kids') ->
  covered e w kids = true -> covered e w' kids' = true.
Proof.
  intros Hk Hsub H. unfold covered in *.
  apply orb_true_iff in H. apply orb_true_iff.
  destruct H as [H|H]; [left; exact H|right].
  apply (hasMatch_mono e w w' kids kids' Hk Hsub H).
Qed.

Lemma keepChild_keeps l w w' c :
  heap_keeps fileData w w' -> keepChild l w c = true -> keepChild l w' c = true.
Proof.
  intros Hk H. unfold keepChild in *.
  destruct (heap w !! c) as [cd|] eqn:E; [|discriminate].
  destruct (Hk c cd E) as (cd' & E' & Hfd). rewrite E', Hfd. exact H.
Qed.

Lemma heap_keeps_shell_fileData w w' : heap_keeps shell w w' -> heap_keeps fileData w w'.
Proof. apply heap_keeps_weaken with (h := fileData). reflexivity. Qed.

(** One call of [insertFile], on a store with fresh addresses. *)
Lemma insertFile_spec P n e w nd :
  fresh w -> heap w !! n = Some nd ->
  exists nd', heap (insertFile P n e w) !! n = Some nd'
    /\ fresh (insertFile P n e w)
    /\ deletingStays w (insertFile P n e w)
    /\ heap_keeps shell w (insertFile P n e w)
    /\ (exists extra, childList nd' = childList nd ++ extra)
    /\ covered e (insertFile P n e w) (childList nd') = true
    /\ (forall l, In e l ->
          (forall c, In c (childList nd) -> keepChild l w c = true) ->
          (forall c, In c (childList nd') ->
             keepChild l (insertFile P n e w) c = true))
    /\ connections (insertFile P n e w) = connections w
    /\ nextNode w <= nextNode (insertFile P n e w).
Proof.
  intros Hf Hn. rewrite (insertFile_cases P n e w nd Hn).
  destruct (covered e w (childList nd)) eqn:Hcov.
  - exists nd. splits.
    + exact Hn.
    + exact Hf.
    + apply deletingStays_refl.
    + apply heap_keeps_refl.
    + exists []. rewrite app_nil_r. reflexivity.
    + exact Hcov.
    + intros l _ H; exact H.
    + reflexivity.
    + lia.
  - assert (Hnn : n <> nextNode w).
    { intros ->. rewrite fresh_nextNode in Hn by exact Hf. discriminate. }
    assert (Hlk := newChildNode_lookup P e n w).
    assert (Hkeep : heap_keeps shell w (newChildNode P e n w)).
    { intros m md Hm.
      assert (Hmn : m <> nextNode w).
      { intros ->. rewrite fresh_nextNode in Hm by exact Hf. discriminate. }
      specialize (Hlk m Hnn). rewrite decide_False in Hlk by exact Hmn.
      destruct (heap (newChildNode P e n w) !! m) as [md'|];
        [|case_decide; rewrite Hm in Hlk; discriminate].
      exists md'. split; [reflexivity|].
      case_decide; rewrite Hm in Hlk; cbn [fmap option_fmap option_map] in Hlk;
        assert (E : skel md' = skel md \/
                    skel md' = skel (set_childList (childList md ++ [nextNode w]) md))
          by (first [left; congruence | right; congruence]);
        clear Hlk; destruct E as [E|E]; clear - E; node_crush. }
    assert (Hnew := Hlk (nextNode w) Hnn). rewrite decide_True in Hnew by reflexivity.
    destruct (heap (newChildNode P e n w) !! nextNode w) as [cd|] eqn:Hcd;
      [|discriminate].
    assert (Ecd : skel cd = skel (childNode_initial P e n w))
      by (cbn [fmap option_fmap option_map] in Hnew; congruence).
    clear Hnew.
    assert (Hpar := Hlk n Hnn). rewrite decide_False in Hpar by exact Hnn.
    rewrite decide_True in Hpar by reflexivity. rewrite Hn in Hpar.
    destruct (heap (newChildNode P e n w) !! n) as [nd'|] eqn:Hnd'; [|discriminate].
    assert (End : skel nd' = skel (set_childList (childList nd ++ [nextNode w]) nd))
      by (cbn [fmap option_fmap option_map] in Hpar; congruence).
    clear Hpar.
    assert (Hkids : childList nd' = childList nd ++ [nextNode w])
      by (apply skel_childList in End; exact End).
    assert (Hfd : fileData cd = mkFileNodeRef e (currentMSecsSinceEpoch P (clockReads w)))
      by (clear - Ecd; unfold childNode_initial in Ecd; node_crush).
    exists nd'. splits.
    + reflexivity.
    + apply newChildNode_fresh; assumption.
    + apply newChildNode_deleting; assumption.
    + exact Hkeep.
    + exists [nextNode w]. exact Hkids.
    + unfold covered, hasMatch. apply orb_true_iff. right.
      apply existsb_exists. exists (nextNode w). split.
      * rewrite Hkids. apply in_or_app. right. left. reflexivity.
      * rewrite Hcd, Hfd. apply sameFile_own.
    + intros l Hin Hall c Hc. rewrite Hkids in Hc. apply in_app_or in Hc.
      destruct Hc as [Hc|[<-|[]]].
      * apply (keepChild_keeps l w); [apply heap_keeps_shell_fileData, Hkeep|].
        apply Hall, Hc.
      * unfold keepChild. rewrite Hcd, Hfd. unfold matchFound.
        apply existsb_exists. exists e. split; [exact Hin|].
        rewrite sameFile_own, andb_true_r.
        unfold covered in Hcov. apply orb_false_iff in Hcov.
        destruct Hcov as [Hdot _]. rewrite Hdot. reflexivity.
    + rewrite newChildNode_unfold.
      assert (H := recomputeNodeState_statics (nextNode w) (childAllocated P e n w)).
      unfold statics in H. injection H as _ H _. exact H.
    + rewrite newChildNode_nextNode. lia.
Qed.

Lemma insertFile_fold_spec P n l : forall es w nd,
  fresh w -> heap w !! n = Some nd -> (forall e, In e es -> In e l) ->
  exists nd',
    heap (fold_left (fun acc e => insertFile P n e acc) es w) !! n = Some nd'
    /\ fresh (fold_left (fun acc e => insertFile P n e acc) es w)
    /\ deletingStays w (fold_left (fun acc e => insertFile P n e acc) es w)
    /\ heap_keeps shell w (fold_left (fun acc e => insertFile P n e acc) es w)
    /\ (exists extra, childList nd' = childList nd ++ extra)
    /\ (forall e, In e es ->
          covered e (fold_left (fun acc e => insertFile P n e acc) es w) (childList nd')
          = true)
    /\ ((forall c, In c (childList nd) -> keepChild l w c = true) ->
        (forall c, In c (childList nd') ->
           keepChild l (fold_left (fun acc e => insertFile P n e acc) es w) c = true))
    /\ connections (fold_left (fun acc e => insertFile P n e acc) es w) = connections w
    /\ nextNode w <= nextNode (fold_left (fun acc e => insertFile P n e acc) es w).
Proof.
  induction es as [|e es IH]; intros w nd Hf Hn Hsub.
  - exists nd. simpl. splits.
    + exact Hn.
    + exact Hf.
    + apply deletingStays_refl.
    + apply heap_keeps_refl.
    + exists []. rewrite app_nil_r. reflexivity.
    + intros e [].
    + intros H; exact H.
    + reflexivity.
    + lia.
  - simpl.
    destruct (insertFile_spec P n e w nd Hf Hn)
      as (nd1 & Hn1 & Hf1 & D1 & K1 & (ex1 & Hk1) & C1 & M1 & Cn1 & N1).
    destruct (IH (insertFile P n e w) nd1 Hf1 Hn1 ltac:(intros; apply Hsub; right; assumption))
      as (nd' & Hn' & Hf' & D' & K' & (ex' & Hk') & C' & M' & Cn' & N').
    exists nd'. splits.
    + exact Hn'.
    + exact Hf'.
    + eapply deletingStays_trans; eassumption.
    + eapply heap_keeps_trans; eassumption.
    + exists (ex1 ++ ex'). rewrite Hk', Hk1, app_assoc. reflexivity.
    + intros e0 [<-|Hin]; [|apply C', Hin].
      apply (covered_mono e (insertFile P n e w) _ (childList nd1));
        [apply heap_keeps_shell_fileData, K'| |exact C1].
      intros c Hc. rewrite Hk'. apply in_or_app. left. exact Hc.
    + intros Hall. apply M'. apply (M1 l); [apply Hsub; left; reflexivity|exact Hall].
    + rewrite Cn', Cn1. reflexivity.
    + lia.
Qed.

Lemma insertFile_fold_id P n : forall es w nd,
  heap w !! n = Some nd ->
  (forall e, In e es -> covered e w (childList nd) = true) ->
  fold_left (fun acc e => insertFile P n e acc) es w = w.
Proof.
  induction es as [|e es IH]; intros w nd Hn Hcov; [reflexivity|].
  simpl. rewrite (insertFile_cases P n e w nd Hn).
  rewrite Hcov by (left; reflexivity).
  apply (IH w nd Hn). intros e0 Hin. apply Hcov. right. exact Hin.
Qed.

Lemma setNodeVisible_fold_spec : forall cs w,
  heap_rel bones w (fold_left (fun acc c => setNodeVisible c acc) cs w)
  /\ statics (fold_left (fun acc c => setNodeVisible c acc) cs w) = statics w
  /\ deletingStays w (fold_left (fun acc c => setNodeVisible c acc) cs w)
  /\ (forall m nd, heap w !! m = Some nd -> nodeVisible nd = true ->
        exists nd', heap (fold_left (fun acc c => setNodeVisible c acc) cs w) !! m = Some nd'
                    /\ nodeVisible nd' = true)
  /\ (forall c cd, In c cs -> heap w !! c = Some cd ->
        exists cd', heap (fold_left (fun acc c => setNodeVisible c acc) cs w) !! c = Some cd'
                    /\ nodeVisible cd' = true)
  /\ (forall m, okAt w m -> okAt (fold_left (fun acc c => setNodeVisible c acc) cs w) m).
Proof.
  induction cs as [|c cs IH]; intros w.
  - simpl. splits.
    + apply heap_rel_refl.
    + reflexivity.
    + apply deletingStays_refl.
    + intros; eauto.
    + intros c cd [].
    + intros m H; exact H.
  - simpl.
    destruct (setNodeVisible_spec c w) as (B1 & S1 & V1 & O1 & T1 & _).
    destruct (IH (setNodeVisible c w)) as (B2 & S2 & D2 & V2 & T2 & O2).
    splits.
    + eapply heap_rel_trans; eassumption.
    + rewrite S2, S1. reflexivity.
    + eapply deletingStays_trans; [apply deletingStays_setNodeVisible|exact D2].
    + intros m nd Hm Hv. destruct (V1 m nd Hm Hv) as (nd1 & Hm1 & Hv1).
      apply (V2 m nd1 Hm1 Hv1).
    + intros c0 cd [<-|Hin] Hc.
      * destruct (T1 cd Hc) as (cd1 & Hc1 & Hv1). apply (V2 c cd1 Hc1 Hv1).
      * destruct (heap_rel_Some _ _ _ _ _ B1 Hc) as (cd1 & Hc1 & _).
        apply (T2 c0 cd1 Hin Hc1).
    + intros m Hok. apply O2, O1, Hok.
Qed.

Lemma filter_all_true {A} (f : A -> bool) (l : list A) :
  (forall x, In x l -> f x = true) -> List.filter f l = l.
Proof.
  induction l as [|x l IH]; intros H; [reflexivity|].
  simpl. rewrite H by (left; reflexivity). f_equal. apply IH.
  intros y Hy. apply H. right. exact Hy.
Qed.

(** ** [updateFileNodeData] *)

Lemma heap_rel_kin_fileData w w' : heap_rel kin w w' -> heap_rel fileData w w'.
Proof. apply heap_rel_weaken with (h := snd). reflexivity. Qed.

Lemma heap_rel_bones_kin w w' : heap_rel bones w w' -> heap_rel kin w w'.
Proof. apply heap_rel_weaken with (h := kin). reflexivity. Qed.

Lemma heap_rel_skel_kin w w' : heap_rel skel w w' -> heap_rel kin w w'.
Proof. apply heap_rel_weaken with (h := kin). reflexivity. Qed.

Lemma heap_rel_skel_fixed w w' : heap_rel skel w w' -> heap_rel fixedPart w w'.
Proof. apply heap_rel_weaken with (h := fixedPart). reflexivity. Qed.

Lemma heap_rel_bones_fixed w w' : heap_rel bones w w' -> heap_rel fixedPart w w'.
Proof. apply heap_rel_weaken with (h := fixedPart). reflexivity. Qed.

Lemma heap_keeps_shell_fixed w w' : heap_keeps shell w w' -> heap_keeps fixedPart w w'.
Proof.
  apply heap_keeps_weaken
    with (h := fun x => set_folderContentsKnown false (set_nodeVisible false x)).
  reflexivity.
Qed.

Lemma synced_rel l w w' n : heap_rel kin w w' -> synced l w n -> synced l w' n.
Proof.
  intros H (nd & Hn & Hcov & Hkeep).
  destruct (heap_rel_Some _ _ _ _ _ H Hn) as (nd' & Hn' & E).
  assert (Ek : childList nd' = childList nd) by (injection E; auto).
  assert (HK : heap_keeps fileData w w') by (apply heap_keeps_rel, heap_rel_kin_fileData, H).
  exists nd'. split; [exact Hn'|]. rewrite Ek. split.
  - intros e He. apply (covered_mono e w w' (childList nd) (childList nd) HK); auto.
  - intros c Hc. apply (keepChild_keeps l w w' c HK). apply Hkeep, Hc.
Qed.

Lemma keepChild_present l w c :
  keepChild l w c = true -> exists cd, heap w !! c = Some cd.
Proof. unfold keepChild. destruct (heap w !! c); [eauto|discriminate]. Qed.

(** A listing of more than one entry: purge, insert, show, recompute. *)
Lemma updateFileNodeData_long P n l w nd :
  fresh w -> heap w !! n = Some nd -> 1 < length l ->
  fresh (updateFileNodeData P n l w)
  /\ synced l (updateFileNodeData P n l w) n
  /\ deletingStays w (updateFileNodeData P n l w)
  /\ heap_keeps fixedPart w (updateFileNodeData P n l w)
  /\ connections (updateFileNodeData P n l w) = connections w
  /\ exists nd',
       heap (updateFileNodeData P n l w) !! n = Some nd'
       /\ folderContentsKnown nd' = true
       /\ (exists extra,
             childList nd' = List.filter (keepChild l w) (childList nd) ++ extra)
       /\ (forall c, In c (childList nd') ->
             exists cd, heap (updateFileNodeData P n l w) !! c = Some cd
                        /\ nodeVisible cd = true)
       /\ (forall c cd, In c (childList nd) -> heap w !! c = Some cd ->
             matchFound l (fileData cd) = false ->
             exists cd', heap (updateFileNodeData P n l w) !! c = Some cd'
                         /\ myState cd' = DELETING).
Proof.
  intros Hf Hn Hlen. unfold updateFileNodeData.
  replace (length l <=? 1) with false by (symmetry; apply Nat.leb_gt; exact Hlen).
  set (w1 := update_node n (set_folderContentsKnown true) w).
  assert (Hn1 : heap w1 !! n = Some (set_folderContentsKnown true nd))
    by (unfold w1; rewrite lookup_update_node_eq, Hn; reflexivity).
  assert (R1 : heap_rel kin w w1) by (apply heap_rel_update; reflexivity).
  assert (X1 : heap_rel fixedPart w w1) by (apply heap_rel_update; reflexivity).
  assert (D1 : deletingStays w w1) by (apply deletingStays_update; reflexivity).
  assert (Hf1 : fresh w1) by (apply (fresh_rel _ _ _ R1); [reflexivity|exact Hf]).
  destruct (purgeUnmatchedChildren_spec n l w1 _ Hn1) as (R2 & S2 & D2 & U2).
  set (w2 := purgeUnmatchedChildren n l w1) in *.
  cbn [childList set_folderContentsKnown] in R2, U2.
  set (kept := List.filter (keepChild l w1) (childList nd)) in *.
  assert (Ekept : kept = List.filter (keepChild l w) (childList nd))
    by (apply List.filter_ext; intros c; apply keepChild_rel, heap_rel_kin_fileData, R1).
  assert (Hn2' : heap (update_node n (set_childList kept) w1) !! n
                 = Some (set_childList kept (set_folderContentsKnown true nd)))
    by (rewrite lookup_update_node_eq, Hn1; reflexivity).
  destruct (heap_rel_Some _ _ _ _ _ R2 Hn2') as (nd2 & Hn2 & E2).
  assert (Hk2 : childList nd2 = kept) by (apply skel_childList in E2; exact E2).
  assert (F12 : heap_rel fileData w1 w2).
  { eapply heap_rel_trans; [|apply heap_rel_skel_fileData, R2].
    apply heap_rel_update. reflexivity. }
  assert (X12 : heap_rel fixedPart w1 w2).
  { eapply heap_rel_trans; [|apply heap_rel_skel_fixed, R2].
    apply heap_rel_update. reflexivity. }
  assert (Hf2 : fresh w2).
  { apply (fresh_rel _ _ _ F12); [apply statics_nextNode, S2|exact Hf1]. }
  assert (Hall2 : forall c, In c (childList nd2) -> keepChild l w2 c = true).
  { intros c Hc. rewrite Hk2 in Hc. apply filter_In in Hc. destruct Hc as [_ Hc].
    rewrite (keepChild_rel l w1 w2 c F12). exact Hc. }
  destruct (insertFile_fold_spec P n l l w2 nd2 Hf2 Hn2 ltac:(auto))
    as (nd3 & Hn3 & Hf3 & D3 & K3 & (extra & Hk3) & C3 & M3 & Cn3 & N3).
  set (w3 := fold_left (fun acc e => insertFile P n e acc) l w2) in *.
  specialize (M3 Hall2).
  rewrite Hn3.
  destruct (setNodeVisible_fold_spec (childList nd3) w3) as (B4 & S4 & D4 & V4 & T4 & _).
  set (w4 := fold_left (fun acc c => setNodeVisible c acc) (childList nd3) w3) in *.
  assert (R5 := recomputeNodeState_skel n w4).
  assert (S5 := recomputeNodeState_statics n w4).
  assert (D5 := deletingStays_recomputeNodeState n w4).
  set (w5 := recomputeNodeState n w4) in *.
  assert (R35 : heap_rel bones w3 w5).
  { eapply heap_rel_trans; [exact B4|apply heap_rel_skel_bones, R5]. }
  destruct (heap_rel_Some _ _ _ _ _ R35 Hn3) as (nd5 & Hn5 & E5).
  assert (Hk5 : childList nd5 = childList nd3) by (clear - E5; node_crush).
  assert (Dall : deletingStays w w5).
  { eapply deletingStays_trans; [exact D1|].
    eapply deletingStays_trans; [exact D2|].
    eapply deletingStays_trans; [exact D3|].
    eapply deletingStays_trans; [exact D4|exact D5]. }
  splits.
  - apply (fresh_rel _ _ _ R35); [|exact Hf3].
    rewrite (statics_nextNode _ _ S5), (statics_nextNode _ _ S4). reflexivity.
  - apply (synced_rel l w3 w5 n (heap_rel_bones_kin _ _ R35)).
    exists nd3. splits; [exact Hn3|exact C3|exact M3].
  - exact Dall.
  - eapply heap_keeps_trans; [apply heap_keeps_rel, X1|].
    eapply heap_keeps_trans; [apply heap_keeps_rel, X12|].
    eapply heap_keeps_trans; [apply heap_keeps_shell_fixed, K3|].
    apply heap_keeps_rel, heap_rel_bones_fixed, R35.
  - assert (H5 : connections w5 = connections w4)
      by (unfold statics in S5; congruence).
    assert (H4 : connections w4 = connections w3)
      by (unfold statics in S4; congruence).
    assert (H2 : connections w2 = connections w1)
      by (unfold statics in S2; congruence).
    rewrite H5, H4, Cn3, H2. reflexivity.
  - exists nd5. splits.
    + exact Hn5.
    + assert (E23 : folderContentsKnown nd3 = folderContentsKnown nd2).
      { destruct (K3 n nd2 Hn2) as (x & Hx & Ex). rewrite Hn3 in Hx.
        injection Hx as <-. clear - Ex. node_crush. }
      assert (E2' : folderContentsKnown nd2 = true) by (clear - E2; node_crush).
      assert (E5' : folderContentsKnown nd5 = folderContentsKnown nd3)
        by (clear - E5; node_crush).
      congruence.
    + exists extra. rewrite Hk5, Hk3, Hk2, Ekept. reflexivity.
    + intros c Hc. rewrite Hk5 in Hc.
      destruct (keepChild_present l w3 c (M3 c Hc)) as (cd3 & Hc3).
      destruct (T4 c cd3 Hc Hc3) as (cd4 & Hc4 & Hv4).
      destruct (heap_rel_Some _ _ _ _ _ (heap_rel_skel_outline _ _ R5) Hc4)
        as (cd5 & Hc5 & Eo).
      exists cd5. split; [exact Hc5|]. injection Eo as _ Eo. congruence.
    + intros c cd Hc Hcd Hm.
      destruct (heap_rel_Some _ _ _ _ _ (heap_rel_kin_fileData _ _ R1) Hcd)
        as (cd1 & Hcd1 & Efd).
      destruct (U2 c cd1 Hc Hcd1 ltac:(congruence)) as (cd2 & Hcd2 & Hs2).
      assert (D25 : deletingStays w2 w5).
      { eapply deletingStays_trans; [exact D3|].
        eapply deletingStays_trans; [exact D4|exact D5]. }
      apply (D25 c cd2 Hcd2 Hs2).
Qed.

(** A listing of at most one entry: all children go. *)
Lemma updateFileNodeData_short P n l w nd :
  heap w !! n = Some nd -> length l <= 1 ->
  statics (updateFileNodeData P n l w) = statics w
  /\ deletingStays w (updateFileNodeData P n l w)
  /\ heap_rel fixedPart w (updateFileNodeData P n l w)
  /\ (forall c cd, In c (childList nd) -> heap w !! c = Some cd ->
        exists cd', heap (updateFileNodeData P n l w) !! c = Some cd'
                    /\ myState cd' = DELETING)
  /\ exists nd', heap (updateFileNodeData P n l w) !! n = Some nd'
       /\ childList nd' = [] /\ folderContentsKnown nd' = true.
Proof.
  intros Hn Hlen. unfold updateFileNodeData.
  replace (length l <=? 1) with true by (symmetry; apply Nat.leb_le; exact Hlen).
  set (w1 := update_node n (set_folderContentsKnown true) w).
  assert (Hn1 : heap w1 !! n = Some (set_folderContentsKnown true nd))
    by (unfold w1; rewrite lookup_update_node_eq, Hn; reflexivity).
  assert (X1 : heap_rel fixedPart w w1) by (apply heap_rel_update; reflexivity).
  assert (D1 : deletingStays w w1) by (apply deletingStays_update; reflexivity).
  destruct (clearAllChildren_spec n w1 _ Hn1) as (R2 & S2 & D2 & U2).
  set (w2 := clearAllChildren n w1) in *.
  assert (R3 := recomputeNodeState_skel n w2).
  assert (S3 := recomputeNodeState_statics n w2).
  assert (D3 := deletingStays_recomputeNodeState n w2).
  set (w3 := recomputeNodeState n w2) in *.
  assert (Hn2' : heap (update_node n (set_childList []) w1) !! n
                 = Some (set_childList [] (set_folderContentsKnown true nd)))
    by (rewrite lookup_update_node_eq, Hn1; reflexivity).
  assert (R13 : heap_rel skel (update_node n (set_childList []) w1) w3)
    by (eapply heap_rel_trans; eassumption).
  destruct (heap_rel_Some _ _ _ _ _ R13 Hn2') as (nd3 & Hn3 & E3).
  splits.
  - rewrite S3, S2. reflexivity.
  - eapply deletingStays_trans; [exact D1|].
    eapply deletingStays_trans; [exact D2|exact D3].
  - eapply heap_rel_trans; [exact X1|].
    eapply heap_rel_trans; [|apply heap_rel_skel_fixed, R13].
    apply heap_rel_update. reflexivity.
  - intros c cd Hc Hcd.
    assert (Hc1 : exists cd1, heap w1 !! c = Some cd1).
    { unfold w1. rewrite lookup_update_node. destruct (decide (n = c));
        rewrite Hcd; simpl; eauto. }
    destruct Hc1 as (cd1 & Hcd1).
    destruct (U2 c cd1 Hc Hcd1) as (cd2 & Hcd2 & Hs2).
    apply (D3 c cd2 Hcd2 Hs2).
  - exists nd3. split; [exact Hn3|]. clear - E3. split; node_crush.
Qed.

(** On a node that is in step with the listing, a further delivery of
    the listing neither removes nor adds a child. *)
Lemma updateFileNodeData_idem_long P n l w :
  synced l w n -> 1 < length l ->
  heap_rel kin w (updateFileNodeData P n l w)
  /\ nextNode (updateFileNodeData P n l w) = nextNode w.
Proof.
  intros Hs Hlen. unfold updateFileNodeData.
  replace (length l <=? 1) with false by (symmetry; apply Nat.leb_gt; exact Hlen).
  set (w1 := update_node n (set_folderContentsKnown true) w).
  assert (R1 : heap_rel kin w w1) by (apply heap_rel_update; reflexivity).
  destruct (synced_rel l w w1 n R1 Hs) as (nd1 & Hn1 & C1 & K1).
  destruct (purgeUnmatchedChildren_spec n l w1 _ Hn1) as (R2 & S2 & _ & _).
  set (w2 := purgeUnmatchedChildren n l w1) in *.
  rewrite (filter_all_true _ _ K1) in R2.
  rewrite update_node_id in R2
    by (intros x Hx; assert (x = nd1) by congruence; subst x; destruct nd1; reflexivity).
  assert (Hs2 : synced l w2 n).
  { apply (synced_rel l w1 w2 n (heap_rel_skel_kin _ _ R2)). exists nd1. auto. }
  destruct Hs2 as (nd2 & Hn2 & C2 & K2).
  rewrite (insertFile_fold_id P n l w2 nd2 Hn2 C2). rewrite Hn2.
  destruct (setNodeVisible_fold_spec (childList nd2) w2) as (B4 & S4 & _).
  set (w4 := fold_left (fun acc c => setNodeVisible c acc) (childList nd2) w2) in *.
  assert (R5 := recomputeNodeState_skel n w4).
  assert (S5 := recomputeNodeState_statics n w4).
  split.
  - eapply heap_rel_trans; [exact R1|].
    eapply heap_rel_trans; [apply heap_rel_skel_kin, R2|].
    eapply heap_rel_trans; [apply heap_rel_bones_kin, B4|].
    apply heap_rel_skel_kin, R5.
  - rewrite (statics_nextNode _ _ S5), (statics_nextNode _ _ S4),
      (statics_nextNode _ _ S2). reflexivity.
Qed.

(** * Worked examples

    A small tree on the concrete platform, built by the code itself. *)

(** * The claims *)

(** ** C1: the state table *)

(** C1.  For a node whose state is not [DELETING], [recomputeNodeState]
    leaves the node in the state that [stateTable] gives for its file
    type, its visibility, its pending tasks, whether it has children,
    whether the folder contents are known and whether a buffer is held:
    an invisible [DIR] is [FOLDER_SPECULATE_LOADING] with an ls task and
    [FOLDER_SPECULATE_IDLE] without; a visible [DIR] with an ls task is
    [FOLDER_CONTENTS_RELOADING] with children and [FOLDER_CONTENTS_LOADING]
    without; a visible [DIR] without ls task is [FOLDER_KNOWN_CONTENTS_NOT]
    when the contents are unknown and [FOLDER_CONTENTS_LOADED] otherwise;
    likewise for a [FILE] with the buffer task and the buffer; every other
    file type gives [ERROR].  For a node in state [DELETING] the call
    changes nothing at all. *)
Theorem recomputeNodeState_follows_table (w : World) (n : NodeId) (nd : FileTreeNode) :
  heap w !! n = Some nd ->
  (myState nd <> DELETING ->
   exists nd', heap (recomputeNodeState n w) !! n = Some nd'
     /\ myState nd'
        = stateTable (getFileType (fileData nd)) (nodeVisible nd) (haveLStask nd)
            (haveBuffTask nd) (hasChildren nd) (folderContentsKnown nd) (hasBuffer nd))
  /\ (myState nd = DELETING -> recomputeNodeState n w = w).
Proof.
  intros Hn. split.
  - intros Hd.
    destruct (recomputeNodeState_state n w nd Hn) as (nd' & Hn' & _ & Hs).
    exists nd'. split; [exact Hn'|].
    rewrite bool_decide_eq_false_2 in Hs by exact Hd. exact Hs.
  - intros Hd. rewrite (recomputeNodeState_unfold n w nd Hn).
    rewrite bool_decide_eq_true_2 by exact Hd. reflexivity.
Qed.

Lemma recomputeNodeState_follows_table_witness :
  heap exampleTree !! 2 = Some (nodeAt exampleTree 2)
  /\ myState (nodeAt exampleTree 2) <> DELETING
  /\ (exists nd', heap (recomputeNodeState 2 exampleTree) !! 2 = Some nd'
        /\ myState nd' = FOLDER_KNOWN_CONTENTS_NOT).
Proof.
  assert (H1 : heap exampleTree !! 2 = Some (nodeAt exampleTree 2))
    by (vm_compute; reflexivity).
  assert (H2 : myState (nodeAt exampleTree 2) <> DELETING)
    by (vm_compute; discriminate).
  splits; [exact H1|exact H2|].
  exact (proj1 (recomputeNodeState_follows_table exampleTree 2 (nodeAt exampleTree 2) H1) H2).
Defined.

(** The rows of the table, one by one. *)
Lemma stateTable_rows :
  (forall t b c k h, stateTable DIR false true t b c h = FOLDER_SPECULATE_LOADING
                     /\ stateTable DIR false false t b k h = FOLDER_SPECULATE_IDLE)
  /\ (forall t k h, stateTable DIR true true t true k h = FOLDER_CONTENTS_RELOADING
                    /\ stateTable DIR true true t false k h = FOLDER_CONTENTS_LOADING)
  /\ (forall t c h, stateTable DIR true false t c false h = FOLDER_KNOWN_CONTENTS_NOT
                    /\ stateTable DIR true false t c true h = FOLDER_CONTENTS_LOADED)
  /\ (forall t c k h, stateTable FILE false t true c k h = FILE_SPECULATE_LOADING
                      /\ stateTable FILE false t false c k h = FILE_SPECULATE_IDLE)
  /\ (forall t c k, stateTable FILE true t true c k true = FILE_BUFF_RELOADING
                    /\ stateTable FILE true t true c k false = FILE_BUFF_LOADING)
  /\ (forall t c k, stateTable FILE true t false c k false = FILE_KNOWN
                    /\ stateTable FILE true t false c k true = FILE_BUFF_LOADED)
  /\ (forall v t u c k h i, stateTable INVALID v t u c k h = ERROR
                            /\ stateTable (FileType_other i) v t u c k h = ERROR).
Proof. splits; intros; split; reflexivity. Qed.

(** ** C8: [DELETING] is final *)

Lemma runStateCall_deleting c w : deletingStays w (runStateCall c w).
Proof.
  destruct c as [m [s|]]; simpl.
  - apply deletingStays_changeNodeState.
  - apply deletingStays_recomputeNodeState.
Qed.

(** C8.  Once a node is in state [DELETING], any sequence of calls of
    [changeNodeState] and [recomputeNodeState] on it leaves the whole
    program state as it is: no state is written, no model item is
    recomputed, nothing is reported.  And whatever nodes such calls are made
    on, the node stays in state [DELETING]. *)
Theorem DELETING_is_absorbing (w : World) (n : NodeId) (nd : FileTreeNode) :
  heap w !! n = Some nd -> myState nd = DELETING ->
  (forall calls : list StateCall, runStateCalls (map (pair n) calls) w = w)
  /\ (forall calls : list (NodeId * StateCall),
        exists nd', heap (runStateCalls calls w) !! n = Some nd'
                    /\ myState nd' = DELETING).
Proof.
  intros Hn Hd. split.
  - induction calls as [|c calls IH]; [reflexivity|].
    unfold runStateCalls in *. cbn [map fold_left].
    assert (E : runStateCall (n, c) w = w).
    { destruct c as [s|]; cbn [runStateCall].
      - apply (changeNodeState_DELETING n s w nd Hn Hd).
      - rewrite (recomputeNodeState_unfold n w nd Hn).
        rewrite bool_decide_eq_true_2 by exact Hd. reflexivity. }
    rewrite E. exact IH.
  - intros calls. revert w nd Hn Hd.
    induction calls as [|c calls IH]; intros w nd Hn Hd.
    + exists nd. split; assumption.
    + unfold runStateCalls in *. cbn [fold_left].
      destruct (runStateCall_deleting c w n nd Hn Hd) as (nd1 & Hn1 & Hd1).
      apply (IH _ nd1 Hn1 Hd1).
Qed.

Lemma DELETING_is_absorbing_witness :
  heap exampleDeleted !! 1 = Some (nodeAt exampleDeleted 1)
  /\ myState (nodeAt exampleDeleted 1) = DELETING
  /\ (forall calls : list StateCall,
        runStateCalls (map (pair 1) calls) exampleDeleted = exampleDeleted)
  /\ (forall calls : list (NodeId * StateCall),
        exists nd', heap (runStateCalls calls exampleDeleted) !! 1 = Some nd'
                    /\ myState nd' = DELETING).
Proof.
  split; [vm_compute; reflexivity|].
  split; [vm_compute; reflexivity|].
  apply (DELETING_is_absorbing exampleDeleted 1 (nodeAt exampleDeleted 1));
    vm_compute; reflexivity.
Defined.

(** ** C6: setting a task *)

Lemma connect_disconnect_gone (old t n : NodeId) (slot0 slot : Slot) (cs : list Connection) :
  old <> t ->
  ~ In (old, n, slot)
      (List.filter (fun c : Connection =>
                      negb (Nat.eqb (fst (fst c)) old && Nat.eqb (snd (fst c)) n)) cs
       ++ [(t, n, slot0)]).
Proof.
  intros Hne Hin. apply in_app_or in Hin. destruct Hin as [Hin|[Hin|[]]].
  - apply filter_In in Hin. destruct Hin as [_ Hin]. simpl in Hin.
    rewrite !Nat.eqb_refl in Hin. discriminate.
  - congruence.
Qed.

(** C6.  [setLStask] with a null task, or on a node that is not a [DIR],
    changes nothing, so the ls task and the state stay as they are; so does
    [setBuffTask] with a null task or on a node that is not a [FILE].  A
    task that is not null, on a node of the matching type, becomes the
    node's task, is connected to the node, a previous task is disconnected
    from it, and the state is recomputed with the new task pending. *)
Theorem setTask_guards (w : World) (n : NodeId) (nd : FileTreeNode) (t : TaskId) :
  heap w !! n = Some nd ->
  (setLStask n None w = w
   /\ (getFileType (fileData nd) <> DIR -> setLStask n (Some t) w = w)
   /\ (getFileType (fileData nd) = DIR ->
       exists nd', heap (setLStask n (Some t) w) !! n = Some nd'
         /\ lsTask nd' = Some t
         /\ In (t, n, SLOT_deliverLSdata) (connections (setLStask n (Some t) w))
         /\ (forall old slot, lsTask nd = Some old -> old <> t ->
               ~ In (old, n, slot) (connections (setLStask n (Some t) w)))
         /\ myState nd' = (if bool_decide (myState nd = DELETING) then DELETING
                           else computedState (set_lsTask (Some t) nd))))
  /\ (setBuffTask n None w = w
      /\ (getFileType (fileData nd) <> FILE -> setBuffTask n (Some t) w = w)
      /\ (getFileType (fileData nd) = FILE ->
          exists nd', heap (setBuffTask n (Some t) w) !! n = Some nd'
            /\ bufferTask nd' = Some t
            /\ In (t, n, SLOT_deliverBuffData) (connections (setBuffTask n (Some t) w))
            /\ (forall old slot, bufferTask nd = Some old -> old <> t ->
                  ~ In (old, n, slot) (connections (setBuffTask n (Some t) w)))
            /\ myState nd' = (if bool_decide (myState nd = DELETING) then DELETING
                              else computedState (set_bufferTask (Some t) nd)))).
Proof.
  intros Hn. split.
  - unfold setLStask. rewrite Hn. splits.
    + reflexivity.
    + intros Hty. rewrite bool_decide_eq_false_2 by exact Hty. reflexivity.
    + intros Hty. rewrite bool_decide_eq_true_2 by exact Hty. cbn [negb].
      set (w1 := match lsTask nd with Some old => disconnect old n w | None => w end).
      assert (Hh1 : heap w1 = heap w) by (unfold w1; destruct (lsTask nd); reflexivity).
      set (w3 := connect t n SLOT_deliverLSdata (update_node n (set_lsTask (Some t)) w1)).
      assert (Hn3 : heap w3 !! n = Some (set_lsTask (Some t) nd)).
      { unfold w3. simpl. rewrite Hh1, lookup_alter_eq, Hn. reflexivity. }
      destruct (recomputeNodeState_state n w3 _ Hn3) as (nd' & Hn' & Esk & Hs).
      assert (Hc : connections (recomputeNodeState n w3)
                   = connections w1 ++ [(t, n, SLOT_deliverLSdata)]).
      { assert (H := recomputeNodeState_statics n w3). unfold statics in H.
        injection H as _ H _. rewrite H. reflexivity. }
      exists nd'. splits.
      * exact Hn'.
      * clear - Esk. node_crush.
      * rewrite Hc. apply in_or_app. right. left. reflexivity.
      * intros old slot Hold Hne. rewrite Hc. unfold w1. rewrite Hold.
        apply connect_disconnect_gone. exact Hne.
      * exact Hs.
  - unfold setBuffTask. rewrite Hn. splits.
    + reflexivity.
    + intros Hty. rewrite bool_decide_eq_false_2 by exact Hty. reflexivity.
    + intros Hty. rewrite bool_decide_eq_true_2 by exact Hty. cbn [negb].
      set (w1 := match bufferTask nd with Some old => disconnect old n w | None => w end).
      assert (Hh1 : heap w1 = heap w) by (unfold w1; destruct (bufferTask nd); reflexivity).
      set (w3 := connect t n SLOT_deliverBuffData
                   (update_node n (set_bufferTask (Some t)) w1)).
      assert (Hn3 : heap w3 !! n = Some (set_bufferTask (Some t) nd)).
      { unfold w3. simpl. rewrite Hh1, lookup_alter_eq, Hn. reflexivity. }
      destruct (recomputeNodeState_state n w3 _ Hn3) as (nd' & Hn' & Esk & Hs).
      assert (Hc : connections (recomputeNodeState n w3)
                   = connections w1 ++ [(t, n, SLOT_deliverBuffData)]).
      { assert (H := recomputeNodeState_statics n w3). unfold statics in H.
        injection H as _ H _. rewrite H. reflexivity. }
      exists nd'. splits.
      * exact Hn'.
      * clear - Esk. node_crush.
      * rewrite Hc. apply in_or_app. right. left. reflexivity.
      * intros old slot Hold Hne. rewrite Hc. unfold w1. rewrite Hold.
        apply connect_disconnect_gone. exact Hne.
      * exact Hs.
Qed.

Lemma setTask_guards_witness :
  heap exampleTree !! 2 = Some (nodeAt exampleTree 2)
  /\ (exists nd', heap (setLStask 2 (Some 9) exampleTree) !! 2 = Some nd'
                  /\ lsTask nd' = Some 9)
  /\ setBuffTask 2 (Some 9) exampleTree = exampleTree.
Proof.
  split; [vm_compute; reflexivity|].
  destruct (setTask_guards exampleTree 2 (nodeAt exampleTree 2) 9 ltac:(vm_compute; reflexivity))
    as ((_ & _ & HLS) & (_ & HBuff & _)).
  split.
  - destruct (HLS ltac:(vm_compute; reflexivity)) as (nd' & H1 & H2 & _).
    exists nd'. split; assumption.
  - apply HBuff. vm_compute. discriminate.
Defined.

(** ** C5: what a reply does first *)

Lemma updateFileNodeData_keeps_fixed P n l w nd :
  fresh w -> heap w !! n = Some nd ->
  heap_keeps fixedPart w (updateFileNodeData P n l w).
Proof.
  intros Hf Hn. destruct (le_lt_dec (length l) 1) as [Hlen|Hlen].
  - apply heap_keeps_rel. apply (updateFileNodeData_short P n l w nd Hn Hlen).
  - apply (updateFileNodeData_long P n l w nd Hf Hn Hlen).
Qed.

Lemma setFileBuffer_bones n b w :
  heap_rel bones (update_node n (set_fileDataBuffer b) w) (setFileBuffer n b w).
Proof.
  unfold setFileBuffer.
  eapply heap_rel_trans; [apply setNodeVisible_bones|].
  apply heap_rel_skel_bones, recomputeNodeState_skel.
Qed.

(** C5.  Every reply handed to [deliverLSdata] or [deliverBuffData] finds
    the node without the pending task afterwards, and what follows in the
    handler already sees the task as gone.  A reply in state
    [FILE_NOT_FOUND] leaves the node in state [DELETING].  A reply in a
    state other than [GOOD] and [FILE_NOT_FOUND] leaves the child list, the
    knowledge of the folder contents and the file buffer as they were; the
    state is the recomputed one. *)
Theorem deliver_clears_task_first (P : Platform) (w : World) (n : NodeId)
    (nd : FileTreeNode) (taskState : RequestState) :
  fresh w -> heap w !! n = Some nd ->
  (forall dataList,
     exists nd', heap (deliverLSdata P n taskState dataList w) !! n = Some nd'
       /\ lsTask nd' = None
       /\ (taskState = FILE_NOT_FOUND -> myState nd' = DELETING)
       /\ (taskState <> GOOD -> taskState <> FILE_NOT_FOUND ->
           childList nd' = childList nd
           /\ folderContentsKnown nd' = folderContentsKnown nd
           /\ fileDataBuffer nd' = fileDataBuffer nd
           /\ myState nd' = (if bool_decide (myState nd = DELETING) then DELETING
                             else computedState (set_lsTask None nd))))
  /\ (forall bufferData,
        exists nd', heap (deliverBuffData n taskState bufferData w) !! n = Some nd'
          /\ bufferTask nd' = None
          /\ (taskState = FILE_NOT_FOUND -> myState nd' = DELETING)
          /\ (taskState <> GOOD -> taskState <> FILE_NOT_FOUND ->
              childList nd' = childList nd
              /\ folderContentsKnown nd' = folderContentsKnown nd
              /\ fileDataBuffer nd' = fileDataBuffer nd
              /\ myState nd' = (if bool_decide (myState nd = DELETING) then DELETING
                                else computedState (set_bufferTask None nd)))).
Proof.
  intros Hf Hn. split.
  - intros dataList. unfold deliverLSdata.
    set (w1 := update_node n (set_lsTask None) w).
    assert (Hn1 : heap w1 !! n = Some (set_lsTask None nd))
      by (unfold w1; rewrite lookup_update_node_eq, Hn; reflexivity).
    assert (Hf1 : fresh w1).
    { apply (fresh_rel fileData w w1); [apply heap_rel_update; reflexivity
                                       |reflexivity|exact Hf]. }
    destruct taskState as [| |k].
    + destruct (verifyControlNode P n dataList w1); cbn [negb].
      * destruct (updateFileNodeData_keeps_fixed P n dataList w1 _ Hf1 Hn1 n _ Hn1)
          as (nd' & Hn' & E).
        exists nd'. splits; [exact Hn'| |discriminate|congruence].
        clear - E. node_crush.
      * destruct (recomputeNodeState_state n w1 _ Hn1) as (nd' & Hn' & E & _).
        exists nd'. splits; [exact Hn'| |discriminate|congruence].
        clear - E. node_crush.
    + destruct (changeNodeState_state n DELETING w1 _ Hn1) as (nd' & Hn' & E & Hs).
      exists nd'. splits; [exact Hn'| | |congruence].
      * clear - E. node_crush.
      * intros _. rewrite Hs. destruct (bool_decide _); reflexivity.
    + destruct (recomputeNodeState_state n w1 _ Hn1) as (nd' & Hn' & E & Hs).
      exists nd'. splits; [exact Hn'| |discriminate|].
      * clear - E. node_crush.
      * intros _ _. splits; [clear - E; node_crush ..|exact Hs].
  - intros bufferData. unfold deliverBuffData.
    set (w1 := update_node n (set_bufferTask None) w).
    assert (Hn1 : heap w1 !! n = Some (set_bufferTask None nd))
      by (unfold w1; rewrite lookup_update_node_eq, Hn; reflexivity).
    destruct taskState as [| |k].
    + assert (Hgood : forall b,
                exists nd', heap (setFileBuffer n b w1) !! n = Some nd'
                            /\ bufferTask nd' = None).
      { intros b.
        assert (Hn2 : heap (update_node n (set_fileDataBuffer b) w1) !! n
                      = Some (set_fileDataBuffer b (set_bufferTask None nd)))
          by (rewrite lookup_update_node_eq, Hn1; reflexivity).
        destruct (heap_rel_Some _ _ _ _ _ (setFileBuffer_bones n b w1) Hn2)
          as (nd' & Hn' & E).
        exists nd'. split; [exact Hn'|]. clear - E. node_crush. }
      destruct bufferData as [b|];
        [destruct (Hgood (Some b)) as (nd' & Hn' & Ht)
        |destruct (Hgood None) as (nd' & Hn' & Ht)];
        exists nd'; splits; first [exact Hn'|exact Ht|discriminate|congruence].
    + destruct (changeNodeState_state n DELETING w1 _ Hn1) as (nd' & Hn' & E & Hs).
      exists nd'. splits; [exact Hn'| | |congruence].
      * clear - E. node_crush.
      * intros _. rewrite Hs. destruct (bool_decide _); reflexivity.
    + destruct (recomputeNodeState_state n w1 _ Hn1) as (nd' & Hn' & E & Hs).
      exists nd'. splits; [exact Hn'| |discriminate|].
      * clear - E. node_crush.
      * intros _ _. splits; [clear - E; node_crush ..|exact Hs].
Qed.

Lemma fresh_check w :
  bool_decide (map_Forall (fun (k : NodeId) (_ : FileTreeNode) => k < nextNode w) (heap w))
  = true ->
  fresh w.
Proof.
  intros H m [nd Hm]. apply bool_decide_eq_true in H. exact (H m nd Hm).
Qed.

Lemma exampleTree_fresh : fresh exampleTree.
Proof. apply fresh_check. vm_compute. reflexivity. Qed.

Lemma deliver_clears_task_first_witness :
  fresh exampleTree
  /\ heap exampleTree !! 1 = Some (nodeAt exampleTree 1)
  /\ (exists nd', heap (deliverLSdata slashPlatform 1 (RequestState_other 0) [] exampleTree)
                    !! 1 = Some nd'
                  /\ lsTask nd' = None)
  /\ (exists nd', heap (deliverBuffData 1 FILE_NOT_FOUND None exampleTree) !! 1 = Some nd'
                  /\ myState nd' = DELETING).
Proof.
  split; [exact exampleTree_fresh|].
  split; [vm_compute; reflexivity|].
  split.
  - destruct (deliver_clears_task_first slashPlatform exampleTree 1 (nodeAt exampleTree 1)
                (RequestState_other 0) exampleTree_fresh ltac:(vm_compute; reflexivity))
      as (HLS & _).
    destruct (HLS []) as (nd' & H1 & H2 & _). exists nd'. split; assumption.
  - destruct (deliver_clears_task_first slashPlatform exampleTree 1 (nodeAt exampleTree 1)
                FILE_NOT_FOUND exampleTree_fresh ltac:(vm_compute; reflexivity))
      as (_ & HB).
    destruct (HB None) as (nd' & H1 & _ & H3 & _). exists nd'. split; [exact H1|].
    apply H3. reflexivity.
Defined.

(** ** C9: delivering a listing twice *)

(** C9.  After [updateFileNodeData] has applied a listing to a node, a
    second call with the same listing leaves the child list of the node,
    and the child lists and file data of all nodes, as they are, and creates
    no node.  [insertFile] creates nothing for an entry that some child
    matches in full path and file type.  The children that
    [purgeUnmatchedChildren] keeps are the matched ones in their previous
    order. *)
Theorem updateFileNodeData_twice (P : Platform) (w : World) (n : NodeId)
    (nd : FileTreeNode) (l : list FileMetaData) :
  fresh w -> heap w !! n = Some nd ->
  (childList <$> heap (updateFileNodeData P n l (updateFileNodeData P n l w)) !! n
   = childList <$> heap (updateFileNodeData P n l w) !! n
   /\ heap_rel kin (updateFileNodeData P n l w)
        (updateFileNodeData P n l (updateFileNodeData P n l w))
   /\ nextNode (updateFileNodeData P n l (updateFileNodeData P n l w))
      = nextNode (updateFileNodeData P n l w))
  /\ (forall e, hasMatch e w (childList nd) = true -> insertFile P n e w = w)
  /\ (exists nd', heap (purgeUnmatchedChildren n l w) !! n = Some nd'
        /\ childList nd' = List.filter (keepChild l w) (childList nd)).
Proof.
  intros Hf Hn. split; [|split].
  - assert (Hrel : heap_rel kin (updateFileNodeData P n l w)
                     (updateFileNodeData P n l (updateFileNodeData P n l w))
                   /\ nextNode (updateFileNodeData P n l (updateFileNodeData P n l w))
                      = nextNode (updateFileNodeData P n l w)).
    { destruct (le_lt_dec (length l) 1) as [Hlen|Hlen].
      - destruct (updateFileNodeData_short P n l w nd Hn Hlen)
          as (_ & _ & _ & _ & nd1 & Hn1 & Hk1 & Hc1).
        set (w1 := updateFileNodeData P n l w) in *.
        unfold updateFileNodeData.
        replace (length l <=? 1) with true by (symmetry; apply Nat.leb_le; exact Hlen).
        set (w2 := update_node n (set_folderContentsKnown true) w1).
        assert (Hn2 : heap w2 !! n = Some (set_folderContentsKnown true nd1))
          by (unfold w2; rewrite lookup_update_node_eq, Hn1; reflexivity).
        assert (R2 : heap_rel kin w1 w2) by (apply heap_rel_update; reflexivity).
        destruct (clearAllChildren_spec n w2 _ Hn2) as (R3 & S3 & _).
        rewrite update_node_id in R3.
        2:{ intros x Hx. assert (x = set_folderContentsKnown true nd1) by congruence.
            subst x. destruct nd1; simpl in *; subst; reflexivity. }
        split.
        + eapply heap_rel_trans; [exact R2|].
          eapply heap_rel_trans; [apply heap_rel_skel_kin, R3|].
          apply heap_rel_skel_kin, recomputeNodeState_skel.
        + rewrite (statics_nextNode _ _ (recomputeNodeState_statics _ _)).
          rewrite (statics_nextNode _ _ S3). reflexivity.
      - destruct (updateFileNodeData_long P n l w nd Hf Hn Hlen) as (_ & Hs & _).
        apply (updateFileNodeData_idem_long P n l _ Hs Hlen). }
    destruct Hrel as [Hrel Hnext]. splits; [|exact Hrel|exact Hnext].
    specialize (Hrel n).
    destruct (heap (updateFileNodeData P n l (updateFileNodeData P n l w)) !! n),
      (heap (updateFileNodeData P n l w) !! n);
      cbn [fmap option_fmap option_map] in *; try discriminate; try reflexivity.
    f_equal. injection Hrel as H _. exact H.
  - intros e He. rewrite (insertFile_cases P n e w nd Hn).
    unfold covered. rewrite He, orb_true_r. reflexivity.
  - destruct (purgeUnmatchedChildren_spec n l w nd Hn) as (R & _).
    assert (Hn' : heap (update_node n (set_childList
                          (List.filter (keepChild l w) (childList nd))) w) !! n
                  = Some (set_childList (List.filter (keepChild l w) (childList nd)) nd))
      by (rewrite lookup_update_node_eq, Hn; reflexivity).
    destruct (heap_rel_Some _ _ _ _ _ R Hn') as (nd' & Hnd' & E).
    exists nd'. split; [exact Hnd'|]. apply skel_childList in E. exact E.
Qed.

Lemma updateFileNodeData_twice_witness :
  fresh exampleTree
  /\ heap exampleTree !! 0 = Some (nodeAt exampleTree 0)
  /\ childList
       <$> heap (updateFileNodeData slashPlatform 0 exampleListing
                   (updateFileNodeData slashPlatform 0 exampleListing exampleTree)) !! 0
     = childList
         <$> heap (updateFileNodeData slashPlatform 0 exampleListing exampleTree) !! 0.
Proof.
  split; [exact exampleTree_fresh|].
  split; [vm_compute; reflexivity|].
  apply (updateFileNodeData_twice slashPlatform exampleTree 0 (nodeAt exampleTree 0)
           exampleListing exampleTree_fresh).
  vm_compute; reflexivity.
Defined.

(** ** Invariants of the store *)

Lemma ordered_rel w w' : heap_rel myParent w w' -> ordered w -> ordered w'.
Proof.
  intros H Ho n nd' p Hn Hp.
  destruct (heap_rel_Some_inv _ _ _ _ _ H Hn) as (nd & Hnd & E).
  apply (Ho n nd p Hnd). congruence.
Qed.

Lemma Inv_tame w w' :
  heap_rel outline w w' -> nextNode w' = nextNode w -> Inv w -> Inv w'.
Proof.
  intros H Hnext (Hf & Ho & Hp & Hok). unfold Inv. splits.
  - apply (fresh_rel _ _ _ H Hnext Hf).
  - apply (ordered_rel _ _ (heap_rel_outline_parent _ _ H) Ho).
  - apply (parentsAlive_rel _ _ (heap_rel_outline_parent _ _ H) Hp).
  - intros m. apply (okAt_outline _ _ _ H), Hok.
Qed.

Lemma heap_rel_shell_outline w w' : heap_rel shell w w' -> heap_rel outline w w'.
Proof. apply heap_rel_weaken with (h := outline). reflexivity. Qed.

Lemma Inv_update n g w :
  (forall x, outline (g x) = outline x) -> Inv w -> Inv (update_node n g w).
Proof.
  intros Hg. apply Inv_tame; [|reflexivity]. apply heap_rel_update, Hg.
Qed.

Lemma Inv_changeNodeState n s w : Inv w -> Inv (changeNodeState n s w).
Proof.
  apply Inv_tame.
  - apply heap_rel_skel_outline, changeNodeState_skel.
  - apply statics_nextNode, changeNodeState_statics.
Qed.

Lemma Inv_recomputeNodeState n w : Inv w -> Inv (recomputeNodeState n w).
Proof.
  apply Inv_tame.
  - apply heap_rel_skel_outline, recomputeNodeState_skel.
  - apply statics_nextNode, recomputeNodeState_statics.
Qed.

Lemma Inv_recomputeModelItems n w : Inv w -> Inv (recomputeModelItems n w).
Proof.
  apply Inv_tame.
  - apply heap_rel_core_outline, recomputeModelItems_core.
  - apply statics_nextNode, recomputeModelItems_statics.
Qed.

Lemma Inv_purgeModelItems n w : Inv w -> Inv (purgeModelItems n w).
Proof.
  apply Inv_tame.
  - apply heap_rel_core_outline, purgeModelItems_core.
  - apply statics_nextNode, purgeModelItems_statics.
Qed.

Lemma Inv_updateModelItems n b w : Inv w -> Inv (updateModelItems n b w).
Proof.
  apply Inv_tame.
  - apply heap_rel_core_outline, updateModelItems_core.
  - apply statics_nextNode, updateModelItems_statics.
Qed.

Lemma Inv_setNodeVisible n w : Inv w -> Inv (setNodeVisible n w).
Proof.
  intros (Hf & Ho & Hp & Hok).
  destruct (setNodeVisible_spec n w) as (B & S & _ & O & _).
  assert (Hpar := heap_rel_bones_parent _ _ B). unfold Inv. splits.
  - apply (fresh_rel _ _ _ B (statics_nextNode _ _ S) Hf).
  - apply (ordered_rel _ _ Hpar Ho).
  - apply (parentsAlive_rel _ _ Hpar Hp).
  - intros m. apply O, Hok.
Qed.

Lemma clearAllChildren_shell n w : heap_rel shell w (clearAllChildren n w).
Proof.
  destruct (heap w !! n) as [nd|] eqn:Hn.
  - destruct (clearAllChildren_spec n w nd Hn) as (R & _).
    eapply heap_rel_trans; [|apply heap_rel_skel_shell, R].
    apply heap_rel_update. reflexivity.
  - unfold clearAllChildren. rewrite Hn. apply heap_rel_refl.
Qed.

Lemma clearAllChildren_statics n w : statics (clearAllChildren n w) = statics w.
Proof.
  destruct (heap w !! n) as [nd|] eqn:Hn.
  - apply (clearAllChildren_spec n w nd Hn).
  - unfold clearAllChildren. rewrite Hn. reflexivity.
Qed.

Lemma purgeUnmatchedChildren_shell n l w : heap_rel shell w (purgeUnmatchedChildren n l w).
Proof.
  destruct (heap w !! n) as [nd|] eqn:Hn.
  - destruct (purgeUnmatchedChildren_spec n l w nd Hn) as (R & _).
    eapply heap_rel_trans; [|apply heap_rel_skel_shell, R].
    apply heap_rel_update. reflexivity.
  - unfold purgeUnmatchedChildren. rewrite Hn. apply heap_rel_refl.
Qed.

Lemma purgeUnmatchedChildren_statics n l w :
  statics (purgeUnmatchedChildren n l w) = statics w.
Proof.
  destruct (heap w !! n) as [nd|] eqn:Hn.
  - apply (purgeUnmatchedChildren_spec n l w nd Hn).
  - unfold purgeUnmatchedChildren. rewrite Hn. reflexivity.
Qed.

Lemma Inv_clearAllChildren n w : Inv w -> Inv (clearAllChildren n w).
Proof.
  apply Inv_tame.
  - apply heap_rel_shell_outline, clearAllChildren_shell.
  - apply statics_nextNode, clearAllChildren_statics.
Qed.

Lemma Inv_purgeUnmatchedChildren n l w : Inv w -> Inv (purgeUnmatchedChildren n l w).
Proof.
  apply Inv_tame.
  - apply heap_rel_shell_outline, purgeUnmatchedChildren_shell.
  - apply statics_nextNode, purgeUnmatchedChildren_statics.
Qed.

Lemma Inv_newChildNode P e n w nd :
  heap w !! n = Some nd -> Inv w -> Inv (newChildNode P e n w).
Proof.
  intros Hn (Hf & Ho & Hp & Hok).
  assert (Hnn : n <> nextNode w).
  { intros ->. rewrite fresh_nextNode in Hn by exact Hf. discriminate. }
  assert (Hlt : n < nextNode w) by (apply Hf; eexists; exact Hn).
  assert (Hlk := fun m => newChildNode_lookup P e n w m Hnn).
  (* the outline of every node of the new store *)
  assert (Hout : forall m md',
            heap (newChildNode P e n w) !! m = Some md' ->
            (m = nextNode w /\ myParent md' = Some n /\ nodeVisible md' = false)
            \/ (m <> nextNode w /\ exists md, heap w !! m = Some md
                  /\ outline md' = outline md)).
  { intros m md' Hm. specialize (Hlk m). rewrite Hm in Hlk.
    destruct (decide (m = nextNode w)) as [->|Hmn].
    - left. split; [reflexivity|].
      assert (E : skel md' = skel (childNode_initial P e n w))
        by (cbn [fmap option_fmap option_map] in Hlk; congruence).
      clear - E. unfold childNode_initial in E. split; node_crush.
    - right. split; [exact Hmn|].
      destruct (heap w !! m) as [md|] eqn:Hmd;
        [|case_decide; discriminate].
      exists md. split; [reflexivity|].
      case_decide; cbn [fmap option_fmap option_map] in Hlk;
        assert (E : skel md' = skel md \/
                    skel md' = skel (set_childList (childList md ++ [nextNode w]) md))
          by (first [left; congruence | right; congruence]);
        clear - E; destruct E as [E|E]; node_crush. }
  assert (Hin : forall m md, heap w !! m = Some md ->
            exists md', heap (newChildNode P e n w) !! m = Some md'
                        /\ outline md' = outline md).
  { intros m md Hm.
    destruct (insertFile_spec P n e w nd Hf Hn) as (_ & _ & _ & _).
    assert (Hmn : m <> nextNode w).
    { intros ->. rewrite fresh_nextNode in Hm by exact Hf. discriminate. }
    specialize (Hlk m). rewrite decide_False in Hlk by exact Hmn. rewrite Hm in Hlk.
    destruct (heap (newChildNode P e n w) !! m) as [md'|] eqn:Hmd';
      [|case_decide; discriminate].
    exists md'. split; [reflexivity|].
    destruct (Hout m md' Hmd') as [(E & _)|(_ & md0 & Hmd0 & E)]; [congruence|].
    congruence. }
  unfold Inv. splits.
  - apply newChildNode_fresh; assumption.
  - intros m md' p Hm Hpar.
    destruct (Hout m md' Hm) as [(-> & Hp' & _)|(_ & md & Hmd & E)].
    + assert (p = n) by congruence. subst p. exact Hlt.
    + injection E as E1 E2. apply (Ho m md p Hmd). congruence.
  - intros m md' p Hm Hpar.
    destruct (Hout m md' Hm) as [(-> & Hp' & _)|(_ & md & Hmd & E)].
    + assert (p = n) by congruence. subst p.
      destruct (Hin n nd Hn) as (x & Hx & _). eexists; exact Hx.
    + injection E as E1 E2.
      destruct (Hp m md p Hmd ltac:(congruence)) as [pd Hpd].
      destruct (Hin p pd Hpd) as (x & Hx & _). eexists; exact Hx.
  - intros m md' p pd' Hm Hpar Hpd Hv.
    destruct (Hout m md' Hm) as [(-> & _ & Hv')|(_ & md & Hmd & E)]; [congruence|].
    injection E as E1 E2.
    destruct (Hout p pd' Hpd) as [(-> & _)|(_ & pd & Hpd0 & E')].
    + assert (Hlt' : nextNode w < m) by (apply (Ho m md (nextNode w) Hmd); congruence).
      assert (m < nextNode w) by (apply Hf; eexists; exact Hmd). lia.
    + injection E' as E1' E2'. rewrite E2'.
      apply (Hok m md p pd Hmd); congruence.
Qed.

Lemma Inv_insertFile P n e w : Inv w -> Inv (insertFile P n e w).
Proof.
  intros HI. destruct (heap w !! n) as [nd|] eqn:Hn.
  - rewrite (insertFile_cases P n e w nd Hn).
    destruct (covered e w (childList nd)); [exact HI|].
    apply (Inv_newChildNode P e n w nd Hn HI).
  - unfold insertFile. rewrite Hn. destruct (String.eqb _ _); exact HI.
Qed.

Lemma Inv_fold {A} (f : World -> A -> World) (l : list A) :
  (forall w a, Inv w -> Inv (f w a)) -> forall w, Inv w -> Inv (fold_left f l w).
Proof.
  intros Hf. induction l as [|a l IH]; intros w HI; [exact HI|].
  simpl. apply IH, Hf, HI.
Qed.

Lemma Inv_updateFileNodeData P n l w : Inv w -> Inv (updateFileNodeData P n l w).
Proof.
  intros HI. unfold updateFileNodeData.
  assert (H1 : Inv (update_node n (set_folderContentsKnown true) w))
    by (apply Inv_update; [reflexivity|exact HI]).
  destruct (length l <=? 1).
  - apply Inv_recomputeNodeState, Inv_clearAllChildren, H1.
  - apply Inv_recomputeNodeState.
    apply (Inv_fold (fun acc c => setNodeVisible c acc)).
    + intros. apply Inv_setNodeVisible. assumption.
    + apply (Inv_fold (fun acc e => insertFile P n e acc)).
      * intros. apply Inv_insertFile. assumption.
      * apply Inv_purgeUnmatchedChildren, H1.
Qed.

Lemma Inv_deliverLSdata P n st l w : Inv w -> Inv (deliverLSdata P n st l w).
Proof.
  intros HI. unfold deliverLSdata.
  assert (H1 : Inv (update_node n (set_lsTask None) w))
    by (apply Inv_update; [reflexivity|exact HI]).
  destruct st.
  - destruct (negb _).
    + apply Inv_recomputeNodeState, H1.
    + apply Inv_updateFileNodeData, H1.
  - apply Inv_changeNodeState, H1.
  - apply Inv_recomputeNodeState, H1.
Qed.

Lemma Inv_setFileBuffer n b w : Inv w -> Inv (setFileBuffer n b w).
Proof.
  intros HI. unfold setFileBuffer.
  apply Inv_recomputeNodeState, Inv_setNodeVisible, Inv_update; [reflexivity|exact HI].
Qed.

Lemma Inv_deliverBuffData n st b w : Inv w -> Inv (deliverBuffData n st b w).
Proof.
  intros HI. unfold deliverBuffData.
  assert (H1 : Inv (update_node n (set_bufferTask None) w))
    by (apply Inv_update; [reflexivity|exact HI]).
  destruct st.
  - destruct b; apply Inv_setFileBuffer, H1.
  - apply Inv_changeNodeState, H1.
  - apply Inv_recomputeNodeState, H1.
Qed.

Lemma Inv_same_heap w w' :
  heap w' = heap w -> nextNode w' = nextNode w -> Inv w -> Inv w'.
Proof.
  intros Hh Hn. apply Inv_tame; [|exact Hn]. intros m. rewrite Hh. reflexivity.
Qed.

Lemma Inv_setLStask n t w : Inv w -> Inv (setLStask n t w).
Proof.
  intros HI. unfold setLStask.
  destruct (heap w !! n) as [nd|]; [|exact HI].
  destruct t as [t|]; [|exact HI].
  destruct (negb _); [exact HI|].
  apply Inv_recomputeNodeState.
  apply (Inv_same_heap (update_node n (set_lsTask (Some t))
                          match lsTask nd with
                          | Some old => disconnect old n w
                          | None => w
                          end)); [reflexivity|reflexivity|].
  apply Inv_update; [reflexivity|].
  destruct (lsTask nd); [|exact HI].
  apply (Inv_same_heap w); [reflexivity|reflexivity|exact HI].
Qed.

Lemma Inv_setBuffTask n t w : Inv w -> Inv (setBuffTask n t w).
Proof.
  intros HI. unfold setBuffTask.
  destruct (heap w !! n) as [nd|]; [|exact HI].
  destruct t as [t|]; [|exact HI].
  destruct (negb _); [exact HI|].
  apply Inv_recomputeNodeState.
  apply (Inv_same_heap (update_node n (set_bufferTask (Some t))
                          match bufferTask nd with
                          | Some old => disconnect old n w
                          | None => w
                          end)); [reflexivity|reflexivity|].
  apply Inv_update; [reflexivity|].
  destruct (bufferTask nd); [|exact HI].
  apply (Inv_same_heap w); [reflexivity|reflexivity|exact HI].
Qed.

Lemma Inv_deleteFolderContentsData n w : Inv w -> Inv (deleteFolderContentsData n w).
Proof.
  intros HI. unfold deleteFolderContentsData.
  apply Inv_clearAllChildren, Inv_update; [reflexivity|exact HI].
Qed.

(** ** Creating a root node *)

Lemma newRootNode_lookup P name w m :
  skel <$> heap (newRootNode P name w) !! m
  = skel <$> (if decide (m = nextNode w) then Some (rootNode_initial P name w)
              else heap w !! m).
Proof.
  unfold newRootNode.
  rewrite (recomputeNodeState_skel (nextNode w) _ m).
  unfold settimestamps, allocate.
  rewrite !lookup_update_node. simpl.
  rewrite lookup_alter, lookup_insert.
  destruct (decide (m = nextNode w)) as [->|Hm].
  - rewrite !decide_True by reflexivity. reflexivity.
  - rewrite !decide_False by congruence.
    rewrite lookup_insert_ne by congruence. reflexivity.
Qed.

Lemma newRootNode_nextNode P name w : nextNode (newRootNode P name w) = S (nextNode w).
Proof.
  unfold newRootNode.
  rewrite (statics_nextNode _ _ (recomputeNodeState_statics _ _)). reflexivity.
Qed.

(** The root node after its construction. *)
Lemma newRootNode_node P name w :
  exists nd, heap (newRootNode P name w) !! nextNode w = Some nd
    /\ myParent nd = None
    /\ nodeVisible nd = true
    /\ getFileType (fileData nd) = DIR
    /\ getFullPath (fileData nd) = removeDoubleSlashes P ("/" ++ name)
    /\ childList nd = []
    /\ folderContentsKnown nd = false
    /\ lsTask nd = None
    /\ myState nd = FOLDER_KNOWN_CONTENTS_NOT.
Proof.
  unfold newRootNode.
  set (w4 := update_node (nextNode w) (set_nodeVisible true) _).
  assert (Hn4 : heap w4 !! nextNode w = Some (rootNode_initial P name w)).
  { unfold w4, settimestamps, allocate. rewrite !lookup_update_node. simpl.
    rewrite lookup_alter, lookup_insert.
    rewrite !decide_True by reflexivity. reflexivity. }
  destruct (recomputeNodeState_state _ w4 _ Hn4) as (nd & Hnd & E & Hs).
  exists nd. split; [exact Hnd|].
  unfold rootNode_initial in E.
  assert (Ecomp : computedState (rootNode_initial P name w) = FOLDER_KNOWN_CONTENTS_NOT)
    by reflexivity.
  rewrite bool_decide_eq_false_2 in Hs by discriminate. rewrite Ecomp in Hs.
  unfold getFileType, getFullPath.
  splits;
    first [exact Hs
          | clear - E; node_crush; fail
          | clear - E; node_crush; injection E; intros; subst; reflexivity].
Qed.

Lemma Inv_newRootNode P name w : Inv w -> Inv (newRootNode P name w).
Proof.
  intros (Hf & Ho & Hp & Hok).
  assert (Hlk := newRootNode_lookup P name w).
  assert (Hout : forall m md',
            heap (newRootNode P name w) !! m = Some md' ->
            (m = nextNode w /\ myParent md' = None)
            \/ (m <> nextNode w /\ exists md, heap w !! m = Some md
                  /\ outline md' = outline md)).
  { intros m md' Hm. specialize (Hlk m). rewrite Hm in Hlk.
    destruct (decide (m = nextNode w)) as [->|Hmn].
    - left. split; [reflexivity|].
      assert (E : skel md' = skel (rootNode_initial P name w))
        by (cbn [fmap option_fmap option_map] in Hlk; congruence).
      clear - E. unfold rootNode_initial in E. node_crush.
    - right. split; [exact Hmn|].
      destruct (heap w !! m) as [md|] eqn:Hmd; [|discriminate].
      exists md. split; [reflexivity|].
      assert (E : skel md' = skel md)
        by (cbn [fmap option_fmap option_map] in Hlk; congruence).
      clear - E. node_crush. }
  assert (Hin : forall m md, heap w !! m = Some md ->
            exists md', heap (newRootNode P name w) !! m = Some md').
  { intros m md Hm.
    assert (Hmn : m <> nextNode w).
    { intros ->. rewrite fresh_nextNode in Hm by exact Hf. discriminate. }
    specialize (Hlk m). rewrite decide_False in Hlk by exact Hmn. rewrite Hm in Hlk.
    destruct (heap (newRootNode P name w) !! m) as [md'|]; [eauto|discriminate]. }
  unfold Inv. splits.
  - intros m [md' Hm]. rewrite newRootNode_nextNode.
    destruct (Hout m md' Hm) as [(-> & _)|(_ & md & Hmd & _)]; [lia|].
    assert (m < nextNode w) by (apply Hf; eexists; exact Hmd). lia.
  - intros m md' p Hm Hpar.
    destruct (Hout m md' Hm) as [(_ & Hnone)|(_ & md & Hmd & E)]; [congruence|].
    injection E as E1 E2. apply (Ho m md p Hmd). congruence.
  - intros m md' p Hm Hpar.
    destruct (Hout m md' Hm) as [(_ & Hnone)|(_ & md & Hmd & E)]; [congruence|].
    injection E as E1 E2.
    destruct (Hp m md p Hmd ltac:(congruence)) as [pd Hpd].
    destruct (Hin p pd Hpd) as (x & Hx). eexists; exact Hx.
  - intros m md' p pd' Hm Hpar Hpd Hv.
    destruct (Hout m md' Hm) as [(_ & Hnone)|(_ & md & Hmd & E)]; [congruence|].
    injection E as E1 E2.
    destruct (Hout p pd' Hpd) as [(-> & _)|(_ & pd & Hpd0 & E')].
    + assert (Hlt' : nextNode w < m) by (apply (Ho m md (nextNode w) Hmd); congruence).
      assert (m < nextNode w) by (apply Hf; eexists; exact Hmd). lia.
    + injection E' as E1' E2'. rewrite E2'.
      apply (Hok m md p pd Hmd); congruence.
Qed.

(** ** C10: visibility is closed upwards *)

Lemma Inv_emptyWorld hs : Inv (emptyWorld hs).
Proof.
  unfold Inv, fresh, ordered, parentsAlive, okAt, emptyWorld. simpl.
  splits; intros *; rewrite ?lookup_empty; try discriminate.
  intros [x Hx]. discriminate.
Qed.

Lemma Inv_runCall P c w : Inv w -> Inv (runCall P c w).
Proof.
  destruct c; simpl.
  - apply Inv_newRootNode.
  - apply Inv_setLStask.
  - apply Inv_setBuffTask.
  - apply Inv_setFileBuffer.
  - apply Inv_deleteFolderContentsData.
  - apply Inv_deliverLSdata.
  - apply Inv_deliverBuffData.
  - apply Inv_setNodeVisible.
  - apply Inv_changeNodeState.
  - apply Inv_recomputeNodeState.
  - apply Inv_recomputeModelItems.
  - apply Inv_purgeModelItems.
  - apply Inv_updateModelItems.
  - apply Inv_updateFileNodeData.
  - apply Inv_clearAllChildren.
  - apply Inv_insertFile.
  - apply Inv_purgeUnmatchedChildren.
Qed.

Lemma reachable_Inv P hs w : reachable P hs w -> Inv w.
Proof.
  induction 1 as [|w c _ IH]; [apply Inv_emptyWorld|apply Inv_runCall, IH].
Qed.

(** C10.  In every program state the methods lead to, a visible node that
    has a parent has a visible parent.  It is so because a root node comes
    out of its constructor visible and without parent, a child node comes
    out of its constructor invisible, and [setNodeVisible] leaves the node
    it is called on visible, in a state that again has the property. *)
Theorem visibility_closed_upwards (P : Platform) (hs : list string) (w : World) :
  reachable P hs w ->
  (forall (n : NodeId) nd (p : NodeId),
     heap w !! n = Some nd -> myParent nd = Some p -> nodeVisible nd = true ->
     exists pd, heap w !! p = Some pd /\ nodeVisible pd = true)
  /\ (forall name,
        exists nd, heap (newRootNode P name w) !! nextNode w = Some nd
                   /\ myParent nd = None /\ nodeVisible nd = true)
  /\ (forall e (n : NodeId) nd,
        heap w !! n = Some nd ->
        exists cd, heap (newChildNode P e n w) !! nextNode w = Some cd
                   /\ myParent cd = Some n /\ nodeVisible cd = false)
  /\ (forall (n : NodeId) nd,
        heap w !! n = Some nd ->
        exists nd', heap (setNodeVisible n w) !! n = Some nd'
                    /\ nodeVisible nd' = true).
Proof.
  intros Hr. assert (HI := reachable_Inv P hs w Hr).
  destruct HI as (Hf & Ho & Hp & Hok). splits.
  - intros n nd p Hn Hpar Hv.
    destruct (Hp n nd p Hn Hpar) as [pd Hpd].
    exists pd. split; [exact Hpd|]. apply (Hok n nd p pd Hn Hpar Hpd Hv).
  - intros name.
    destruct (newRootNode_node P name w) as (nd & H1 & H2 & H3 & _).
    exists nd. auto.
  - intros e n nd Hn.
    assert (Hnn : n <> nextNode w).
    { intros ->. rewrite fresh_nextNode in Hn by exact Hf. discriminate. }
    assert (Hlk := newChildNode_lookup P e n w (nextNode w) Hnn).
    rewrite decide_True in Hlk by reflexivity.
    destruct (heap (newChildNode P e n w) !! nextNode w) as [cd|]; [|discriminate].
    exists cd. split; [reflexivity|].
    assert (E : skel cd = skel (childNode_initial P e n w))
      by (cbn [fmap option_fmap option_map] in Hlk; congruence).
    clear - E. unfold childNode_initial in E. split; node_crush.
  - intros n nd Hn.
    destruct (setNodeVisible_spec n w) as (_ & _ & _ & _ & Hvis & _).
    apply (Hvis nd Hn).
Qed.

Lemma reachable_newRootNode P hs name w :
  reachable P hs w -> reachable P hs (newRootNode P name w).
Proof. intros H. exact (reachable_call P hs w (Call_newRootNode name) H). Qed.

Lemma reachable_setLStask P hs n t w :
  reachable P hs w -> reachable P hs (setLStask n t w).
Proof. intros H. exact (reachable_call P hs w (Call_setLStask n t) H). Qed.

Lemma reachable_deliverLSdata P hs n st l w :
  reachable P hs w -> reachable P hs (deliverLSdata P n st l w).
Proof. intros H. exact (reachable_call P hs w (Call_deliverLSdata n st l) H). Qed.

Lemma exampleTree_reachable : reachable slashPlatform exampleHeaders exampleTree.
Proof.
  unfold exampleTree, exampleRoot.
  apply reachable_deliverLSdata, reachable_setLStask, reachable_newRootNode.
  apply reachable_start.
Qed.

Lemma visibility_closed_upwards_witness :
  reachable slashPlatform exampleHeaders exampleTree
  /\ (forall (n : NodeId) nd (p : NodeId),
        heap exampleTree !! n = Some nd -> myParent nd = Some p ->
        nodeVisible nd = true ->
        exists pd, heap exampleTree !! p = Some pd /\ nodeVisible pd = true).
Proof.
  split; [exact exampleTree_reachable|].
  exact (proj1 (visibility_closed_upwards slashPlatform exampleHeaders exampleTree
                  exampleTree_reachable)).
Defined.

(** ** C7: the tree fills up only when listings arrive *)

Lemma heap_rel_dom {B} (f : FileTreeNode -> B) w w' :
  heap_rel f w w' -> dom (heap w') = dom (heap w).
Proof.
  intros H. apply set_eq. intros m. rewrite !elem_of_dom.
  rewrite <- (fmap_is_Some f (heap w' !! m)), <- (fmap_is_Some f (heap w !! m)).
  rewrite (H m). reflexivity.
Qed.

Lemma quiet_refl w : quiet w w.
Proof. split; reflexivity. Qed.

Lemma quiet_trans w1 w2 w3 : quiet w1 w2 -> quiet w2 w3 -> quiet w1 w3.
Proof. intros [H1 H2] [H3 H4]. split; congruence. Qed.

Lemma quiet_rel {B} (f : FileTreeNode -> B) w w' :
  heap_rel f w w' -> statics w' = statics w -> quiet w w'.
Proof.
  intros H S. split; [apply (heap_rel_dom f), H|apply statics_nextNode, S].
Qed.

Lemma quiet_update n g w : quiet w (update_node n g w).
Proof.
  apply (quiet_rel (fun _ => tt)); [|reflexivity].
  intros m. rewrite lookup_update_node.
  destruct (decide (n = m)); [|reflexivity]. destruct (heap w !! m); reflexivity.
Qed.

Lemma quiet_changeNodeState n s w : quiet w (changeNodeState n s w).
Proof. apply (quiet_rel skel); [apply changeNodeState_skel|apply changeNodeState_statics]. Qed.

Lemma quiet_recomputeNodeState n w : quiet w (recomputeNodeState n w).
Proof.
  apply (quiet_rel skel); [apply recomputeNodeState_skel|apply recomputeNodeState_statics].
Qed.

Lemma quiet_setNodeVisible n w : quiet w (setNodeVisible n w).
Proof.
  apply (quiet_rel bones); [apply setNodeVisible_bones|apply setNodeVisible_statics].
Qed.

Lemma quiet_clearAllChildren n w : quiet w (clearAllChildren n w).
Proof.
  apply (quiet_rel shell); [apply clearAllChildren_shell|apply clearAllChildren_statics].
Qed.

Lemma quiet_purgeUnmatchedChildren n l w : quiet w (purgeUnmatchedChildren n l w).
Proof.
  apply (quiet_rel shell);
    [apply purgeUnmatchedChildren_shell|apply purgeUnmatchedChildren_statics].
Qed.

Lemma quiet_setFileBuffer n b w : quiet w (setFileBuffer n b w).
Proof.
  unfold setFileBuffer.
  eapply quiet_trans; [apply quiet_update|].
  eapply quiet_trans; [apply quiet_setNodeVisible|apply quiet_recomputeNodeState].
Qed.

Lemma quiet_same_heap w w' :
  heap w' = heap w -> nextNode w' = nextNode w -> quiet w w'.
Proof. intros Hh Hn. split; [rewrite Hh; reflexivity|exact Hn]. Qed.

Lemma quiet_setLStask n t w : quiet w (setLStask n t w).
Proof.
  unfold setLStask.
  destruct (heap w !! n) as [nd|]; [|apply quiet_refl].
  destruct t as [t|]; [|apply quiet_refl].
  destruct (negb _); [apply quiet_refl|].
  eapply quiet_trans; [|apply quiet_recomputeNodeState].
  eapply quiet_trans; [|apply quiet_same_heap; reflexivity].
  eapply quiet_trans; [|apply quiet_update].
  destruct (lsTask nd); [apply quiet_same_heap; reflexivity|apply quiet_refl].
Qed.

Lemma quiet_setBuffTask n t w : quiet w (setBuffTask n t w).
Proof.
  unfold setBuffTask.
  destruct (heap w !! n) as [nd|]; [|apply quiet_refl].
  destruct t as [t|]; [|apply quiet_refl].
  destruct (negb _); [apply quiet_refl|].
  eapply quiet_trans; [|apply quiet_recomputeNodeState].
  eapply quiet_trans; [|apply quiet_same_heap; reflexivity].
  eapply quiet_trans; [|apply quiet_update].
  destruct (bufferTask nd); [apply quiet_same_heap; reflexivity|apply quiet_refl].
Qed.

Lemma quiet_deliverBuffData n st b w : quiet w (deliverBuffData n st b w).
Proof.
  unfold deliverBuffData.
  eapply quiet_trans; [apply (quiet_update n (set_bufferTask None))|].
  destruct st.
  - destruct b; apply quiet_setFileBuffer.
  - apply quiet_changeNodeState.
  - apply quiet_recomputeNodeState.
Qed.

Lemma classic_root (c : Call) :
  (exists name, c = Call_newRootNode name) \/ (forall name, c <> Call_newRootNode name).
Proof. destruct c; first [left; eexists; reflexivity | right; intros; discriminate]. Qed.

(** A reply that is not good, or fails the check of the control node,
    adds nothing. *)
Lemma quiet_deliverLSdata_unapplied P n st l w :
  st <> GOOD \/ verifyControlNode P n l (update_node n (set_lsTask None) w) = false ->
  quiet w (deliverLSdata P n st l w).
Proof.
  intros H. unfold deliverLSdata.
  eapply quiet_trans; [apply (quiet_update n (set_lsTask None))|].
  destruct st.
  - destruct H as [H|H]; [congruence|]. rewrite H. apply quiet_recomputeNodeState.
  - apply quiet_changeNodeState.
  - apply quiet_recomputeNodeState.
Qed.

Lemma quiet_runCall P c w :
  deliversListing c = false ->
  (forall name, c <> Call_newRootNode name) ->
  quiet w (runCall P c w).
Proof.
  intros Hc Hroot. destruct c; simpl in *; try discriminate.
  - exfalso. apply (Hroot rootFolderName). reflexivity.
  - apply quiet_setLStask.
  - apply quiet_setBuffTask.
  - apply quiet_setFileBuffer.
  - apply quiet_trans with (w2 := update_node n (set_folderContentsKnown false) w);
      [apply quiet_update|apply quiet_clearAllChildren].
  - apply quiet_deliverLSdata_unapplied. left. destruct taskState; congruence.
  - apply quiet_deliverBuffData.
  - apply quiet_setNodeVisible.
  - apply quiet_changeNodeState.
  - apply quiet_recomputeNodeState.
  - apply (quiet_rel core); [apply recomputeModelItems_core|apply recomputeModelItems_statics].
  - apply (quiet_rel core); [apply purgeModelItems_core|apply purgeModelItems_statics].
  - apply (quiet_rel core); [apply updateModelItems_core|apply updateModelItems_statics].
  - apply quiet_clearAllChildren.
  - apply quiet_purgeUnmatchedChildren.
Qed.

(** C7.  The tree is filled lazily.  A root node made from a folder name is
    a visible directory without parent, its full path is ["/"] followed by
    the name with double slashes removed, it has no children and unknown
    folder contents, and its state is [FOLDER_KNOWN_CONTENTS_NOT].  A node
    that has a parent only ever appears in the store through a call that
    delivers a listing; every other call, and a reply that is not good or
    fails the check of the control node, leaves the set of nodes as it is.
    A good reply that passes the check with at most one entry leaves the
    node without children, all its former children in state [DELETING], and
    the folder contents known. *)
Theorem tree_is_lazily_populated (P : Platform) :
  (forall w name,
     exists nd, heap (newRootNode P name w) !! nextNode w = Some nd
       /\ myParent nd = None
       /\ nodeVisible nd = true
       /\ getFileType (fileData nd) = DIR
       /\ getFullPath (fileData nd) = removeDoubleSlashes P ("/" ++ name)
       /\ childList nd = []
       /\ folderContentsKnown nd = false
       /\ myState nd = FOLDER_KNOWN_CONTENTS_NOT)
  /\ (forall w c (m : NodeId) md' (p : NodeId),
        deliversListing c = false ->
        heap (runCall P c w) !! m = Some md' -> myParent md' = Some p ->
        is_Some (heap w !! m))
  /\ (forall w n st l,
        st <> GOOD
        \/ verifyControlNode P n l (update_node n (set_lsTask None) w) = false ->
        dom (heap (deliverLSdata P n st l w)) = dom (heap w)
        /\ nextNode (deliverLSdata P n st l w) = nextNode w)
  /\ (forall w (n : NodeId) nd l,
        heap w !! n = Some nd -> length l <= 1 ->
        verifyControlNode P n l (update_node n (set_lsTask None) w) = true ->
        exists nd', heap (deliverLSdata P n GOOD l w) !! n = Some nd'
          /\ childList nd' = []
          /\ folderContentsKnown nd' = true
          /\ (forall (c : NodeId) cd, In c (childList nd) -> heap w !! c = Some cd ->
                exists cd', heap (deliverLSdata P n GOOD l w) !! c = Some cd'
                            /\ myState cd' = DELETING)).
Proof.
  splits.
  - intros w name.
    destruct (newRootNode_node P name w)
      as (nd & H1 & H2 & H3 & H4 & H5 & H6 & H7 & _ & H9).
    exists nd. splits; assumption.
  - intros w c m md' p Hc Hm Hp.
    destruct (classic_root c) as [[name ->]|Hroot].
    + simpl in Hm. assert (Hlk := newRootNode_lookup P name w m). rewrite Hm in Hlk.
      destruct (decide (m = nextNode w)) as [->|Hmn].
      * exfalso.
        assert (E : skel md' = skel (rootNode_initial P name w))
          by (cbn [fmap option_fmap option_map] in Hlk; congruence).
        clear - E Hp. unfold rootNode_initial in E. node_crush.
      * destruct (heap w !! m); [eexists; reflexivity|discriminate].
    + destruct (quiet_runCall P c w Hc Hroot) as [Hdom _].
      apply elem_of_dom. rewrite <- Hdom. apply elem_of_dom. eexists; exact Hm.
  - intros w n st l H. apply (quiet_deliverLSdata_unapplied P n st l w H).
  - intros w n nd l Hn Hlen Hv. unfold deliverLSdata. rewrite Hv. cbn [negb].
    set (w1 := update_node n (set_lsTask None) w).
    assert (Hn1 : heap w1 !! n = Some (set_lsTask None nd))
      by (unfold w1; rewrite lookup_update_node_eq, Hn; reflexivity).
    destruct (updateFileNodeData_short P n l w1 _ Hn1 Hlen)
      as (_ & _ & _ & Hdel & nd' & Hn' & Hk & Hc).
    exists nd'. splits; try assumption.
    intros c cd Hin Hcd.
    assert (Hc1 : exists cd1, heap w1 !! c = Some cd1).
    { unfold w1. rewrite lookup_update_node. destruct (decide (n = c));
        rewrite Hcd; simpl; eauto. }
    destruct Hc1 as (cd1 & Hcd1). apply (Hdel c cd1 Hin Hcd1).
Qed.

Lemma tree_is_lazily_populated_witness :
  heap exampleTree !! 0 = Some (nodeAt exampleTree 0)
  /\ length [mkFileMetaData "/r/." "." "/r" DIR 0] <= 1
  /\ verifyControlNode slashPlatform 0 [mkFileMetaData "/r/." "." "/r" DIR 0]
       (update_node 0 (set_lsTask None) exampleTree) = true
  /\ exists nd',
       heap (deliverLSdata slashPlatform 0 GOOD [mkFileMetaData "/r/." "." "/r" DIR 0]
               exampleTree) !! 0 = Some nd'
       /\ childList nd' = []
       /\ folderContentsKnown nd' = true.
Proof.
  split; [vm_compute; reflexivity|].
  split; [simpl; lia|].
  split; [vm_compute; reflexivity|].
  destruct (tree_is_lazily_populated slashPlatform) as (_ & _ & _ & H).
  destruct (H exampleTree 0 (nodeAt exampleTree 0) [mkFileMetaData "/r/." "." "/r" DIR 0]
              ltac:(vm_compute; reflexivity) ltac:(simpl; lia)
              ltac:(vm_compute; reflexivity))
    as (nd' & H1 & H2 & H3 & _).
  exists nd'. splits; assumption.
Defined.

(** ** The item model *)

Lemma find_row_Some r l x : find_row r l = Some x -> In x l /\ row_id x = r.
Proof.
  unfold find_row. intros H. apply find_some in H. destruct H as [H1 H2].
  split; [exact H1|]. apply Nat.eqb_eq. exact H2.
Qed.

Lemma find_row_None r l : find_row r l = None <-> ~ In r (row_ids l).
Proof.
  unfold find_row, row_ids. split.
  - intros H Hin. apply in_map_iff in Hin. destruct Hin as (x & Hx & Hin).
    assert (H0 := find_none _ _ H x Hin). simpl in H0.
    apply Nat.eqb_neq in H0. congruence.
  - intros H. destruct (List.find _ l) as [x|] eqn:F; [|reflexivity].
    exfalso. apply find_some in F. destruct F as [F1 F2].
    apply H. apply in_map_iff. exists x. split; [|exact F1].
    apply Nat.eqb_eq. exact F2.
Qed.

Lemma isValid_gone i r m : rowOf i = Some r -> gone r m -> isValid i m = false.
Proof.
  intros Hi [_ Hg]. destruct i as [[r' c]|]; [|discriminate].
  simpl in Hi. injection Hi as ->.
  unfold isValid, resolve. apply find_row_None in Hg. rewrite Hg. reflexivity.
Qed.

(** A row sits at its own position under its own parent. *)
Lemma position_nth r l : forall x,
  find_row r l = Some x ->
  exists k, position_under (row_parent x) r l = Some k
            /\ nth_child k (row_parent x) l = Some r.
Proof.
  induction l as [|y l IH]; intros x Hx; [discriminate|].
  unfold find_row in Hx. simpl in Hx. simpl.
  destruct (row_id y =? r) eqn:E.
  - injection Hx as <-. exists 0. split; [reflexivity|].
    unfold same_parent. rewrite bool_decide_eq_true_2 by reflexivity.
    apply Nat.eqb_eq in E. congruence.
  - destruct (IH x Hx) as (k & Hk1 & Hk2).
    destruct (same_parent (row_parent x) y).
    + exists (S k). rewrite Hk1. split; [reflexivity|exact Hk2].
    + exists k. split; assumption.
Qed.

Lemma drop_rows_dead : forall l dead d,
  In d dead -> ~ In d (row_ids (drop_rows dead l)).
Proof.
  induction l as [|y l IH]; intros dead d Hd; [intros []|].
  simpl. destruct (_ || _) eqn:E.
  - apply IH. right. exact Hd.
  - simpl. intros [H|H].
    + apply orb_false_iff in E. destruct E as [E _].
      apply bool_decide_eq_false in E. apply E. rewrite H. apply list_elem_of_In, Hd.
    + exact (IH dead d Hd H).
Qed.

Lemma drop_rows_sub : forall l dead x, In x (drop_rows dead l) -> In x l.
Proof.
  induction l as [|y l IH]; intros dead x H; [exact H|].
  simpl in H. destruct (_ || _).
  - right. exact (IH _ _ H).
  - destruct H as [H|H]; [left; exact H|right; exact (IH _ _ H)].
Qed.

Lemma drop_rows_ids l dead r :
  ~ In r (row_ids l) -> ~ In r (row_ids (drop_rows dead l)).
Proof.
  intros H Hin. apply H. unfold row_ids in *. apply in_map_iff in Hin.
  destruct Hin as (x & Hx & Hin). apply in_map_iff. exists x.
  split; [exact Hx|exact (drop_rows_sub _ _ _ Hin)].
Qed.

(** Removing row [q] and what hangs under it leaves the older rows. *)
Lemma drop_rows_older q r : forall l dead x,
  (forall d, In d dead -> q <= d) ->
  (forall y p, In y l -> row_parent y = Some p -> p < row_id y) ->
  r < q ->
  find_row r l = Some x -> find_row r (drop_rows dead l) = Some x.
Proof.
  induction l as [|y l IH]; intros dead x Hdead Hord Hrq Hx; [discriminate|].
  unfold find_row in Hx. simpl in Hx. simpl.
  assert (Hord' : forall z p, In z l -> row_parent z = Some p -> p < row_id z)
    by (intros z p Hz; apply Hord; right; exact Hz).
  destruct (row_id y =? r) eqn:E.
  - injection Hx as <-. apply Nat.eqb_eq in E.
    replace (bool_decide (row_id y ∈ dead) || _) with false.
    + unfold find_row. simpl. rewrite E, Nat.eqb_refl. reflexivity.
    + symmetry. apply orb_false_iff. split.
      * apply bool_decide_eq_false. intros Hin. apply list_elem_of_In in Hin.
        specialize (Hdead _ Hin). lia.
      * destruct (row_parent y) as [p|] eqn:Hp; [|reflexivity].
        apply bool_decide_eq_false. intros Hin. apply list_elem_of_In in Hin.
        specialize (Hdead _ Hin).
        assert (p < row_id y) by (apply (Hord y p); [left; reflexivity|exact Hp]). lia.
  - destruct (_ || _) eqn:D.
    + apply IH; try assumption.
      intros d [<-|Hd]; [|apply Hdead, Hd].
      apply orb_true_iff in D. destruct D as [D|D].
      * apply bool_decide_eq_true in D. apply list_elem_of_In in D. apply Hdead, D.
      * destruct (row_parent y) as [p|] eqn:Hp; [|discriminate].
        apply bool_decide_eq_true in D. apply list_elem_of_In in D.
        specialize (Hdead _ D).
        assert (p < row_id y) by (apply (Hord y p); [left; reflexivity|exact Hp]). lia.
    + unfold find_row. simpl. rewrite E. apply IH; assumption.
Qed.

Lemma modelStep_refl m : modelStep m m.
Proof. split; [lia|auto]. Qed.

Lemma modelStep_trans m1 m2 m3 : modelStep m1 m2 -> modelStep m2 m3 -> modelStep m1 m3.
Proof.
  intros [H1 H2] [H3 H4]. split; [lia|].
  intros r Hr Hn. apply H4; [lia|]. apply H2; assumption.
Qed.

Lemma gone_step r m m' : modelStep m m' -> gone r m -> gone r m'.
Proof. intros [H1 H2] [G1 G2]. split; [lia|apply H2; assumption]. Qed.

Lemma modelStep_remove_child k p m : modelStep m (remove_child k p m).
Proof.
  unfold remove_child. destruct k as [k|]; [|apply modelStep_refl].
  destruct (nth_child k p (rows m)); [|apply modelStep_refl].
  split; [simpl; lia|]. intros r _ Hr. simpl. apply drop_rows_ids, Hr.
Qed.

Lemma modelStep_removeRow k i m : modelStep m (removeRow k i m).
Proof. apply modelStep_remove_child. Qed.

Lemma modelStep_item_removeRow i k m : modelStep m (item_removeRow i k m).
Proof.
  unfold item_removeRow. destruct (resolve i m);
    [apply modelStep_remove_child|apply modelStep_refl].
Qed.

Lemma modelStep_append_row p items m : modelStep m (fst (append_row p items m)).
Proof.
  split; [simpl; lia|]. intros r Hr Hn. simpl. unfold row_ids.
  rewrite map_app, in_app_iff. simpl. intros [H|[H|[]]]; [exact (Hn H)|lia].
Qed.

Lemma modelStep_item_appendRow i items m : modelStep m (fst (item_appendRow i items m)).
Proof.
  unfold item_appendRow. destruct (resolve i m); [|apply modelStep_refl].
  apply (modelStep_append_row (Some n) items m).
Qed.

Lemma updateText_ids i fd m : row_ids (rows (updateText i fd m)) = row_ids (rows m).
Proof.
  unfold updateText. destruct i as [[r c]|]; [|reflexivity].
  simpl. unfold row_ids. rewrite map_map. apply map_ext.
  intros x. destruct (row_id x =? r); reflexivity.
Qed.

Lemma modelStep_updateText i fd m : modelStep m (updateText i fd m).
Proof.
  split.
  - destruct i as [[r c]|]; simpl; lia.
  - intros r _ Hr. rewrite updateText_ids. exact Hr.
Qed.

Lemma modelStep_fold_updateText fd : forall l m,
  modelStep m (fold_left (fun m i => updateText i fd m) l m).
Proof.
  induction l as [|i l IH]; intros m; [apply modelStep_refl|].
  simpl. eapply modelStep_trans; [apply modelStep_updateText|apply IH].
Qed.

Lemma purgeModelItems_modelStep n w :
  modelStep (myModel w) (myModel (purgeModelItems n w)).
Proof.
  unfold purgeModelItems.
  destruct (heap w !! n) as [nd|]; [|apply modelStep_refl].
  destruct (modelItemList nd) as [|i0 rest]; [apply modelStep_refl|].
  cbn [myModel update_node set_heap set_myModel].
  eapply modelStep_trans with
    (m2 := if isValid (decendantPlaceholderItem nd) (myModel w)
           then removeRow (index_row (decendantPlaceholderItem nd) (myModel w))
                  (first (i0 :: rest)) (myModel w)
           else myModel w).
  - destruct (isValid _ _); [apply modelStep_removeRow|apply modelStep_refl].
  - destruct (isValid (index_parent _ _) _); apply modelStep_removeRow.
Qed.

Lemma updateModelItems_modelStep n b w :
  modelStep (myModel w) (myModel (updateModelItems n b w)).
Proof.
  unfold updateModelItems.
  destruct (heap w !! n) as [nd|]; [|apply modelStep_refl].
  set (created := match modelItemList nd with [] => _ | _ :: _ => _ end).
  assert (Hc : match created with
               | Some (m1, _) => modelStep (myModel w) m1
               | None => True
               end).
  { unfold created. destruct (modelItemList nd) as [|i0 rest].
    - destruct (myParent nd) as [p|].
      + match goal with
        | |- context [item_appendRow ?i ?items ?m] =>
            assert (H := modelStep_item_appendRow i items m);
            destruct (item_appendRow i items m) as [m1 [r|]]
        end; [exact H|exact I].
      + apply (modelStep_append_row None).
    - apply modelStep_fold_updateText. }
  destruct created as [[m1 items]|]; [|apply modelStep_refl].
  set (removed := if isValid (decendantPlaceholderItem nd) m1 then _ else _).
  assert (Hr : modelStep m1 (fst removed)).
  { unfold removed. destruct (isValid _ m1);
      [apply modelStep_item_removeRow|apply modelStep_refl]. }
  destruct removed as [m2 ph2]. simpl in Hr.
  assert (H12 : modelStep (myModel w) m2) by (eapply modelStep_trans; eassumption).
  destruct (negb _); [exact H12|].
  destruct (anyChildVisible w (childList nd)); [exact H12|].
  match goal with
  | |- context [item_appendRow ?i ?items ?m] =>
      assert (H := modelStep_item_appendRow i items m);
      destruct (item_appendRow i items m) as [m3 [r|]]
  end; simpl in *; eapply modelStep_trans; eassumption.
Qed.

Lemma recomputeModelItems_modelStep n w :
  modelStep (myModel w) (myModel (recomputeModelItems n w)).
Proof.
  unfold recomputeModelItems.
  destruct (heap w !! n) as [nd|]; [|apply modelStep_refl].
  destruct (myState nd);
    first [apply modelStep_refl | apply purgeModelItems_modelStep
          | apply updateModelItems_modelStep].
Qed.

(** The item-model methods of a node leave the other nodes alone. *)
Lemma purgeModelItems_other p n w :
  p <> n -> heap (purgeModelItems p w) !! n = heap w !! n.
Proof.
  intros Hne. unfold purgeModelItems.
  destruct (heap w !! p) as [pd|]; [|reflexivity].
  destruct (modelItemList pd); [reflexivity|].
  rewrite lookup_update_node_ne by exact Hne. reflexivity.
Qed.

Lemma updateModelItems_other p b n w :
  p <> n -> heap (updateModelItems p b w) !! n = heap w !! n.
Proof.
  intros Hne.
  destruct (updateModelItems_shape p b w) as [->|(l & ph & m & ->)]; [reflexivity|].
  rewrite lookup_update_node_ne by exact Hne. reflexivity.
Qed.

Lemma recomputeModelItems_other p n w :
  p <> n -> heap (recomputeModelItems p w) !! n = heap w !! n.
Proof.
  intros Hne. unfold recomputeModelItems.
  destruct (heap w !! p) as [pd|]; [|reflexivity].
  destruct (myState pd);
    first [reflexivity | apply purgeModelItems_other, Hne
          | apply updateModelItems_other, Hne].
Qed.

(** ** The indices of the nodes fit the item model in every state

    Rows are numbered in the order of their creation, so the list of rows
    is sorted by identifier, and a row that stays has a parent that
    stays. *)

Lemma sorted_NoDup (l : list nat) : StronglySorted lt l -> NoDup l.
Proof.
  induction 1 as [|a l _ IH Hall]; constructor; [|exact IH].
  intros Hin. rewrite Forall_forall in Hall.
  specialize (Hall a Hin). lia.
Qed.

Lemma sorted_snoc (l : list nat) (a : nat) :
  StronglySorted lt l -> (forall x, In x l -> x < a) -> StronglySorted lt (l ++ [a]).
Proof.
  induction 1 as [|b l Hs IH Hall]; intros Hlt; simpl.
  - constructor; constructor.
  - constructor.
    + apply IH. intros x Hx. apply Hlt. right. exact Hx.
    + apply Forall_app. split; [exact Hall|].
      constructor; [|constructor]. apply Hlt. left. reflexivity.
Qed.

Lemma find_row_In l : forall x,
  NoDup (row_ids l) -> In x l -> find_row (row_id x) l = Some x.
Proof.
  induction l as [|y l IH]; intros x Hnd Hin; [destruct Hin|].
  simpl in Hnd. apply NoDup_cons in Hnd. destruct Hnd as [Hy Hnd].
  unfold find_row. simpl. destruct Hin as [->|Hin].
  - rewrite Nat.eqb_refl. reflexivity.
  - destruct (row_id y =? row_id x) eqn:E.
    + exfalso. apply Hy. apply Nat.eqb_eq in E. rewrite E.
      apply list_elem_of_In. unfold row_ids. apply in_map. exact Hin.
    + apply IH; assumption.
Qed.

Lemma find_row_drop l dead q x :
  NoDup (row_ids l) -> find_row q (drop_rows dead l) = Some x -> find_row q l = Some x.
Proof.
  intros Hnd H. destruct (find_row_Some _ _ _ H) as [Hin <-].
  apply find_row_In; [exact Hnd|]. exact (drop_rows_sub _ _ _ Hin).
Qed.

Lemma drop_rows_sorted : forall l dead,
  StronglySorted lt (row_ids l) -> StronglySorted lt (row_ids (drop_rows dead l)).
Proof.
  induction l as [|y l IH]; intros dead Hs; [exact Hs|].
  simpl in Hs. apply StronglySorted_inv in Hs. destruct Hs as [Hs Hall].
  simpl. destruct (_ || _).
  - apply IH, Hs.
  - simpl. constructor; [apply IH, Hs|].
    rewrite Forall_forall in *. intros z Hz. apply Hall.
    apply list_elem_of_In in Hz. apply list_elem_of_In.
    unfold row_ids in *. apply in_map_iff in Hz. destruct Hz as (x & <- & Hx).
    apply in_map. exact (drop_rows_sub _ _ _ Hx).
Qed.

(** A row that stays does not hang under a removed row. *)
Lemma drop_rows_parent : forall l dead x p,
  In x (drop_rows dead l) -> row_parent x = Some p -> ~ In p dead.
Proof.
  induction l as [|y l IH]; intros dead x p Hx Hp; [destruct Hx|].
  simpl in Hx. destruct (_ || _) eqn:E.
  - intros Hd. apply (IH _ _ _ Hx Hp). right. exact Hd.
  - destruct Hx as [->|Hx]; [|exact (IH _ _ _ Hx Hp)].
    apply orb_false_iff in E. destruct E as [_ E]. rewrite Hp in E.
    apply bool_decide_eq_false in E. intros Hd. apply E, list_elem_of_In, Hd.
Qed.

(** ... and its parent stays with it. *)
Lemma drop_rows_closed : forall l dead x p,
  StronglySorted lt (row_ids l) ->
  (forall y p', In y l -> row_parent y = Some p' -> p' < row_id y) ->
  In x (drop_rows dead l) -> row_parent x = Some p -> In p (row_ids l) ->
  In p (row_ids (drop_rows dead l)).
Proof.
  induction l as [|y l IH]; intros dead x p Hs Hord Hx Hp Hin; [destruct Hx|].
  assert (Hord' : forall z p', In z l -> row_parent z = Some p' -> p' < row_id z)
    by (intros z p' Hz; apply Hord; right; exact Hz).
  simpl in Hs. apply StronglySorted_inv in Hs. destruct Hs as [Hs Hall].
  rewrite Forall_forall in Hall.
  assert (Hx0 := Hx). simpl in Hx. simpl. destruct (_ || _) eqn:E.
  - destruct Hin as [Hin|Hin].
    + exfalso. apply (drop_rows_parent _ _ _ _ Hx Hp). left. exact Hin.
    + apply (IH _ x); assumption.
  - simpl. destruct Hin as [Hin|Hin]; [left; exact Hin|].
    destruct Hx as [->|Hx].
    + exfalso. assert (p < row_id x) by (apply (Hord x p); [left; reflexivity|exact Hp]).
      assert (row_id x < p) by (apply Hall, list_elem_of_In, Hin). lia.
    + right. apply (IH _ x); assumption.
Qed.

Lemma goodStep_refl m : goodStep m m.
Proof.
  intros H. split; [exact H|]. split; [lia|]. intros q x' _ Hq. exists x'. auto.
Qed.

Lemma modelGrow_trans m1 m2 m3 : modelGrow m1 m2 -> modelGrow m2 m3 -> modelGrow m1 m3.
Proof.
  intros [H1 G1] [H2 G2]. split; [lia|]. intros q x3 Hq Hf.
  destruct (G2 q x3 ltac:(lia) Hf) as (x2 & Hf2 & E2).
  destruct (G1 q x2 Hq Hf2) as (x1 & Hf1 & E1).
  exists x1. split; [exact Hf1|congruence].
Qed.

Lemma goodStep_trans m1 m2 m3 : goodStep m1 m2 -> goodStep m2 m3 -> goodStep m1 m3.
Proof.
  intros H12 H23 H1. destruct (H12 H1) as [H2 G12]. destruct (H23 H2) as [H3 G23].
  split; [exact H3|exact (modelGrow_trans _ _ _ G12 G23)].
Qed.

Lemma goodStep_remove_child k p m : goodStep m (remove_child k p m).
Proof.
  unfold remove_child. destruct k as [k|]; [|apply goodStep_refl].
  destruct (nth_child k p (rows m)) as [r|]; [|apply goodStep_refl].
  intros [Hs [Wid Wpar]]. split; [split; [|split]|split].
  - unfold rows_sorted. simpl. apply drop_rows_sorted, Hs.
  - simpl. intros x Hx. apply Wid. exact (drop_rows_sub _ _ _ Hx).
  - simpl. intros x q Hx Hq.
    destruct (Wpar x q (drop_rows_sub _ _ _ Hx) Hq) as [Hlt Hin].
    split; [exact Hlt|].
    apply (drop_rows_closed (rows m) [r] x q); try assumption.
    intros y p' Hy Hp'. apply (Wpar y p' Hy Hp').
  - simpl. lia.
  - simpl. intros q x' _ Hf. exists x'. split; [|reflexivity].
    apply (find_row_drop _ [r]); [|exact Hf]. apply sorted_NoDup, Hs.
Qed.

Lemma goodStep_removeRow k i m : goodStep m (removeRow k i m).
Proof. apply goodStep_remove_child. Qed.

Lemma goodStep_item_removeRow i k m : goodStep m (item_removeRow i k m).
Proof.
  unfold item_removeRow. destruct (resolve i m);
    [apply goodStep_remove_child|apply goodStep_refl].
Qed.

Lemma goodStep_append_row p items m :
  (forall r, p = Some r -> In r (row_ids (rows m))) ->
  goodStep m (fst (append_row p items m)).
Proof.
  intros Hp [Hs [Wid Wpar]].
  assert (Hids : forall z, In z (row_ids (rows m)) -> z < nextRow m).
  { intros z Hz. unfold row_ids in Hz. apply in_map_iff in Hz.
    destruct Hz as (x & <- & Hx). apply Wid, Hx. }
  split; [split; [|split]|split].
  - unfold rows_sorted. simpl. unfold row_ids. rewrite map_app. simpl.
    apply sorted_snoc; [exact Hs|exact Hids].
  - simpl. intros x Hx. apply in_app_iff in Hx. destruct Hx as [Hx|[<-|[]]].
    + specialize (Wid x Hx). lia.
    + simpl. lia.
  - simpl. intros x q Hx Hq. unfold row_ids. rewrite map_app, in_app_iff.
    apply in_app_iff in Hx. destruct Hx as [Hx|[<-|[]]].
    + destruct (Wpar x q Hx Hq) as [Hlt Hin]. split; [exact Hlt|left; exact Hin].
    + simpl in Hq. specialize (Hp q Hq). split; [simpl; apply Hids, Hp|left; exact Hp].
  - simpl. lia.
  - simpl. intros q x' Hq Hf. exists x'. split; [|reflexivity].
    destruct (find_row_Some _ _ _ Hf) as [Hin Hid].
    apply in_app_iff in Hin. destruct Hin as [Hin|[<-|[]]].
    + rewrite <- Hid. apply find_row_In; [apply sorted_NoDup, Hs|exact Hin].
    + simpl in Hid. lia.
Qed.

Lemma resolve_Some i m r : resolve i m = Some r -> rowOf i = Some r /\ In r (row_ids (rows m)).
Proof.
  unfold resolve. destruct i as [[r' c]|]; [|discriminate].
  destruct (find_row r' (rows m)) as [x|] eqn:E; [|discriminate].
  intros [= <-]. split; [reflexivity|].
  destruct (find_row_Some _ _ _ E) as [Hin <-]. unfold row_ids. apply in_map. exact Hin.
Qed.

Lemma goodStep_item_appendRow i items m : goodStep m (fst (item_appendRow i items m)).
Proof.
  unfold item_appendRow. destruct (resolve i m) as [p|] eqn:E; [|apply goodStep_refl].
  apply (goodStep_append_row (Some p) items m).
  intros r [= <-]. apply (resolve_Some _ _ _ E).
Qed.

Lemma find_row_map (f : Row -> Row) q : forall l x',
  (forall x, row_id (f x) = row_id x) ->
  find_row q (map f l) = Some x' ->
  exists x, find_row q l = Some x /\ x' = f x.
Proof.
  induction l as [|y l IH]; intros x' Hf H; [discriminate|].
  unfold find_row in *. simpl in *. rewrite Hf in H.
  destruct (row_id y =? q).
  - injection H as <-. exists y. auto.
  - apply IH; assumption.
Qed.

Lemma goodStep_updateText i fd m : goodStep m (updateText i fd m).
Proof.
  destruct i as [[r c]|]; [|apply goodStep_refl].
  intros [Hs [Wid Wpar]].
  set (f := fun x : Row =>
              if row_id x =? r
              then mkRow (row_id x) (row_parent x) (update_item c fd (row_items x))
              else x).
  assert (Hid : forall x, row_id (f x) = row_id x)
    by (intros x; unfold f; destruct (row_id x =? r); reflexivity).
  assert (Hpar : forall x, row_parent (f x) = row_parent x)
    by (intros x; unfold f; destruct (row_id x =? r); reflexivity).
  assert (Hids := updateText_ids (Some (r, c)) fd m).
  split; [split; [|split]|split].
  - unfold rows_sorted. rewrite Hids. exact Hs.
  - simpl. intros x' Hx'. apply in_map_iff in Hx'. destruct Hx' as (x & <- & Hx).
    fold (f x). rewrite Hid. apply Wid, Hx.
  - intros x' q Hx' Hq. rewrite Hids. simpl in Hx'.
    apply in_map_iff in Hx'. destruct Hx' as (x & <- & Hx).
    fold (f x) in *. rewrite Hid. rewrite Hpar in Hq. apply (Wpar x q Hx Hq).
  - simpl. lia.
  - simpl. intros q x' _ Hfind. fold f in Hfind.
    destruct (find_row_map f q _ _ Hid Hfind) as (x & Hx & ->).
    exists x. split; [exact Hx|]. symmetry. apply Hpar.
Qed.

Lemma goodStep_fold_updateText fd : forall l m,
  goodStep m (fold_left (fun m i => updateText i fd m) l m).
Proof.
  induction l as [|i l IH]; intros m; [apply goodStep_refl|].
  simpl. eapply goodStep_trans; [apply goodStep_updateText|apply IH].
Qed.

Lemma view_wf_grow m m' nd : modelGrow m m' -> view_wf m nd -> view_wf m' nd.
Proof.
  intros [Hn Hg] [Va Vb]. split.
  - intros i Hi. destruct (Va i Hi) as (r & H1 & H2 & H3).
    exists r. splits; [exact H1|exact H2|lia].
  - intros q Hq. destruct (Vb q Hq) as (Hlt & r & Hr & Hpar).
    split; [lia|]. exists r. split; [exact Hr|].
    intros x' Hx'. destruct (Hg q x' Hlt Hx') as (x & Hx & E).
    rewrite <- E. apply Hpar, Hx.
Qed.

(** The indices alone decide whether a node fits the model. *)
Lemma view_wf_ext m nd nd' :
  modelItemList nd' = modelItemList nd ->
  decendantPlaceholderItem nd' = decendantPlaceholderItem nd ->
  view_wf m nd -> view_wf m nd'.
Proof. unfold view_wf. intros -> ->. auto. Qed.

Lemma view_wf_no_placeholder m m' nd l ph :
  modelGrow m m' -> view_wf m (set_modelItems l ph nd) ->
  view_wf m' (set_modelItems l None nd).
Proof.
  intros [Hn _] [Va _]. split.
  - intros i Hi. destruct (Va i Hi) as (r & H1 & H2 & H3).
    exists r. splits; [exact H1|exact H2|lia].
  - simpl. intros q [=].
Qed.

Lemma view_wf_nothing m nd : view_wf m (set_modelItems [] None nd).
Proof. split; simpl; [intros i []|intros q [=]]. Qed.

Lemma row_indices_first r (items : list FileStandardItem) i :
  In i (row_indices r items) ->
  rowOf i = Some r /\ rowOf (first (row_indices r items)) = Some r.
Proof.
  unfold row_indices. intros Hi. split.
  - apply in_map_iff in Hi. destruct Hi as (c & <- & _). reflexivity.
  - destruct (length items); [destruct Hi|reflexivity].
Qed.

Lemma view_wf_new_row m nd r (items : list FileStandardItem) :
  r < nextRow m -> view_wf m (set_modelItems (row_indices r items) None nd).
Proof.
  intros Hr. split; simpl; [|intros q [=]].
  intros i Hi. destruct (row_indices_first r items i Hi) as [H1 H2].
  exists r. auto.
Qed.

(** Putting new indices into node [n] along with a step of the model. *)
Lemma ViewInv_set n g m' w :
  ViewInv w -> model_ok m' -> modelGrow (myModel w) m' ->
  (forall nd, heap w !! n = Some nd -> view_wf m' (g nd)) ->
  ViewInv (update_node n g (set_myModel m' w)).
Proof.
  intros [Hm Hv] Hm' Hg Hn. split; [exact Hm'|].
  intros k kd Hk. cbn [myModel update_node set_heap set_myModel].
  rewrite lookup_update_node in Hk. cbn [heap set_myModel] in Hk.
  destruct (decide (n = k)) as [->|Hne].
  - destruct (heap w !! k) as [kd0|] eqn:E; [|discriminate].
    injection Hk as <-. apply Hn. reflexivity.
  - apply (view_wf_grow (myModel w)); [exact Hg|]. apply (Hv k), Hk.
Qed.

Lemma ViewInv_update_view n g w :
  ViewInv w ->
  (forall nd, heap w !! n = Some nd -> view_wf (myModel w) (g nd)) ->
  ViewInv (update_node n g w).
Proof.
  intros [Hm Hv] Hn. split; [exact Hm|].
  intros k kd Hk. change (myModel (update_node n g w)) with (myModel w).
  rewrite lookup_update_node in Hk.
  destruct (decide (n = k)) as [->|Hne].
  - destruct (heap w !! k) as [kd0|] eqn:E; [|discriminate].
    injection Hk as <-. apply Hn. reflexivity.
  - apply (Hv k), Hk.
Qed.

(** Changing members of a node other than its indices. *)
Lemma ViewInv_update n g w :
  (forall x, modelItemList (g x) = modelItemList x
             /\ decendantPlaceholderItem (g x) = decendantPlaceholderItem x) ->
  ViewInv w -> ViewInv (update_node n g w).
Proof.
  intros Hg HV. apply ViewInv_update_view; [exact HV|].
  intros nd Hn. destruct (Hg nd) as [E1 E2].
  apply (view_wf_ext _ nd); [exact E1|exact E2|]. apply (proj2 HV n), Hn.
Qed.

(** Changing the program state outside the store and the item model. *)
Lemma ViewInv_same w w' :
  heap w' = heap w -> myModel w' = myModel w -> ViewInv w -> ViewInv w'.
Proof. unfold ViewInv. intros -> ->. auto. Qed.

Lemma ViewInv_purgeModelItems n w : ViewInv w -> ViewInv (purgeModelItems n w).
Proof.
  intros HV. unfold purgeModelItems.
  destruct (heap w !! n) as [nd|] eqn:Hn; [|exact HV].
  destruct (modelItemList nd) as [|i0 rest]; [exact HV|].
  set (m1 := if isValid (decendantPlaceholderItem nd) (myModel w) then _ else _).
  set (m2 := if isValid (index_parent (first (i0 :: rest)) m1) m1 then _ else _).
  assert (H1 : goodStep (myModel w) m1).
  { unfold m1. case (isValid _ _); [apply goodStep_removeRow|apply goodStep_refl]. }
  assert (H2 : goodStep m1 m2).
  { unfold m2. case (isValid _ _); apply goodStep_removeRow. }
  destruct (goodStep_trans _ _ _ H1 H2 (proj1 HV)) as [Hok Hg].
  apply ViewInv_set; try assumption.
  intros nd' _. apply view_wf_nothing.
Qed.

Lemma ViewInv_updateModelItems n b w : ViewInv w -> ViewInv (updateModelItems n b w).
Proof.
  intros HV. assert (HV0 := HV). destruct HV0 as [Hm Hv].
  unfold updateModelItems.
  destruct (heap w !! n) as [nd|] eqn:Hn; [|exact HV].
  assert (Vn := Hv n nd Hn).
  set (created := match modelItemList nd with [] => _ | _ :: _ => _ end).
  assert (Hc : match created with
               | Some (m1, items) =>
                   model_ok m1 /\ modelGrow (myModel w) m1
                   /\ view_wf m1 (set_modelItems items (decendantPlaceholderItem nd) nd)
               | None => True
               end).
  { unfold created. destruct (modelItemList nd) as [|i0 rest] eqn:Hl.
    - assert (Hph : decendantPlaceholderItem nd = None).
      { destruct (decendantPlaceholderItem nd) as [[q c]|] eqn:Hph; [|reflexivity].
        destruct Vn as [_ Vb]. rewrite Hph, Hl in Vb.
        destruct (Vb q eq_refl) as (_ & r & Hr & _). discriminate. }
      rewrite Hph.
      destruct (myParent nd) as [p|].
      + match goal with
        | |- context [item_appendRow ?i ?items ?m] =>
            assert (H := goodStep_item_appendRow i items m Hm);
            assert (Hr : forall r, snd (item_appendRow i items m) = Some r -> r = nextRow m);
            [unfold item_appendRow; destruct (resolve i m); simpl; congruence|];
            assert (Hnx : forall r, snd (item_appendRow i items m) = Some r ->
                            nextRow (fst (item_appendRow i items m)) = S (nextRow m));
            [unfold item_appendRow; destruct (resolve i m); simpl; congruence|];
            destruct (item_appendRow i items m) as [m1 [r|]]
        end; [|exact I].
        simpl in H, Hr, Hnx. destruct H as [H1 H2]. splits; [exact H1|exact H2|].
        apply view_wf_new_row. rewrite (Hnx r eq_refl), (Hr r eq_refl). lia.
      + destruct (goodStep_append_row None
                    (map (fun h => (fileData nd, h)) (headers (myModel w))) (myModel w)
                    ltac:(intros r [=]) Hm) as [H1 H2].
        unfold appendRow, append_row in *. simpl in *.
        splits; [exact H1|exact H2|]. apply view_wf_new_row. simpl. lia.
    - destruct (goodStep_fold_updateText (fileData nd) (i0 :: rest) (myModel w) Hm)
        as [H1 H2].
      splits; [exact H1|exact H2|].
      apply (view_wf_grow (myModel w)); [exact H2|].
      apply (view_wf_ext _ nd); [simpl; symmetry; exact Hl|reflexivity|exact Vn]. }
  destruct created as [[m1 items]|].
  2:{ apply ViewInv_update_view; [exact HV|]. intros nd' _. apply view_wf_nothing. }
  destruct Hc as (Hm1 & Hg1 & Vn1).
  set (removed := if isValid (decendantPlaceholderItem nd) m1 then _ else _).
  assert (Hr : model_ok (fst removed) /\ modelGrow m1 (fst removed)
               /\ view_wf (fst removed) (set_modelItems items (snd removed) nd)).
  { unfold removed. destruct (isValid _ m1); simpl.
    - destruct (goodStep_item_removeRow (first items)
                  (index_row (decendantPlaceholderItem nd) m1) m1 Hm1) as [H1 H2].
      splits; [exact H1|exact H2|].
      apply (view_wf_no_placeholder m1 _ nd items (decendantPlaceholderItem nd));
        assumption.
    - splits; [exact Hm1|apply (goodStep_refl _ Hm1)|exact Vn1]. }
  destruct removed as [m2 ph2]. simpl in Hr. destruct Hr as (Hm2 & Hg2 & Vn2).
  assert (Hg02 := modelGrow_trans _ _ _ Hg1 Hg2).
  assert (Hplain : ViewInv (update_node n (set_modelItems items ph2) (set_myModel m2 w))).
  { apply ViewInv_set; try assumption.
    intros nd' Hnd'. rewrite Hn in Hnd'. injection Hnd' as <-. exact Vn2. }
  destruct (negb _); [exact Hplain|].
  destruct (anyChildVisible w (childList nd)); [exact Hplain|].
  unfold item_appendRow.
  destruct (resolve (first items) m2) as [r0|] eqn:Hres.
  - destruct (goodStep_append_row (Some r0)
                [(FileNodeRef_nil, if b then "Empty" else "Loading")] m2
                ltac:(intros r [= <-]; apply (resolve_Some _ _ _ Hres)) Hm2) as [H1 H2].
    cbn [append_row fst] in *.
    apply ViewInv_set; [exact HV|exact H1|exact (modelGrow_trans _ _ _ Hg02 H2)|].
    intros nd' Hnd'. rewrite Hn in Hnd'. injection Hnd' as <-.
    destruct Vn2 as [Va _]. split.
    + intros i Hi. destruct (Va i Hi) as (r & E1 & E2 & E3).
      exists r. splits; [exact E1|exact E2|simpl; simpl in E3; lia].
    + simpl. intros q [= <-]. split; [lia|].
      exists r0. split; [apply (resolve_Some _ _ _ Hres)|].
      intros x Hx. destruct (find_row_Some _ _ _ Hx) as [Hin Hid].
      apply in_app_iff in Hin. destruct Hin as [Hin|[<-|[]]]; [|reflexivity].
      exfalso. destruct Hm2 as [_ [Wid _]]. specialize (Wid x Hin). lia.
  - apply ViewInv_set; try assumption.
    intros nd' Hnd'. rewrite Hn in Hnd'. injection Hnd' as <-.
    apply (view_wf_no_placeholder m2 _ nd items ph2); [|exact Vn2].
    apply (goodStep_refl _ Hm2).
Qed.

Lemma ViewInv_recomputeModelItems n w : ViewInv w -> ViewInv (recomputeModelItems n w).
Proof.
  intros HV. unfold recomputeModelItems.
  destruct (heap w !! n) as [nd|]; [|exact HV].
  destruct (myState nd);
    first [exact HV | apply ViewInv_purgeModelItems, HV
          | apply ViewInv_updateModelItems, HV].
Qed.

Lemma ViewInv_changeNodeState n s w : ViewInv w -> ViewInv (changeNodeState n s w).
Proof.
  intros HV. unfold changeNodeState.
  destruct (heap w !! n) as [nd|]; [|exact HV].
  destruct (bool_decide (myState nd = DELETING)); [exact HV|].
  destruct (bool_decide (s = myState nd)); [exact HV|].
  apply (ViewInv_same
           (match myParent nd with
            | Some p =>
                recomputeModelItems p
                  (recomputeModelItems n
                     (if bool_decide (s = DELETING)
                      then deleteLater n (update_node n (set_myState s) w)
                      else update_node n (set_myState s) w))
            | None =>
                recomputeModelItems n
                  (if bool_decide (s = DELETING)
                   then deleteLater n (update_node n (set_myState s) w)
                   else update_node n (set_myState s) w)
            end)); [reflexivity|reflexivity|].
  assert (H2 : ViewInv (if bool_decide (s = DELETING)
                        then deleteLater n (update_node n (set_myState s) w)
                        else update_node n (set_myState s) w)).
  { assert (H1 : ViewInv (update_node n (set_myState s) w))
      by (apply ViewInv_update; [intros x; split; reflexivity|exact HV]).
    destruct (bool_decide (s = DELETING)); [|exact H1].
    apply (ViewInv_same (update_node n (set_myState s) w)); [reflexivity|reflexivity|exact H1]. }
  destruct (myParent nd); repeat apply ViewInv_recomputeModelItems; exact H2.
Qed.

Lemma ViewInv_recomputeNodeState n w : ViewInv w -> ViewInv (recomputeNodeState n w).
Proof.
  intros HV. destruct (heap w !! n) as [nd|] eqn:Hn.
  - rewrite (recomputeNodeState_unfold n w nd Hn).
    destruct (bool_decide (myState nd = DELETING)); [exact HV|].
    apply ViewInv_changeNodeState, HV.
  - rewrite recomputeNodeState_absent by exact Hn. exact HV.
Qed.

Lemma ViewInv_setNodeVisible_fuel fuel : forall n w w',
  setNodeVisible_fuel fuel n w = Some w' -> ViewInv w -> ViewInv w'.
Proof.
  induction fuel as [|fuel IH]; intros n w w' Hrun HV; [discriminate|].
  simpl in Hrun. destruct (heap w !! n) as [nd|]; [|congruence].
  destruct (nodeVisible nd); [congruence|].
  assert (H1 : ViewInv (update_node n (set_nodeVisible true) w))
    by (apply ViewInv_update; [intros x; split; reflexivity|exact HV]).
  destruct (myParent nd) as [p|].
  - destruct (setNodeVisible_fuel fuel p _) as [w2|] eqn:E; [|discriminate].
    injection Hrun as <-. apply ViewInv_recomputeNodeState. exact (IH _ _ _ E H1).
  - injection Hrun as <-. apply ViewInv_recomputeNodeState, H1.
Qed.

Lemma ViewInv_setNodeVisible n w : ViewInv w -> ViewInv (setNodeVisible n w).
Proof.
  intros HV. unfold setNodeVisible.
  destruct (setNodeVisible_fuel _ n w) as [w'|] eqn:E; [|exact HV].
  exact (ViewInv_setNodeVisible_fuel _ _ _ _ E HV).
Qed.

Lemma ViewInv_clearAllChildren_loop n fuel : forall w,
  ViewInv w -> ViewInv (clearAllChildren_loop fuel n w).
Proof.
  induction fuel as [|fuel IH]; intros w HV; [exact HV|].
  simpl. destruct (heap w !! n) as [nd|]; [|exact HV].
  destruct (takeLast (childList nd)) as [[aChild rest]|]; [|exact HV].
  apply IH, ViewInv_changeNodeState, ViewInv_update; [|exact HV].
  intros x; split; reflexivity.
Qed.

Lemma ViewInv_clearAllChildren n w : ViewInv w -> ViewInv (clearAllChildren n w).
Proof.
  intros HV. unfold clearAllChildren.
  destruct (heap w !! n); [apply ViewInv_clearAllChildren_loop, HV|exact HV].
Qed.

Lemma ViewInv_purgeUnmatchedChildren_loop n l fuel : forall alt w,
  ViewInv w -> ViewInv (fst (purgeUnmatchedChildren_loop fuel n l alt w)).
Proof.
  induction fuel as [|fuel IH]; intros alt w HV; [exact HV|].
  cbn [purgeUnmatchedChildren_loop].
  destruct (heap w !! n) as [nd|]; [|exact HV].
  destruct (takeLast (childList nd)) as [[aNode rest]|]; [|exact HV].
  assert (H1 : ViewInv (update_node n (set_childList rest) w))
    by (apply ViewInv_update; [intros x; split; reflexivity|exact HV]).
  destruct (match heap (update_node n (set_childList rest) w) !! aNode with
            | Some ad => matchFound l (fileData ad)
            | None => false
            end).
  - apply IH, H1.
  - apply IH, ViewInv_changeNodeState, H1.
Qed.

Lemma ViewInv_purgeUnmatchedChildren n l w :
  ViewInv w -> ViewInv (purgeUnmatchedChildren n l w).
Proof.
  intros HV. unfold purgeUnmatchedChildren.
  destruct (heap w !! n) as [nd|]; [|exact HV].
  destruct (childList nd) as [|c0 cs] eqn:Hl; [exact HV|].
  assert (H := ViewInv_purgeUnmatchedChildren_loop n l (length (c0 :: cs)) [] w HV).
  destruct (purgeUnmatchedChildren_loop _ n l [] w) as [w1 alt]. simpl in H.
  apply ViewInv_update; [|exact H]. intros x; split; reflexivity.
Qed.

Lemma ViewInv_allocate nd w :
  modelItemList nd = [] -> decendantPlaceholderItem nd = None ->
  ViewInv w -> ViewInv (allocate nd w).
Proof.
  intros E1 E2 [Hm Hv]. split; [exact Hm|].
  intros k kd Hk. change (myModel (allocate nd w)) with (myModel w).
  unfold allocate in Hk. cbn [heap] in Hk.
  destruct (decide (nextNode w = k)) as [E|Hne].
  - rewrite <- E, lookup_insert_eq in Hk. injection Hk as <-.
    apply (view_wf_ext _ (set_modelItems [] None nd)); [exact E1|exact E2|].
    apply view_wf_nothing.
  - rewrite lookup_insert_ne in Hk by exact Hne. apply (Hv k), Hk.
Qed.

Lemma ViewInv_settimestamps P n w : ViewInv w -> ViewInv (settimestamps P n w).
Proof.
  intros HV. unfold settimestamps.
  apply ViewInv_update; [intros x; split; reflexivity|].
  apply (ViewInv_same w); [reflexivity|reflexivity|exact HV].
Qed.

Lemma ViewInv_newChildNode P e n w : ViewInv w -> ViewInv (newChildNode P e n w).
Proof.
  intros HV. unfold newChildNode.
  apply ViewInv_recomputeNodeState.
  apply ViewInv_update; [intros x; split; reflexivity|].
  apply ViewInv_settimestamps.
  apply ViewInv_update; [intros x; split; reflexivity|].
  apply ViewInv_allocate; [reflexivity|reflexivity|exact HV].
Qed.

Lemma ViewInv_newRootNode P name w : ViewInv w -> ViewInv (newRootNode P name w).
Proof.
  intros HV. unfold newRootNode.
  apply ViewInv_recomputeNodeState.
  apply ViewInv_update; [intros x; split; reflexivity|].
  apply ViewInv_settimestamps.
  apply ViewInv_update; [intros x; split; reflexivity|].
  apply ViewInv_allocate; [reflexivity|reflexivity|exact HV].
Qed.

Lemma ViewInv_insertFile P n e w : ViewInv w -> ViewInv (insertFile P n e w).
Proof.
  intros HV. unfold insertFile.
  destruct (String.eqb (fileName e) "."); [exact HV|].
  destruct (heap w !! n) as [nd|]; [|exact HV].
  destruct (List.find _ (childList nd)) as [c|].
  - destruct (heap w !! c) as [cd|]; [|exact HV].
    destruct (negb _); exact HV.
  - apply ViewInv_newChildNode, HV.
Qed.

Lemma ViewInv_fold {A} (f : World -> A -> World) (l : list A) :
  (forall w a, ViewInv w -> ViewInv (f w a)) ->
  forall w, ViewInv w -> ViewInv (fold_left f l w).
Proof.
  intros Hf. induction l as [|a l IH]; intros w HV; [exact HV|].
  simpl. apply IH, Hf, HV.
Qed.

Lemma ViewInv_updateFileNodeData P n l w :
  ViewInv w -> ViewInv (updateFileNodeData P n l w).
Proof.
  intros HV. unfold updateFileNodeData.
  assert (H1 : ViewInv (update_node n (set_folderContentsKnown true) w))
    by (apply ViewInv_update; [intros x; split; reflexivity|exact HV]).
  destruct (Nat.leb (length l) 1).
  - apply ViewInv_recomputeNodeState, ViewInv_clearAllChildren, H1.
  - apply ViewInv_recomputeNodeState.
    apply ViewInv_fold; [intros w0 c; apply ViewInv_setNodeVisible|].
    apply ViewInv_fold; [intros w0 e0; apply ViewInv_insertFile|].
    apply ViewInv_purgeUnmatchedChildren, H1.
Qed.

Lemma ViewInv_deliverLSdata P n st l w :
  ViewInv w -> ViewInv (deliverLSdata P n st l w).
Proof.
  intros HV. unfold deliverLSdata.
  assert (H1 : ViewInv (update_node n (set_lsTask None) w))
    by (apply ViewInv_update; [intros x; split; reflexivity|exact HV]).
  destruct st.
  - destruct (negb _);
      [apply ViewInv_recomputeNodeState, H1|apply ViewInv_updateFileNodeData, H1].
  - apply ViewInv_changeNodeState, H1.
  - apply ViewInv_recomputeNodeState, H1.
Qed.

Lemma ViewInv_setFileBuffer n b w : ViewInv w -> ViewInv (setFileBuffer n b w).
Proof.
  intros HV. unfold setFileBuffer.
  apply ViewInv_recomputeNodeState, ViewInv_setNodeVisible, ViewInv_update; [|exact HV].
  intros x; split; reflexivity.
Qed.

Lemma ViewInv_deliverBuffData n st b w :
  ViewInv w -> ViewInv (deliverBuffData n st b w).
Proof.
  intros HV. unfold deliverBuffData.
  assert (H1 : ViewInv (update_node n (set_bufferTask None) w))
    by (apply ViewInv_update; [intros x; split; reflexivity|exact HV]).
  destruct st.
  - destruct b; apply ViewInv_setFileBuffer, H1.
  - apply ViewInv_changeNodeState, H1.
  - apply ViewInv_recomputeNodeState, H1.
Qed.

Lemma ViewInv_setLStask n t w : ViewInv w -> ViewInv (setLStask n t w).
Proof.
  intros HV. unfold setLStask.
  destruct (heap w !! n) as [nd|]; [|exact HV].
  destruct t as [t|]; [|exact HV].
  destruct (negb _); [exact HV|].
  apply ViewInv_recomputeNodeState.
  apply (ViewInv_same
           (update_node n (set_lsTask (Some t))
              (match lsTask nd with Some old => disconnect old n w | None => w end)));
    [reflexivity|reflexivity|].
  apply ViewInv_update; [intros x; split; reflexivity|].
  destruct (lsTask nd); [|exact HV].
  apply (ViewInv_same w); [reflexivity|reflexivity|exact HV].
Qed.

Lemma ViewInv_setBuffTask n t w : ViewInv w -> ViewInv (setBuffTask n t w).
Proof.
  intros HV. unfold setBuffTask.
  destruct (heap w !! n) as [nd|]; [|exact HV].
  destruct t as [t|]; [|exact HV].
  destruct (negb _); [exact HV|].
  apply ViewInv_recomputeNodeState.
  apply (ViewInv_same
           (update_node n (set_bufferTask (Some t))
              (match bufferTask nd with Some old => disconnect old n w | None => w end)));
    [reflexivity|reflexivity|].
  apply ViewInv_update; [intros x; split; reflexivity|].
  destruct (bufferTask nd); [|exact HV].
  apply (ViewInv_same w); [reflexivity|reflexivity|exact HV].
Qed.

Lemma ViewInv_deleteFolderContentsData n w :
  ViewInv w -> ViewInv (deleteFolderContentsData n w).
Proof.
  intros HV. unfold deleteFolderContentsData.
  apply ViewInv_clearAllChildren, ViewInv_update; [|exact HV].
  intros x; split; reflexivity.
Qed.

Lemma ViewInv_emptyWorld hs : ViewInv (emptyWorld hs).
Proof.
  split; [split; [|split]|].
  - unfold rows_sorted. simpl. constructor.
  - simpl. intros x [].
  - simpl. intros x p [].
  - simpl. intros n nd Hn. rewrite lookup_empty in Hn. discriminate.
Qed.

Lemma ViewInv_runCall P c w : ViewInv w -> ViewInv (runCall P c w).
Proof.
  destruct c; simpl.
  - apply ViewInv_newRootNode.
  - apply ViewInv_setLStask.
  - apply ViewInv_setBuffTask.
  - apply ViewInv_setFileBuffer.
  - apply ViewInv_deleteFolderContentsData.
  - apply ViewInv_deliverLSdata.
  - apply ViewInv_deliverBuffData.
  - apply ViewInv_setNodeVisible.
  - apply ViewInv_changeNodeState.
  - apply ViewInv_recomputeNodeState.
  - apply ViewInv_recomputeModelItems.
  - apply ViewInv_purgeModelItems.
  - apply ViewInv_updateModelItems.
  - apply ViewInv_updateFileNodeData.
  - apply ViewInv_clearAllChildren.
  - apply ViewInv_insertFile.
  - apply ViewInv_purgeUnmatchedChildren.
Qed.

Lemma reachable_ViewInv P hs w : reachable P hs w -> ViewInv w.
Proof.
  induction 1 as [|w c _ IH]; [apply ViewInv_emptyWorld|apply ViewInv_runCall, IH].
Qed.

(** ** C4: what the change to [DELETING] does *)

Lemma remove_placeholder_row m q cq r c0 xq :
  find_row q (rows m) = Some xq -> row_parent xq = Some r ->
  is_Some (find_row r (rows m)) ->
  removeRow (index_row (Some (q, cq)) m) (Some (r, c0)) m
  = set_rows (drop_rows [q] (rows m)) m.
Proof.
  intros Hq Hp [xr Hr]. unfold removeRow, index_row, resolve. rewrite Hq, Hr.
  destruct (position_nth q (rows m) xq Hq) as (k & Hk1 & Hk2).
  rewrite Hk1. unfold remove_child. rewrite Hp in Hk2. rewrite Hk2. reflexivity.
Qed.

Lemma remove_own_row m r c x :
  find_row r (rows m) = Some x ->
  (forall p, row_parent x = Some p -> is_Some (find_row p (rows m))) ->
  (if isValid (index_parent (Some (r, c)) m) m
   then removeRow (index_row (Some (r, c)) m) (index_parent (Some (r, c)) m) m
   else removeRow (index_row (Some (r, c)) m) None m)
  = set_rows (drop_rows [r] (rows m)) m.
Proof.
  intros Hr Hpar.
  destruct (position_nth r (rows m) x Hr) as (k & Hk1 & Hk2).
  unfold index_parent, index_row. rewrite Hr, Hk1.
  destruct (row_parent x) as [p|] eqn:Hp.
  - destruct (Hpar p eq_refl) as [xp Hxp].
    unfold isValid, removeRow, resolve. rewrite Hxp.
    unfold remove_child. rewrite Hk2. reflexivity.
  - unfold isValid, removeRow, resolve, remove_child. rewrite Hk2. reflexivity.
Qed.

Lemma rowOf_Some i r : rowOf i = Some r -> exists c, i = Some (r, c).
Proof. destruct i as [[r' c]|]; simpl; [|discriminate]. intros [= ->]. eauto. Qed.

(** [purgeModelItems] takes the row of the node and its placeholder out of
    the model and empties the node's indices. *)
Lemma purgeModelItems_removes n w nd :
  heap w !! n = Some nd -> model_wf (myModel w) -> view_wf (myModel w) nd ->
  (forall i, In i (modelItemList nd) ->
     exists r, rowOf i = Some r /\ gone r (myModel (purgeModelItems n w)))
  /\ (forall q, rowOf (decendantPlaceholderItem nd) = Some q ->
        gone q (myModel (purgeModelItems n w)))
  /\ heap (purgeModelItems n w) !! n = Some (set_modelItems [] None nd).
Proof.
  intros Hn [Wid Wpar] [Vrow Vph]. unfold purgeModelItems. rewrite Hn.
  destruct (modelItemList nd) as [|i0 rest] eqn:Hl.
  - splits.
    + intros i [].
    + intros q Hq. destruct (Vph q Hq) as (_ & r & Hr & _). discriminate.
    + rewrite Hn. f_equal.
      destruct (decendantPlaceholderItem nd) as [[q c]|] eqn:Hph.
      * destruct (Vph q eq_refl) as (_ & r & Hr & _). discriminate.
      * destruct nd; simpl in *; subst; reflexivity.
  - destruct (Vrow i0 ltac:(left; reflexivity)) as (r & Hi0 & _ & Hrlt).
    destruct (rowOf_Some _ _ Hi0) as (c0 & ->).
    cbn [first].
    set (m0 := myModel w) in *.
    set (ph := decendantPlaceholderItem nd) in *.
    set (m1 := if isValid ph m0
               then removeRow (index_row ph m0) (Some (r, c0)) m0 else m0).
    (* what the first removal leaves *)
    assert (H1 : nextRow m1 = nextRow m0
                 /\ modelStep m0 m1
                 /\ (forall q, rowOf ph = Some q -> gone q m1)
                 /\ (forall x, find_row r (rows m1) = Some x ->
                       forall p, row_parent x = Some p -> is_Some (find_row p (rows m1)))).
    { unfold m1. unfold isValid, resolve.
      destruct ph as [[q cq]|] eqn:Hph.
      - destruct (find_row q (rows m0)) as [xq|] eqn:Hq.
        + destruct (Vph q eq_refl) as (Hqlt & r' & Hr' & Hpq).
          simpl in Hr'. injection Hr' as <-.
          specialize (Hpq xq Hq).
          destruct (find_row_Some _ _ _ Hq) as [Hxq Hidq].
          destruct (Wpar xq r Hxq Hpq) as [Hrq Hrin]. rewrite Hidq in Hrq.
          assert (Hr : is_Some (find_row r (rows m0))).
          { destruct (find_row r (rows m0)) eqn:E; [eauto|].
            apply find_row_None in E. contradiction. }
          rewrite (remove_placeholder_row m0 q cq r c0 xq Hq Hpq Hr).
          assert (Hord : forall y p, In y (rows m0) -> row_parent y = Some p ->
                           p < row_id y) by (intros y p Hy Hp; apply (Wpar y p Hy Hp)).
          splits.
          * reflexivity.
          * split; [simpl; lia|]. intros z _ Hz. simpl. apply drop_rows_ids, Hz.
          * intros q' [= <-]. split; [simpl; exact Hqlt|]. simpl.
            apply drop_rows_dead. left. reflexivity.
          * simpl. intros x Hx p Hp.
            destruct (find_row_Some _ _ _ Hx) as [Hxin Hxid].
            apply drop_rows_sub in Hxin.
            destruct (Wpar x p Hxin Hp) as [Hpr Hpin]. rewrite Hxid in Hpr.
            destruct (find_row p (rows m0)) as [xp|] eqn:E;
              [|apply find_row_None in E; contradiction].
            exists xp. apply (drop_rows_older q p); try assumption; [|lia].
            intros d [<-|[]]. lia.
        + splits.
          * reflexivity.
          * apply modelStep_refl.
          * intros q' [= <-]. destruct (Vph q eq_refl) as (Hqlt & _).
            split; [exact Hqlt|]. apply find_row_None. exact Hq.
          * intros x Hx p Hp. destruct (find_row_Some _ _ _ Hx) as [Hxin _].
            destruct (Wpar x p Hxin Hp) as [_ Hpin].
            destruct (find_row p (rows m0)) eqn:E; [eauto|].
            apply find_row_None in E. contradiction.
      - splits.
        + reflexivity.
        + apply modelStep_refl.
        + intros q [=].
        + intros x Hx p Hp. destruct (find_row_Some _ _ _ Hx) as [Hxin _].
          destruct (Wpar x p Hxin Hp) as [_ Hpin].
          destruct (find_row p (rows m0)) eqn:E; [eauto|].
          apply find_row_None in E. contradiction. }
    destruct H1 as (Hnext1 & Hstep1 & Hph1 & Hpar1).
    set (m2 := if isValid (index_parent (Some (r, c0)) m1) m1
               then removeRow (index_row (Some (r, c0)) m1)
                      (index_parent (Some (r, c0)) m1) m1
               else removeRow (index_row (Some (r, c0)) m1) None m1).
    assert (H2 : modelStep m1 m2 /\ gone r m2).
    { destruct (find_row r (rows m1)) as [x|] eqn:Hr.
      - unfold m2. rewrite (remove_own_row m1 r c0 x Hr (Hpar1 x eq_refl)).
        split.
        + split; [simpl; lia|]. intros z _ Hz. simpl. apply drop_rows_ids, Hz.
        + split; [simpl; lia|]. simpl. apply drop_rows_dead. left. reflexivity.
      - assert (Hm2 : m2 = m1).
        { unfold m2, index_parent, index_row, isValid, resolve, removeRow.
          rewrite Hr. reflexivity. }
        rewrite Hm2. split; [apply modelStep_refl|].
        split; [lia|]. apply find_row_None. exact Hr. }
    destruct H2 as (Hstep2 & Hgone2).
    splits.
    + intros i Hi. destruct (Vrow i Hi) as (r' & Hi' & Hf' & _).
      simpl in Hf'. injection Hf' as <-. exists r. split; [exact Hi'|].
      cbn [myModel update_node set_heap set_myModel]. exact Hgone2.
    + intros q Hq. cbn [myModel update_node set_heap set_myModel].
      apply (gone_step q m1 m2 Hstep2). apply Hph1, Hq.
    + rewrite lookup_update_node_eq. simpl. rewrite Hn. reflexivity.
Qed.

Lemma recomputeModelItems_purged n w nd :
  heap w !! n = Some nd -> myState nd = DELETING -> modelItemList nd = [] ->
  recomputeModelItems n w = w.
Proof.
  intros Hn Hs Hl. unfold recomputeModelItems, purgeModelItems.
  rewrite Hn, Hs, Hl. reflexivity.
Qed.

(** The change to [DELETING] over a well-formed item model that the
    indices of the node fit. *)
Lemma changeNodeState_DELETING_purges (w : World) (n : NodeId) (nd : FileTreeNode) :
  heap w !! n = Some nd -> myState nd <> DELETING ->
  model_wf (myModel w) -> view_wf (myModel w) nd ->
  deferredDelete (changeNodeState n DELETING w) = deferredDelete w ++ [n]
  /\ dom (heap (changeNodeState n DELETING w)) = dom (heap w)
  /\ (exists nd', heap (changeNodeState n DELETING w) !! n = Some nd'
        /\ myState nd' = DELETING
        /\ modelItemList nd' = []
        /\ decendantPlaceholderItem nd' = None)
  /\ (forall i, In i (modelItemList nd) ->
        isValid i (myModel (changeNodeState n DELETING w)) = false)
  /\ isValid (decendantPlaceholderItem nd) (myModel (changeNodeState n DELETING w))
     = false.
Proof.
  intros Hn Hd Hwf Hv.
  assert (Hdom := proj1 (quiet_changeNodeState n DELETING w)).
  unfold changeNodeState in *. rewrite Hn in *.
  rewrite bool_decide_eq_false_2 in * by exact Hd.
  rewrite bool_decide_eq_false_2 in * by congruence.
  rewrite bool_decide_eq_true_2 in * by reflexivity.
  set (w2 := deleteLater n (update_node n (set_myState DELETING) w)) in *.
  assert (Hn2 : heap w2 !! n = Some (set_myState DELETING nd)).
  { unfold w2. simpl. rewrite lookup_alter_eq, Hn. reflexivity. }
  assert (E3 : recomputeModelItems n w2 = purgeModelItems n w2).
  { unfold recomputeModelItems. rewrite Hn2. reflexivity. }
  rewrite E3 in *.
  destruct (purgeModelItems_removes n w2 _ Hn2 Hwf Hv) as (Grow & Gph & Hn3).
  cbn [modelItemList decendantPlaceholderItem set_myState] in Grow, Gph.
  set (w3 := purgeModelItems n w2) in *.
  set (w4 := match myParent nd with
             | Some p => recomputeModelItems p w3
             | None => w3
             end) in *.
  assert (H34 : modelStep (myModel w3) (myModel w4)
                /\ heap w4 !! n = Some (set_modelItems [] None (set_myState DELETING nd))
                /\ deferredDelete w4 = deferredDelete w3).
  { unfold w4. destruct (myParent nd) as [p|].
    - destruct (decide (p = n)) as [->|Hpn].
      + rewrite (recomputeModelItems_purged n w3 _ Hn3) by reflexivity.
        splits; [apply modelStep_refl|exact Hn3|reflexivity].
      + splits.
        * apply recomputeModelItems_modelStep.
        * rewrite recomputeModelItems_other by exact Hpn. exact Hn3.
        * apply recomputeModelItems_deferred.
    - splits; [apply modelStep_refl|exact Hn3|reflexivity]. }
  destruct H34 as (Hstep & Hn4 & Hdef).
  splits.
  - cbn [deferredDelete fileNodesChange]. rewrite Hdef.
    unfold w3. rewrite purgeModelItems_deferred. reflexivity.
  - exact Hdom.
  - exists (set_modelItems [] None (set_myState DELETING nd)).
    split; [exact Hn4|]. splits; reflexivity.
  - intros i Hi. destruct (Grow i Hi) as (r & Hr & Hg).
    apply (isValid_gone i r); [exact Hr|].
    cbn [myModel fileNodesChange]. apply (gone_step r _ _ Hstep Hg).
  - destruct (decendantPlaceholderItem nd) as [[q c]|] eqn:Hph; [|reflexivity].
    apply (isValid_gone _ q); [reflexivity|].
    cbn [myModel fileNodesChange]. apply (gone_step q _ _ Hstep). apply Gph. reflexivity.
Qed.

(** C4.  In every program state the methods lead to: when
    [changeNodeState] moves a node into state [DELETING], the node is
    handed to [deleteLater] and stays in the store for the time being, its
    deletion being left to the event loop.  At that moment its row and its
    placeholder row leave the item model, so that the indices the node
    held are invalid, and the node holds no index any more. *)
Theorem DELETING_defers_deletion_and_removes_rows (P : Platform) (hs : list string)
    (w : World) (n : NodeId) (nd : FileTreeNode) :
  reachable P hs w ->
  heap w !! n = Some nd -> myState nd <> DELETING ->
  deferredDelete (changeNodeState n DELETING w) = deferredDelete w ++ [n]
  /\ dom (heap (changeNodeState n DELETING w)) = dom (heap w)
  /\ (exists nd', heap (changeNodeState n DELETING w) !! n = Some nd'
        /\ myState nd' = DELETING
        /\ modelItemList nd' = []
        /\ decendantPlaceholderItem nd' = None)
  /\ (forall i, In i (modelItemList nd) ->
        isValid i (myModel (changeNodeState n DELETING w)) = false)
  /\ isValid (decendantPlaceholderItem nd) (myModel (changeNodeState n DELETING w))
     = false.
Proof.
  intros Hr Hn Hd. destruct (reachable_ViewInv P hs w Hr) as [[_ Hm] Hv].
  apply (changeNodeState_DELETING_purges w n nd Hn Hd Hm (Hv n nd Hn)).
Qed.

(** ** C3: the check of the control node *)

Lemma climbToRoot_sound w : forall fuel n r,
  climbToRoot fuel n w = Some r -> rootOf w n r.
Proof.
  induction fuel as [|fuel IH]; intros n r H; [discriminate|].
  simpl in H. destruct (heap w !! n) as [nd|] eqn:Hn; [|discriminate].
  destruct (myParent nd) as [p|] eqn:Hp.
  - apply (rootOf_up w n nd p r Hn Hp). apply IH, H.
  - injection H as <-. apply (rootOf_here w n nd Hn Hp).
Qed.

Lemma climbToRoot_complete w n r :
  ordered w -> rootOf w n r -> forall fuel, n < fuel -> climbToRoot fuel n w = Some r.
Proof.
  intros Ho H. induction H as [n nd Hn Hp|n nd p r Hn Hp _ IH]; intros fuel Hlt.
  - destruct fuel as [|fuel]; [lia|]. simpl. rewrite Hn, Hp. reflexivity.
  - destruct fuel as [|fuel]; [lia|]. simpl. rewrite Hn, Hp.
    apply IH. assert (p < n) by (apply (Ho n nd p Hn Hp)). lia.
Qed.

Lemma rootOf_unique w n r r' : rootOf w n r -> rootOf w n r' -> r = r'.
Proof.
  intros H. revert r'. induction H as [n nd Hn Hp|n nd p r Hn Hp _ IH]; intros r' H'.
  - inversion H'; subst; [reflexivity|congruence].
  - inversion H' as [? nd' Hn' Hp'|? nd' p' ? Hn' Hp' Hr']; subst; [congruence|].
    apply IH. assert (p' = p) by congruence. subst p'. exact Hr'.
Qed.

(** [verifyControlNode] decides [firstDotEntryReaches]. *)
Lemma verifyControlNode_spec P n l w :
  ordered w -> getPathNameList P EmptyString = [] ->
  (verifyControlNode P n l w = true <-> firstDotEntryReaches P w n l).
Proof.
  intros Ho Hempty. unfold verifyControlNode, firstDotEntryReaches, getControlAddress,
    firstDot.
  destruct (List.find _ l) as [e|] eqn:F.
  - destruct (String.eqb (containingPath e) EmptyString) eqn:Eaddr.
    + split; [discriminate|]. intros (e' & root & He & _ & Hs).
      injection He as <-. apply String.eqb_eq in Eaddr. rewrite Eaddr in Hs.
      unfold getNodeWithName, pathSearchHelper in Hs. rewrite Hempty in Hs.
      destruct (heap w !! root); [|discriminate].
      destruct (negb _); discriminate.
    + destruct (climbToRoot (S n) n w) as [root|] eqn:Hc.
      * split.
        -- intros H. apply bool_decide_eq_true in H.
           exists e, root. splits; [reflexivity| |exact H].
           apply (climbToRoot_sound w _ _ _ Hc).
        -- intros (e' & root' & He & Hr & Hs). injection He as <-.
           assert (Hc' := climbToRoot_complete w n root' Ho Hr (S n) ltac:(lia)).
           assert (root' = root) by congruence. subst root'.
           apply bool_decide_eq_true. exact Hs.
      * split; [discriminate|]. intros (e' & root' & _ & Hr & _).
        assert (Hc' := climbToRoot_complete w n root' Ho Hr (S n) ltac:(lia)).
        congruence.
  - rewrite String.eqb_refl. split; [discriminate|].
    intros (e' & root & He & _). discriminate.
Qed.

(** C3, amended.  A reply in state [GOOD] is applied to the node exactly
    when the first entry named ["."] of the listing has a containing path
    that, searched from the root of the tree, leads to the receiving node.
    Otherwise the reply only makes the node recompute its state: its child
    list and its knowledge of the folder contents stay as they were.  (The
    nodes are taken to be younger than their parents, and the empty path to
    have no parts.) *)
Theorem control_check_uses_first_dot_entry (P : Platform) (w : World) (n : NodeId)
    (l : list FileMetaData) :
  ordered w -> getPathNameList P EmptyString = [] ->
  (firstDotEntryReaches P (update_node n (set_lsTask None) w) n l ->
   deliverLSdata P n GOOD l w = updateFileNodeData P n l (update_node n (set_lsTask None) w))
  /\ (~ firstDotEntryReaches P (update_node n (set_lsTask None) w) n l ->
      deliverLSdata P n GOOD l w = recomputeNodeState n (update_node n (set_lsTask None) w)
      /\ forall nd, heap w !! n = Some nd ->
           exists nd', heap (deliverLSdata P n GOOD l w) !! n = Some nd'
             /\ childList nd' = childList nd
             /\ folderContentsKnown nd' = folderContentsKnown nd).
Proof.
  intros Ho Hempty.
  set (w1 := update_node n (set_lsTask None) w).
  assert (Ho1 : ordered w1).
  { apply (ordered_rel w w1); [|exact Ho]. apply heap_rel_update. reflexivity. }
  assert (Hspec := verifyControlNode_spec P n l w1 Ho1 Hempty).
  unfold deliverLSdata. fold w1. split.
  - intros H. apply Hspec in H. rewrite H. reflexivity.
  - intros H. assert (Hv : verifyControlNode P n l w1 = false).
    { destruct (verifyControlNode P n l w1); [|reflexivity].
      exfalso. apply H, Hspec. reflexivity. }
    rewrite Hv. split; [reflexivity|]. cbn [negb].
    intros nd Hn.
    assert (Hn1 : heap w1 !! n = Some (set_lsTask None nd))
      by (unfold w1; rewrite lookup_update_node_eq, Hn; reflexivity).
    destruct (recomputeNodeState_state n w1 _ Hn1) as (nd' & Hn' & E & _).
    exists nd'. split; [exact Hn'|]. clear - E. split; node_crush.
Qed.

Lemma ordered_check w :
  bool_decide (map_Forall (fun n nd => parentOlder n nd = true) (heap w)) = true ->
  ordered w.
Proof.
  intros H n nd p Hn Hp. apply bool_decide_eq_true in H.
  specialize (H n nd Hn). unfold parentOlder in H. rewrite Hp in H.
  apply Nat.ltb_lt. exact H.
Qed.

Lemma exampleWaiting_ordered : ordered exampleWaiting.
Proof. apply ordered_check. vm_compute. reflexivity. Qed.

Lemma control_check_uses_first_dot_entry_witness :
  ordered exampleWaiting
  /\ getPathNameList slashPlatform EmptyString = []
  /\ firstDotEntryReaches slashPlatform (update_node 0 (set_lsTask None) exampleWaiting)
       0 exampleListing
  /\ deliverLSdata slashPlatform 0 GOOD exampleListing exampleWaiting
     = updateFileNodeData slashPlatform 0 exampleListing
         (update_node 0 (set_lsTask None) exampleWaiting).
Proof.
  assert (H1 : ordered exampleWaiting) by exact exampleWaiting_ordered.
  assert (H2 : getPathNameList slashPlatform EmptyString = []) by reflexivity.
  assert (H3 : firstDotEntryReaches slashPlatform
                 (update_node 0 (set_lsTask None) exampleWaiting) 0 exampleListing).
  { exists (mkFileMetaData "/r/." "." "/r" DIR 0), 0. splits.
    - reflexivity.
    - apply (rootOf_here _ 0 (nodeAt (update_node 0 (set_lsTask None) exampleWaiting) 0));
        vm_compute; reflexivity.
    - vm_compute. reflexivity. }
  splits; [exact H1|exact H2|exact H3|].
  exact (proj1 (control_check_uses_first_dot_entry slashPlatform exampleWaiting 0
                  exampleListing H1 H2) H3).
Defined.

(** C3 as it is worded fails on a listing with two entries named ["."]:
    the second one leads to the receiving node, yet the reply is not
    applied, because the code looks at the first one only. *)
Lemma some_dot_entry_is_not_enough :
  someDotEntryReaches slashPlatform (update_node 0 (set_lsTask None) exampleWaiting)
    0 twoDotListing
  /\ deliverLSdata slashPlatform 0 GOOD twoDotListing exampleWaiting
     <> updateFileNodeData slashPlatform 0 twoDotListing
          (update_node 0 (set_lsTask None) exampleWaiting)
  /\ exists nd', heap (deliverLSdata slashPlatform 0 GOOD twoDotListing exampleWaiting)
                   !! 0 = Some nd'
       /\ childList nd' = [] /\ folderContentsKnown nd' = false.
Proof.
  splits.
  - exists (mkFileMetaData "/r/." "." "/r" DIR 0), 0. splits.
    + right. left. reflexivity.
    + reflexivity.
    + apply (rootOf_here _ 0 (nodeAt (update_node 0 (set_lsTask None) exampleWaiting) 0));
        vm_compute; reflexivity.
    + vm_compute. reflexivity.
  - intros H. apply (f_equal nextNode) in H. vm_compute in H. discriminate.
  - exists (nodeAt (deliverLSdata slashPlatform 0 GOOD twoDotListing exampleWaiting) 0).
    splits; vm_compute; reflexivity.
Qed.

(** ** C2: a delivered listing and the children of the node *)

(** What holds of C2 on every store: after a good reply that passes the
    check, with more than one entry, the children that match no entry
    other than ["."] are in state [DELETING] and off the child list, the
    matched children are still on it, every entry other than ["."] has a
    child of its full path and file type, all children are visible, the
    folder contents are known, and no node that was there before has
    other file data than before, its size included. *)
Lemma deliverLSdata_synchronizes P w n nd l :
  fresh w -> heap w !! n = Some nd -> 1 < length l ->
  verifyControlNode P n l (update_node n (set_lsTask None) w) = true ->
  exists nd',
    heap (deliverLSdata P n GOOD l w) !! n = Some nd'
    /\ folderContentsKnown nd' = true
    /\ (forall c cd, In c (childList nd) -> heap w !! c = Some cd ->
          matchFound l (fileData cd) = false ->
          ~ In c (childList nd')
          /\ exists cd', heap (deliverLSdata P n GOOD l w) !! c = Some cd'
                         /\ myState cd' = DELETING)
    /\ (forall c cd, In c (childList nd) -> heap w !! c = Some cd ->
          matchFound l (fileData cd) = true -> In c (childList nd'))
    /\ (forall e, In e l -> fileName e <> "." ->
          exists c cd, In c (childList nd')
            /\ heap (deliverLSdata P n GOOD l w) !! c = Some cd
            /\ getFullPath (fileData cd) = fullPath e
            /\ getFileType (fileData cd) = fileType e)
    /\ (forall c, In c (childList nd') ->
          exists cd, heap (deliverLSdata P n GOOD l w) !! c = Some cd
                     /\ nodeVisible cd = true)
    /\ (forall m md, heap w !! m = Some md ->
          exists md', heap (deliverLSdata P n GOOD l w) !! m = Some md'
                      /\ fileData md' = fileData md).
Proof.
  intros Hf Hn Hlen Hv. unfold deliverLSdata. rewrite Hv. cbn [negb].
  set (w1 := update_node n (set_lsTask None) w).
  assert (Hn1 : heap w1 !! n = Some (set_lsTask None nd))
    by (unfold w1; rewrite lookup_update_node_eq, Hn; reflexivity).
  assert (R1 : heap_rel fileData w w1) by (apply heap_rel_update; reflexivity).
  assert (Hf1 : fresh w1) by (apply (fresh_rel _ _ _ R1); [reflexivity|exact Hf]).
  destruct (updateFileNodeData_long P n l w1 _ Hf1 Hn1 Hlen)
    as (_ & (nd2 & Hn2 & Hcov & Hkeep) & _ & Hfix & _ & nd' & Hn' & Hfck
        & (extra & Hkids) & Hvis & Hdel).
  set (w' := updateFileNodeData P n l w1) in *.
  assert (nd2 = nd') by congruence. subst nd2.
  cbn [childList set_lsTask] in Hkids, Hdel.
  assert (Hfd : forall m md, heap w !! m = Some md ->
            exists md', heap w' !! m = Some md' /\ fileData md' = fileData md).
  { intros m md Hm.
    destruct (heap_rel_Some _ _ _ _ _ R1 Hm) as (md1 & Hm1 & E1).
    destruct (Hfix m md1 Hm1) as (md' & Hm' & E).
    exists md'. split; [exact Hm'|].
    assert (fileData md' = fileData md1) by (clear - E; node_crush). congruence. }
  exists nd'. splits.
  - exact Hn'.
  - exact Hfck.
  - intros c cd Hc Hcd Hm. split.
    + intros Hin. specialize (Hkeep c Hin). unfold keepChild in Hkeep.
      destruct (Hfd c cd Hcd) as (cd' & Hcd' & E). rewrite Hcd', E in Hkeep. congruence.
    + destruct (heap_rel_Some _ _ _ _ _ R1 Hcd) as (cd1 & Hcd1 & E1).
      apply (Hdel c cd1 Hc Hcd1). congruence.
  - intros c cd Hc Hcd Hm. rewrite Hkids. apply in_or_app. left.
    apply filter_In. split; [exact Hc|].
    unfold keepChild. destruct (heap_rel_Some _ _ _ _ _ R1 Hcd) as (cd1 & Hcd1 & E1).
    rewrite Hcd1, E1. exact Hm.
  - intros e He Hdot. specialize (Hcov e He). unfold covered in Hcov.
    apply orb_true_iff in Hcov. destruct Hcov as [Hcov|Hcov].
    + apply String.eqb_eq in Hcov. contradiction.
    + unfold hasMatch in Hcov. apply existsb_exists in Hcov.
      destruct Hcov as (c & Hc & Hm).
      destruct (heap w' !! c) as [cd|] eqn:Hcd; [|discriminate].
      exists c, cd. splits; [exact Hc|exact Hcd| |].
      * unfold sameFile in Hm. apply andb_true_iff in Hm. destruct Hm as [Hm _].
        apply String.eqb_eq in Hm. congruence.
      * unfold sameFile in Hm. apply andb_true_iff in Hm. destruct Hm as [_ Hm].
        apply bool_decide_eq_true in Hm. congruence.
  - exact Hvis.
  - exact Hfd.
Qed.

(** C2 at an input where the code departs from it.  The listing passes
    the check and has three entries; the child for the file [a] matches the
    entry for [a] and is kept; the entry says size 5, the child keeps the
    size 1 it had: [insertFile] sets the size in the copy that
    [getFileData()] returns, not in the node. *)
Theorem insertFile_sets_size_on_a_copy :
  verifyControlNode slashPlatform 0 resizedListing
    (update_node 0 (set_lsTask None) exampleReloading) = true
  /\ 1 < length resizedListing
  /\ (exists cd, heap exampleReloading !! 1 = Some cd
        /\ sameFile (mkFileMetaData "/r/a" "a" "/r" FILE 5) (fileData cd) = true
        /\ getSize (fileData cd) = 1%Z)
  /\ (exists nd cd,
        heap (deliverLSdata slashPlatform 0 GOOD resizedListing exampleReloading) !! 0
        = Some nd
        /\ In 1 (childList nd)
        /\ heap (deliverLSdata slashPlatform 0 GOOD resizedListing exampleReloading) !! 1
           = Some cd
        /\ getSize (fileData cd) = 1%Z
        /\ getSize (fileData cd) <> 5%Z).
Proof.
  splits.
  - vm_compute. reflexivity.
  - simpl. lia.
  - exists (nodeAt exampleReloading 1). splits; vm_compute; reflexivity.
  - exists (nodeAt (deliverLSdata slashPlatform 0 GOOD resizedListing exampleReloading) 0),
      (nodeAt (deliverLSdata slashPlatform 0 GOOD resizedListing exampleReloading) 1).
    splits; try (vm_compute; reflexivity).
    + vm_compute. left. reflexivity.
    + vm_compute. discriminate.
Qed.

Lemma DELETING_defers_deletion_and_removes_rows_witness :
  reachable slashPlatform exampleHeaders exampleTree
  /\ heap exampleTree !! 2 = Some (nodeAt exampleTree 2)
  /\ myState (nodeAt exampleTree 2) <> DELETING
  /\ deferredDelete (changeNodeState 2 DELETING exampleTree) = [2]
  /\ (forall i, In i (modelItemList (nodeAt exampleTree 2)) ->
        isValid i (myModel (changeNodeState 2 DELETING exampleTree)) = false)
  /\ isValid (decendantPlaceholderItem (nodeAt exampleTree 2))
       (myModel (changeNodeState 2 DELETING exampleTree)) = false.
Proof.
  assert (H1 : heap exampleTree !! 2 = Some (nodeAt exampleTree 2))
    by (vm_compute; reflexivity).
  assert (H2 : myState (nodeAt exampleTree 2) <> DELETING)
    by (vm_compute; discriminate).
  assert (H0 := exampleTree_reachable).
  destruct (DELETING_defers_deletion_and_removes_rows slashPlatform exampleHeaders
              exampleTree 2 (nodeAt exampleTree 2) H0 H1 H2) as (D1 & _ & _ & D4 & D5).
  splits; assumption.
Defined.

(** * More of the node code *)

(** ** Searching by name and by path *)

Lemma namedChild_test filename w c :
  match heap w !! c with
  | Some cd =>
      String.eqb (getFileName (fileData cd)) filename
      && negb (bool_decide (getFileType (fileData cd) = INVALID))
  | None => false
  end = true <-> namedChild filename w c.
Proof.
  unfold namedChild. destruct (heap w !! c) as [cd|].
  - rewrite andb_true_iff, String.eqb_eq, negb_true_iff, bool_decide_eq_false.
    split.
    + intros [H1 H2]. exists cd. auto.
    + intros (cd' & [= <-] & H1 & H2). auto.
  - split; [discriminate|]. intros (cd & H & _). discriminate.
Qed.

Lemma find_first {A} (f : A -> bool) (l : list A) (x : A) :
  List.find f l = Some x ->
  exists pre post, l = pre ++ x :: post /\ f x = true
                   /\ forall y, In y pre -> f y = false.
Proof.
  induction l as [|a l IH]; [discriminate|].
  simpl. destruct (f a) eqn:E.
  - intros [= <-]. exists [], l. split; [reflexivity|]. split; [exact E|intros y []].
  - intros H. destruct (IH H) as (pre & post & -> & Hx & Hpre).
    exists (a :: pre), post. split; [reflexivity|]. split; [exact Hx|].
    intros y [<-|Hy]; [exact E|apply Hpre, Hy].
Qed.

(** X1.  [getChildNodeWithName] hands out the first child on the list with the
    given name whose type is not [INVALID], and [nullptr] exactly when the
    list has no such child: a child of type [INVALID] is passed over even
    when its name fits. *)
Theorem getChildNodeWithName_first_named (w : World) (n : NodeId) (nd : FileTreeNode)
    (filename : string) :
  heap w !! n = Some nd ->
  (forall c, getChildNodeWithName n filename w = Some c ->
     exists pre post, childList nd = pre ++ c :: post
       /\ namedChild filename w c
       /\ forall c', In c' pre -> ~ namedChild filename w c')
  /\ (getChildNodeWithName n filename w = None
      <-> forall c, In c (childList nd) -> ~ namedChild filename w c).
Proof.
  intros Hn. unfold getChildNodeWithName. rewrite Hn. split.
  - intros c Hc. destruct (find_first _ _ _ Hc) as (pre & post & E & Hx & Hpre).
    exists pre, post. split; [exact E|]. split.
    + apply namedChild_test. exact Hx.
    + intros c' Hc' Hnamed. apply namedChild_test in Hnamed.
      rewrite (Hpre c' Hc') in Hnamed. discriminate.
  - split.
    + intros Hnone c Hc Hnamed. apply namedChild_test in Hnamed.
      rewrite (find_none _ _ Hnone c Hc) in Hnamed. discriminate.
    + intros Hall. destruct (List.find _ (childList nd)) as [c|] eqn:E; [|reflexivity].
      exfalso. destruct (find_some _ _ E) as [Hc Hx].
      apply (Hall c Hc). apply namedChild_test. exact Hx.
Qed.

Lemma closest_from_any w : forall parts n,
  exists r done rest,
    pathSearchHelperFromAnyNode n parts true w = Some r
    /\ parts = done ++ rest
    /\ pathSearchHelperFromAnyNode n done false w = Some r
    /\ stuckAt w r rest.
Proof.
  induction parts as [|part parts IH]; intros n.
  - exists n, [], []. simpl. auto.
  - simpl. destruct (getChildNodeWithName n part w) as [c|] eqn:E.
    + destruct (IH c) as (r & done & rest & H1 & H2 & H3 & H4).
      subst parts. exists r, (part :: done), rest. simpl. rewrite E. auto.
    + exists n, [], (part :: parts). simpl. auto.
Qed.

Lemma closest_of_exact w : forall done rest n r,
  pathSearchHelperFromAnyNode n done false w = Some r -> stuckAt w r rest ->
  pathSearchHelperFromAnyNode n (done ++ rest) true w = Some r.
Proof.
  induction done as [|part done IH]; intros rest n r Hex Hst.
  - simpl in Hex. injection Hex as <-. simpl.
    destruct rest as [|part rest]; [reflexivity|]. simpl in *. rewrite Hst. reflexivity.
  - simpl in *. destruct (getChildNodeWithName n part w) as [c|]; [|discriminate].
    apply IH; assumption.
Qed.

Lemma pathSearchHelper_started P n filename stopEarly w r :
  pathSearchHelper P n filename stopEarly w = Some r
  <-> exists parts, searchStarts P n filename w parts
        /\ pathSearchHelperFromAnyNode n parts stopEarly w = Some r.
Proof.
  unfold pathSearchHelper, searchStarts, isRootNode. split.
  - destruct (heap w !! n) as [nd|]; [|discriminate].
    destruct (myParent nd) eqn:Hp; [discriminate|]. cbn [negb].
    destruct (getPathNameList P filename) as [|rootName parts]; [discriminate|].
    destruct (String.eqb rootName (getFileName (fileData nd))) eqn:E; [|discriminate].
    cbn [negb]. apply String.eqb_eq in E. subst rootName.
    intros H. exists parts. split; [|exact H]. exists nd. auto.
  - intros (parts & (nd & Hn & Hp & Hl) & H).
    rewrite Hn, Hp, Hl, String.eqb_refl. exact H.
Qed.

(** X2.  [getClosestNodeWithName] returns a node exactly when the guards of the
    path search pass, and the node it returns is the deepest one the path
    leads to: the exact search along a front part of the path ends there,
    and it is the end of the path or the node has no child for the next
    part. *)
Theorem getClosestNodeWithName_deepest (P : Platform) (n : NodeId) (filename : string)
    (w : World) (r : NodeId) :
  getClosestNodeWithName P n filename w = Some r
  <-> exists done rest,
        searchStarts P n filename w (done ++ rest)
        /\ pathSearchHelperFromAnyNode n done false w = Some r
        /\ stuckAt w r rest.
Proof.
  unfold getClosestNodeWithName. rewrite pathSearchHelper_started. split.
  - intros (parts & Hs & Hr).
    destruct (closest_from_any w parts n) as (r' & done & rest & H1 & -> & H3 & H4).
    assert (r' = r) by congruence. subst r'. exists done, rest. auto.
  - intros (done & rest & Hs & Hex & Hst).
    exists (done ++ rest). split; [exact Hs|]. apply closest_of_exact; assumption.
Qed.

(** X3.  Where the guards pass, [getClosestNodeWithName] always finds a node;
    and where [getNodeWithName] finds a node, [getClosestNodeWithName]
    finds the same one. *)
Theorem getClosestNodeWithName_total (P : Platform) (n : NodeId) (filename : string)
    (w : World) (parts : list string) :
  searchStarts P n filename w parts ->
  (exists r, getClosestNodeWithName P n filename w = Some r)
  /\ (forall r, getNodeWithName P n filename w = Some r ->
        getClosestNodeWithName P n filename w = Some r).
Proof.
  intros Hs. split.
  - destruct (closest_from_any w parts n) as (r & done & rest & H1 & _).
    exists r. apply pathSearchHelper_started. exists parts. auto.
  - intros r Hr. apply pathSearchHelper_started in Hr.
    destruct Hr as (parts' & Hs' & Hr).
    apply pathSearchHelper_started. exists parts'. split; [exact Hs'|].
    rewrite <- (app_nil_r parts'). apply closest_of_exact; [exact Hr|exact I].
Qed.

Lemma getChildNodeWithName_first_named_witness :
  heap exampleTree !! 0 = Some (nodeAt exampleTree 0)
  /\ getChildNodeWithName 0 "d" exampleTree = Some 2
  /\ namedChild "d" exampleTree 2.
Proof.
  assert (H0 : heap exampleTree !! 0 = Some (nodeAt exampleTree 0))
    by (vm_compute; reflexivity).
  assert (H1 : getChildNodeWithName 0 "d" exampleTree = Some 2)
    by (vm_compute; reflexivity).
  destruct (getChildNodeWithName_first_named exampleTree 0 (nodeAt exampleTree 0) "d" H0)
    as [Hfound _].
  destruct (Hfound 2 H1) as (pre & post & _ & Hnamed & _).
  splits; assumption.
Defined.

Lemma getClosestNodeWithName_total_witness :
  searchStarts slashPlatform 0 "/r/x/y" exampleTree ["x"; "y"]
  /\ exists r, getClosestNodeWithName slashPlatform 0 "/r/x/y" exampleTree = Some r.
Proof.
  assert (H : searchStarts slashPlatform 0 "/r/x/y" exampleTree ["x"; "y"]).
  { exists (nodeAt exampleTree 0). splits; vm_compute; reflexivity. }
  split; [exact H|].
  exact (proj1 (getClosestNodeWithName_total slashPlatform 0 "/r/x/y" exampleTree
                  ["x"; "y"] H)).
Defined.

Lemma exact_search_app w : forall parts1 parts2 n,
  pathSearchHelperFromAnyNode n (parts1 ++ parts2) false w
  = match pathSearchHelperFromAnyNode n parts1 false w with
    | Some m => pathSearchHelperFromAnyNode m parts2 false w
    | None => None
    end.
Proof.
  induction parts1 as [|part parts1 IH]; intros parts2 n; [reflexivity|].
  simpl. destruct (getChildNodeWithName n part w) as [c|]; [apply IH|reflexivity].
Qed.

(** X4.  A search relative to a node along a path that splits into two paths
    is the search along the first path followed by the search along the
    second one from where the first ended; it fails where either fails. *)
Theorem getNodeReletiveToNodeWithName_splits (P : Platform) (n : NodeId) (w : World)
    (searchPath path1 path2 : string) :
  getPathNameList P searchPath = getPathNameList P path1 ++ getPathNameList P path2 ->
  getNodeReletiveToNodeWithName P n searchPath w
  = match getNodeReletiveToNodeWithName P n path1 w with
    | Some m => getNodeReletiveToNodeWithName P m path2 w
    | None => None
    end.
Proof.
  intros Hsplit. unfold getNodeReletiveToNodeWithName. rewrite Hsplit.
  apply exact_search_app.
Qed.

Lemma getNodeReletiveToNodeWithName_splits_witness :
  getPathNameList slashPlatform "d/b"
  = getPathNameList slashPlatform "d" ++ getPathNameList slashPlatform "/b"
  /\ getNodeReletiveToNodeWithName slashPlatform 0 "d/b" exampleDeep = Some 3
  /\ getNodeReletiveToNodeWithName slashPlatform 0 "d" exampleDeep = Some 2
  /\ getNodeReletiveToNodeWithName slashPlatform 2 "/b" exampleDeep = Some 3.
Proof.
  assert (H : getPathNameList slashPlatform "d/b"
              = getPathNameList slashPlatform "d" ++ getPathNameList slashPlatform "/b")
    by (vm_compute; reflexivity).
  assert (E := getNodeReletiveToNodeWithName_splits slashPlatform 0 exampleDeep
                 "d/b" "d" "/b" H).
  assert (E1 : getNodeReletiveToNodeWithName slashPlatform 0 "d" exampleDeep = Some 2)
    by (vm_compute; reflexivity).
  rewrite E1 in E.
  assert (E2 : getNodeReletiveToNodeWithName slashPlatform 2 "/b" exampleDeep = Some 3)
    by (vm_compute; reflexivity).
  splits; [exact H|congruence|exact E1|exact E2].
Defined.

(** ** [isChildOf] *)

Lemma onPathUp_step w (n p : NodeId) nd q :
  n <> p -> heap w !! n = Some nd -> myParent nd = Some q ->
  (onPathUp w n p <-> onPathUp w q p).
Proof.
  intros Hne Hn Hq. split.
  - intros H. inversion H as [|n' nd' q' p' Hn' Hq' Hup]; subst; [contradiction|].
    congruence.
  - intros H. exact (onPathUp_up w n nd q p Hn Hq H).
Qed.

Lemma onPathUp_trans w a b c : onPathUp w a b -> onPathUp w b c -> onPathUp w a c.
Proof.
  induction 1 as [|n nd q p Hn Hq _ IH]; intros H; [exact H|].
  exact (onPathUp_up w n nd q c Hn Hq (IH H)).
Qed.

Lemma onPathUp_le w a b : ordered w -> onPathUp w a b -> b <= a.
Proof.
  intros Ho. induction 1 as [|n nd q p Hn Hq _ IH]; [lia|].
  specialize (Ho n nd q Hn Hq). lia.
Qed.

Lemma rootOf_onPathUp w n r : rootOf w n r -> onPathUp w n r.
Proof.
  induction 1 as [n nd Hn Hp|n nd p r Hn Hp _ IH]; [apply onPathUp_here|].
  exact (onPathUp_up w n nd p r Hn Hp IH).
Qed.

Lemma isChildOf_loop_spec w p : ordered w -> forall fuel (n : NodeId),
  n < fuel ->
  exists b, isChildOf_loop fuel n p w = Some b /\ (b = true <-> onPathUp w n p).
Proof.
  intros Ho. induction fuel as [|fuel IH]; intros n Hlt; [lia|].
  simpl. destruct (decide (n = p)) as [->|Hne].
  - rewrite bool_decide_eq_true_2 by reflexivity.
    exists true. split; [reflexivity|]. split; [intros _; apply onPathUp_here|reflexivity].
  - rewrite bool_decide_eq_false_2 by exact Hne.
    unfold getParentNode, isRootNode.
    destruct (heap w !! n) as [nd|] eqn:Hn.
    + destruct (myParent nd) as [q|] eqn:Hq.
      * assert (Hqn := Ho n nd q Hn Hq).
        destruct (IH q ltac:(lia)) as (b & Hb & Hiff).
        exists b. split; [exact Hb|].
        rewrite (onPathUp_step w n p nd q Hne Hn Hq). exact Hiff.
      * exists false. split; [reflexivity|]. split; [discriminate|].
        intros H. inversion H; subst; [contradiction|congruence].
    + exists false. split; [reflexivity|]. split; [discriminate|].
      intros H. inversion H; subst; [contradiction|congruence].
Qed.

(** X5.  In a store where parents are older than their children, [isChildOf]
    comes to an answer, and the answer is [true] exactly when the parent
    pointers lead from the node to [possibleParent]; for [nullptr] the
    answer is [false]. *)
Theorem isChildOf_follows_parents (w : World) (n : NodeId) :
  ordered w ->
  isChildOf n None w = Some false
  /\ forall p, exists b, isChildOf n (Some p) w = Some b
                         /\ (b = true <-> onPathUp w n p).
Proof.
  intros Ho. split; [reflexivity|].
  intros p. apply isChildOf_loop_spec; [exact Ho|lia].
Qed.

(** X6.  In such a store [isChildOf] is an order on the nodes: every node is a
    child of itself, a child of a child is a child, two nodes that are
    children of each other are one node, and every node is a child of the
    root of its tree. *)
Theorem isChildOf_is_an_order (w : World) :
  ordered w ->
  (forall a, isChildOf a (Some a) w = Some true)
  /\ (forall a b c, isChildOf a (Some b) w = Some true ->
        isChildOf b (Some c) w = Some true -> isChildOf a (Some c) w = Some true)
  /\ (forall a b, isChildOf a (Some b) w = Some true ->
        isChildOf b (Some a) w = Some true -> a = b)
  /\ (forall a r, rootOf w a r -> isChildOf a (Some r) w = Some true).
Proof.
  intros Ho.
  assert (Hiff : forall a b, isChildOf a (Some b) w = Some true <-> onPathUp w a b).
  { intros a b. destruct (isChildOf_loop_spec w b Ho (S a) a ltac:(lia)) as (x & Hx & Hiff).
    unfold isChildOf. rewrite Hx. split.
    - intros [= ->]. apply Hiff. reflexivity.
    - intros H. f_equal. apply Hiff, H. }
  splits.
  - intros a. apply Hiff. apply onPathUp_here.
  - intros a b c Hab Hbc. apply Hiff. apply Hiff in Hab. apply Hiff in Hbc.
    exact (onPathUp_trans w a b c Hab Hbc).
  - intros a b Hab Hba. apply Hiff in Hab. apply Hiff in Hba.
    assert (H1 := onPathUp_le w a b Ho Hab). assert (H2 := onPathUp_le w b a Ho Hba). lia.
  - intros a r Hr. apply Hiff. apply rootOf_onPathUp, Hr.
Qed.

Lemma exampleDeep_reachable : reachable slashPlatform exampleHeaders exampleDeep.
Proof.
  unfold exampleDeep.
  apply reachable_deliverLSdata, reachable_setLStask, exampleTree_reachable.
Qed.

Lemma exampleDeep_ordered : ordered exampleDeep.
Proof.
  destruct (reachable_Inv _ _ _ exampleDeep_reachable) as (_ & Ho & _). exact Ho.
Qed.

Lemma isChildOf_follows_parents_witness :
  ordered exampleDeep
  /\ isChildOf 3 (Some 0) exampleDeep = Some true
  /\ onPathUp exampleDeep 3 0.
Proof.
  assert (Ho := exampleDeep_ordered).
  assert (H1 : isChildOf 3 (Some 0) exampleDeep = Some true) by (vm_compute; reflexivity).
  destruct (proj2 (isChildOf_follows_parents exampleDeep 3 Ho) 0) as (b & Hb & Hiff).
  assert (Hbt : Some b = Some true) by exact (eq_trans (eq_sym Hb) H1).
  injection Hbt as ->.
  splits; [exact Ho|exact H1|]. apply Hiff. reflexivity.
Defined.

Lemma isChildOf_is_an_order_witness :
  ordered exampleDeep
  /\ isChildOf 3 (Some 2) exampleDeep = Some true
  /\ isChildOf 2 (Some 0) exampleDeep = Some true
  /\ isChildOf 3 (Some 0) exampleDeep = Some true.
Proof.
  assert (Ho := exampleDeep_ordered).
  assert (H1 : isChildOf 3 (Some 2) exampleDeep = Some true) by (vm_compute; reflexivity).
  assert (H2 : isChildOf 2 (Some 0) exampleDeep = Some true) by (vm_compute; reflexivity).
  destruct (isChildOf_is_an_order exampleDeep Ho) as (_ & Htrans & _).
  splits; [exact Ho|exact H1|exact H2|exact (Htrans 3 2 0 H1 H2)].
Defined.

(** ** Recomputing the state a second time *)

Lemma computedState_skel a b : skel a = skel b -> computedState a = computedState b.
Proof.
  intros E. unfold computedState, haveLStask, haveBuffTask, hasChildren, hasBuffer.
  assert (E1 : fileData a = fileData b) by (clear - E; node_crush).
  assert (E2 : nodeVisible a = nodeVisible b) by (clear - E; node_crush).
  assert (E3 : lsTask a = lsTask b) by (clear - E; node_crush).
  assert (E4 : bufferTask a = bufferTask b) by (clear - E; node_crush).
  assert (E5 : childList a = childList b) by (clear - E; node_crush).
  assert (E6 : folderContentsKnown a = folderContentsKnown b) by (clear - E; node_crush).
  assert (E7 : fileDataBuffer a = fileDataBuffer b) by (clear - E; node_crush).
  rewrite E1, E2, E3, E4, E5, E6, E7. reflexivity.
Qed.

Lemma changeNodeState_same n s w nd :
  heap w !! n = Some nd -> myState nd = s -> changeNodeState n s w = w.
Proof.
  intros Hn Hs. unfold changeNodeState. rewrite Hn.
  destruct (bool_decide (myState nd = DELETING)); [reflexivity|].
  rewrite bool_decide_eq_true_2 by congruence. reflexivity.
Qed.

(** X7.  [recomputeNodeState] called a second time changes nothing: the state
    is already the recomputed one, so no item of the model is touched and
    nothing is reported again.  So it is with [changeNodeState] called
    again with the same state. *)
Theorem recomputeNodeState_twice (n : NodeId) (w : World) :
  recomputeNodeState n (recomputeNodeState n w) = recomputeNodeState n w
  /\ forall s, changeNodeState n s (changeNodeState n s w) = changeNodeState n s w.
Proof.
  split.
  - destruct (heap w !! n) as [nd|] eqn:Hn.
    + destruct (recomputeNodeState_state n w nd Hn) as (nd' & Hn' & Esk & Hs).
      rewrite (recomputeNodeState_unfold n _ nd' Hn').
      destruct (bool_decide (myState nd' = DELETING)) eqn:Hd'; [reflexivity|].
      apply (changeNodeState_same n _ _ nd' Hn').
      apply bool_decide_eq_false in Hd'. rewrite Hs in *.
      destruct (bool_decide (myState nd = DELETING)); [contradiction|].
      symmetry. apply computedState_skel, Esk.
    + rewrite (recomputeNodeState_absent n w Hn).
      apply (recomputeNodeState_absent n w Hn).
  - intros s. destruct (heap w !! n) as [nd|] eqn:Hn.
    + destruct (changeNodeState_state n s w nd Hn) as (nd' & Hn' & _ & Hs).
      destruct (bool_decide (myState nd = DELETING)).
      * apply (changeNodeState_DELETING n s _ nd' Hn' Hs).
      * apply (changeNodeState_same n s _ nd' Hn' Hs).
    + unfold changeNodeState at 2. rewrite Hn.
      unfold changeNodeState. rewrite Hn. reflexivity.
Qed.

(** ** What a change of state reports *)

Lemma computedState_not_DELETING nd : computedState nd <> DELETING.
Proof.
  unfold computedState, stateTable.
  destruct (getFileType (fileData nd)), (nodeVisible nd), (haveLStask nd),
    (haveBuffTask nd), (hasChildren nd), (folderContentsKnown nd), (hasBuffer nd);
    discriminate.
Qed.

Lemma changeNodeState_changed n s w nd :
  heap w !! n = Some nd -> myState nd <> DELETING -> s <> myState nd ->
  changedNodes (changeNodeState n s w) = changedNodes w ++ [fileData nd]
  /\ deferredDelete (changeNodeState n s w)
     = deferredDelete w ++ (if bool_decide (s = DELETING) then [n] else []).
Proof.
  intros Hn Hd Hs. unfold changeNodeState. rewrite Hn.
  rewrite bool_decide_eq_false_2 by exact Hd.
  rewrite bool_decide_eq_false_2 by exact Hs.
  cbn [changedNodes deferredDelete fileNodesChange].
  assert (H : forall w2,
            changedNodes (match myParent nd with
                          | Some p => recomputeModelItems p (recomputeModelItems n w2)
                          | None => recomputeModelItems n w2
                          end) = changedNodes w2
            /\ deferredDelete (match myParent nd with
                               | Some p => recomputeModelItems p (recomputeModelItems n w2)
                               | None => recomputeModelItems n w2
                               end) = deferredDelete w2).
  { intros w2. destruct (myParent nd);
      rewrite ?recomputeModelItems_changed, ?recomputeModelItems_deferred; auto. }
  destruct (bool_decide (s = DELETING)).
  - destruct (H (deleteLater n (update_node n (set_myState s) w))) as [-> ->].
    split; reflexivity.
  - destruct (H (update_node n (set_myState s) w)) as [-> ->].
    split; [reflexivity|]. simpl. rewrite app_nil_r. reflexivity.
Qed.

(** X8.  A call of [changeNodeState] that changes the state of a node reports
    the node to the file operator once, with its file data; so does
    [recomputeNodeState] when the recomputed state differs from the state
    of the node, and where it does not differ the call changes nothing at
    all.  [recomputeNodeState] never hands a node to [deleteLater]. *)
Theorem state_change_is_reported_once (w : World) (n : NodeId) (nd : FileTreeNode) :
  heap w !! n = Some nd -> myState nd <> DELETING ->
  (forall s, s <> myState nd ->
     changedNodes (changeNodeState n s w) = changedNodes w ++ [fileData nd])
  /\ (computedState nd <> myState nd ->
      changedNodes (recomputeNodeState n w) = changedNodes w ++ [fileData nd])
  /\ (computedState nd = myState nd -> recomputeNodeState n w = w)
  /\ deferredDelete (recomputeNodeState n w) = deferredDelete w.
Proof.
  intros Hn Hd.
  assert (E := recomputeNodeState_unfold n w nd Hn).
  rewrite bool_decide_eq_false_2 in E by exact Hd.
  splits.
  - intros s Hs. apply (changeNodeState_changed n s w nd Hn Hd Hs).
  - intros Hc. rewrite E. apply (changeNodeState_changed n _ w nd Hn Hd Hc).
  - intros Hc. rewrite E. apply (changeNodeState_same n _ w nd Hn). congruence.
  - rewrite E. destruct (decide (computedState nd = myState nd)) as [Hc|Hc].
    + rewrite (changeNodeState_same n _ w nd Hn) by congruence. reflexivity.
    + destruct (changeNodeState_changed n _ w nd Hn Hd Hc) as [_ ->].
      rewrite bool_decide_eq_false_2 by apply computedState_not_DELETING.
      apply app_nil_r.
Qed.

Lemma state_change_is_reported_once_witness :
  heap exampleTree !! 1 = Some (nodeAt exampleTree 1)
  /\ myState (nodeAt exampleTree 1) <> DELETING
  /\ changedNodes (changeNodeState 1 NON_EXTANT exampleTree)
     = changedNodes exampleTree ++ [fileData (nodeAt exampleTree 1)]
  /\ recomputeNodeState 1 exampleTree = exampleTree.
Proof.
  assert (H1 : heap exampleTree !! 1 = Some (nodeAt exampleTree 1))
    by (vm_compute; reflexivity).
  assert (H2 : myState (nodeAt exampleTree 1) <> DELETING) by (vm_compute; discriminate).
  destruct (state_change_is_reported_once exampleTree 1 (nodeAt exampleTree 1) H1 H2)
    as (Hs & _ & Hsame & _).
  splits; [exact H1|exact H2| |].
  - apply Hs. vm_compute. discriminate.
  - apply Hsame. vm_compute. reflexivity.
Defined.

(** ** [setNodeVisible] once more *)

Lemma setNodeVisible_fuel_more : forall fuel n w w',
  setNodeVisible_fuel fuel n w = Some w' ->
  forall fuel', fuel <= fuel' -> setNodeVisible_fuel fuel' n w = Some w'.
Proof.
  induction fuel as [|fuel IH]; intros n w w' Hrun fuel' Hle; [discriminate|].
  destruct fuel' as [|fuel']; [lia|].
  simpl in *. destruct (heap w !! n) as [nd|]; [|exact Hrun].
  destruct (nodeVisible nd); [exact Hrun|].
  destruct (myParent nd) as [p|]; [|exact Hrun].
  destruct (setNodeVisible_fuel fuel p _) as [w2|] eqn:E; [|discriminate].
  rewrite (IH _ _ _ E fuel' ltac:(lia)). exact Hrun.
Qed.

(** X9.  The recursion of [setNodeVisible] over the parents comes to an end on
    every store, whatever the parent pointers are: each call that goes on
    has marked one more node visible, so steps beyond the number of
    invisible nodes are never used, and the result does not depend on how
    many more are allowed. *)
Theorem setNodeVisible_terminates (n : NodeId) (w : World) (fuel : nat) :
  invisibleNodes w < fuel ->
  setNodeVisible_fuel fuel n w = Some (setNodeVisible n w).
Proof.
  intros Hlt. destruct (setNodeVisible_run n w) as (w' & Hrun & ->).
  apply (setNodeVisible_fuel_more _ _ _ _ Hrun). lia.
Qed.

Lemma setNodeVisible_terminates_witness :
  invisibleNodes exampleDeep < 7
  /\ setNodeVisible_fuel 7 3 exampleDeep = Some (setNodeVisible 3 exampleDeep).
Proof.
  assert (H : invisibleNodes exampleDeep < 7) by (vm_compute; lia).
  split; [exact H|]. exact (setNodeVisible_terminates 3 exampleDeep 7 H).
Defined.

Lemma setNodeVisible_visible n w nd :
  heap w !! n = Some nd -> nodeVisible nd = true -> setNodeVisible n w = w.
Proof.
  intros Hn Hv. unfold setNodeVisible. simpl. rewrite Hn, Hv. reflexivity.
Qed.

Lemma setNodeVisible_absent n w : heap w !! n = None -> setNodeVisible n w = w.
Proof. intros Hn. unfold setNodeVisible. simpl. rewrite Hn. reflexivity. Qed.

(** X10.  [setNodeVisible] called a second time on the same node changes
    nothing: the node is visible by then and the call returns at once. *)
Theorem setNodeVisible_twice (n : NodeId) (w : World) :
  setNodeVisible n (setNodeVisible n w) = setNodeVisible n w.
Proof.
  destruct (heap w !! n) as [nd|] eqn:Hn.
  - destruct (setNodeVisible_spec n w) as (_ & _ & _ & _ & Hvis & _).
    destruct (Hvis nd Hn) as (nd' & Hn' & Hv').
    apply (setNodeVisible_visible n _ nd' Hn' Hv').
  - rewrite (setNodeVisible_absent n w Hn). apply (setNodeVisible_absent n w Hn).
Qed.

(** ** The file buffer *)

Lemma aliveStays_refl w : aliveStays w w.
Proof. intros m md Hm Hs. exists md. auto. Qed.

Lemma aliveStays_trans w1 w2 w3 : aliveStays w1 w2 -> aliveStays w2 w3 -> aliveStays w1 w3.
Proof.
  intros H12 H23 m md Hm Hs. destruct (H12 m md Hm Hs) as (md2 & Hm2 & Hs2).
  apply (H23 m md2 Hm2 Hs2).
Qed.

Lemma myState_core a b : core a = core b -> myState a = myState b.
Proof. intros E. node_crush. Qed.

Lemma aliveStays_state w w' : heap_rel myState w w' -> aliveStays w w'.
Proof.
  intros H m md Hm Hs. destruct (heap_rel_Some _ _ _ _ _ H Hm) as (md' & Hm' & E).
  exists md'. split; [exact Hm'|]. rewrite E. exact Hs.
Qed.

Lemma aliveStays_recomputeNodeState n w : aliveStays w (recomputeNodeState n w).
Proof.
  intros m md Hm Hs. destruct (decide (m = n)) as [->|Hne].
  - destruct (recomputeNodeState_state n w md Hm) as (md' & Hm' & _ & Hs').
    exists md'. split; [exact Hm'|]. rewrite Hs'.
    rewrite bool_decide_eq_false_2 by exact Hs. apply computedState_not_DELETING.
  - assert (H := recomputeNodeState_other n w m Hne). rewrite Hm in H.
    destruct (heap (recomputeNodeState n w) !! m) as [md'|]; [|discriminate].
    exists md'. split; [reflexivity|].
    assert (E : core md' = core md) by (cbn in H; congruence).
    rewrite (myState_core _ _ E). exact Hs.
Qed.

Lemma aliveStays_setNodeVisible_fuel fuel : forall n w w',
  setNodeVisible_fuel fuel n w = Some w' -> aliveStays w w'.
Proof.
  induction fuel as [|fuel IH]; intros n w w' Hrun; [discriminate|].
  simpl in Hrun. destruct (heap w !! n) as [nd|]; [|injection Hrun as <-; apply aliveStays_refl].
  destruct (nodeVisible nd); [injection Hrun as <-; apply aliveStays_refl|].
  assert (H1 : aliveStays w (update_node n (set_nodeVisible true) w)).
  { apply aliveStays_state, heap_rel_update. reflexivity. }
  destruct (myParent nd) as [p|].
  - destruct (setNodeVisible_fuel fuel p _) as [w2|] eqn:E; [|discriminate].
    injection Hrun as <-.
    eapply aliveStays_trans; [exact H1|].
    eapply aliveStays_trans; [exact (IH _ _ _ E)|apply aliveStays_recomputeNodeState].
  - injection Hrun as <-.
    eapply aliveStays_trans; [exact H1|apply aliveStays_recomputeNodeState].
Qed.

Lemma aliveStays_setNodeVisible n w : aliveStays w (setNodeVisible n w).
Proof.
  destruct (setNodeVisible_run n w) as (w' & Hrun & ->).
  exact (aliveStays_setNodeVisible_fuel _ _ _ _ Hrun).
Qed.

Lemma setFileBuffer_node n b w nd :
  heap w !! n = Some nd ->
  exists nd', heap (setFileBuffer n b w) !! n = Some nd'
    /\ bones nd' = bones (set_fileDataBuffer b nd)
    /\ nodeVisible nd' = true
    /\ myState nd' = (if bool_decide (myState nd = DELETING) then DELETING
                      else computedState (set_nodeVisible true (set_fileDataBuffer b nd))).
Proof.
  intros Hn. unfold setFileBuffer.
  set (w1 := update_node n (set_fileDataBuffer b) w).
  assert (Hn1 : heap w1 !! n = Some (set_fileDataBuffer b nd))
    by (unfold w1; rewrite lookup_update_node_eq, Hn; reflexivity).
  destruct (setNodeVisible_spec n w1) as (Hb & _ & _ & _ & Hvis & _).
  destruct (Hvis _ Hn1) as (nd2 & Hn2 & Hv2).
  destruct (heap_rel_Some _ _ _ _ _ Hb Hn1) as (nd2' & Hn2' & Eb).
  assert (nd2' = nd2) by congruence. subst nd2'.
  destruct (recomputeNodeState_state n _ nd2 Hn2) as (nd' & Hn' & Esk & Hs).
  assert (Esk2 : skel nd2 = skel (set_nodeVisible true (set_fileDataBuffer b nd))).
  { clear - Eb Hv2. node_crush. }
  exists nd'. splits.
  - exact Hn'.
  - rewrite <- Eb. clear - Esk. node_crush.
  - clear - Esk Hv2. node_crush.
  - rewrite Hs. rewrite (computedState_skel _ _ Esk2).
    destruct (decide (myState nd = DELETING)) as [Hd|Hd].
    + destruct (deletingStays_setNodeVisible n w1 n _ Hn1 Hd) as (x & Hx & Hxs).
      assert (x = nd2) by congruence. subst x.
      rewrite !bool_decide_eq_true_2 by assumption. reflexivity.
    + destruct (aliveStays_setNodeVisible n w1 n _ Hn1 Hd) as (x & Hx & Hxs).
      assert (x = nd2) by congruence. subst x.
      rewrite !bool_decide_eq_false_2 by assumption. reflexivity.
Qed.

(** X11.  [setFileBuffer] and [getFileBuffer]: the node hands out the bytes it
    was given last, [nullptr] when it was given [nullptr]; the buffers of
    the other nodes are as before.  The node is visible afterwards and in
    the state recomputed for a visible node with that buffer. *)
Theorem setFileBuffer_then_getFileBuffer (w : World) (n : NodeId) (nd : FileTreeNode)
    (b : option (list Byte.byte)) :
  heap w !! n = Some nd ->
  getFileBuffer n (setFileBuffer n b w) = b
  /\ (forall m, m <> n -> getFileBuffer m (setFileBuffer n b w) = getFileBuffer m w)
  /\ exists nd', heap (setFileBuffer n b w) !! n = Some nd'
       /\ nodeVisible nd' = true
       /\ myState nd' = (if bool_decide (myState nd = DELETING) then DELETING
                         else computedState (set_nodeVisible true (set_fileDataBuffer b nd))).
Proof.
  intros Hn. destruct (setFileBuffer_node n b w nd Hn) as (nd' & Hn' & Eb & Hv & Hs).
  splits.
  - unfold getFileBuffer. rewrite Hn'. clear - Eb. node_crush.
  - intros m Hne. unfold getFileBuffer.
    assert (H := setFileBuffer_bones n b w m).
    rewrite lookup_update_node_ne in H by congruence.
    destruct (heap (setFileBuffer n b w) !! m) as [md'|], (heap w !! m) as [md|];
      cbn in H; try discriminate; [|reflexivity].
    assert (E : bones md' = bones md) by congruence. clear - E. node_crush.
  - exists nd'. auto.
Qed.

Lemma setFileBuffer_then_getFileBuffer_witness :
  heap exampleTree !! 1 = Some (nodeAt exampleTree 1)
  /\ getFileBuffer 1 (setFileBuffer 1 (Some [Byte.x41; Byte.x42]) exampleTree)
     = Some [Byte.x41; Byte.x42].
Proof.
  assert (H : heap exampleTree !! 1 = Some (nodeAt exampleTree 1))
    by (vm_compute; reflexivity).
  split; [exact H|].
  exact (proj1 (setFileBuffer_then_getFileBuffer exampleTree 1 (nodeAt exampleTree 1)
                  (Some [Byte.x41; Byte.x42]) H)).
Defined.

(** X12.  A download that ends well: after [deliverBuffData] with state [GOOD]
    a file node that is not being deleted has no buffer task, is visible,
    and holds the delivered bytes in state [FILE_BUFF_LOADED]; a null
    byte array leaves it without buffer in state [FILE_KNOWN]. *)
Theorem deliverBuffData_GOOD_loads (w : World) (n : NodeId) (nd : FileTreeNode)
    (bufferData : option (list Byte.byte)) :
  heap w !! n = Some nd -> myState nd <> DELETING ->
  getFileType (fileData nd) = FILE ->
  exists nd', heap (deliverBuffData n GOOD bufferData w) !! n = Some nd'
    /\ bufferTask nd' = None
    /\ fileDataBuffer nd' = bufferData
    /\ nodeVisible nd' = true
    /\ myState nd' = match bufferData with
                     | Some _ => FILE_BUFF_LOADED
                     | None => FILE_KNOWN
                     end.
Proof.
  intros Hn Hd Hty.
  set (w1 := update_node n (set_bufferTask None) w).
  assert (Hn1 : heap w1 !! n = Some (set_bufferTask None nd))
    by (unfold w1; rewrite lookup_update_node_eq, Hn; reflexivity).
  assert (E : deliverBuffData n GOOD bufferData w = setFileBuffer n bufferData w1)
    by (unfold deliverBuffData; destruct bufferData; reflexivity).
  rewrite E.
  destruct (setFileBuffer_node n bufferData w1 _ Hn1) as (nd' & Hn' & Eb & Hv & Hs).
  exists nd'. splits.
  - exact Hn'.
  - clear - Eb. node_crush.
  - clear - Eb. node_crush.
  - exact Hv.
  - rewrite Hs. cbn [myState set_bufferTask].
    rewrite bool_decide_eq_false_2 by exact Hd.
    unfold computedState.
    change (getFileType (fileData (set_nodeVisible true
              (set_fileDataBuffer bufferData (set_bufferTask None nd)))))
      with (getFileType (fileData nd)).
    rewrite Hty. destruct bufferData; reflexivity.
Qed.

Lemma deliverBuffData_GOOD_loads_witness :
  heap exampleTree !! 1 = Some (nodeAt exampleTree 1)
  /\ myState (nodeAt exampleTree 1) <> DELETING
  /\ getFileType (fileData (nodeAt exampleTree 1)) = FILE
  /\ exists nd', heap (deliverBuffData 1 GOOD (Some [Byte.x41]) exampleTree) !! 1 = Some nd'
       /\ fileDataBuffer nd' = Some [Byte.x41]
       /\ myState nd' = FILE_BUFF_LOADED.
Proof.
  assert (H1 : heap exampleTree !! 1 = Some (nodeAt exampleTree 1))
    by (vm_compute; reflexivity).
  assert (H2 : myState (nodeAt exampleTree 1) <> DELETING) by (vm_compute; discriminate).
  assert (H3 : getFileType (fileData (nodeAt exampleTree 1)) = FILE)
    by (vm_compute; reflexivity).
  destruct (deliverBuffData_GOOD_loads exampleTree 1 (nodeAt exampleTree 1)
              (Some [Byte.x41]) H1 H2 H3) as (nd' & Hn' & _ & Hb & _ & Hs).
  splits; [exact H1|exact H2|exact H3|]. exists nd'. auto.
Defined.

(** ** Child lists and parent pointers *)

Lemma lineage_core a b : core a = core b -> lineage a = lineage b.
Proof. intros E. unfold lineage. f_equal; [f_equal; [f_equal|]|]; clear - E; node_crush. Qed.

Lemma heap_rel_core_lineage w w' : heap_rel core w w' -> heap_rel lineage w w'.
Proof.
  intros H m. specialize (H m).
  destruct (heap w' !! m) as [a|], (heap w !! m) as [b|]; cbn in *;
    try discriminate; [|reflexivity].
  f_equal. apply lineage_core. congruence.
Qed.

Lemma heap_rel_skel_lineage w w' : heap_rel skel w w' -> heap_rel lineage w w'.
Proof.
  apply (heap_rel_weaken skel lineage lineage). intros x. reflexivity.
Qed.

Lemma heap_rel_bones_lineage w w' : heap_rel bones w w' -> heap_rel lineage w w'.
Proof.
  apply (heap_rel_weaken bones lineage lineage). intros x. reflexivity.
Qed.

Lemma TreeInv_rel w w' :
  heap_rel lineage w w' -> nextNode w' = nextNode w -> TreeInv w -> TreeInv w'.
Proof.
  intros Hrel Hnext (Hf & Hfam & Hnd & Hts). unfold TreeInv. splits.
  - exact (fresh_rel lineage w w' Hrel Hnext Hf).
  - intros n nd' c Hn Hc.
    destruct (heap_rel_Some_inv _ _ _ _ _ Hrel Hn) as (nd & Hn0 & E).
    injection E as E1 E2 E3 E4. rewrite E2 in Hc.
    destruct (Hfam n nd c Hn0 Hc) as (cd & Hcd & Hp).
    destruct (heap_rel_Some _ _ _ _ _ Hrel Hcd) as (cd' & Hcd' & E').
    injection E' as E1' _ _ _. exists cd'. split; [exact Hcd'|congruence].
  - intros n nd' Hn.
    destruct (heap_rel_Some_inv _ _ _ _ _ Hrel Hn) as (nd & Hn0 & E).
    injection E as _ E2 _ _. rewrite E2. apply (Hnd n nd Hn0).
  - intros n nd' Hn.
    destruct (heap_rel_Some_inv _ _ _ _ _ Hrel Hn) as (nd & Hn0 & E).
    injection E as _ _ E3 E4. rewrite E3, E4. apply (Hts n nd Hn0).
Qed.

Lemma TreeInv_update n g w :
  (forall x, lineage (g x) = lineage x) -> TreeInv w -> TreeInv (update_node n g w).
Proof.
  intros Hg. apply TreeInv_rel; [|reflexivity]. apply heap_rel_update, Hg.
Qed.

Lemma TreeInv_same w w' :
  heap w' = heap w -> nextNode w' = nextNode w -> TreeInv w -> TreeInv w'.
Proof.
  intros Hh Hn. apply TreeInv_rel; [|exact Hn]. intros m. rewrite Hh. reflexivity.
Qed.

(** Taking children off the list of node [n]. *)
Lemma TreeInv_pruned n (L : list NodeId) w nd :
  heap w !! n = Some nd ->
  (forall c, In c L -> In c (childList nd)) ->
  (NoDup (childList nd) -> NoDup L) ->
  TreeInv w -> TreeInv (update_node n (set_childList L) w).
Proof.
  intros Hn Hincl Hdup (Hf & Hfam & Hnd & Hts).
  assert (Hrel : heap_rel (fun x => (myParent x, fileData x, nodeTimestamp x)) w
                   (update_node n (set_childList L) w))
    by (apply heap_rel_update; reflexivity).
  assert (Hold : forall m md', heap (update_node n (set_childList L) w) !! m = Some md' ->
            exists md, heap w !! m = Some md
              /\ (forall c, In c (childList md') -> In c (childList md))
              /\ (NoDup (childList md) -> NoDup (childList md'))
              /\ fileData md' = fileData md /\ nodeTimestamp md' = nodeTimestamp md).
  { intros m md' Hm. rewrite lookup_update_node in Hm.
    destruct (decide (n = m)) as [<-|Hne].
    - rewrite Hn in Hm. injection Hm as <-. exists nd. simpl. auto.
    - exists md'. auto. }
  unfold TreeInv. splits.
  - exact (fresh_rel _ _ _ Hrel eq_refl Hf).
  - intros m md' c Hm Hc. destruct (Hold m md' Hm) as (md & Hmd & Hin & _).
    destruct (Hfam m md c Hmd (Hin c Hc)) as (cd & Hcd & Hp).
    destruct (heap_rel_Some _ _ _ _ _ Hrel Hcd) as (cd' & Hcd' & E').
    injection E' as E1' _ _. exists cd'. split; [exact Hcd'|congruence].
  - intros m md' Hm. destruct (Hold m md' Hm) as (md & Hmd & _ & Hd & _).
    apply Hd, (Hnd m md Hmd).
  - intros m md' Hm. destruct (Hold m md' Hm) as (md & Hmd & _ & _ & E1 & E2).
    rewrite E1, E2. apply (Hts m md Hmd).
Qed.

Lemma NoDup_List_filter {A} (f : A -> bool) (l : list A) :
  NoDup l -> NoDup (List.filter f l).
Proof.
  induction 1 as [|x l Hx _ IH]; simpl; [constructor|].
  destruct (f x); [|exact IH]. constructor; [|exact IH].
  intros Hin. apply Hx. apply list_elem_of_In in Hin. apply filter_In in Hin.
  apply list_elem_of_In. tauto.
Qed.

Lemma TreeInv_changeNodeState n s w : TreeInv w -> TreeInv (changeNodeState n s w).
Proof.
  apply TreeInv_rel.
  - apply heap_rel_skel_lineage, changeNodeState_skel.
  - apply statics_nextNode, changeNodeState_statics.
Qed.

Lemma TreeInv_recomputeNodeState n w : TreeInv w -> TreeInv (recomputeNodeState n w).
Proof.
  apply TreeInv_rel.
  - apply heap_rel_skel_lineage, recomputeNodeState_skel.
  - apply statics_nextNode, recomputeNodeState_statics.
Qed.

Lemma TreeInv_recomputeModelItems n w : TreeInv w -> TreeInv (recomputeModelItems n w).
Proof.
  apply TreeInv_rel.
  - apply heap_rel_core_lineage, recomputeModelItems_core.
  - apply statics_nextNode, recomputeModelItems_statics.
Qed.

Lemma TreeInv_purgeModelItems n w : TreeInv w -> TreeInv (purgeModelItems n w).
Proof.
  apply TreeInv_rel.
  - apply heap_rel_core_lineage, purgeModelItems_core.
  - apply statics_nextNode, purgeModelItems_statics.
Qed.

Lemma TreeInv_updateModelItems n b w : TreeInv w -> TreeInv (updateModelItems n b w).
Proof.
  apply TreeInv_rel.
  - apply heap_rel_core_lineage, updateModelItems_core.
  - apply statics_nextNode, updateModelItems_statics.
Qed.

Lemma TreeInv_setNodeVisible n w : TreeInv w -> TreeInv (setNodeVisible n w).
Proof.
  apply TreeInv_rel.
  - apply heap_rel_bones_lineage, setNodeVisible_bones.
  - apply statics_nextNode, setNodeVisible_statics.
Qed.

Lemma TreeInv_clearAllChildren n w : TreeInv w -> TreeInv (clearAllChildren n w).
Proof.
  intros HT. destruct (heap w !! n) as [nd|] eqn:Hn.
  - destruct (clearAllChildren_spec n w nd Hn) as (Hrel & Hst & _).
    apply (TreeInv_rel (update_node n (set_childList []) w)).
    + apply heap_rel_skel_lineage, Hrel.
    + rewrite (statics_nextNode _ _ Hst). reflexivity.
    + apply (TreeInv_pruned n [] w nd Hn); [intros c []|intros _; constructor|exact HT].
  - unfold clearAllChildren. rewrite Hn. exact HT.
Qed.

Lemma TreeInv_purgeUnmatchedChildren n l w :
  TreeInv w -> TreeInv (purgeUnmatchedChildren n l w).
Proof.
  intros HT. destruct (heap w !! n) as [nd|] eqn:Hn.
  - destruct (purgeUnmatchedChildren_spec n l w nd Hn) as (Hrel & Hst & _).
    eapply TreeInv_rel.
    + apply heap_rel_skel_lineage, Hrel.
    + rewrite (statics_nextNode _ _ Hst). reflexivity.
    + apply (TreeInv_pruned n _ w nd Hn); [|apply NoDup_List_filter|exact HT].
      intros c Hc. apply filter_In in Hc. tauto.
  - unfold purgeUnmatchedChildren. rewrite Hn. exact HT.
Qed.

Lemma TreeInv_newChildNode P e n w nd :
  heap w !! n = Some nd -> TreeInv w -> TreeInv (newChildNode P e n w).
Proof.
  intros Hn (Hf & Hfam & Hnd & Hts).
  assert (Hne : n <> nextNode w).
  { intros ->. rewrite fresh_nextNode in Hn by exact Hf. discriminate. }
  assert (Hlk := newChildNode_lookup P e n w).
  set (w' := newChildNode P e n w) in *.
  assert (Hnew : exists x, heap w' !! nextNode w = Some x
                           /\ skel x = skel (childNode_initial P e n w)).
  { specialize (Hlk (nextNode w) Hne). rewrite decide_True in Hlk by reflexivity.
    destruct (heap w' !! nextNode w) as [x|]; [|discriminate].
    exists x. split; [reflexivity|]. cbn in Hlk. congruence. }
  assert (Hold : forall m md, heap w !! m = Some md ->
            exists md', heap w' !! m = Some md' /\ myParent md' = myParent md).
  { intros m md Hm.
    assert (Hmn : m <> nextNode w).
    { intros ->. rewrite fresh_nextNode in Hm by exact Hf. discriminate. }
    specialize (Hlk m Hne). rewrite decide_False in Hlk by exact Hmn.
    rewrite Hm in Hlk.
    destruct (heap w' !! m) as [md'|]; [|destruct (decide (m = n)); discriminate].
    exists md'. split; [reflexivity|].
    destruct (decide (m = n)); cbn in Hlk.
    - assert (E : skel md' = skel (set_childList (childList md ++ [nextNode w]) md))
        by congruence.
      clear - E. node_crush.
    - assert (E : skel md' = skel md) by congruence. clear - E. node_crush. }
  assert (Hcases : forall m md', heap w' !! m = Some md' ->
            (m = nextNode w /\ skel md' = skel (childNode_initial P e n w))
            \/ (m = n /\ skel md' = skel (set_childList (childList nd ++ [nextNode w]) nd))
            \/ (m <> nextNode w /\ m <> n
                /\ exists md, heap w !! m = Some md /\ skel md' = skel md)).
  { intros m md' Hm. specialize (Hlk m Hne). rewrite Hm in Hlk.
    destruct (decide (m = nextNode w)) as [->|Hmn].
    - left. split; [reflexivity|]. cbn in Hlk. congruence.
    - destruct (decide (m = n)) as [->|Hmn'].
      + right. left. split; [reflexivity|]. rewrite Hn in Hlk. cbn in Hlk. congruence.
      + right. right. splits; [exact Hmn|exact Hmn'|].
        destruct (heap w !! m) as [md|]; [|discriminate].
        exists md. split; [reflexivity|]. cbn in Hlk. congruence. }
  unfold TreeInv. splits.
  - apply newChildNode_fresh; assumption.
  - intros m md' c Hm Hc.
    destruct (Hcases m md' Hm) as [(-> & E)|[(-> & E)|(_ & _ & md & Hmd & E)]].
    + assert (Hl : childList md' = []) by (clear - E; unfold childNode_initial in E; node_crush).
      rewrite Hl in Hc. destruct Hc.
    + assert (Hl : childList md' = childList nd ++ [nextNode w]) by (clear - E; node_crush).
      rewrite Hl in Hc. apply in_app_iff in Hc. destruct Hc as [Hc|[<-|[]]].
      * destruct (Hfam n nd c Hn Hc) as (cd & Hcd & Hp).
        destruct (Hold c cd Hcd) as (cd' & Hcd' & Hp').
        exists cd'. split; [exact Hcd'|congruence].
      * destruct Hnew as (x & Hx & Ex). exists x. split; [exact Hx|].
        clear - Ex. unfold childNode_initial in Ex. node_crush.
    + assert (Hl : childList md' = childList md) by (clear - E; node_crush).
      rewrite Hl in Hc.
      destruct (Hfam m md c Hmd Hc) as (cd & Hcd & Hp).
      destruct (Hold c cd Hcd) as (cd' & Hcd' & Hp').
      exists cd'. split; [exact Hcd'|congruence].
  - intros m md' Hm.
    destruct (Hcases m md' Hm) as [(-> & E)|[(-> & E)|(_ & _ & md & Hmd & E)]].
    + assert (Hl : childList md' = []) by (clear - E; unfold childNode_initial in E; node_crush).
      rewrite Hl. constructor.
    + assert (Hl : childList md' = childList nd ++ [nextNode w]) by (clear - E; node_crush).
      rewrite Hl. apply NoDup_app. splits.
      * apply (Hnd n nd Hn).
      * intros c Hc Hc'. apply list_elem_of_In in Hc. apply list_elem_of_In in Hc'.
        destruct Hc' as [<-|[]].
        destruct (Hfam n nd _ Hn Hc) as (cd & Hcd & _).
        rewrite fresh_nextNode in Hcd by exact Hf. discriminate.
      * apply NoDup_singleton.
    + assert (Hl : childList md' = childList md) by (clear - E; node_crush).
      rewrite Hl. apply (Hnd m md Hmd).
  - intros m md' Hm.
    destruct (Hcases m md' Hm) as [(-> & E)|[(-> & E)|(_ & _ & md & Hmd & E)]].
    + assert (E1 : fileData md' = fileData (childNode_initial P e n w)) by (clear - E; node_crush).
      assert (E2 : nodeTimestamp md' = nodeTimestamp (childNode_initial P e n w))
        by (clear - E; node_crush).
      rewrite E1, E2. reflexivity.
    + assert (E1 : fileData md' = fileData nd) by (clear - E; node_crush).
      assert (E2 : nodeTimestamp md' = nodeTimestamp nd) by (clear - E; node_crush).
      rewrite E1, E2. apply (Hts n nd Hn).
    + assert (E1 : fileData md' = fileData md) by (clear - E; node_crush).
      assert (E2 : nodeTimestamp md' = nodeTimestamp md) by (clear - E; node_crush).
      rewrite E1, E2. apply (Hts m md Hmd).
Qed.

Lemma TreeInv_insertFile P n e w : TreeInv w -> TreeInv (insertFile P n e w).
Proof.
  intros HT. destruct (heap w !! n) as [nd|] eqn:Hn.
  - rewrite (insertFile_cases P n e w nd Hn).
    destruct (covered e w (childList nd)); [exact HT|].
    apply (TreeInv_newChildNode P e n w nd Hn HT).
  - unfold insertFile. rewrite Hn. destruct (String.eqb _ _); exact HT.
Qed.

Lemma TreeInv_fold {A} (f : World -> A -> World) (l : list A) :
  (forall w a, TreeInv w -> TreeInv (f w a)) ->
  forall w, TreeInv w -> TreeInv (fold_left f l w).
Proof.
  intros Hf. induction l as [|a l IH]; intros w HT; [exact HT|].
  simpl. apply IH, Hf, HT.
Qed.

Lemma TreeInv_updateFileNodeData P n l w :
  TreeInv w -> TreeInv (updateFileNodeData P n l w).
Proof.
  intros HT. unfold updateFileNodeData.
  assert (H1 : TreeInv (update_node n (set_folderContentsKnown true) w))
    by (apply TreeInv_update; [reflexivity|exact HT]).
  destruct (Nat.leb (length l) 1).
  - apply TreeInv_recomputeNodeState, TreeInv_clearAllChildren, H1.
  - apply TreeInv_recomputeNodeState.
    apply TreeInv_fold; [intros w0 c; apply TreeInv_setNodeVisible|].
    apply TreeInv_fold; [intros w0 e0; apply TreeInv_insertFile|].
    apply TreeInv_purgeUnmatchedChildren, H1.
Qed.

Lemma TreeInv_deliverLSdata P n st l w :
  TreeInv w -> TreeInv (deliverLSdata P n st l w).
Proof.
  intros HT. unfold deliverLSdata.
  assert (H1 : TreeInv (update_node n (set_lsTask None) w))
    by (apply TreeInv_update; [reflexivity|exact HT]).
  destruct st.
  - destruct (negb _);
      [apply TreeInv_recomputeNodeState, H1|apply TreeInv_updateFileNodeData, H1].
  - apply TreeInv_changeNodeState, H1.
  - apply TreeInv_recomputeNodeState, H1.
Qed.

Lemma TreeInv_setFileBuffer n b w : TreeInv w -> TreeInv (setFileBuffer n b w).
Proof.
  intros HT. unfold setFileBuffer.
  apply TreeInv_recomputeNodeState, TreeInv_setNodeVisible, TreeInv_update; [|exact HT].
  reflexivity.
Qed.

Lemma TreeInv_deliverBuffData n st b w :
  TreeInv w -> TreeInv (deliverBuffData n st b w).
Proof.
  intros HT. unfold deliverBuffData.
  assert (H1 : TreeInv (update_node n (set_bufferTask None) w))
    by (apply TreeInv_update; [reflexivity|exact HT]).
  destruct st.
  - destruct b; apply TreeInv_setFileBuffer, H1.
  - apply TreeInv_changeNodeState, H1.
  - apply TreeInv_recomputeNodeState, H1.
Qed.

Lemma TreeInv_setLStask n t w : TreeInv w -> TreeInv (setLStask n t w).
Proof.
  intros HT. unfold setLStask.
  destruct (heap w !! n) as [nd|]; [|exact HT].
  destruct t as [t|]; [|exact HT].
  destruct (negb _); [exact HT|].
  apply TreeInv_recomputeNodeState.
  apply (TreeInv_same
           (update_node n (set_lsTask (Some t))
              (match lsTask nd with Some old => disconnect old n w | None => w end)));
    [reflexivity|reflexivity|].
  apply TreeInv_update; [reflexivity|].
  destruct (lsTask nd); [|exact HT].
  apply (TreeInv_same w); [reflexivity|reflexivity|exact HT].
Qed.

Lemma TreeInv_setBuffTask n t w : TreeInv w -> TreeInv (setBuffTask n t w).
Proof.
  intros HT. unfold setBuffTask.
  destruct (heap w !! n) as [nd|]; [|exact HT].
  destruct t as [t|]; [|exact HT].
  destruct (negb _); [exact HT|].
  apply TreeInv_recomputeNodeState.
  apply (TreeInv_same
           (update_node n (set_bufferTask (Some t))
              (match bufferTask nd with Some old => disconnect old n w | None => w end)));
    [reflexivity|reflexivity|].
  apply TreeInv_update; [reflexivity|].
  destruct (bufferTask nd); [|exact HT].
  apply (TreeInv_same w); [reflexivity|reflexivity|exact HT].
Qed.

Lemma TreeInv_deleteFolderContentsData n w :
  TreeInv w -> TreeInv (deleteFolderContentsData n w).
Proof.
  intros HT. unfold deleteFolderContentsData.
  apply TreeInv_clearAllChildren, TreeInv_update; [reflexivity|exact HT].
Qed.

Lemma TreeInv_newRootNode P name w : TreeInv w -> TreeInv (newRootNode P name w).
Proof.
  intros (Hf & Hfam & Hnd & Hts).
  assert (Hlk := newRootNode_lookup P name w).
  set (w' := newRootNode P name w) in *.
  assert (Hcases : forall m md', heap w' !! m = Some md' ->
            (m = nextNode w /\ skel md' = skel (rootNode_initial P name w))
            \/ (m <> nextNode w /\ exists md, heap w !! m = Some md /\ skel md' = skel md)).
  { intros m md' Hm. specialize (Hlk m). rewrite Hm in Hlk.
    destruct (decide (m = nextNode w)) as [->|Hmn].
    - left. split; [reflexivity|]. cbn in Hlk. congruence.
    - right. split; [exact Hmn|].
      destruct (heap w !! m) as [md|]; [|discriminate].
      exists md. split; [reflexivity|]. cbn in Hlk. congruence. }
  assert (Hold : forall m md, heap w !! m = Some md ->
            exists md', heap w' !! m = Some md' /\ myParent md' = myParent md).
  { intros m md Hm.
    assert (Hmn : m <> nextNode w).
    { intros ->. rewrite fresh_nextNode in Hm by exact Hf. discriminate. }
    specialize (Hlk m). rewrite decide_False in Hlk by exact Hmn. rewrite Hm in Hlk.
    destruct (heap w' !! m) as [md'|]; [|discriminate].
    exists md'. split; [reflexivity|].
    assert (E : skel md' = skel md) by (cbn in Hlk; congruence). clear - E. node_crush. }
  unfold TreeInv. splits.
  - intros m [md' Hm]. unfold w'. rewrite newRootNode_nextNode.
    destruct (Hcases m md' Hm) as [(-> & _)|(_ & md & Hmd & _)]; [lia|].
    assert (m < nextNode w) by (apply Hf; eexists; exact Hmd). lia.
  - intros m md' c Hm Hc.
    destruct (Hcases m md' Hm) as [(-> & E)|(_ & md & Hmd & E)].
    + assert (Hl : childList md' = [])
        by (clear - E; unfold rootNode_initial in E; node_crush).
      rewrite Hl in Hc. destruct Hc.
    + assert (Hl : childList md' = childList md) by (clear - E; node_crush).
      rewrite Hl in Hc.
      destruct (Hfam m md c Hmd Hc) as (cd & Hcd & Hp).
      destruct (Hold c cd Hcd) as (cd' & Hcd' & Hp').
      exists cd'. split; [exact Hcd'|congruence].
  - intros m md' Hm.
    destruct (Hcases m md' Hm) as [(-> & E)|(_ & md & Hmd & E)].
    + assert (Hl : childList md' = [])
        by (clear - E; unfold rootNode_initial in E; node_crush).
      rewrite Hl. constructor.
    + assert (Hl : childList md' = childList md) by (clear - E; node_crush).
      rewrite Hl. apply (Hnd m md Hmd).
  - intros m md' Hm.
    destruct (Hcases m md' Hm) as [(-> & E)|(_ & md & Hmd & E)].
    + assert (E1 : fileData md' = fileData (rootNode_initial P name w))
        by (clear - E; node_crush).
      assert (E2 : nodeTimestamp md' = nodeTimestamp (rootNode_initial P name w))
        by (clear - E; node_crush).
      rewrite E1, E2. reflexivity.
    + assert (E1 : fileData md' = fileData md) by (clear - E; node_crush).
      assert (E2 : nodeTimestamp md' = nodeTimestamp md) by (clear - E; node_crush).
      rewrite E1, E2. apply (Hts m md Hmd).
Qed.

Lemma TreeInv_emptyWorld hs : TreeInv (emptyWorld hs).
Proof.
  unfold TreeInv, fresh, emptyWorld. simpl.
  splits; intros *; rewrite ?lookup_empty; try discriminate.
  intros [x Hx]. discriminate.
Qed.

Lemma TreeInv_runCall P c w : TreeInv w -> TreeInv (runCall P c w).
Proof.
  destruct c; simpl.
  - apply TreeInv_newRootNode.
  - apply TreeInv_setLStask.
  - apply TreeInv_setBuffTask.
  - apply TreeInv_setFileBuffer.
  - apply TreeInv_deleteFolderContentsData.
  - apply TreeInv_deliverLSdata.
  - apply TreeInv_deliverBuffData.
  - apply TreeInv_setNodeVisible.
  - apply TreeInv_changeNodeState.
  - apply TreeInv_recomputeNodeState.
  - apply TreeInv_recomputeModelItems.
  - apply TreeInv_purgeModelItems.
  - apply TreeInv_updateModelItems.
  - apply TreeInv_updateFileNodeData.
  - apply TreeInv_clearAllChildren.
  - apply TreeInv_insertFile.
  - apply TreeInv_purgeUnmatchedChildren.
Qed.

Lemma reachable_TreeInv P hs w : reachable P hs w -> TreeInv w.
Proof.
  induction 1 as [|w c _ IH]; [apply TreeInv_emptyWorld|apply TreeInv_runCall, IH].
Qed.

(** X13.  In every program state the methods lead to, the child lists and the
    parent pointers agree: a node on the child list of [n] is in the
    store, has [n] as its parent and is younger than [n] (so no node is
    its own child), and no child list names a node twice. *)
Theorem children_point_back (P : Platform) (hs : list string) (w : World)
    (n : NodeId) (nd : FileTreeNode) :
  reachable P hs w -> heap w !! n = Some nd ->
  NoDup (childList nd)
  /\ forall c, In c (childList nd) ->
       exists cd, heap w !! c = Some cd /\ myParent cd = Some n /\ n < c.
Proof.
  intros Hr Hn.
  destruct (reachable_TreeInv P hs w Hr) as (_ & Hfam & Hnd & _).
  destruct (reachable_Inv P hs w Hr) as (_ & Ho & _).
  split; [apply (Hnd n nd Hn)|].
  intros c Hc. destruct (Hfam n nd c Hn Hc) as (cd & Hcd & Hp).
  exists cd. splits; [exact Hcd|exact Hp|apply (Ho c cd n Hcd Hp)].
Qed.

Lemma children_point_back_witness :
  reachable slashPlatform exampleHeaders exampleDeep
  /\ heap exampleDeep !! 0 = Some (nodeAt exampleDeep 0)
  /\ In 2 (childList (nodeAt exampleDeep 0))
  /\ exists cd, heap exampleDeep !! 2 = Some cd /\ myParent cd = Some 0 /\ 0 < 2.
Proof.
  assert (H0 := exampleDeep_reachable).
  assert (H1 : heap exampleDeep !! 0 = Some (nodeAt exampleDeep 0))
    by (vm_compute; reflexivity).
  assert (H2 : In 2 (childList (nodeAt exampleDeep 0)))
    by (vm_compute; right; left; reflexivity).
  destruct (children_point_back slashPlatform exampleHeaders exampleDeep 0
              (nodeAt exampleDeep 0) H0 H1) as [_ Hback].
  splits; [exact H0|exact H1|exact H2|exact (Hback 2 H2)].
Defined.

(** X14.  In every such state the file data of a node carry the time stamp of
    the node, the one read from the clock when the node was made. *)
Theorem timestamps_agree (P : Platform) (hs : list string) (w : World)
    (n : NodeId) (nd : FileTreeNode) :
  reachable P hs w -> heap w !! n = Some nd ->
  timestamp (fileData nd) = nodeTimestamp nd.
Proof.
  intros Hr Hn. destruct (reachable_TreeInv P hs w Hr) as (_ & _ & _ & Hts).
  apply (Hts n nd Hn).
Qed.

Lemma timestamps_agree_witness :
  reachable slashPlatform exampleHeaders exampleDeep
  /\ heap exampleDeep !! 3 = Some (nodeAt exampleDeep 3)
  /\ timestamp (fileData (nodeAt exampleDeep 3)) = nodeTimestamp (nodeAt exampleDeep 3).
Proof.
  assert (H0 := exampleDeep_reachable).
  assert (H1 : heap exampleDeep !! 3 = Some (nodeAt exampleDeep 3))
    by (vm_compute; reflexivity).
  splits; [exact H0|exact H1|].
  exact (timestamps_agree slashPlatform exampleHeaders exampleDeep 3
           (nodeAt exampleDeep 3) H0 H1).
Defined.

(** ** Where a path search ends *)

Lemma getChildNodeWithName_In n name w c :
  getChildNodeWithName n name w = Some c ->
  exists nd, heap w !! n = Some nd /\ In c (childList nd).
Proof.
  unfold getChildNodeWithName. destruct (heap w !! n) as [nd|]; [|discriminate].
  intros H. exists nd. split; [reflexivity|]. apply (find_some _ _ H).
Qed.

Lemma search_goes_down w stopEarly :
  TreeInv w -> forall parts n r,
  pathSearchHelperFromAnyNode n parts stopEarly w = Some r -> onPathUp w r n.
Proof.
  intros (_ & Hfam & _). induction parts as [|part parts IH]; intros n r Hs.
  - simpl in Hs. injection Hs as <-. apply onPathUp_here.
  - simpl in Hs. destruct (getChildNodeWithName n part w) as [c|] eqn:E.
    + destruct (getChildNodeWithName_In _ _ _ _ E) as (nd & Hn & Hc).
      destruct (Hfam n nd c Hn Hc) as (cd & Hcd & Hp).
      apply (onPathUp_trans w r c n); [apply IH, Hs|].
      exact (onPathUp_up w c cd n n Hcd Hp (onPathUp_here w n)).
    + destruct stopEarly; [|discriminate]. injection Hs as <-. apply onPathUp_here.
Qed.

(** X15.  In every program state the methods lead to, a path search ends in
    the tree below the node it starts from: the node that
    [getNodeReletiveToNodeWithName], [getNodeWithName] or
    [getClosestNodeWithName] returns is a child of the searched node in
    the sense of [isChildOf]. *)
Theorem search_result_is_below (P : Platform) (hs : list string) (w : World)
    (n r : NodeId) (path : string) :
  reachable P hs w ->
  getNodeReletiveToNodeWithName P n path w = Some r
  \/ getNodeWithName P n path w = Some r
  \/ getClosestNodeWithName P n path w = Some r ->
  isChildOf r (Some n) w = Some true.
Proof.
  intros Hr Hs.
  assert (HT := reachable_TreeInv P hs w Hr).
  destruct (reachable_Inv P hs w Hr) as (_ & Ho & _).
  assert (Hup : onPathUp w r n).
  { destruct Hs as [Hs|[Hs|Hs]].
    - apply (search_goes_down w false HT _ _ _ Hs).
    - apply pathSearchHelper_started in Hs. destruct Hs as (parts & _ & Hs).
      apply (search_goes_down w false HT _ _ _ Hs).
    - apply pathSearchHelper_started in Hs. destruct Hs as (parts & _ & Hs).
      apply (search_goes_down w true HT _ _ _ Hs). }
  destruct (isChildOf_loop_spec w n Ho (S r) r ltac:(lia)) as (b & Hb & Hiff).
  unfold isChildOf. rewrite Hb. f_equal. apply Hiff, Hup.
Qed.

Lemma search_result_is_below_witness :
  reachable slashPlatform exampleHeaders exampleDeep
  /\ getNodeWithName slashPlatform 0 "/r/d/b" exampleDeep = Some 3
  /\ isChildOf 3 (Some 0) exampleDeep = Some true.
Proof.
  assert (H0 := exampleDeep_reachable).
  assert (H1 : getNodeWithName slashPlatform 0 "/r/d/b" exampleDeep = Some 3)
    by (vm_compute; reflexivity).
  splits; [exact H0|exact H1|].
  exact (search_result_is_below slashPlatform exampleHeaders exampleDeep 0 3 "/r/d/b"
           H0 (or_intror (or_introl H1))).
Defined.

(** ** What no method changes *)

Lemma identity_of_core w w' : heap_rel core w w' -> heap_rel nodeIdentity w w'.
Proof.
  intros H m. specialize (H m).
  destruct (heap w' !! m) as [a|], (heap w !! m) as [b|]; cbn in *;
    try discriminate; [|reflexivity].
  assert (E : core a = core b) by congruence.
  f_equal. unfold nodeIdentity. f_equal; [f_equal|]; clear - E; node_crush.
Qed.

Lemma identity_of_skel w w' : heap_rel skel w w' -> heap_rel nodeIdentity w w'.
Proof. apply (heap_rel_weaken skel nodeIdentity nodeIdentity). intros x. reflexivity. Qed.

Lemma identity_of_bones w w' : heap_rel bones w w' -> heap_rel nodeIdentity w w'.
Proof. apply (heap_rel_weaken bones nodeIdentity nodeIdentity). intros x. reflexivity. Qed.

Lemma identity_of_shell w w' : heap_rel shell w w' -> heap_rel nodeIdentity w w'.
Proof. apply (heap_rel_weaken shell nodeIdentity nodeIdentity). intros x. reflexivity. Qed.

Lemma identity_same_heap w w' : heap w' = heap w -> heap_rel nodeIdentity w w'.
Proof. intros H m. rewrite H. reflexivity. Qed.

Lemma identity_setFileBuffer n b w : heap_rel nodeIdentity w (setFileBuffer n b w).
Proof.
  eapply heap_rel_trans; [|apply identity_of_bones, setFileBuffer_bones].
  apply heap_rel_update. reflexivity.
Qed.

Lemma identity_setLStask n t w : heap_rel nodeIdentity w (setLStask n t w).
Proof.
  unfold setLStask.
  destruct (heap w !! n) as [nd|]; [|apply heap_rel_refl].
  destruct t as [t|]; [|apply heap_rel_refl].
  destruct (negb _); [apply heap_rel_refl|].
  eapply heap_rel_trans; [|apply identity_of_skel, recomputeNodeState_skel].
  eapply heap_rel_trans;
    [|apply (identity_same_heap
               (update_node n (set_lsTask (Some t))
                  (match lsTask nd with Some old => disconnect old n w | None => w end)));
      reflexivity].
  eapply heap_rel_trans; [|apply heap_rel_update; reflexivity].
  apply identity_same_heap. destruct (lsTask nd); reflexivity.
Qed.

Lemma identity_setBuffTask n t w : heap_rel nodeIdentity w (setBuffTask n t w).
Proof.
  unfold setBuffTask.
  destruct (heap w !! n) as [nd|]; [|apply heap_rel_refl].
  destruct t as [t|]; [|apply heap_rel_refl].
  destruct (negb _); [apply heap_rel_refl|].
  eapply heap_rel_trans; [|apply identity_of_skel, recomputeNodeState_skel].
  eapply heap_rel_trans;
    [|apply (identity_same_heap
               (update_node n (set_bufferTask (Some t))
                  (match bufferTask nd with Some old => disconnect old n w | None => w end)));
      reflexivity].
  eapply heap_rel_trans; [|apply heap_rel_update; reflexivity].
  apply identity_same_heap. destruct (bufferTask nd); reflexivity.
Qed.

Lemma identity_deliverBuffData n st b w : heap_rel nodeIdentity w (deliverBuffData n st b w).
Proof.
  unfold deliverBuffData.
  eapply heap_rel_trans; [apply (heap_rel_update nodeIdentity n (set_bufferTask None)); reflexivity|].
  destruct st.
  - destruct b; apply identity_setFileBuffer.
  - apply identity_of_skel, changeNodeState_skel.
  - apply identity_of_skel, recomputeNodeState_skel.
Qed.

Lemma identity_deleteFolderContentsData n w :
  heap_rel nodeIdentity w (deleteFolderContentsData n w).
Proof.
  unfold deleteFolderContentsData.
  eapply heap_rel_trans; [|apply identity_of_shell, clearAllChildren_shell].
  apply heap_rel_update. reflexivity.
Qed.

Lemma keeps_insertFile P n e w :
  fresh w -> fresh (insertFile P n e w) /\ heap_keeps nodeIdentity w (insertFile P n e w).
Proof.
  intros Hf. destruct (heap w !! n) as [nd|] eqn:Hn.
  - destruct (insertFile_spec P n e w nd Hf Hn) as (_ & _ & Hf' & _ & Hk & _).
    split; [exact Hf'|].
    apply (heap_keeps_weaken shell nodeIdentity nodeIdentity); [intros x; reflexivity|exact Hk].
  - assert (E : insertFile P n e w = w)
      by (unfold insertFile; rewrite Hn; destruct (String.eqb _ _); reflexivity).
    rewrite E. split; [exact Hf|apply heap_keeps_refl].
Qed.

Lemma keeps_insertFile_fold P n : forall l w,
  fresh w ->
  fresh (fold_left (fun acc e => insertFile P n e acc) l w)
  /\ heap_keeps nodeIdentity w (fold_left (fun acc e => insertFile P n e acc) l w).
Proof.
  induction l as [|e l IH]; intros w Hf; [split; [exact Hf|apply heap_keeps_refl]|].
  simpl. destruct (keeps_insertFile P n e w Hf) as [Hf1 Hk1].
  destruct (IH _ Hf1) as [Hf2 Hk2].
  split; [exact Hf2|exact (heap_keeps_trans _ _ _ _ Hk1 Hk2)].
Qed.

Lemma identity_setNodeVisible_fold : forall cs w,
  heap_rel nodeIdentity w (fold_left (fun acc c => setNodeVisible c acc) cs w).
Proof.
  induction cs as [|c cs IH]; intros w; [apply heap_rel_refl|].
  simpl. eapply heap_rel_trans; [apply identity_of_bones, setNodeVisible_bones|apply IH].
Qed.

Lemma keeps_updateFileNodeData P n l w :
  fresh w -> heap_keeps nodeIdentity w (updateFileNodeData P n l w).
Proof.
  intros Hf. unfold updateFileNodeData.
  set (w1 := update_node n (set_folderContentsKnown true) w).
  assert (H1 : heap_rel nodeIdentity w w1) by (apply heap_rel_update; reflexivity).
  assert (Hf1 : fresh w1) by exact (fresh_rel _ _ _ H1 eq_refl Hf).
  eapply heap_keeps_trans; [apply heap_keeps_rel, H1|].
  destruct (Nat.leb (length l) 1).
  - apply heap_keeps_rel.
    eapply heap_rel_trans; [apply identity_of_shell, clearAllChildren_shell|].
    apply identity_of_skel, recomputeNodeState_skel.
  - set (w2 := purgeUnmatchedChildren n l w1).
    assert (H2 : heap_rel nodeIdentity w1 w2)
      by apply identity_of_shell, purgeUnmatchedChildren_shell.
    assert (Hf2 : fresh w2).
    { apply (fresh_rel _ _ _ H2); [|exact Hf1].
      apply statics_nextNode, purgeUnmatchedChildren_statics. }
    destruct (keeps_insertFile_fold P n l w2 Hf2) as [_ H3].
    eapply heap_keeps_trans; [apply heap_keeps_rel, H2|].
    eapply heap_keeps_trans; [exact H3|].
    apply heap_keeps_rel.
    eapply heap_rel_trans; [apply identity_setNodeVisible_fold|].
    apply identity_of_skel, recomputeNodeState_skel.
Qed.

Lemma keeps_deliverLSdata P n st l w :
  fresh w -> heap_keeps nodeIdentity w (deliverLSdata P n st l w).
Proof.
  intros Hf. unfold deliverLSdata.
  set (w1 := update_node n (set_lsTask None) w).
  assert (H1 : heap_rel nodeIdentity w w1) by (apply heap_rel_update; reflexivity).
  assert (Hf1 : fresh w1) by exact (fresh_rel _ _ _ H1 eq_refl Hf).
  eapply heap_keeps_trans; [apply heap_keeps_rel, H1|].
  destruct st.
  - destruct (negb _).
    + apply heap_keeps_rel, identity_of_skel, recomputeNodeState_skel.
    + apply keeps_updateFileNodeData, Hf1.
  - apply heap_keeps_rel, identity_of_skel, changeNodeState_skel.
  - apply heap_keeps_rel, identity_of_skel, recomputeNodeState_skel.
Qed.

Lemma keeps_newRootNode P name w :
  fresh w -> heap_keeps nodeIdentity w (newRootNode P name w).
Proof.
  intros Hf m md Hm.
  assert (Hmn : m <> nextNode w).
  { intros ->. rewrite fresh_nextNode in Hm by exact Hf. discriminate. }
  assert (Hlk := newRootNode_lookup P name w m).
  rewrite decide_False in Hlk by exact Hmn. rewrite Hm in Hlk.
  destruct (heap (newRootNode P name w) !! m) as [md'|]; [|discriminate].
  exists md'. split; [reflexivity|].
  assert (E : skel md' = skel md) by (cbn in Hlk; congruence).
  unfold nodeIdentity. f_equal; [f_equal|]; clear - E; node_crush.
Qed.

Lemma keeps_runCall P c w : fresh w -> heap_keeps nodeIdentity w (runCall P c w).
Proof.
  intros Hf. destruct c; simpl.
  - apply keeps_newRootNode, Hf.
  - apply heap_keeps_rel, identity_setLStask.
  - apply heap_keeps_rel, identity_setBuffTask.
  - apply heap_keeps_rel, identity_setFileBuffer.
  - apply heap_keeps_rel, identity_deleteFolderContentsData.
  - apply keeps_deliverLSdata, Hf.
  - apply heap_keeps_rel, identity_deliverBuffData.
  - apply heap_keeps_rel, identity_of_bones, setNodeVisible_bones.
  - apply heap_keeps_rel, identity_of_skel, changeNodeState_skel.
  - apply heap_keeps_rel, identity_of_skel, recomputeNodeState_skel.
  - apply heap_keeps_rel, identity_of_core, recomputeModelItems_core.
  - apply heap_keeps_rel, identity_of_core, purgeModelItems_core.
  - apply heap_keeps_rel, identity_of_core, updateModelItems_core.
  - apply keeps_updateFileNodeData, Hf.
  - apply heap_keeps_rel, identity_of_shell, clearAllChildren_shell.
  - apply keeps_insertFile, Hf.
  - apply heap_keeps_rel, identity_of_shell, purgeUnmatchedChildren_shell.
Qed.

Lemma reachable_runCalls P hs : forall cs w,
  reachable P hs w -> reachable P hs (runCalls P cs w).
Proof.
  induction cs as [|c cs IH]; intros w Hr; [exact Hr|].
  apply IH. exact (reachable_call P hs w c Hr).
Qed.



(** ** Forgetting the contents of a folder *)

Lemma takeLast_inv {A} (l : list A) x rest : takeLast l = Some (x, rest) -> l = rest ++ [x].
Proof.
  destruct l as [|y l _] using rev_ind; [discriminate|].
  rewrite takeLast_snoc. intros [= <- <-]. reflexivity.
Qed.

Lemma alive_core w w' c :
  core <$> heap w' !! c = core <$> heap w !! c -> alive w' c = alive w c.
Proof.
  unfold alive. intros H.
  destruct (heap w' !! c) as [a|], (heap w !! c) as [b|]; cbn in H;
    try discriminate; [|reflexivity].
  assert (E : core a = core b) by congruence. rewrite (myState_core _ _ E). reflexivity.
Qed.

Lemma changeNodeState_DELETING_queue c w :
  deferredDelete (changeNodeState c DELETING w)
  = deferredDelete w ++ (if alive w c then [c] else []).
Proof.
  unfold alive. destruct (heap w !! c) as [cd|] eqn:Hc.
  - destruct (decide (myState cd = DELETING)) as [Hd|Hd].
    + rewrite (changeNodeState_DELETING c DELETING w cd Hc Hd).
      rewrite bool_decide_eq_true_2 by exact Hd. simpl. rewrite app_nil_r. reflexivity.
    + destruct (changeNodeState_changed c DELETING w cd Hc Hd ltac:(congruence)) as [_ ->].
      rewrite bool_decide_eq_true_2 by reflexivity.
      rewrite bool_decide_eq_false_2 by exact Hd. reflexivity.
  - unfold changeNodeState. rewrite Hc. simpl. rewrite app_nil_r. reflexivity.
Qed.

Lemma clearAllChildren_loop_queue n fuel : forall w nd,
  heap w !! n = Some nd -> length (childList nd) <= fuel ->
  NoDup (childList nd) -> ~ In n (childList nd) ->
  (exists nd', heap (clearAllChildren_loop fuel n w) !! n = Some nd'
               /\ myState nd' = myState nd)
  /\ deferredDelete (clearAllChildren_loop fuel n w)
     = deferredDelete w ++ List.filter (alive w) (rev (childList nd)).
Proof.
  induction fuel as [|fuel IH]; intros w nd Hn Hlen Hnd Hself.
  - destruct (childList nd) as [|c l]; [|simpl in Hlen; lia].
    simpl. rewrite app_nil_r. split; [exists nd; auto|reflexivity].
  - simpl. rewrite Hn.
    destruct (takeLast (childList nd)) as [[a rest]|] eqn:Ht.
    + assert (El := takeLast_inv _ _ _ Ht).
      set (w1 := update_node n (set_childList rest) w).
      assert (Han : a <> n).
      { intros ->. apply Hself. rewrite El. apply in_app_iff. right. left. reflexivity. }
      assert (Hn2 : exists nd2, heap (changeNodeState a DELETING w1) !! n = Some nd2
                                /\ core nd2 = core (set_childList rest nd)).
      { assert (H := changeNodeState_other a DELETING w1 n ltac:(congruence)).
        unfold w1 in H at 2. rewrite lookup_update_node_eq, Hn in H.
        destruct (heap (changeNodeState a DELETING w1) !! n) as [nd2|]; [|discriminate].
        exists nd2. split; [reflexivity|]. cbn in H. congruence. }
      destruct Hn2 as (nd2 & Hn2 & E2).
      assert (Hl2 : childList nd2 = rest) by (clear - E2; node_crush).
      assert (Hs2 : myState nd2 = myState nd) by (clear - E2; node_crush).
      rewrite El in Hnd. apply NoDup_app in Hnd. destruct Hnd as (Hnd1 & Hdisj & _).
      destruct (IH (changeNodeState a DELETING w1) nd2 Hn2) as [(nd' & Hn' & Hs') Hq].
      * rewrite Hl2. rewrite El, length_app in Hlen. simpl in Hlen. lia.
      * rewrite Hl2. exact Hnd1.
      * rewrite Hl2. intros Hin. apply Hself. rewrite El. apply in_app_iff. left. exact Hin.
      * split; [exists nd'; split; [exact Hn'|congruence]|].
        rewrite Hq, changeNodeState_DELETING_queue, Hl2, El, rev_app_distr.
        simpl. rewrite <- app_assoc.
        assert (Ea : alive w1 a = alive w a).
        { apply alive_core. unfold w1. rewrite lookup_update_node_ne by congruence.
          reflexivity. }
        rewrite Ea. f_equal.
        assert (Ef : List.filter (alive (changeNodeState a DELETING w1)) (rev rest)
                     = List.filter (alive w) (rev rest)).
        { apply filter_ext_in. intros c Hc. apply in_rev in Hc.
          assert (Hca : c <> a).
          { intros ->. apply (Hdisj a); [apply list_elem_of_In, Hc|].
            apply list_elem_of_In. left. reflexivity. }
          assert (Hcn : c <> n).
          { intros ->. apply Hself. rewrite El. apply in_app_iff. left. exact Hc. }
          rewrite (alive_core w1 _ c (changeNodeState_other a DELETING w1 c Hca)).
          apply alive_core. unfold w1. rewrite lookup_update_node_ne by congruence.
          reflexivity. }
        rewrite Ef. destruct (alive w a); reflexivity.
    + assert (El : childList nd = []).
      { destruct (childList nd) as [|y l _] using rev_ind; [reflexivity|].
        rewrite takeLast_snoc in Ht. discriminate. }
      rewrite El. simpl. rewrite app_nil_r. split; [exists nd; auto|reflexivity].
Qed.

(** X17.  [deleteFolderContentsData] in a program state the methods lead to:
    the node ends with an empty child list and unknown folder contents;
    its former children that were not being deleted are all in state
    [DELETING] and were handed to [deleteLater] from the last to the
    first; the state of the node itself is left as it was, for the method
    does not recompute it. *)
Theorem deleteFolderContentsData_forgets (P : Platform) (hs : list string) (w : World)
    (n : NodeId) (nd : FileTreeNode) :
  reachable P hs w -> heap w !! n = Some nd ->
  (exists nd', heap (deleteFolderContentsData n w) !! n = Some nd'
     /\ childList nd' = []
     /\ folderContentsKnown nd' = false
     /\ myState nd' = myState nd)
  /\ (forall c, In c (childList nd) ->
        exists cd', heap (deleteFolderContentsData n w) !! c = Some cd'
                    /\ myState cd' = DELETING)
  /\ deferredDelete (deleteFolderContentsData n w)
     = deferredDelete w ++ List.filter (alive w) (rev (childList nd)).
Proof.
  intros Hr Hn.
  destruct (reachable_TreeInv P hs w Hr) as (_ & Hfam & Hnd & _).
  destruct (reachable_Inv P hs w Hr) as (_ & Ho & _).
  assert (Hself : ~ In n (childList nd)).
  { intros Hin. destruct (Hfam n nd n Hn Hin) as (cd & Hcd & Hp).
    assert (n < n) by apply (Ho n cd n Hcd Hp). lia. }
  unfold deleteFolderContentsData.
  set (w0 := update_node n (set_folderContentsKnown false) w).
  assert (Hn0 : heap w0 !! n = Some (set_folderContentsKnown false nd))
    by (unfold w0; rewrite lookup_update_node_eq, Hn; reflexivity).
  destruct (clearAllChildren_spec n w0 _ Hn0) as (Hrel & _ & _ & Hdel).
  assert (Hloop := clearAllChildren_loop_queue n (length (childList nd)) w0 _ Hn0
                     (Nat.le_refl _) (Hnd n nd Hn) Hself).
  assert (Eloop : clearAllChildren n w0
                  = clearAllChildren_loop (length (childList nd)) n w0)
    by (unfold clearAllChildren; rewrite Hn0; reflexivity).
  rewrite <- Eloop in Hloop. destruct Hloop as [(nd' & Hn' & Hs') Hq].
  splits.
  - exists nd'. split; [exact Hn'|].
    assert (Hx : heap (update_node n (set_childList []) w0) !! n
                 = Some (set_childList [] (set_folderContentsKnown false nd)))
      by (rewrite lookup_update_node_eq, Hn0; reflexivity).
    destruct (heap_rel_Some _ _ _ _ _ Hrel Hx) as (x & Hx' & E).
    assert (x = nd') by congruence. subst x.
    splits; [clear - E; node_crush|clear - E; node_crush|exact Hs'].
  - intros c Hc. destruct (Hfam n nd c Hn Hc) as (cd & Hcd & Hp).
    assert (Hcn : c <> n) by (intros ->; contradiction).
    apply (Hdel c cd Hc). unfold w0. rewrite lookup_update_node_ne by congruence.
    exact Hcd.
  - rewrite Hq. cbn [childList set_folderContentsKnown deferredDelete]. f_equal.
    apply filter_ext_in. intros c Hc. apply in_rev in Hc.
    assert (Hcn : c <> n) by (intros ->; contradiction).
    apply alive_core. unfold w0. rewrite lookup_update_node_ne by congruence. reflexivity.
Qed.

Lemma deleteFolderContentsData_forgets_witness :
  reachable slashPlatform exampleHeaders exampleTree
  /\ heap exampleTree !! 0 = Some (nodeAt exampleTree 0)
  /\ deferredDelete (deleteFolderContentsData 0 exampleTree) = [2; 1]
  /\ exists nd', heap (deleteFolderContentsData 0 exampleTree) !! 0 = Some nd'
       /\ childList nd' = [] /\ myState nd' = FOLDER_CONTENTS_LOADED.
Proof.
  assert (H0 := exampleTree_reachable).
  assert (H1 : heap exampleTree !! 0 = Some (nodeAt exampleTree 0))
    by (vm_compute; reflexivity).
  destruct (deleteFolderContentsData_forgets slashPlatform exampleHeaders exampleTree 0
              (nodeAt exampleTree 0) H0 H1) as ((nd' & Hn' & Hl & _ & Hs) & _ & Hq).
  splits; [exact H0|exact H1|exact Hq|]. exists nd'. splits; [exact Hn'|exact Hl|exact Hs].
Defined.

(** ** The item model in the states the methods lead to *)



(** X19.  In every such state the indices a node holds fit together: all of
    them name the row of the first one, which is the index that
    [getFirstModelIndex] hands out; a placeholder that is in the model
    hangs under that row; and a node without indices has no
    placeholder. *)
Theorem node_indices_name_one_row (P : Platform) (hs : list string) (w : World)
    (n : NodeId) (nd : FileTreeNode) :
  reachable P hs w -> heap w !! n = Some nd ->
  (forall i, In i (modelItemList nd) ->
     exists r, rowOf i = Some r /\ rowOf (getFirstModelIndex n w) = Some r)
  /\ (forall q c x, decendantPlaceholderItem nd = Some (q, c) ->
        find_row q (rows (myModel w)) = Some x ->
        row_parent x = rowOf (getFirstModelIndex n w))
  /\ (modelItemList nd = [] -> decendantPlaceholderItem nd = None).
Proof.
  intros Hr Hn. destruct (reachable_ViewInv P hs w Hr) as [_ Hv].
  destruct (Hv n nd Hn) as [Va Vb].
  assert (Hfirst : getFirstModelIndex n w = first (modelItemList nd)).
  { unfold getFirstModelIndex. rewrite Hn. destruct (modelItemList nd); reflexivity. }
  rewrite Hfirst. splits.
  - intros i Hi. destruct (Va i Hi) as (r & H1 & H2 & _). exists r. auto.
  - intros q c x Hph Hx. destruct (Vb q) as (_ & r & Hr' & Hpar).
    + rewrite Hph. reflexivity.
    + rewrite Hr'. apply Hpar, Hx.
  - intros Hl. destruct (decendantPlaceholderItem nd) as [[q c]|] eqn:Hph; [|reflexivity].
    destruct (Vb q eq_refl) as (_ & r & Hr' & _). rewrite Hl in Hr'. discriminate.
Qed.

Lemma node_indices_name_one_row_witness :
  reachable slashPlatform exampleHeaders exampleTree
  /\ heap exampleTree !! 2 = Some (nodeAt exampleTree 2)
  /\ In (Some (6, 1)) (modelItemList (nodeAt exampleTree 2))
  /\ exists r, rowOf (Some (6, 1)) = Some r
               /\ rowOf (getFirstModelIndex 2 exampleTree) = Some r.
Proof.
  assert (H0 := exampleTree_reachable).
  assert (H1 : heap exampleTree !! 2 = Some (nodeAt exampleTree 2))
    by (vm_compute; reflexivity).
  assert (H2 : In (Some (6, 1)) (modelItemList (nodeAt exampleTree 2)))
    by (vm_compute; right; left; reflexivity).
  destruct (node_indices_name_one_row slashPlatform exampleHeaders exampleTree 2
              (nodeAt exampleTree 2) H0 H1) as (Hrow & _).
  splits; [exact H0|exact H1|exact H2|exact (Hrow _ H2)].
Defined.

(** ** The placeholder row of a folder *)

Lemma find_row_new (l : list Row) q p items :
  (forall x, In x l -> row_id x < q) ->
  find_row q (l ++ [mkRow q p items]) = Some (mkRow q p items).
Proof.
  intros Hlt. induction l as [|y l IH].
  - unfold find_row. simpl. rewrite Nat.eqb_refl. reflexivity.
  - unfold find_row in *. simpl.
    assert (Hy : row_id y < q) by (apply Hlt; left; reflexivity).
    destruct (row_id y =? q) eqn:E; [apply Nat.eqb_eq in E; lia|].
    apply IH. intros x Hx. apply Hlt. right. exact Hx.
Qed.

Lemma isValid_null m : isValid None m = false.
Proof. reflexivity. Qed.

(** X20.  [updateModelItems] and the placeholder: a node that is no folder, and
    a folder with a visible child, end without a placeholder in the
    model.  A folder without visible child whose row is in the model ends
    with a placeholder row below its row, of one item that reads "Empty"
    when the folder contents count as loaded and "Loading" when not. *)
Theorem updateModelItems_placeholder (P : Platform) (hs : list string) (w : World)
    (n : NodeId) (nd : FileTreeNode) (folderContentsLoaded : bool) :
  reachable P hs w -> heap w !! n = Some nd ->
  exists nd',
    heap (updateModelItems n folderContentsLoaded w) !! n = Some nd'
    /\ (getFileType (fileData nd) <> DIR \/ anyChildVisible w (childList nd) = true ->
        isValid (decendantPlaceholderItem nd')
          (myModel (updateModelItems n folderContentsLoaded w)) = false)
    /\ (getFileType (fileData nd) = DIR -> anyChildVisible w (childList nd) = false ->
        forall r, resolve (getFirstModelIndex n (updateModelItems n folderContentsLoaded w))
                    (myModel (updateModelItems n folderContentsLoaded w)) = Some r ->
        exists q,
          decendantPlaceholderItem nd' = Some (q, 0)
          /\ find_row q (rows (myModel (updateModelItems n folderContentsLoaded w)))
             = Some (mkRow q (Some r)
                       [(FileNodeRef_nil,
                         if folderContentsLoaded then "Empty" else "Loading")])).
Proof.
  intros Hr Hn. destruct (reachable_ViewInv P hs w Hr) as [Hm Hv].
  assert (Vn := Hv n nd Hn).
  unfold updateModelItems. rewrite Hn.
  set (created := match modelItemList nd with [] => _ | _ :: _ => _ end).
  assert (Hc : match created with
               | Some (m1, items) => model_ok m1
               | None => True
               end).
  { unfold created. destruct (modelItemList nd) as [|i0 rest].
    - destruct (myParent nd) as [p|].
      + match goal with
        | |- context [item_appendRow ?i ?items ?m] =>
            assert (H := goodStep_item_appendRow i items m Hm);
            destruct (item_appendRow i items m) as [m1 [r|]]
        end; [apply H|exact I].
      + apply (goodStep_append_row None _ (myModel w) ltac:(intros r [=]) Hm).
    - apply (goodStep_fold_updateText (fileData nd) (i0 :: rest) (myModel w) Hm). }
  destruct created as [[m1 items]|].
  2:{ exists (set_modelItems [] None nd). splits.
      - rewrite lookup_update_node_eq, Hn. reflexivity.
      - intros _. reflexivity.
      - intros _ _ r. unfold getFirstModelIndex.
        rewrite lookup_update_node_eq, Hn. simpl. discriminate. }
  set (removed := if isValid (decendantPlaceholderItem nd) m1 then _ else _).
  assert (Hrm : model_ok (fst removed) /\ isValid (snd removed) (fst removed) = false).
  { unfold removed. destruct (isValid _ m1) eqn:E; simpl.
    - split; [|reflexivity]. apply (goodStep_item_removeRow _ _ m1 Hc).
    - split; [exact Hc|exact E]. }
  destruct removed as [m2 ph2]. simpl in Hrm. destruct Hrm as [Hm2 Hph2].
  assert (Hplain :
            exists nd',
              heap (update_node n (set_modelItems items ph2) (set_myModel m2 w)) !! n
              = Some nd'
              /\ isValid (decendantPlaceholderItem nd') m2 = false).
  { exists (set_modelItems items ph2 nd). split; [|exact Hph2].
    rewrite lookup_update_node_eq. simpl. rewrite Hn. reflexivity. }
  destruct (negb (bool_decide (getFileType (fileData nd) = DIR))) eqn:Hty.
  { destruct Hplain as (nd' & Hn' & Hval). exists nd'. splits.
    - exact Hn'.
    - intros _. exact Hval.
    - intros Hdir. apply negb_true_iff, bool_decide_eq_false in Hty. contradiction. }
  destruct (anyChildVisible w (childList nd)) eqn:Hvis.
  { destruct Hplain as (nd' & Hn' & Hval). exists nd'. splits.
    - exact Hn'.
    - intros _. exact Hval.
    - intros _ [=]. }
  apply negb_false_iff, bool_decide_eq_true in Hty.
  unfold item_appendRow.
  destruct (resolve (first items) m2) as [r0|] eqn:Hres.
  - cbn [append_row].
    exists (set_modelItems items (Some (nextRow m2, 0)) nd). splits.
    + rewrite lookup_update_node_eq. simpl. rewrite Hn. reflexivity.
    + intros [Hno|[=]]. contradiction.
    + intros _ _ r Hr'. exists (nextRow m2). split; [reflexivity|].
      cbn [myModel update_node set_heap set_myModel rows] in *.
      assert (Er : r = r0).
      { unfold getFirstModelIndex in Hr'. rewrite lookup_update_node_eq in Hr'.
        cbn [heap set_myModel] in Hr'. rewrite Hn in Hr'. cbn in Hr'.
        destruct (resolve_Some _ _ _ Hres) as [Hrow _].
        destruct items as [|i0 rest]; [discriminate|].
        cbn [first] in *. destruct i0 as [[r1 c1]|]; [|discriminate].
        simpl in Hrow. injection Hrow as ->.
        unfold resolve in Hr'. destruct (find_row r0 _); congruence. }
      subst r. apply find_row_new. intros x Hx. apply Hm2, Hx.
  - exists (set_modelItems items None nd). splits.
    + rewrite lookup_update_node_eq. simpl. rewrite Hn. reflexivity.
    + intros _. reflexivity.
    + intros _ _ r Hr'. exfalso.
      unfold getFirstModelIndex in Hr'. rewrite lookup_update_node_eq in Hr'.
      cbn [heap set_myModel] in Hr'. rewrite Hn in Hr'. cbn in Hr'.
      destruct items as [|i0 rest]; [discriminate|]. cbn [first] in *. congruence.
Qed.

Lemma updateModelItems_placeholder_witness :
  reachable slashPlatform exampleHeaders exampleTree
  /\ heap exampleTree !! 2 = Some (nodeAt exampleTree 2)
  /\ exists q,
       find_row q (rows (myModel (updateModelItems 2 true exampleTree)))
       = Some (mkRow q (Some 6) [(FileNodeRef_nil, "Empty")]).
Proof.
  assert (H0 := exampleTree_reachable).
  assert (H1 : heap exampleTree !! 2 = Some (nodeAt exampleTree 2))
    by (vm_compute; reflexivity).
  destruct (updateModelItems_placeholder slashPlatform exampleHeaders exampleTree 2
              (nodeAt exampleTree 2) true H0 H1) as (nd' & _ & _ & Hph).
  destruct (Hph ltac:(vm_compute; reflexivity) ltac:(vm_compute; reflexivity) 6
              ltac:(vm_compute; reflexivity)) as (q & _ & Hq).
  splits; [exact H0|exact H1|]. exists q. exact Hq.
Defined.

(** ** A listing without control entry *)

(** X21.  A reply in state [GOOD] whose listing has no entry named ["."], as
    the empty listing, or whose first such entry has an empty containing
    path, is not applied: all [deliverLSdata] does is to clear the task
    and to recompute the state.  So [updateFileNodeData] is never reached
    with an empty listing. *)
Theorem listing_without_control_entry (P : Platform) (n : NodeId)
    (dataList : list FileMetaData) (w : World) :
  (forall e, firstDot dataList = Some e -> containingPath e = EmptyString) ->
  deliverLSdata P n GOOD dataList w
  = recomputeNodeState n (update_node n (set_lsTask None) w).
Proof.
  intros Hdot. unfold deliverLSdata, verifyControlNode, getControlAddress.
  fold (firstDot dataList).
  destruct (firstDot dataList) as [e|] eqn:E.
  - rewrite (Hdot e eq_refl). reflexivity.
  - reflexivity.
Qed.

Lemma listing_without_control_entry_witness :
  (forall e, firstDot [] = Some e -> containingPath e = EmptyString)
  /\ deliverLSdata slashPlatform 0 GOOD [] exampleWaiting
     = recomputeNodeState 0 (update_node 0 (set_lsTask None) exampleWaiting).
Proof.
  assert (H : forall e, firstDot [] = Some e -> containingPath e = EmptyString)
    by (intros e [=]).
  split; [exact H|].
  exact (listing_without_control_entry slashPlatform 0 [] exampleWaiting H).
Defined.

(** ** The constructor of a child node *)

Lemma recomputeModelItems_no_items n w nd :
  heap w !! n = Some nd -> modelItemList nd = [] ->
  myState nd = FOLDER_SPECULATE_IDLE \/ myState nd = FILE_SPECULATE_IDLE
  \/ myState nd = ERROR ->
  recomputeModelItems n w = w.
Proof.
  intros Hn Hl Hs. unfold recomputeModelItems, purgeModelItems. rewrite Hn.
  destruct Hs as [-> | [-> | ->]]; try reflexivity. rewrite Hl. reflexivity.
Qed.

(** X22.  The constructor of a child node, called on a node of the store: the
    new node is the last child of its parent; it is invisible, has no
    children, no task, no buffer and no index into the item model; its
    file data are the given ones with the time stamp of the node; its
    state is the idle speculative state of its file type, [ERROR] for a
    type that is neither [DIR] nor [FILE]. *)
Theorem newChildNode_starts_speculative (P : Platform) (w : World) (n : NodeId)
    (nd : FileTreeNode) (contents : FileMetaData) :
  fresh w -> heap w !! n = Some nd ->
  heap (newChildNode P contents n w) !! nextNode w
  = Some (set_myState (speculativeState (fileType contents))
            (childNode_initial P contents n w))
  /\ (exists pd, heap (newChildNode P contents n w) !! n = Some pd
        /\ childList pd = childList nd ++ [nextNode w])
  /\ nextNode (newChildNode P contents n w) = S (nextNode w).
Proof.
  intros Hf Hn.
  assert (Hne : n <> nextNode w).
  { intros ->. rewrite fresh_nextNode in Hn by exact Hf. discriminate. }
  splits.
  - rewrite newChildNode_unfold.
    set (wA := childAllocated P contents n w).
    assert (HA : heap wA !! nextNode w = Some (childNode_initial P contents n w)).
    { unfold wA. rewrite childAllocated_lookup by exact Hne.
      rewrite decide_True by reflexivity. reflexivity. }
    rewrite (recomputeNodeState_unfold _ wA _ HA).
    rewrite bool_decide_eq_false_2 by (cbn; discriminate).
    assert (Es : computedState (childNode_initial P contents n w)
                 = speculativeState (fileType contents)).
    { unfold computedState, childNode_initial, speculativeState, getFileType. cbn.
      destruct (fileType contents); reflexivity. }
    rewrite Es. set (s := speculativeState (fileType contents)).
    assert (Hs : s = FOLDER_SPECULATE_IDLE \/ s = FILE_SPECULATE_IDLE \/ s = ERROR)
      by (unfold s, speculativeState; destruct (fileType contents); auto).
    unfold changeNodeState. rewrite HA.
    rewrite bool_decide_eq_false_2 by (cbn; discriminate).
    rewrite bool_decide_eq_false_2
      by (cbn; destruct Hs as [-> | [-> | ->]]; discriminate).
    rewrite bool_decide_eq_false_2 by (destruct Hs as [-> | [-> | ->]]; discriminate).
    cbn [myParent childNode_initial heap fileNodesChange].
    set (w1 := update_node (nextNode w) (set_myState s) wA).
    assert (H1 : heap w1 !! nextNode w
                 = Some (set_myState s (childNode_initial P contents n w)))
      by (unfold w1; rewrite lookup_update_node_eq, HA; reflexivity).
    rewrite (recomputeModelItems_no_items _ w1 _ H1) by (cbn; auto).
    rewrite recomputeModelItems_other by exact Hne. exact H1.
  - assert (Hlk := newChildNode_lookup P contents n w n Hne).
    rewrite decide_False in Hlk by exact Hne.
    rewrite decide_True in Hlk by reflexivity. rewrite Hn in Hlk.
    destruct (heap (newChildNode P contents n w) !! n) as [pd|]; [|discriminate].
    exists pd. split; [reflexivity|].
    assert (E : skel pd = skel (set_childList (childList nd ++ [nextNode w]) nd))
      by (cbn in Hlk; congruence).
    clear - E. node_crush.
  - apply newChildNode_nextNode.
Qed.

Lemma newChildNode_starts_speculative_witness :
  fresh exampleTree
  /\ heap exampleTree !! 2 = Some (nodeAt exampleTree 2)
  /\ myState (nodeAt (newChildNode slashPlatform
                        (mkFileMetaData "/r/d/b" "b" "/r/d" FILE 3) 2 exampleTree) 3)
     = FILE_SPECULATE_IDLE.
Proof.
  assert (H0 := exampleTree_fresh).
  assert (H1 : heap exampleTree !! 2 = Some (nodeAt exampleTree 2))
    by (vm_compute; reflexivity).
  destruct (newChildNode_starts_speculative slashPlatform exampleTree 2
              (nodeAt exampleTree 2) (mkFileMetaData "/r/d/b" "b" "/r/d" FILE 3) H0 H1)
    as (Hnew & _).
  splits; [exact H0|exact H1|].
  unfold nodeAt at 1.
  change 3 with (nextNode exampleTree) at 1.
  rewrite Hnew. reflexivity.
Defined.

(** ** What never goes back *)

Lemma visibleStays_keeps w w' : heap_keeps nodeVisible w w' -> visibleStays w w'.
Proof.
  intros H m md Hm Hv. destruct (H m md Hm) as (md' & Hm' & E).
  exists md'. split; [exact Hm'|congruence].
Qed.

Lemma visibleStays_skel w w' : heap_rel skel w w' -> visibleStays w w'.
Proof.
  intros H. apply visibleStays_keeps, heap_keeps_rel.
  apply (heap_rel_weaken skel nodeVisible nodeVisible); [intros x; reflexivity|exact H].
Qed.

Lemma visibleStays_shell w w' : heap_rel shell w w' -> visibleStays w w'.
Proof.
  intros H. apply visibleStays_keeps, heap_keeps_rel.
  apply (heap_rel_weaken shell nodeVisible nodeVisible); [intros x; reflexivity|exact H].
Qed.

Lemma finalStay_refl w : finalStay w w.
Proof.
  split; [|apply deletingStays_refl]. intros m md Hm Hv. exists md. auto.
Qed.

Lemma finalStay_trans w1 w2 w3 : finalStay w1 w2 -> finalStay w2 w3 -> finalStay w1 w3.
Proof.
  intros [V1 D1] [V2 D2]. split; [|exact (deletingStays_trans _ _ _ D1 D2)].
  intros m md Hm Hv. destruct (V1 m md Hm Hv) as (md2 & Hm2 & Hv2).
  apply (V2 m md2 Hm2 Hv2).
Qed.

Lemma finalStay_core w w' : heap_rel core w w' -> finalStay w w'.
Proof.
  intros H. split; [|apply deletingStays_core, H].
  apply visibleStays_skel, heap_rel_core_skel, H.
Qed.

Lemma finalStay_update n g w :
  (forall x, nodeVisible (g x) = nodeVisible x) ->
  (forall x, myState (g x) = myState x) ->
  finalStay w (update_node n g w).
Proof.
  intros Hv Hs. split; [|apply deletingStays_update, Hs].
  apply visibleStays_keeps, heap_keeps_rel, heap_rel_update, Hv.
Qed.

Lemma finalStay_same w w' : heap w' = heap w -> finalStay w w'.
Proof.
  intros H. split; intros m md Hm Hx; exists md; rewrite H; auto.
Qed.

Lemma finalStay_changeNodeState n s w : finalStay w (changeNodeState n s w).
Proof.
  split; [apply visibleStays_skel, changeNodeState_skel
         |apply deletingStays_changeNodeState].
Qed.

Lemma finalStay_recomputeNodeState n w : finalStay w (recomputeNodeState n w).
Proof.
  split; [apply visibleStays_skel, recomputeNodeState_skel
         |apply deletingStays_recomputeNodeState].
Qed.

Lemma finalStay_setNodeVisible n w : finalStay w (setNodeVisible n w).
Proof.
  split; [|apply deletingStays_setNodeVisible].
  destruct (setNodeVisible_spec n w) as (_ & _ & Hv & _). exact Hv.
Qed.

Lemma finalStay_clearAllChildren n w : finalStay w (clearAllChildren n w).
Proof.
  split; [apply visibleStays_shell, clearAllChildren_shell|].
  destruct (heap w !! n) as [nd|] eqn:Hn.
  - apply (clearAllChildren_spec n w nd Hn).
  - unfold clearAllChildren. rewrite Hn. apply deletingStays_refl.
Qed.

Lemma finalStay_purgeUnmatchedChildren n l w :
  finalStay w (purgeUnmatchedChildren n l w).
Proof.
  split; [apply visibleStays_shell, purgeUnmatchedChildren_shell|].
  destruct (heap w !! n) as [nd|] eqn:Hn.
  - apply (purgeUnmatchedChildren_spec n l w nd Hn).
  - unfold purgeUnmatchedChildren. rewrite Hn. apply deletingStays_refl.
Qed.

Lemma finalStay_insertFile P n e w :
  fresh w -> fresh (insertFile P n e w) /\ finalStay w (insertFile P n e w).
Proof.
  intros Hf. destruct (heap w !! n) as [nd|] eqn:Hn.
  - destruct (insertFile_spec P n e w nd Hf Hn) as (_ & _ & Hf' & Hd & Hk & _).
    split; [exact Hf'|]. split; [|exact Hd].
    apply visibleStays_keeps.
    apply (heap_keeps_weaken shell nodeVisible nodeVisible); [intros x; reflexivity|exact Hk].
  - assert (E : insertFile P n e w = w)
      by (unfold insertFile; rewrite Hn; destruct (String.eqb _ _); reflexivity).
    rewrite E. split; [exact Hf|apply finalStay_refl].
Qed.

Lemma finalStay_insertFile_fold P n : forall l w,
  fresh w ->
  fresh (fold_left (fun acc e => insertFile P n e acc) l w)
  /\ finalStay w (fold_left (fun acc e => insertFile P n e acc) l w).
Proof.
  induction l as [|e l IH]; intros w Hf; [split; [exact Hf|apply finalStay_refl]|].
  simpl. destruct (finalStay_insertFile P n e w Hf) as [Hf1 Hk1].
  destruct (IH _ Hf1) as [Hf2 Hk2].
  split; [exact Hf2|exact (finalStay_trans _ _ _ Hk1 Hk2)].
Qed.

Lemma finalStay_setNodeVisible_fold : forall cs w,
  finalStay w (fold_left (fun acc c => setNodeVisible c acc) cs w).
Proof.
  induction cs as [|c cs IH]; intros w; [apply finalStay_refl|].
  simpl. eapply finalStay_trans; [apply finalStay_setNodeVisible|apply IH].
Qed.

Lemma finalStay_updateFileNodeData P n l w :
  fresh w -> finalStay w (updateFileNodeData P n l w).
Proof.
  intros Hf. unfold updateFileNodeData.
  set (w1 := update_node n (set_folderContentsKnown true) w).
  assert (H1 : finalStay w w1) by (apply finalStay_update; reflexivity).
  assert (Hf1 : fresh w1).
  { apply (fresh_rel myParent w w1); [apply heap_rel_update; reflexivity|reflexivity|exact Hf]. }
  eapply finalStay_trans; [exact H1|].
  destruct (Nat.leb (length l) 1).
  - eapply finalStay_trans; [apply finalStay_clearAllChildren|].
    apply finalStay_recomputeNodeState.
  - set (w2 := purgeUnmatchedChildren n l w1).
    assert (Hf2 : fresh w2).
    { apply (fresh_rel shell w1 w2); [apply purgeUnmatchedChildren_shell| |exact Hf1].
      apply statics_nextNode, purgeUnmatchedChildren_statics. }
    destruct (finalStay_insertFile_fold P n l w2 Hf2) as [_ H3].
    eapply finalStay_trans; [apply finalStay_purgeUnmatchedChildren|].
    eapply finalStay_trans; [exact H3|].
    eapply finalStay_trans; [apply finalStay_setNodeVisible_fold|].
    apply finalStay_recomputeNodeState.
Qed.

Lemma finalStay_deliverLSdata P n st l w :
  fresh w -> finalStay w (deliverLSdata P n st l w).
Proof.
  intros Hf. unfold deliverLSdata.
  set (w1 := update_node n (set_lsTask None) w).
  assert (H1 : finalStay w w1) by (apply finalStay_update; reflexivity).
  assert (Hf1 : fresh w1).
  { apply (fresh_rel myParent w w1); [apply heap_rel_update; reflexivity|reflexivity|exact Hf]. }
  eapply finalStay_trans; [exact H1|].
  destruct st.
  - destruct (negb _);
      [apply finalStay_recomputeNodeState|apply finalStay_updateFileNodeData, Hf1].
  - apply finalStay_changeNodeState.
  - apply finalStay_recomputeNodeState.
Qed.

Lemma finalStay_setFileBuffer n b w : finalStay w (setFileBuffer n b w).
Proof.
  unfold setFileBuffer.
  eapply finalStay_trans; [apply (finalStay_update n (set_fileDataBuffer b)); reflexivity|].
  eapply finalStay_trans; [apply finalStay_setNodeVisible|].
  apply finalStay_recomputeNodeState.
Qed.

Lemma finalStay_deliverBuffData n st b w : finalStay w (deliverBuffData n st b w).
Proof.
  unfold deliverBuffData.
  eapply finalStay_trans; [apply (finalStay_update n (set_bufferTask None)); reflexivity|].
  destruct st.
  - destruct b; apply finalStay_setFileBuffer.
  - apply finalStay_changeNodeState.
  - apply finalStay_recomputeNodeState.
Qed.

Lemma finalStay_setLStask n t w : finalStay w (setLStask n t w).
Proof.
  unfold setLStask.
  destruct (heap w !! n) as [nd|]; [|apply finalStay_refl].
  destruct t as [t|]; [|apply finalStay_refl].
  destruct (negb _); [apply finalStay_refl|].
  eapply finalStay_trans; [|apply finalStay_recomputeNodeState].
  eapply finalStay_trans;
    [|apply (finalStay_same
               (update_node n (set_lsTask (Some t))
                  (match lsTask nd with Some old => disconnect old n w | None => w end)));
      reflexivity].
  eapply finalStay_trans; [|apply finalStay_update; reflexivity].
  apply finalStay_same. destruct (lsTask nd); reflexivity.
Qed.

Lemma finalStay_setBuffTask n t w : finalStay w (setBuffTask n t w).
Proof.
  unfold setBuffTask.
  destruct (heap w !! n) as [nd|]; [|apply finalStay_refl].
  destruct t as [t|]; [|apply finalStay_refl].
  destruct (negb _); [apply finalStay_refl|].
  eapply finalStay_trans; [|apply finalStay_recomputeNodeState].
  eapply finalStay_trans;
    [|apply (finalStay_same
               (update_node n (set_bufferTask (Some t))
                  (match bufferTask nd with Some old => disconnect old n w | None => w end)));
      reflexivity].
  eapply finalStay_trans; [|apply finalStay_update; reflexivity].
  apply finalStay_same. destruct (bufferTask nd); reflexivity.
Qed.

Lemma finalStay_deleteFolderContentsData n w :
  finalStay w (deleteFolderContentsData n w).
Proof.
  unfold deleteFolderContentsData.
  eapply finalStay_trans; [|apply finalStay_clearAllChildren].
  apply finalStay_update; reflexivity.
Qed.

Lemma newRootNode_other P name w m :
  m <> nextNode w ->
  core <$> heap (newRootNode P name w) !! m = core <$> heap w !! m.
Proof.
  intros Hm. unfold newRootNode.
  rewrite (recomputeNodeState_other (nextNode w) _ m Hm).
  unfold settimestamps, allocate.
  rewrite !lookup_update_node. simpl.
  rewrite lookup_alter, lookup_insert.
  rewrite !decide_False by congruence.
  rewrite lookup_insert_ne by congruence. reflexivity.
Qed.

Lemma finalStay_newRootNode P name w : fresh w -> finalStay w (newRootNode P name w).
Proof.
  intros Hf.
  assert (H : forall m md, heap w !! m = Some md ->
            exists md', heap (newRootNode P name w) !! m = Some md' /\ core md' = core md).
  { intros m md Hm.
    assert (Hmn : m <> nextNode w).
    { intros ->. rewrite fresh_nextNode in Hm by exact Hf. discriminate. }
    assert (E := newRootNode_other P name w m Hmn). rewrite Hm in E.
    destruct (heap (newRootNode P name w) !! m) as [md'|]; [|discriminate].
    exists md'. split; [reflexivity|]. cbn in E. congruence. }
  split; intros m md Hm Hx; destruct (H m md Hm) as (md' & Hm' & E);
    exists md'; (split; [exact Hm'|]); clear - E Hx; node_crush.
Qed.

Lemma finalStay_runCall P c w : fresh w -> finalStay w (runCall P c w).
Proof.
  intros Hf. destruct c; simpl.
  - apply finalStay_newRootNode, Hf.
  - apply finalStay_setLStask.
  - apply finalStay_setBuffTask.
  - apply finalStay_setFileBuffer.
  - apply finalStay_deleteFolderContentsData.
  - apply finalStay_deliverLSdata, Hf.
  - apply finalStay_deliverBuffData.
  - apply finalStay_setNodeVisible.
  - apply finalStay_changeNodeState.
  - apply finalStay_recomputeNodeState.
  - apply finalStay_core, recomputeModelItems_core.
  - apply finalStay_core, purgeModelItems_core.
  - apply finalStay_core, updateModelItems_core.
  - apply finalStay_updateFileNodeData, Hf.
  - apply finalStay_clearAllChildren.
  - apply finalStay_insertFile, Hf.
  - apply finalStay_purgeUnmatchedChildren.
Qed.

(** X23.  Two things never go back.  Whatever methods are called after a
    program state the methods led to, and on whatever nodes, a node that
    is visible stays visible, and a node in state [DELETING] stays in
    state [DELETING]. *)
Theorem visible_and_DELETING_stay (P : Platform) (hs : list string) (w : World)
    (n : NodeId) (nd : FileTreeNode) (cs : list Call) :
  reachable P hs w -> heap w !! n = Some nd ->
  exists nd', heap (runCalls P cs w) !! n = Some nd'
    /\ (nodeVisible nd = true -> nodeVisible nd' = true)
    /\ (myState nd = DELETING -> myState nd' = DELETING).
Proof.
  revert w nd. induction cs as [|c cs IH]; intros w nd Hr Hn.
  - exists nd. auto.
  - destruct (reachable_Inv P hs w Hr) as (Hf & _).
    destruct (finalStay_runCall P c w Hf) as [Hvis Hdel].
    assert (H1 : exists nd1, heap (runCall P c w) !! n = Some nd1
                   /\ (nodeVisible nd = true -> nodeVisible nd1 = true)
                   /\ (myState nd = DELETING -> myState nd1 = DELETING)).
    { destruct (keeps_runCall P c w Hf n nd Hn) as (nd1 & Hn1 & _).
      exists nd1. splits; [exact Hn1| |].
      - intros Hv. destruct (Hvis n nd Hn Hv) as (x & Hx & Hxv). congruence.
      - intros Hd. destruct (Hdel n nd Hn Hd) as (x & Hx & Hxd). congruence. }
    destruct H1 as (nd1 & Hn1 & Hv1 & Hd1).
    destruct (IH (runCall P c w) nd1 (reachable_call P hs w c Hr) Hn1)
      as (nd' & Hn' & Hv' & Hd').
    exists nd'. splits; [exact Hn'|auto|auto].
Qed.

Lemma reachable_setBuffTask P hs n t w :
  reachable P hs w -> reachable P hs (setBuffTask n t w).
Proof. intros H. exact (reachable_call P hs w (Call_setBuffTask n t) H). Qed.

Lemma reachable_deliverBuffData P hs n st b w :
  reachable P hs w -> reachable P hs (deliverBuffData n st b w).
Proof. intros H. exact (reachable_call P hs w (Call_deliverBuffData n st b) H). Qed.

Lemma exampleDeleted_reachable : reachable slashPlatform exampleHeaders exampleDeleted.
Proof.
  unfold exampleDeleted.
  apply reachable_deliverBuffData, reachable_setBuffTask, exampleTree_reachable.
Qed.

Lemma visible_and_DELETING_stay_witness :
  reachable slashPlatform exampleHeaders exampleDeleted
  /\ heap exampleDeleted !! 1 = Some (nodeAt exampleDeleted 1)
  /\ myState (nodeAt exampleDeleted 1) = DELETING
  /\ exists nd',
       heap (runCalls slashPlatform
               [Call_setLStask 0 (Some 9); Call_deliverLSdata 0 GOOD resizedListing]
               exampleDeleted) !! 1 = Some nd'
       /\ myState nd' = DELETING.
Proof.
  assert (H0 := exampleDeleted_reachable).
  assert (H1 : heap exampleDeleted !! 1 = Some (nodeAt exampleDeleted 1))
    by (vm_compute; reflexivity).
  assert (H2 : myState (nodeAt exampleDeleted 1) = DELETING) by (vm_compute; reflexivity).
  destruct (visible_and_DELETING_stay slashPlatform exampleHeaders exampleDeleted 1
              (nodeAt exampleDeleted 1)
              [Call_setLStask 0 (Some 9); Call_deliverLSdata 0 GOOD resizedListing] H0 H1)
    as (nd' & Hn' & _ & Hd).
  splits; [exact H0|exact H1|exact H2|]. exists nd'. auto.
Defined.

(** ** The states that show no row *)

Lemma changeNodeState_hides (w : World) (n : NodeId) (nd : FileTreeNode) (s : NodeState) :
  heap w !! n = Some nd -> myState nd <> DELETING -> s <> myState nd ->
  s = ERROR \/ s = NON_EXTANT ->
  model_wf (myModel w) -> view_wf (myModel w) nd ->
  (exists nd', heap (changeNodeState n s w) !! n = Some nd'
     /\ myState nd' = s
     /\ modelItemList nd' = []
     /\ decendantPlaceholderItem nd' = None)
  /\ (forall i, In i (modelItemList nd) ->
        isValid i (myModel (changeNodeState n s w)) = false)
  /\ isValid (decendantPlaceholderItem nd) (myModel (changeNodeState n s w)) = false
  /\ deferredDelete (changeNodeState n s w) = deferredDelete w.
Proof.
  intros Hn Hd Hs Hhid Hwf Hv.
  assert (Hnd : s <> DELETING) by (destruct Hhid as [-> | ->]; discriminate).
  unfold changeNodeState. rewrite Hn.
  rewrite bool_decide_eq_false_2 by exact Hd.
  rewrite bool_decide_eq_false_2 by exact Hs.
  rewrite bool_decide_eq_false_2 by exact Hnd.
  set (w2 := update_node n (set_myState s) w).
  assert (Hn2 : heap w2 !! n = Some (set_myState s nd))
    by (unfold w2; rewrite lookup_update_node_eq, Hn; reflexivity).
  assert (E3 : recomputeModelItems n w2 = purgeModelItems n w2).
  { unfold recomputeModelItems. rewrite Hn2. cbn [myState set_myState].
    destruct Hhid as [-> | ->]; reflexivity. }
  rewrite E3.
  destruct (purgeModelItems_removes n w2 _ Hn2 Hwf Hv) as (Grow & Gph & Hn3).
  cbn [modelItemList decendantPlaceholderItem set_myState] in Grow, Gph.
  set (w3 := purgeModelItems n w2) in *.
  set (w4 := match myParent nd with
             | Some p => recomputeModelItems p w3
             | None => w3
             end).
  assert (H34 : modelStep (myModel w3) (myModel w4)
                /\ heap w4 !! n = Some (set_modelItems [] None (set_myState s nd))
                /\ deferredDelete w4 = deferredDelete w3).
  { unfold w4. destruct (myParent nd) as [p|].
    - destruct (decide (p = n)) as [->|Hpn].
      + assert (E : recomputeModelItems n w3 = w3).
        { unfold recomputeModelItems, purgeModelItems. rewrite Hn3.
          cbn [myState set_myState set_modelItems modelItemList].
          destruct Hhid as [-> | ->]; reflexivity. }
        rewrite E. splits; [apply modelStep_refl|exact Hn3|reflexivity].
      + splits.
        * apply recomputeModelItems_modelStep.
        * rewrite recomputeModelItems_other by exact Hpn. exact Hn3.
        * apply recomputeModelItems_deferred.
    - splits; [apply modelStep_refl|exact Hn3|reflexivity]. }
  destruct H34 as (Hstep & Hn4 & Hdef).
  splits.
  - exists (set_modelItems [] None (set_myState s nd)).
    split; [exact Hn4|]. splits; reflexivity.
  - intros i Hi. destruct (Grow i Hi) as (r & Hr & Hg).
    apply (isValid_gone i r); [exact Hr|].
    cbn [myModel fileNodesChange]. apply (gone_step r _ _ Hstep Hg).
  - destruct (decendantPlaceholderItem nd) as [[q c]|] eqn:Hph; [|reflexivity].
    apply (isValid_gone _ q); [reflexivity|].
    cbn [myModel fileNodesChange]. apply (gone_step q _ _ Hstep). apply Gph. reflexivity.
  - cbn [deferredDelete fileNodesChange]. rewrite Hdef.
    unfold w3. rewrite purgeModelItems_deferred. reflexivity.
Qed.

(** X24.  The states [ERROR] and [NON_EXTANT] show no row either: in a
    program state the methods lead to, [changeNodeState] into one of them
    takes the row of the node and its placeholder row out of the item
    model, so that the indices the node held are invalid and the node
    holds none; unlike the change to [DELETING], it does not hand the
    node to [deleteLater]. *)
Theorem ERROR_and_NON_EXTANT_remove_rows (P : Platform) (hs : list string) (w : World)
    (n : NodeId) (nd : FileTreeNode) (s : NodeState) :
  reachable P hs w -> heap w !! n = Some nd ->
  myState nd <> DELETING -> s <> myState nd -> s = ERROR \/ s = NON_EXTANT ->
  (exists nd', heap (changeNodeState n s w) !! n = Some nd'
     /\ myState nd' = s
     /\ modelItemList nd' = []
     /\ decendantPlaceholderItem nd' = None)
  /\ (forall i, In i (modelItemList nd) ->
        isValid i (myModel (changeNodeState n s w)) = false)
  /\ isValid (decendantPlaceholderItem nd) (myModel (changeNodeState n s w)) = false
  /\ deferredDelete (changeNodeState n s w) = deferredDelete w.
Proof.
  intros Hr Hn Hd Hs Hhid. destruct (reachable_ViewInv P hs w Hr) as [[_ Hm] Hv].
  apply (changeNodeState_hides w n nd s Hn Hd Hs Hhid Hm (Hv n nd Hn)).
Qed.

Lemma ERROR_and_NON_EXTANT_remove_rows_witness :
  reachable slashPlatform exampleHeaders exampleTree
  /\ heap exampleTree !! 2 = Some (nodeAt exampleTree 2)
  /\ isValid (Some (6, 0)) (myModel exampleTree) = true
  /\ isValid (Some (6, 0)) (myModel (changeNodeState 2 NON_EXTANT exampleTree)) = false
  /\ deferredDelete (changeNodeState 2 NON_EXTANT exampleTree) = deferredDelete exampleTree.
Proof.
  assert (H0 := exampleTree_reachable).
  assert (H1 : heap exampleTree !! 2 = Some (nodeAt exampleTree 2))
    by (vm_compute; reflexivity).
  destruct (ERROR_and_NON_EXTANT_remove_rows slashPlatform exampleHeaders exampleTree 2
              (nodeAt exampleTree 2) NON_EXTANT H0 H1
              ltac:(vm_compute; discriminate) ltac:(vm_compute; discriminate)
              ltac:(right; reflexivity)) as (_ & Hrows & _ & Hdef).
  splits; [exact H0|exact H1|vm_compute; reflexivity| |exact Hdef].
  apply Hrows. vm_compute. left. reflexivity.
Defined.

(** ** Pending tasks and their connections *)

Lemma wired_from w w' : tasksFrom w w' -> wired w -> wired w'.
Proof.
  intros [Hc Hn] Hw n nd' Hn'. destruct (Hn n nd' Hn') as [Hls Hbuf]. split.
  - intros t Ht. destruct (Hls t Ht) as (nd & Hnd & Ht0 & Efd).
    destruct (Hw n nd Hnd) as [H1 _]. destruct (H1 t Ht0) as [Hty Hin].
    split; [rewrite <- Efd; exact Hty|apply Hc, Hin].
  - intros t Ht. destruct (Hbuf t Ht) as (nd & Hnd & Ht0 & Efd).
    destruct (Hw n nd Hnd) as [_ H2]. destruct (H2 t Ht0) as [Hty Hin].
    split; [rewrite <- Efd; exact Hty|apply Hc, Hin].
Qed.

Lemma tasksFrom_refl w : tasksFrom w w.
Proof.
  split; [auto|]. intros m md Hm. split; intros t Ht; exists md; auto.
Qed.

Lemma tasksFrom_trans w1 w2 w3 : tasksFrom w1 w2 -> tasksFrom w2 w3 -> tasksFrom w1 w3.
Proof.
  intros [C1 N1] [C2 N2]. split; [auto|].
  intros m md3 Hm3. destruct (N2 m md3 Hm3) as [L2 B2]. split.
  - intros t Ht. destruct (L2 t Ht) as (md2 & Hm2 & Ht2 & E2).
    destruct (N1 m md2 Hm2) as [L1 _]. destruct (L1 t Ht2) as (md1 & Hm1 & Ht1 & E1).
    exists md1. splits; [exact Hm1|exact Ht1|congruence].
  - intros t Ht. destruct (B2 t Ht) as (md2 & Hm2 & Ht2 & E2).
    destruct (N1 m md2 Hm2) as [_ B1]. destruct (B1 t Ht2) as (md1 & Hm1 & Ht1 & E1).
    exists md1. splits; [exact Hm1|exact Ht1|congruence].
Qed.

Lemma tasksFrom_rel w w' :
  heap_rel pending w w' -> connections w' = connections w -> tasksFrom w w'.
Proof.
  intros Hrel Hc. split; [rewrite Hc; auto|].
  intros m md' Hm'. destruct (heap_rel_Some_inv _ _ _ _ _ Hrel Hm') as (md & Hm & E).
  injection E as E1 E2 E3.
  split; intros t Ht; exists md; splits; congruence.
Qed.

Lemma statics_connections w w' : statics w' = statics w -> connections w' = connections w.
Proof. unfold statics. intros [= _ H _]. exact H. Qed.

Lemma tasksFrom_core w w' :
  heap_rel core w w' -> statics w' = statics w -> tasksFrom w w'.
Proof.
  intros H Hs. apply tasksFrom_rel; [|apply statics_connections, Hs].
  apply (heap_rel_weaken core pending pending); [intros x; reflexivity|exact H].
Qed.

Lemma tasksFrom_skel w w' :
  heap_rel skel w w' -> statics w' = statics w -> tasksFrom w w'.
Proof.
  intros H Hs. apply tasksFrom_rel; [|apply statics_connections, Hs].
  apply (heap_rel_weaken skel pending pending); [intros x; reflexivity|exact H].
Qed.

Lemma tasksFrom_bones w w' :
  heap_rel bones w w' -> statics w' = statics w -> tasksFrom w w'.
Proof.
  intros H Hs. apply tasksFrom_rel; [|apply statics_connections, Hs].
  apply (heap_rel_weaken bones pending pending); [intros x; reflexivity|exact H].
Qed.

Lemma tasksFrom_shell w w' :
  heap_rel shell w w' -> statics w' = statics w -> tasksFrom w w'.
Proof.
  intros H Hs. apply tasksFrom_rel; [|apply statics_connections, Hs].
  apply (heap_rel_weaken shell pending pending); [intros x; reflexivity|exact H].
Qed.

(** A change of node [n] that sets no task and leaves the file data. *)
Lemma tasksFrom_update n g w :
  (forall x, fileData (g x) = fileData x) ->
  (forall x, lsTask (g x) = lsTask x \/ lsTask (g x) = None) ->
  (forall x, bufferTask (g x) = bufferTask x \/ bufferTask (g x) = None) ->
  tasksFrom w (update_node n g w).
Proof.
  intros Hfd Hls Hbuf. split; [auto|].
  intros m md' Hm'. rewrite lookup_update_node in Hm'.
  destruct (decide (n = m)) as [<-|Hne].
  - destruct (heap w !! n) as [nd|] eqn:Hn; [|discriminate].
    injection Hm' as <-. split; intros t Ht; exists nd.
    + destruct (Hls nd) as [E|E]; rewrite E in Ht; [|discriminate]. auto.
    + destruct (Hbuf nd) as [E|E]; rewrite E in Ht; [|discriminate]. auto.
  - split; intros t Ht; exists md'; auto.
Qed.

Lemma tasksFrom_changeNodeState n s w : tasksFrom w (changeNodeState n s w).
Proof. apply tasksFrom_skel; [apply changeNodeState_skel|apply changeNodeState_statics]. Qed.

Lemma tasksFrom_recomputeNodeState n w : tasksFrom w (recomputeNodeState n w).
Proof.
  apply tasksFrom_skel; [apply recomputeNodeState_skel|apply recomputeNodeState_statics].
Qed.

Lemma tasksFrom_setNodeVisible n w : tasksFrom w (setNodeVisible n w).
Proof. apply tasksFrom_bones; [apply setNodeVisible_bones|apply setNodeVisible_statics]. Qed.

Lemma tasksFrom_clearAllChildren n w : tasksFrom w (clearAllChildren n w).
Proof.
  apply tasksFrom_shell; [apply clearAllChildren_shell|apply clearAllChildren_statics].
Qed.

Lemma tasksFrom_purgeUnmatchedChildren n l w :
  tasksFrom w (purgeUnmatchedChildren n l w).
Proof.
  apply tasksFrom_shell;
    [apply purgeUnmatchedChildren_shell|apply purgeUnmatchedChildren_statics].
Qed.

Lemma tasksFrom_insertFile P n e w :
  fresh w -> fresh (insertFile P n e w) /\ tasksFrom w (insertFile P n e w).
Proof.
  intros Hf. destruct (heap w !! n) as [nd|] eqn:Hn.
  - destruct (insertFile_spec P n e w nd Hf Hn)
      as (_ & _ & Hf' & _ & _ & _ & _ & _ & Hc & _).
    split; [exact Hf'|].
    rewrite (insertFile_cases P n e w nd Hn) in *.
    destruct (covered e w (childList nd)); [apply tasksFrom_refl|].
    assert (Hne : n <> nextNode w).
    { intros ->. rewrite fresh_nextNode in Hn by exact Hf. discriminate. }
    split; [rewrite Hc; auto|].
    intros m md' Hm'.
    assert (Hlk := newChildNode_lookup P e n w m Hne). rewrite Hm' in Hlk.
    assert (Hcases : (lsTask md' = None /\ bufferTask md' = None)
                     \/ exists md, heap w !! m = Some md /\ pending md' = pending md).
    { destruct (decide (m = nextNode w)) as [->|Hmn].
      - left. assert (E : skel md' = skel (childNode_initial P e n w))
          by (cbn in Hlk; congruence).
        clear - E. unfold childNode_initial in E. split; node_crush.
      - right. destruct (heap w !! m) as [md|] eqn:Hm;
          [|destruct (decide (m = n)); discriminate].
        exists md. split; [reflexivity|].
        destruct (decide (m = n)); cbn in Hlk.
        + assert (E : skel md' = skel (set_childList (childList md ++ [nextNode w]) md))
            by congruence.
          unfold pending. f_equal; [f_equal|]; clear - E; node_crush.
        + assert (E : skel md' = skel md) by congruence.
          unfold pending. f_equal; [f_equal|]; clear - E; node_crush. }
    destruct Hcases as [[E1 E2]|(md & Hm & E)].
    + split; intros t Ht; congruence.
    + injection E as E1 E2 E3. split; intros t Ht; exists md; splits; congruence.
  - assert (E : insertFile P n e w = w)
      by (unfold insertFile; rewrite Hn; destruct (String.eqb _ _); reflexivity).
    rewrite E. split; [exact Hf|apply tasksFrom_refl].
Qed.

Lemma tasksFrom_insertFile_fold P n : forall l w,
  fresh w ->
  fresh (fold_left (fun acc e => insertFile P n e acc) l w)
  /\ tasksFrom w (fold_left (fun acc e => insertFile P n e acc) l w).
Proof.
  induction l as [|e l IH]; intros w Hf; [split; [exact Hf|apply tasksFrom_refl]|].
  simpl. destruct (tasksFrom_insertFile P n e w Hf) as [Hf1 Hk1].
  destruct (IH _ Hf1) as [Hf2 Hk2].
  split; [exact Hf2|exact (tasksFrom_trans _ _ _ Hk1 Hk2)].
Qed.

Lemma tasksFrom_setNodeVisible_fold : forall cs w,
  tasksFrom w (fold_left (fun acc c => setNodeVisible c acc) cs w).
Proof.
  induction cs as [|c cs IH]; intros w; [apply tasksFrom_refl|].
  simpl. eapply tasksFrom_trans; [apply tasksFrom_setNodeVisible|apply IH].
Qed.

Lemma tasksFrom_updateFileNodeData P n l w :
  fresh w -> tasksFrom w (updateFileNodeData P n l w).
Proof.
  intros Hf. unfold updateFileNodeData.
  set (w1 := update_node n (set_folderContentsKnown true) w).
  assert (H1 : tasksFrom w w1) by (apply tasksFrom_update; intros x; auto).
  assert (Hf1 : fresh w1).
  { apply (fresh_rel myParent w w1); [apply heap_rel_update; reflexivity|reflexivity|exact Hf]. }
  eapply tasksFrom_trans; [exact H1|].
  destruct (Nat.leb (length l) 1).
  - eapply tasksFrom_trans; [apply tasksFrom_clearAllChildren|].
    apply tasksFrom_recomputeNodeState.
  - set (w2 := purgeUnmatchedChildren n l w1).
    assert (Hf2 : fresh w2).
    { apply (fresh_rel shell w1 w2); [apply purgeUnmatchedChildren_shell| |exact Hf1].
      apply statics_nextNode, purgeUnmatchedChildren_statics. }
    destruct (tasksFrom_insertFile_fold P n l w2 Hf2) as [_ H3].
    eapply tasksFrom_trans; [apply tasksFrom_purgeUnmatchedChildren|].
    eapply tasksFrom_trans; [exact H3|].
    eapply tasksFrom_trans; [apply tasksFrom_setNodeVisible_fold|].
    apply tasksFrom_recomputeNodeState.
Qed.

Lemma tasksFrom_deliverLSdata P n st l w :
  fresh w -> tasksFrom w (deliverLSdata P n st l w).
Proof.
  intros Hf. unfold deliverLSdata.
  set (w1 := update_node n (set_lsTask None) w).
  assert (H1 : tasksFrom w w1) by (apply tasksFrom_update; intros x; auto).
  assert (Hf1 : fresh w1).
  { apply (fresh_rel myParent w w1); [apply heap_rel_update; reflexivity|reflexivity|exact Hf]. }
  eapply tasksFrom_trans; [exact H1|].
  destruct st.
  - destruct (negb _);
      [apply tasksFrom_recomputeNodeState|apply tasksFrom_updateFileNodeData, Hf1].
  - apply tasksFrom_changeNodeState.
  - apply tasksFrom_recomputeNodeState.
Qed.

Lemma tasksFrom_setFileBuffer n b w : tasksFrom w (setFileBuffer n b w).
Proof.
  unfold setFileBuffer.
  eapply tasksFrom_trans;
    [apply (tasksFrom_update n (set_fileDataBuffer b)); intros x; auto|].
  eapply tasksFrom_trans; [apply tasksFrom_setNodeVisible|].
  apply tasksFrom_recomputeNodeState.
Qed.

Lemma tasksFrom_deliverBuffData n st b w : tasksFrom w (deliverBuffData n st b w).
Proof.
  unfold deliverBuffData.
  eapply tasksFrom_trans;
    [apply (tasksFrom_update n (set_bufferTask None)); intros x; auto|].
  destruct st.
  - destruct b; apply tasksFrom_setFileBuffer.
  - apply tasksFrom_changeNodeState.
  - apply tasksFrom_recomputeNodeState.
Qed.

Lemma tasksFrom_deleteFolderContentsData n w :
  tasksFrom w (deleteFolderContentsData n w).
Proof.
  unfold deleteFolderContentsData.
  eapply tasksFrom_trans; [|apply tasksFrom_clearAllChildren].
  apply tasksFrom_update; intros x; auto.
Qed.

Lemma tasksFrom_newRootNode P name w : tasksFrom w (newRootNode P name w).
Proof.
  split.
  - assert (E : connections (newRootNode P name w) = connections w).
    { unfold newRootNode.
      rewrite (statics_connections _ _ (recomputeNodeState_statics _ _)). reflexivity. }
    rewrite E. auto.
  - intros m md' Hm'.
    assert (Hlk := newRootNode_lookup P name w m). rewrite Hm' in Hlk.
    destruct (decide (m = nextNode w)) as [->|Hmn].
    + assert (E : skel md' = skel (rootNode_initial P name w)) by (cbn in Hlk; congruence).
      assert (E1 : lsTask md' = None) by (clear - E; unfold rootNode_initial in E; node_crush).
      assert (E2 : bufferTask md' = None)
        by (clear - E; unfold rootNode_initial in E; node_crush).
      split; intros t Ht; congruence.
    + destruct (heap w !! m) as [md|] eqn:Hm; [|discriminate].
      assert (E : skel md' = skel md) by (cbn in Hlk; congruence).
      assert (E1 : lsTask md' = lsTask md) by (clear - E; node_crush).
      assert (E2 : bufferTask md' = bufferTask md) by (clear - E; node_crush).
      assert (E3 : fileData md' = fileData md) by (clear - E; node_crush).
      split; intros t Ht; exists md; splits; congruence.
Qed.

Lemma kept_connection (old n : NodeId) (c : Connection) (cs : list Connection) :
  snd (fst c) <> n -> In c cs ->
  In c (List.filter (fun c : Connection =>
                       negb (Nat.eqb (fst (fst c)) old && Nat.eqb (snd (fst c)) n)) cs).
Proof.
  intros Hne Hin. apply filter_In. split; [exact Hin|].
  apply negb_true_iff, andb_false_iff. right. apply Nat.eqb_neq. exact Hne.
Qed.

Lemma wired_setLStask n t w : wired w -> wired (setLStask n t w).
Proof.
  intros Hw. unfold setLStask.
  destruct (heap w !! n) as [nd|] eqn:Hn; [|exact Hw].
  destruct t as [t|]; [|exact Hw].
  destruct (negb (bool_decide (getFileType (fileData nd) = DIR))) eqn:Hty; [exact Hw|].
  apply negb_false_iff, bool_decide_eq_true in Hty.
  apply (wired_from _ _ (tasksFrom_recomputeNodeState n _)).
  set (w1 := match lsTask nd with Some old => disconnect old n w | None => w end).
  assert (Hh1 : heap w1 = heap w) by (unfold w1; destruct (lsTask nd); reflexivity).
  assert (Hc1 : forall c, snd (fst c) <> n -> In c (connections w) -> In c (connections w1)).
  { intros c Hc Hin. unfold w1. destruct (lsTask nd) as [old|]; [|exact Hin].
    apply kept_connection; assumption. }
  intros m md3 Hm3.
  cbn [heap connect set_connections] in Hm3. rewrite lookup_update_node, Hh1 in Hm3.
  cbn [connections connect set_connections update_node set_heap].
  destruct (decide (n = m)) as [<-|Hne].
  - rewrite Hn in Hm3. injection Hm3 as <-. cbn [lsTask bufferTask fileData set_lsTask].
    split.
    + intros t' [= <-]. split; [exact Hty|]. apply in_or_app. right. left. reflexivity.
    + intros t' Ht'. destruct (Hw n nd Hn) as [_ Hb]. destruct (Hb t' Ht') as [Hfile _].
      congruence.
  - destruct (Hw m md3 Hm3) as [Hl Hb]. split.
    + intros t' Ht'. destruct (Hl t' Ht') as [H1 H2]. split; [exact H1|].
      apply in_or_app. left. apply Hc1; [simpl; congruence|exact H2].
    + intros t' Ht'. destruct (Hb t' Ht') as [H1 H2]. split; [exact H1|].
      apply in_or_app. left. apply Hc1; [simpl; congruence|exact H2].
Qed.

Lemma wired_setBuffTask n t w : wired w -> wired (setBuffTask n t w).
Proof.
  intros Hw. unfold setBuffTask.
  destruct (heap w !! n) as [nd|] eqn:Hn; [|exact Hw].
  destruct t as [t|]; [|exact Hw].
  destruct (negb (bool_decide (getFileType (fileData nd) = FILE))) eqn:Hty; [exact Hw|].
  apply negb_false_iff, bool_decide_eq_true in Hty.
  apply (wired_from _ _ (tasksFrom_recomputeNodeState n _)).
  set (w1 := match bufferTask nd with Some old => disconnect old n w | None => w end).
  assert (Hh1 : heap w1 = heap w) by (unfold w1; destruct (bufferTask nd); reflexivity).
  assert (Hc1 : forall c, snd (fst c) <> n -> In c (connections w) -> In c (connections w1)).
  { intros c Hc Hin. unfold w1. destruct (bufferTask nd) as [old|]; [|exact Hin].
    apply kept_connection; assumption. }
  intros m md3 Hm3.
  cbn [heap connect set_connections] in Hm3. rewrite lookup_update_node, Hh1 in Hm3.
  cbn [connections connect set_connections update_node set_heap].
  destruct (decide (n = m)) as [<-|Hne].
  - rewrite Hn in Hm3. injection Hm3 as <-.
    cbn [lsTask bufferTask fileData set_bufferTask].
    split.
    + intros t' Ht'. destruct (Hw n nd Hn) as [Hl _]. destruct (Hl t' Ht') as [Hdir _].
      congruence.
    + intros t' [= <-]. split; [exact Hty|]. apply in_or_app. right. left. reflexivity.
  - destruct (Hw m md3 Hm3) as [Hl Hb]. split.
    + intros t' Ht'. destruct (Hl t' Ht') as [H1 H2]. split; [exact H1|].
      apply in_or_app. left. apply Hc1; [simpl; congruence|exact H2].
    + intros t' Ht'. destruct (Hb t' Ht') as [H1 H2]. split; [exact H1|].
      apply in_or_app. left. apply Hc1; [simpl; congruence|exact H2].
Qed.

Lemma wired_runCall P c w : fresh w -> wired w -> wired (runCall P c w).
Proof.
  intros Hf Hw. destruct c; simpl.
  - apply (wired_from w); [apply tasksFrom_newRootNode|exact Hw].
  - apply wired_setLStask, Hw.
  - apply wired_setBuffTask, Hw.
  - apply (wired_from w); [apply tasksFrom_setFileBuffer|exact Hw].
  - apply (wired_from w); [apply tasksFrom_deleteFolderContentsData|exact Hw].
  - apply (wired_from w); [apply tasksFrom_deliverLSdata, Hf|exact Hw].
  - apply (wired_from w); [apply tasksFrom_deliverBuffData|exact Hw].
  - apply (wired_from w); [apply tasksFrom_setNodeVisible|exact Hw].
  - apply (wired_from w); [apply tasksFrom_changeNodeState|exact Hw].
  - apply (wired_from w); [apply tasksFrom_recomputeNodeState|exact Hw].
  - apply (wired_from w); [|exact Hw].
    apply tasksFrom_core; [apply recomputeModelItems_core|apply recomputeModelItems_statics].
  - apply (wired_from w); [|exact Hw].
    apply tasksFrom_core; [apply purgeModelItems_core|apply purgeModelItems_statics].
  - apply (wired_from w); [|exact Hw].
    apply tasksFrom_core; [apply updateModelItems_core|apply updateModelItems_statics].
  - apply (wired_from w); [apply tasksFrom_updateFileNodeData, Hf|exact Hw].
  - apply (wired_from w); [apply tasksFrom_clearAllChildren|exact Hw].
  - apply (wired_from w); [apply tasksFrom_insertFile, Hf|exact Hw].
  - apply (wired_from w); [apply tasksFrom_purgeUnmatchedChildren|exact Hw].
Qed.

Lemma reachable_wired P hs w : reachable P hs w -> wired w.
Proof.
  induction 1 as [|w c Hr IH].
  - intros n nd Hn. unfold emptyWorld in Hn. simpl in Hn.
    rewrite lookup_empty in Hn. discriminate.
  - apply wired_runCall; [|exact IH]. apply (reachable_Inv P hs w Hr).
Qed.

(** X25.  In every program state the methods lead to, a pending task can
    deliver its reply: a node with an ls task is a [DIR] and the task is
    connected to the slot [deliverLSdata] of the node; a node with a
    buffer task is a [FILE] and the task is connected to its slot
    [deliverBuffData]; so no node waits for both. *)
Theorem pending_tasks_are_connected (P : Platform) (hs : list string) (w : World)
    (n : NodeId) (nd : FileTreeNode) :
  reachable P hs w -> heap w !! n = Some nd ->
  (forall t, lsTask nd = Some t ->
     getFileType (fileData nd) = DIR
     /\ In (t, n, SLOT_deliverLSdata) (connections w))
  /\ (forall t, bufferTask nd = Some t ->
        getFileType (fileData nd) = FILE
        /\ In (t, n, SLOT_deliverBuffData) (connections w))
  /\ (lsTask nd = None \/ bufferTask nd = None).
Proof.
  intros Hr Hn. destruct (reachable_wired P hs w Hr n nd Hn) as [Hl Hb].
  splits; [exact Hl|exact Hb|].
  destruct (lsTask nd) as [t|]; [|left; reflexivity].
  destruct (bufferTask nd) as [t'|]; [|right; reflexivity].
  destruct (Hl t eq_refl) as [H1 _]. destruct (Hb t' eq_refl) as [H2 _]. congruence.
Qed.

Lemma pending_tasks_are_connected_witness :
  reachable slashPlatform exampleHeaders exampleReloading
  /\ heap exampleReloading !! 0 = Some (nodeAt exampleReloading 0)
  /\ lsTask (nodeAt exampleReloading 0) = Some 9
  /\ In (9, 0, SLOT_deliverLSdata) (connections exampleReloading).
Proof.
  assert (H0 : reachable slashPlatform exampleHeaders exampleReloading)
    by (unfold exampleReloading; apply reachable_setLStask, exampleTree_reachable).
  assert (H1 : heap exampleReloading !! 0 = Some (nodeAt exampleReloading 0))
    by (vm_compute; reflexivity).
  assert (H2 : lsTask (nodeAt exampleReloading 0) = Some 9) by (vm_compute; reflexivity).
  destruct (pending_tasks_are_connected slashPlatform exampleHeaders exampleReloading 0
              (nodeAt exampleReloading 0) H0 H1) as (Hl & _).
  splits; [exact H0|exact H1|exact H2|exact (proj2 (Hl 9 H2))].
Defined.

